(** * A shallow embedding of the chess-util move generation core

    The development follows [chess_lib/src/bitboard.c] and
    [chess_lib/src/move_gen.c].  Machine integers are modelled as [Z] with
    the wrap-around written out, the two arrays of a [board] as lists that
    are read and written by index, and C calls that can trip an [assert]
    (the library is built with assertions unless [NDEBUG] is defined) or
    read outside an object as computations in the error monad [res]. *)

From Stdlib Require Import ZArith Lia List String Ascii Bool.
From stdpp Require Import base list.
Import ListNotations.
Local Open Scope Z_scope.

(** ** The error monad *)

Inductive res (A : Type) : Type :=
| Ret (a : A)
| Abort
| OutOfFuel.
Arguments Ret {A} a.
Arguments Abort {A}.
Arguments OutOfFuel {A}.

Definition bind {A B : Type} (m : res A) (k : A -> res B) : res B :=
  match m with
  | Ret a => k a
  | Abort => Abort
  | OutOfFuel => OutOfFuel
  end.

Notation "'let*' x ':=' m 'in' k" := (bind m (fun x => k))
  (at level 10, x name, m at level 100, k at level 200).
Notation "'let*' ' pat ':=' m 'in' k" :=
  (bind m (fun x => match x with pat => k end))
  (at level 10, pat pattern, m at level 100, k at level 200).

(** [assert(c)] of <assert.h>. *)
Definition assert (c : bool) : res unit := if c then Ret tt else Abort.

(** C truth value of an [int]. *)
Definition truthy (v : Z) : bool := negb (v =? 0).
(** C's [!v]. *)
Definition c_not (v : Z) : Z := if v =? 0 then 1 else 0.

(** Array read and write; an index outside the array is undefined in C. *)
Definition rd (a : list Z) (i : Z) : res Z :=
  if i <? 0 then Abort
  else match a !! Z.to_nat i with
       | Some v => Ret v
       | None => Abort
       end.

Definition wr (a : list Z) (i : Z) (v : Z) : res (list Z) :=
  if (0 <=? i) && (i <? Z.of_nat (length a))
  then Ret (<[Z.to_nat i := v]> a)
  else Abort.

(** ** Bitboards (bitboard.c) *)

Definition U64_MAX : Z := 0xffffffffffffffff.

Definition popcount_pos : positive -> Z :=
  fix go (p : positive) : Z :=
    match p with
    | xH => 1
    | xO q => go q
    | xI q => 1 + go q
    end.

Definition bitboard_popcount (board : Z) : Z :=
  match board with
  | Zpos p => popcount_pos p
  | _ => 0
  end.

Definition ctz_pos : positive -> Z :=
  fix go (p : positive) : Z :=
    match p with
    | xO q => 1 + go q
    | _ => 0
    end.

(** [__builtin_ctzll] is undefined on zero. *)
Definition bitboard_scan_lsb (board : Z) : res Z :=
  match board with
  | Zpos p => Ret (ctz_pos p)
  | _ => Abort
  end.

Definition bitboard_check_square (board square : Z) : res Z :=
  let* _ := assert (square <? 64) in
  Ret (Z.land (Z.shiftr board square) 1).

Definition bitboard_set_square (board square : Z) : res Z :=
  let* _ := assert (square <? 64) in
  Ret (Z.lor board (Z.shiftl 1 square)).

Definition bitboard_clear_square (board square : Z) : res Z :=
  let* _ := assert (square <? 64) in
  Ret (Z.land board (Z.lnot (Z.shiftl 1 square))).

Definition BOARD_POS_INVALID : Z := 255.

Definition board_pos_from_xy (x y : Z) : Z :=
  if (x <? 0) || (y <? 0) || (x >=? 8) || (y >=? 8)
  then BOARD_POS_INVALID
  else x + Z.shiftl y 3.

Definition board_pos_to_x (pos : Z) : Z := Z.land pos 7.
Definition board_pos_to_y (pos : Z) : Z := Z.land (Z.shiftr pos 3) 7.

Definition board_pos_to_xy (pos : Z) : res (Z * Z) :=
  let* _ := assert (pos <? 64) in
  Ret (Z.land pos 7, Z.land (Z.shiftr pos 3) 7).

(** ** Boards *)

Definition WHITE : Z := 0.
Definition BLACK : Z := 1.

Definition KING : Z := 0.
Definition PAWN : Z := 1.
Definition KNIGHT : Z := 2.
Definition ROOK : Z := 3.
Definition BISHOP : Z := 4.
Definition QUEEN : Z := 5.

Definition BOARD_FLAGS_EP_SQUARE : Z := 63.
Definition BOARD_FLAGS_EP_PRESENT : Z := 64.
Definition BOARD_FLAGS_TURN : Z := 128.
Definition BOARD_FLAGS_W_CASTLE_KING : Z := 256.
Definition BOARD_FLAGS_W_CASTLE_QUEEN : Z := 512.
Definition BOARD_FLAGS_B_CASTLE_KING : Z := 1024.
Definition BOARD_FLAGS_B_CASTLE_QUEEN : Z := 2048.
Definition BOARD_FLAGS_TURN_NUM : Z := 0xffff0000.
Definition BOARD_FLAGS_TURN_NUM_SHIFT : Z := 16.
Definition BOARD_FLAGS_LOW : Z := 0x0000ffff.

(** [struct __chess_util_board] as chess-util.h declares it: [flags] is a
    [uint32_t]. *)
Record board : Type := mkBoard {
  players : list Z;
  pieces : list Z;
  flags : Z
}.

Definition set_players (b : board) (v : list Z) : board :=
  mkBoard v (pieces b) (flags b).
Definition set_pieces (b : board) (v : list Z) : board :=
  mkBoard (players b) v (flags b).
Definition set_flags (b : board) (v : Z) : board :=
  mkBoard (players b) (pieces b) v.

Definition board_get_full_turn_number (b : board) : Z :=
  Z.shiftr (Z.land (flags b) BOARD_FLAGS_TURN_NUM) BOARD_FLAGS_TURN_NUM_SHIFT.

Definition board_player_to_move (b : board) : Z :=
  if truthy (Z.land (flags b) BOARD_FLAGS_TURN) then 1 else 0.

Definition board_get_en_passant_target (b : board) : Z :=
  if negb (truthy (Z.land (flags b) BOARD_FLAGS_EP_PRESENT))
  then BOARD_POS_INVALID
  else Z.land (flags b) BOARD_FLAGS_EP_SQUARE.

Definition board_can_castle (b : board) (player side : Z) : res Z :=
  let* _ := assert ((player =? WHITE) || (player =? BLACK)) in
  let* _ := assert ((side =? KING) || (side =? QUEEN)) in
  if (player =? WHITE) && (side =? KING) then
    Ret (if truthy (Z.land (flags b) BOARD_FLAGS_W_CASTLE_KING) then 1 else 0)
  else if (player =? WHITE) && (side =? QUEEN) then
    Ret (if truthy (Z.land (flags b) BOARD_FLAGS_W_CASTLE_QUEEN) then 1 else 0)
  else if (player =? BLACK) && (side =? KING) then
    Ret (if truthy (Z.land (flags b) BOARD_FLAGS_B_CASTLE_KING) then 1 else 0)
  else if (player =? BLACK) && (side =? QUEEN) then
    Ret (if truthy (Z.land (flags b) BOARD_FLAGS_B_CASTLE_QUEEN) then 1 else 0)
  else Abort.

(** The loop [for (p = 0; p < n; p++) if (check(arr[p], square)) return p;]
    shared by [board_piece_on_square] (n = 6) and [board_player_on_square]
    (n = 2); [-1] when no entry has the bit. *)
Fixpoint first_with_square (arr : list Z) (square : Z) (p : Z) : res Z :=
  match arr with
  | [] => Ret (-1)
  | bb :: rest =>
      let* c := bitboard_check_square bb square in
      if truthy c then Ret p else first_with_square rest square (p + 1)
  end.

Definition board_piece_on_square (b : board) (square : Z) : res Z :=
  let* _ := assert (square <? 64) in
  first_with_square (pieces b) square 0.

Definition board_player_on_square (b : board) (square : Z) : res Z :=
  let* _ := assert (square <? 64) in
  first_with_square (players b) square 0.

(** The pairwise disjointness loop of [board_invariants]. *)
Definition pieces_disjoint (ps : list Z) : bool :=
  forallb (fun i =>
    forallb (fun j =>
      (i =? j)%nat || (Z.land (nth i ps 0) (nth j ps 0) =? 0))
      (seq 0 6))
    (seq 0 6).

(** [board_invariants]: [true] when every assertion of the function holds.
    The last assertion tests the en-passant square against
    [players[0] & players[1]], as the source does. *)
Definition board_invariants (b : board) : bool :=
  let p0 := nth 0 (players b) 0 in
  let p1 := nth 1 (players b) 0 in
  (Z.land p0 p1 =? 0)
  && pieces_disjoint (pieces b)
  && (bitboard_popcount (Z.land p0 (nth 0 (pieces b) 0)) =? 1)
  && (bitboard_popcount (Z.land p1 (nth 0 (pieces b) 0)) =? 1)
  && (if truthy (Z.land (flags b) BOARD_FLAGS_EP_PRESENT) then
        let player_to_move := board_player_to_move b in
        let ep_target := Z.land (flags b) BOARD_FLAGS_EP_SQUARE in
        let y := Z.land (Z.shiftr ep_target 3) 7 in
        (((player_to_move =? WHITE) && (y =? 5))
         || ((player_to_move =? BLACK) && (y =? 2)))
        && negb (truthy (Z.land (Z.shiftr (Z.land p0 p1) ep_target) 1))
      else true).

(** ** Move lookup tables (move_gen.c) *)

(** Set [square] in [moves] unless it is [BOARD_POS_INVALID]. *)
Definition set_if_valid (moves square : Z) : res Z :=
  if square =? BOARD_POS_INVALID then Ret moves
  else bitboard_set_square moves square.

(** Body of the [pos] loop of [move_gen_init_knights]. *)
Definition move_gen_init_knights_entry (pos : Z) : res Z :=
  let* '(x, y) := board_pos_to_xy pos in
  let step (moves : res Z) (ij : Z * Z) : res Z :=
    let '(i, j) := ij in
    let* moves := moves in
    let s1 := board_pos_from_xy (x + i * 1) (y + j * 2) in
    let s2 := board_pos_from_xy (x + i * 2) (y + j * 1) in
    let* moves := set_if_valid moves s1 in
    set_if_valid moves s2 in
  fold_left step [(-1, -1); (-1, 1); (1, -1); (1, 1)] (Ret 0).

(** Body of the [pos] loop of [move_gen_init_kings]. *)
Definition move_gen_init_kings_entry (pos : Z) : res Z :=
  let* '(x, y) := board_pos_to_xy pos in
  let step (moves : res Z) (ij : Z * Z) : res Z :=
    let '(i, j) := ij in
    let* moves := moves in
    if (i =? 0) && (j =? 0) then Ret moves
    else set_if_valid moves (board_pos_from_xy (x + i) (y + j)) in
  fold_left step
    [(-1, -1); (-1, 0); (-1, 1); (0, -1); (0, 0); (0, 1); (1, -1); (1, 0); (1, 1)]
    (Ret 0).

(** Run an initialiser over the squares 0..63. *)
Fixpoint init_table (entry : Z -> res Z) (n : nat) (pos : Z) : res (list Z) :=
  match n with
  | O => Ret []
  | S n' =>
      let* e := entry pos in
      let* rest := init_table entry n' (pos + 1) in
      Ret (e :: rest)
  end.

Definition table_or_empty (t : res (list Z)) : list Z :=
  match t with
  | Ret l => l
  | _ => []
  end.

(** The tables [move_gen_knights] and [move_gen_kings] after
    [move_gen_pregenerate] has run. *)
Definition move_gen_knights : list Z :=
  Eval vm_compute in table_or_empty (init_table move_gen_init_knights_entry 64 0).

Definition move_gen_kings : list Z :=
  Eval vm_compute in table_or_empty (init_table move_gen_init_kings_entry 64 0).

(** The loop of [gen_ray_moves]; a ray has at most seven squares. *)
Fixpoint gen_ray_loop (n : nat) (occupancy x y dx dy moves : Z) : res Z :=
  match n with
  | O => OutOfFuel
  | S n' =>
      if (x <=? 7) && (y <=? 7) && (x >=? 0) && (y >=? 0) then
        let* moves := bitboard_set_square moves (board_pos_from_xy x y) in
        let* c := bitboard_check_square occupancy (board_pos_from_xy x y) in
        if truthy c then Ret moves
        else gen_ray_loop n' occupancy (x + dx) (y + dy) dx dy moves
      else Ret moves
  end.

Definition gen_ray_moves (occupancy x y dx dy : Z) : res Z :=
  gen_ray_loop 8 occupancy (x + dx) (y + dy) dx dy 0.

Definition gen_rook_moves (occupancy square : Z) : res Z :=
  let* '(x, y) := board_pos_to_xy square in
  let* m1 := gen_ray_moves occupancy x y 1 0 in
  let* m2 := gen_ray_moves occupancy x y (-1) 0 in
  let* m3 := gen_ray_moves occupancy x y 0 1 in
  let* m4 := gen_ray_moves occupancy x y 0 (-1) in
  Ret (Z.lor (Z.lor (Z.lor (Z.lor 0 m1) m2) m3) m4).

Definition gen_bishop_moves (occupancy square : Z) : res Z :=
  let* '(x, y) := board_pos_to_xy square in
  let* m1 := gen_ray_moves occupancy x y 1 1 in
  let* m2 := gen_ray_moves occupancy x y (-1) 1 in
  let* m3 := gen_ray_moves occupancy x y 1 (-1) in
  let* m4 := gen_ray_moves occupancy x y (-1) (-1) in
  Ret (Z.lor (Z.lor (Z.lor (Z.lor 0 m1) m2) m3) m4).

(** Modelled from the spec: the constants of found_magics.h
    ([rook_magic_masks], [bishop_magic_masks], the factors and the bit
    widths) are defined in a file that is not part of the sources.  The
    spec gives a mask as "relevant blockers: squares on the piece's rays
    excluding the edges that cannot affect the attack set": a ray of the
    mask stops one square before the edge the ray runs into. *)
Fixpoint magic_mask_ray (n : nat) (x y dx dy mask : Z) : Z :=
  match n with
  | O => mask
  | S n' =>
      let nx := x + dx in
      let ny := y + dy in
      if (nx <=? 7) && (ny <=? 7) && (nx >=? 0) && (ny >=? 0)
      then magic_mask_ray n' nx ny dx dy (Z.lor mask (Z.shiftl 1 (x + Z.shiftl y 3)))
      else mask
  end.

Definition magic_mask (dirs : list (Z * Z)) (square : Z) : Z :=
  let x := Z.land square 7 in
  let y := Z.land (Z.shiftr square 3) 7 in
  fold_left (fun mask d =>
               let '(dx, dy) := d in
               if (0 <=? x + dx) && (x + dx <=? 7) && (0 <=? y + dy) && (y + dy <=? 7)
               then magic_mask_ray 8 (x + dx) (y + dy) dx dy mask
               else mask)
            dirs 0.

Definition rook_magic_masks : list Z :=
  Eval vm_compute in
    map (fun n => magic_mask [(1, 0); (-1, 0); (0, 1); (0, -1)] (Z.of_nat n)) (seq 0 64).

Definition bishop_magic_masks : list Z :=
  Eval vm_compute in
    map (fun n => magic_mask [(1, 1); (-1, 1); (1, -1); (-1, -1)] (Z.of_nat n)) (seq 0 64).

(** [rook_move_lookup] reads [rook_magic_table_ptr[square]] at
    [magic_index_rook(occupancy, square)].  [move_gen_init_sliders] stored
    there [gen_rook_moves(o, square)] for every subset [o] of the mask at the
    index of [o], asserting that no two subsets with different move sets share
    an index; the index depends on [occupancy & mask] only, so the entry read
    is the one written for that subset. *)
Definition rook_move_lookup (occupancy square : Z) : res Z :=
  let* _ := assert (square <? 64) in
  let* mask := rd rook_magic_masks square in
  gen_rook_moves (Z.land occupancy mask) square.

Definition bishop_move_lookup (occupancy square : Z) : res Z :=
  let* _ := assert (square <? 64) in
  let* mask := rd bishop_magic_masks square in
  gen_bishop_moves (Z.land occupancy mask) square.

Definition queen_magic_lookup (occupancy square : Z) : res Z :=
  let* r := rook_move_lookup occupancy square in
  let* b := bishop_move_lookup occupancy square in
  Ret (Z.lor r b).

(** The innermost body of [move_gen_init_pawns]: the entry
    [move_gen_pawns[player][double_ahead][ahead][pos]]. *)
Definition move_gen_init_pawns_entry (player double_ahead ahead pos : Z) : res Z :=
  let* '(x, y) := board_pos_to_xy pos in
  let dir := if player =? WHITE then 1 else -1 in
  let ahead_present := (y + dir >=? 0) && (y + dir <? 8) in
  let* moves :=
    if negb (truthy (Z.land ahead 2)) && ahead_present then
      let* moves := bitboard_set_square 0 (board_pos_from_xy x (y + dir)) in
      if negb (truthy double_ahead)
         && (((player =? WHITE) && (y =? 1)) || ((player =? BLACK) && (y =? 6)))
      then bitboard_set_square moves (board_pos_from_xy x (y + 2 * dir))
      else Ret moves
    else Ret 0 in
  let* moves :=
    if (x >=? 1) && truthy (Z.land ahead 1) && ahead_present
    then bitboard_set_square moves (board_pos_from_xy (x - 1) (y + dir))
    else Ret moves in
  if (x <=? 6) && truthy (Z.land ahead 4) && ahead_present
  then bitboard_set_square moves (board_pos_from_xy (x + 1) (y + dir))
  else Ret moves.

(** [pawn_move_lookup]: the table is read at the entry its initialiser
    computed.  A shift count of 64 or more is undefined in C; the entry read
    does not depend on the bits so obtained (see [pawn_entry_ahead_absent]
    below), and the model shifts in [Z]. *)
Definition pawn_move_lookup (occupancy square player : Z) : res Z :=
  let dir := if player =? WHITE then 1 else -1 in
  let forward_shift := square - 1 + dir * 8 in
  let forward_rank :=
    if forward_shift >=? 0
    then Z.land (Z.shiftr occupancy forward_shift) 7
    else Z.land (Z.land (Z.shiftl occupancy (- forward_shift)) U64_MAX) 7 in
  let double_forward_shift := square + dir * 16 in
  let double_forward_rank :=
    if double_forward_shift >? 0
    then Z.land (Z.shiftr occupancy double_forward_shift) 1
    else Z.land (Z.land (Z.shiftl occupancy (- double_forward_shift)) U64_MAX) 1 in
  let* _ := assert ((0 <=? player) && (player <? 2) && (0 <=? square) && (square <? 64)) in
  move_gen_init_pawns_entry player double_forward_rank forward_rank square.

Definition move_gen_reg_moves_mask
    (occupancy_for_sliders occupancy_for_pawns piece player square : Z) : res Z :=
  if piece =? KING then rd move_gen_kings square
  else if piece =? KNIGHT then rd move_gen_knights square
  else if piece =? PAWN then pawn_move_lookup occupancy_for_pawns square player
  else if piece =? ROOK then rook_move_lookup occupancy_for_sliders square
  else if piece =? BISHOP then bishop_move_lookup occupancy_for_sliders square
  else if piece =? QUEEN then queen_magic_lookup occupancy_for_sliders square
  else Abort.

Definition board_occupancy_for_sliders_lookups (b : board) : res Z :=
  let* w := rd (players b) WHITE in
  let* k := rd (players b) BLACK in
  Ret (Z.lor w k).

Definition board_occupancy_for_pawns_lookups (b : board) : res Z :=
  let* w := rd (players b) WHITE in
  let* k := rd (players b) BLACK in
  let occupancy := Z.lor w k in
  if truthy (Z.land (flags b) BOARD_FLAGS_EP_PRESENT)
  then bitboard_set_square occupancy (Z.land (flags b) BOARD_FLAGS_EP_SQUARE)
  else Ret occupancy.

(** ** Moves *)

Definition MOVE_END : Z := 0xffffffffffffffff.

Definition MOVE_FLAGS_PREV_FLAGS : Z := 0x0000000ffff.
Definition MOVE_FLAGS_SRC : Z := 0x000003f0000.
Definition MOVE_SHIFT_SRC : Z := 16.
Definition MOVE_FLAGS_DST : Z := 0x0000fc00000.
Definition MOVE_SHIFT_DST : Z := 22.
Definition MOVE_FLAGS_IS_PROMOTE : Z := 0x00010000000.
Definition MOVE_SHIFT_IS_PROMOTE : Z := 28.
Definition MOVE_FLAGS_PROMOTE_PIECE : Z := 0x000e0000000.
Definition MOVE_SHIFT_PROMOTE_PIECE : Z := 29.
Definition MOVE_FLAGS_IS_CAPTURE : Z := 0x00100000000.
Definition MOVE_SHIFT_IS_CAPTURE : Z := 32.
Definition MOVE_FLAGS_CAPTURE_PIECE : Z := 0x00e00000000.
Definition MOVE_SHIFT_CAPTURE_PIECE : Z := 33.
Definition MOVE_FLAGS_CAPTURE_SQUARE : Z := 0x3f000000000.
Definition MOVE_SHIFT_CAPTURE_SQUARE : Z := 36.
Definition MOVE_FLAGS_IS_CASTLE : Z := 0x40000000000.
Definition MOVE_SHIFTS_IS_CASTLE : Z := 42.

Definition move_source_square (mv : Z) : Z :=
  Z.shiftr (Z.land mv MOVE_FLAGS_SRC) MOVE_SHIFT_SRC.

Definition move_destination_square (mv : Z) : Z :=
  Z.shiftr (Z.land mv MOVE_FLAGS_DST) MOVE_SHIFT_DST.

Definition move_is_promotion (mv : Z) : Z :=
  if truthy (Z.land mv MOVE_FLAGS_IS_PROMOTE) then 1 else 0.

Definition move_promotion_piece (mv : Z) : Z :=
  if negb (truthy (move_is_promotion mv)) then -1
  else Z.shiftr (Z.land mv MOVE_FLAGS_PROMOTE_PIECE) MOVE_SHIFT_PROMOTE_PIECE.

Definition move_is_capture (mv : Z) : Z :=
  if truthy (Z.land mv MOVE_FLAGS_IS_CAPTURE) then 1 else 0.

Definition move_capture_piece (mv : Z) : Z :=
  if negb (truthy (move_is_capture mv)) then -1
  else Z.shiftr (Z.land mv MOVE_FLAGS_CAPTURE_PIECE) MOVE_SHIFT_CAPTURE_PIECE.

Definition move_capture_square (mv : Z) : Z :=
  if negb (truthy (move_is_capture mv)) then BOARD_POS_INVALID
  else Z.shiftr (Z.land mv MOVE_FLAGS_CAPTURE_SQUARE) MOVE_SHIFT_CAPTURE_SQUARE.

Definition move_is_castle (mv : Z) : Z :=
  Z.shiftr (Z.land mv MOVE_FLAGS_IS_CASTLE) MOVE_SHIFTS_IS_CASTLE.

(** Conversion of an [int] or [uint8_t] argument to [uint64_t]. *)
Definition to_u64 (v : Z) : Z := Z.land v U64_MAX.
(** A [uint64_t] shifted left. *)
Definition shl64 (v n : Z) : Z := Z.land (Z.shiftl v n) U64_MAX.
(** The C value of a comparison. *)
Definition b2i (c : bool) : Z := if c then 1 else 0.

(** [construct_move]; its first parameter is a [uint16_t], so the caller's
    flags word is truncated to its low half on the way in, and the sum is a
    [uint64_t]. *)
Definition construct_move
    (board_flags src dst is_promotion promote_piece is_capture capture_piece
     capture_pos is_castle : Z) : Z :=
  let board_flags := Z.land board_flags 0xffff in
  Z.land
    (Z.land (to_u64 board_flags) MOVE_FLAGS_PREV_FLAGS
     + Z.land (shl64 (to_u64 src) MOVE_SHIFT_SRC) MOVE_FLAGS_SRC
     + Z.land (shl64 (to_u64 dst) MOVE_SHIFT_DST) MOVE_FLAGS_DST
     + shl64 (b2i (negb (is_promotion =? 0))) MOVE_SHIFT_IS_PROMOTE
     + Z.land (shl64 (to_u64 promote_piece) MOVE_SHIFT_PROMOTE_PIECE)
         MOVE_FLAGS_PROMOTE_PIECE
     + shl64 (b2i (negb (is_capture =? 0))) MOVE_SHIFT_IS_CAPTURE
     + Z.land (shl64 (to_u64 capture_piece) MOVE_SHIFT_CAPTURE_PIECE)
         MOVE_FLAGS_CAPTURE_PIECE
     + Z.land (shl64 (to_u64 capture_pos) MOVE_SHIFT_CAPTURE_SQUARE)
         MOVE_FLAGS_CAPTURE_SQUARE
     + Z.land (shl64 (b2i (negb (is_castle =? 0))) MOVE_SHIFTS_IS_CASTLE)
         MOVE_FLAGS_IS_CASTLE)
    U64_MAX.

Definition en_passant_target_to_pawn_pos (ep_target : Z) : res Z :=
  let* '(x, y) := board_pos_to_xy ep_target in
  if y =? 2 then Ret (board_pos_from_xy x (y + 1))
  else if y =? 5 then Ret (board_pos_from_xy x (y - 1))
  else Abort.

(** ** Making and unmaking moves *)

Definition board_clear_castling (b : board) (player side : Z) : res board :=
  let* _ := assert ((side =? QUEEN) || (side =? KING)) in
  let flag :=
    if player =? WHITE
    then (if side =? QUEEN then BOARD_FLAGS_W_CASTLE_QUEEN else BOARD_FLAGS_W_CASTLE_KING)
    else (if side =? QUEEN then BOARD_FLAGS_B_CASTLE_QUEEN else BOARD_FLAGS_B_CASTLE_KING) in
  Ret (set_flags b (Z.land (flags b) (Z.lnot flag))).

(** [arr[i] = bitboard_set_square(arr[i], square)]. *)
Definition arr_set_square (arr : list Z) (i square : Z) : res (list Z) :=
  let* v := rd arr i in
  let* v := bitboard_set_square v square in
  wr arr i v.

(** [arr[i] = bitboard_clear_square(arr[i], square)]. *)
Definition arr_clear_square (arr : list Z) (i square : Z) : res (list Z) :=
  let* v := rd arr i in
  let* v := bitboard_clear_square v square in
  wr arr i v.

Definition move_gen_make_castle (b : board) (mv : Z) : res board :=
  let dst := move_destination_square mv in
  let src := move_source_square mv in
  let player := board_player_to_move b in
  let side := if board_pos_to_x dst =? 2 then QUEEN else KING in
  let* _ := assert ((board_pos_to_x dst =? 2) || (board_pos_to_x dst =? 6)) in
  let* p := board_piece_on_square b src in
  let* _ := assert (p =? KING) in
  let* _ := assert (negb (truthy (move_is_capture mv))) in
  let* _ := assert (negb (truthy (move_is_promotion mv))) in
  let y := if player =? WHITE then 0 else 7 in
  let* _ := assert (board_pos_to_y dst =? y) in
  let* pl := arr_clear_square (players b) player src in
  let* pc := arr_clear_square (pieces b) KING src in
  let* pl := arr_set_square pl player dst in
  let* pc := arr_set_square pc KING dst in
  let rook_src := if side =? QUEEN then board_pos_from_xy 0 y else board_pos_from_xy 7 y in
  let rook_dst := if side =? QUEEN then board_pos_from_xy 3 y else board_pos_from_xy 5 y in
  let* pl := arr_clear_square pl player rook_src in
  let* pc := arr_clear_square pc ROOK rook_src in
  let* pl := arr_set_square pl player rook_dst in
  let* pc := arr_set_square pc ROOK rook_dst in
  let b := mkBoard pl pc (flags b) in
  let* b := board_clear_castling b player QUEEN in
  board_clear_castling b player KING.

(** The castling rights a rook on [square] stands for: the [if]/[else if]
    chain used both when a rook moves and when one is captured. *)
Definition clear_castling_for_rook (b : board) (owner square : Z) : res board :=
  if (owner =? WHITE) && (square =? board_pos_from_xy 0 0) then
    board_clear_castling b WHITE QUEEN
  else if (owner =? WHITE) && (square =? board_pos_from_xy 7 0) then
    board_clear_castling b WHITE KING
  else if (owner =? BLACK) && (square =? board_pos_from_xy 0 7) then
    board_clear_castling b BLACK QUEEN
  else if (owner =? BLACK) && (square =? board_pos_from_xy 7 7) then
    board_clear_castling b BLACK KING
  else Ret b.

(** The [else] branch of [board_make_move]: a move that is not a castle. *)
Definition make_regular_move
    (b : board) (mv src dst piece dst_piece player opponent : Z) : res board :=
  let* _ := assert (negb (piece =? -1)) in
  let* opp := rd (players b) opponent in
  let* c := bitboard_check_square opp dst in
  let* _ := assert (negb (truthy c) || truthy (move_is_capture mv)) in
  let* b :=
    if piece =? KING then
      let* b := board_clear_castling b player KING in
      board_clear_castling b player QUEEN
    else Ret b in
  let* b :=
    if piece =? ROOK then clear_castling_for_rook b player src else Ret b in
  let* b :=
    if truthy (move_is_capture mv) then
      let cap_square := move_capture_square mv in
      let ep_target := board_get_en_passant_target b in
      let* cap_square :=
        if negb (ep_target =? BOARD_POS_INVALID) && (ep_target =? dst)
        then en_passant_target_to_pawn_pos ep_target
        else Ret cap_square in
      let* cap_piece := board_piece_on_square b cap_square in
      let* _ := assert (negb (cap_piece =? -1)) in
      let* _ := assert (negb (cap_square =? src)) in
      let* owner := board_player_on_square b cap_square in
      let* _ := assert (negb (owner =? player)) in
      let* pl := arr_clear_square (players b) opponent cap_square in
      let* pc := arr_clear_square (pieces b) cap_piece cap_square in
      let b := mkBoard pl pc (flags b) in
      if cap_piece =? ROOK then clear_castling_for_rook b opponent cap_square
      else Ret b
    else Ret b in
  let* pc := arr_set_square (pieces b) dst_piece dst in
  let* pl := arr_set_square (players b) player dst in
  let* pc := arr_clear_square pc piece src in
  let* pl := arr_clear_square pl player src in
  Ret (mkBoard pl pc (flags b)).

Definition board_make_move (b : board) (mv : Z) : res board :=
  let* _ := assert (board_invariants b) in
  let* _ := assert (Z.land (flags b) BOARD_FLAGS_LOW =? Z.land mv MOVE_FLAGS_PREV_FLAGS) in
  let src := move_source_square mv in
  let dst := move_destination_square mv in
  let* piece := board_piece_on_square b src in
  let dst_piece := if truthy (move_is_promotion mv) then move_promotion_piece mv else piece in
  let player := board_player_to_move b in
  let opponent := c_not player in
  let* b :=
    if truthy (move_is_castle mv) then move_gen_make_castle b mv
    else make_regular_move b mv src dst piece dst_piece player opponent in
  let b := set_flags b (Z.land (flags b) (Z.lnot BOARD_FLAGS_EP_PRESENT)) in
  let* b :=
    if (piece =? PAWN) && ((src - dst =? 16) || (dst - src =? 16)) then
      let* '(x, y) := board_pos_to_xy src in
      let* _ := assert (((board_player_to_move b =? WHITE) && (y =? 1))
                        || ((board_player_to_move b =? BLACK) && (y =? 6))) in
      let ep_target := if dst >? src then Z.land (src + 8) 255 else Z.land (src - 8) 255 in
      let f := Z.lor (flags b) BOARD_FLAGS_EP_PRESENT in
      let f := Z.land f (Z.lnot BOARD_FLAGS_EP_SQUARE) in
      let f := Z.lor f (Z.land ep_target BOARD_FLAGS_EP_SQUARE) in
      Ret (set_flags b f)
    else Ret b in
  let b :=
    if player =? BLACK then
      let prev_turn := board_get_full_turn_number b in
      let f := Z.land (flags b) BOARD_FLAGS_LOW in
      let f := Z.lor f (Z.land (Z.shiftl (prev_turn + 1) BOARD_FLAGS_TURN_NUM_SHIFT)
                               BOARD_FLAGS_TURN_NUM) in
      set_flags b f
    else b in
  let b := set_flags b (Z.lxor (flags b) BOARD_FLAGS_TURN) in
  let* _ := assert (board_invariants b) in
  Ret b.

Definition board_unmake_move (b : board) (mv : Z) : res board :=
  let* _ := assert (board_invariants b) in
  let f := Z.land (flags b) (Z.lnot BOARD_FLAGS_LOW) in
  let f := Z.lor f (Z.land mv MOVE_FLAGS_PREV_FLAGS) in
  let b := set_flags b f in
  let src := move_source_square mv in
  let dst := move_destination_square mv in
  let* piece_dst := board_piece_on_square b dst in
  let piece_src := if truthy (move_is_promotion mv) then PAWN else piece_dst in
  let* _ := assert (negb (piece_dst =? -1)) in
  let player := board_player_to_move b in
  let opponent := c_not player in
  let b :=
    if player =? BLACK then
      let prev_turn := board_get_full_turn_number b in
      let f := Z.land (flags b) BOARD_FLAGS_LOW in
      let f := Z.lor f (Z.land (Z.shiftl (prev_turn - 1) BOARD_FLAGS_TURN_NUM_SHIFT)
                               BOARD_FLAGS_TURN_NUM) in
      set_flags b f
    else b in
  let* pc := arr_clear_square (pieces b) piece_dst dst in
  let* pl := arr_clear_square (players b) player dst in
  let* pc := arr_set_square pc piece_src src in
  let* pl := arr_set_square pl player src in
  let* '(pl, pc) :=
    if truthy (move_is_capture mv) then
      let cap_piece := move_capture_piece mv in
      let cap_square := move_capture_square mv in
      let* pc := arr_set_square pc cap_piece cap_square in
      let* pl := arr_set_square pl opponent cap_square in
      Ret (pl, pc)
    else Ret (pl, pc) in
  let* '(pl, pc) :=
    if truthy (move_is_castle mv) then
      let side := if board_pos_to_x dst =? 2 then QUEEN else KING in
      let rook_y := if player =? WHITE then 0 else 7 in
      let rook_src_x := if side =? QUEEN then 0 else 7 in
      let rook_dst_x := if side =? QUEEN then 3 else 5 in
      let rook_src := board_pos_from_xy rook_src_x rook_y in
      let rook_dst := board_pos_from_xy rook_dst_x rook_y in
      let* pl := arr_set_square pl player rook_src in
      let* pc := arr_set_square pc ROOK rook_src in
      let* pl := arr_clear_square pl player rook_dst in
      let* pc := arr_clear_square pc ROOK rook_dst in
      Ret (pl, pc)
    else Ret (pl, pc) in
  let b := mkBoard pl pc (flags b) in
  let* _ := assert (board_invariants b) in
  Ret b.

(** ** Attack queries *)

Definition board_is_square_attacked (b : board) (square attacking_player : Z) : res Z :=
  let* _ := assert ((attacking_player =? WHITE) || (attacking_player =? BLACK)) in
  let defending_player := c_not attacking_player in
  let* attackers_mask := rd (players b) attacking_player in
  let* occ_slide := board_occupancy_for_sliders_lookups b in
  let* occ_pawn := board_occupancy_for_pawns_lookups b in
  let hit (hits : res Z) (piece : Z) (with_queen : bool) : res Z :=
    let* hits := hits in
    let* m := move_gen_reg_moves_mask occ_slide occ_pawn piece defending_player square in
    let* p := rd (pieces b) piece in
    if with_queen then
      let* q := rd (pieces b) QUEEN in
      Ret (Z.lor hits (Z.land m (Z.lor p q)))
    else Ret (Z.lor hits (Z.land m p)) in
  let hits := Ret 0 in
  let hits := hit hits KING false in
  let hits := hit hits PAWN false in
  let hits := hit hits KNIGHT false in
  let hits := hit hits ROOK true in
  let hits := hit hits BISHOP true in
  let* attack_hits := hits in
  Ret (Z.land attack_hits attackers_mask).

Definition board_player_in_check (b : board) (player : Z) : res Z :=
  let* _ := assert ((player =? WHITE) || (player =? BLACK)) in
  let* k := rd (pieces b) KING in
  let* p := rd (players b) player in
  let king_mask := Z.land k p in
  let* _ := assert (bitboard_popcount king_mask =? 1) in
  let* king_pos := bitboard_scan_lsb king_mask in
  board_is_square_attacked b king_pos (c_not player).

(** ** The move generator *)

Definition MOVE_GEN_MODE_NORMAL : Z := 0.
Definition MOVE_GEN_MODE_CASTLE_KING : Z := 1.
Definition MOVE_GEN_MODE_CASTLE_QUEEN : Z := 2.
Definition MOVE_GEN_MODE_END : Z := 3.

Definition MOVE_DONE_NORMAL : Z := 1.
Definition MOVE_DONE_CHECKMATE : Z := 2.
Definition MOVE_DONE_STALEMATE : Z := 3.

(** [struct __chess_util_move_gen] without its [board] pointer: the board the
    generator points to is passed to, and returned by, every operation. *)
Record move_gen : Type := mkGen {
  occupancy_for_sliders : Z;
  occupancy_for_pawns : Z;
  final_moves_mask : Z;
  cur_mode : Z;
  cur_piece_type : Z;
  cur_square : Z;
  cur_promotion : Z;
  cur_moves : Z;
  done : Z;
  hit_move : Z
}.

Definition set_cur_mode (g : move_gen) (v : Z) : move_gen :=
  mkGen (occupancy_for_sliders g) (occupancy_for_pawns g) (final_moves_mask g)
        v (cur_piece_type g) (cur_square g) (cur_promotion g) (cur_moves g)
        (done g) (hit_move g).
Definition set_cur_position (g : move_gen) (piece_type square : Z) : move_gen :=
  mkGen (occupancy_for_sliders g) (occupancy_for_pawns g) (final_moves_mask g)
        (cur_mode g) piece_type square (cur_promotion g) (cur_moves g)
        (done g) (hit_move g).
Definition set_cur_promotion (g : move_gen) (v : Z) : move_gen :=
  mkGen (occupancy_for_sliders g) (occupancy_for_pawns g) (final_moves_mask g)
        (cur_mode g) (cur_piece_type g) (cur_square g) v (cur_moves g)
        (done g) (hit_move g).
Definition set_cur_moves (g : move_gen) (v : Z) : move_gen :=
  mkGen (occupancy_for_sliders g) (occupancy_for_pawns g) (final_moves_mask g)
        (cur_mode g) (cur_piece_type g) (cur_square g) (cur_promotion g) v
        (done g) (hit_move g).
Definition set_done (g : move_gen) (v : Z) : move_gen :=
  mkGen (occupancy_for_sliders g) (occupancy_for_pawns g) (final_moves_mask g)
        (cur_mode g) (cur_piece_type g) (cur_square g) (cur_promotion g)
        (cur_moves g) v (hit_move g).
Definition set_hit_move (g : move_gen) (v : Z) : move_gen :=
  mkGen (occupancy_for_sliders g) (occupancy_for_pawns g) (final_moves_mask g)
        (cur_mode g) (cur_piece_type g) (cur_square g) (cur_promotion g)
        (cur_moves g) (done g) v.

Definition move_gen_init (b : board) : res move_gen :=
  let player := board_player_to_move b in
  let* occ_s := board_occupancy_for_sliders_lookups b in
  let* occ_p := board_occupancy_for_pawns_lookups b in
  let* own := rd (players b) player in
  Ret (mkGen occ_s occ_p (Z.land (Z.lnot own) U64_MAX)
             MOVE_GEN_MODE_NORMAL 0 0 KNIGHT 0 0 0).

Definition move_gen_next_promote (g : move_gen) : move_gen :=
  let p := Z.land (cur_promotion g + 1) 255 in
  if p >? QUEEN then set_cur_promotion g KNIGHT else set_cur_promotion g p.

Definition move_gen_next_from_cur_moves (g : move_gen) (b : board)
  : res (Z * move_gen) :=
  let* _ := assert (truthy (cur_moves g)) in
  let* dst := bitboard_scan_lsb (cur_moves g) in
  let is_promote :=
    if (cur_piece_type g =? PAWN)
       && ((Z.shiftr dst 3 =? 0) || (Z.shiftr dst 3 =? 7))
    then 1 else 0 in
  let* g :=
    if negb (truthy is_promote) || (cur_promotion g =? QUEEN) then
      let* m := bitboard_clear_square (cur_moves g) dst in
      Ret (set_cur_moves g m)
    else Ret g in
  let player := board_player_to_move b in
  let opponent := c_not player in
  let* opp := rd (players b) opponent in
  let* c := bitboard_check_square opp dst in
  let* '(is_capture, capture_piece, capture_pos) :=
    if truthy c then
      let* capture_piece := board_piece_on_square b dst in
      let* _ := assert (negb (capture_piece =? -1)) in
      Ret (1, capture_piece, dst)
    else Ret (0, 0, 0) in
  let* '(is_capture, capture_piece, capture_pos) :=
    if cur_piece_type g =? PAWN then
      let ep_target := board_get_en_passant_target b in
      if negb (ep_target =? BOARD_POS_INVALID) && (dst =? ep_target) then
        let* capture_pos := en_passant_target_to_pawn_pos ep_target in
        let* p := board_piece_on_square b capture_pos in
        let* _ := assert (p =? PAWN) in
        Ret (1, PAWN, capture_pos)
      else Ret (is_capture, capture_piece, capture_pos)
    else Ret (is_capture, capture_piece, capture_pos) in
  let res := construct_move (flags b) (cur_square g) dst is_promote
                            (cur_promotion g) is_capture capture_piece
                            capture_pos 0 in
  let g := if truthy is_promote then move_gen_next_promote g else g in
  Ret (res, g).

(** The two loops of [move_gen_castle]: the squares strictly between king
    and rook, then the three squares the king crosses. *)
Fixpoint castle_path_clear (n : nat) (occupancy x rook_x dir y : Z) : res bool :=
  match n with
  | O => OutOfFuel
  | S n' =>
      if x =? rook_x then Ret true
      else
        let* c := bitboard_check_square occupancy (board_pos_from_xy x y) in
        if truthy c then Ret false
        else castle_path_clear n' occupancy (x + dir) rook_x dir y
  end.

Fixpoint castle_path_safe (n : nat) (b : board) (x dir y opponent : Z) : res bool :=
  match n with
  | O => Ret true
  | S n' =>
      let* a := board_is_square_attacked b (board_pos_from_xy x y) opponent in
      if truthy a then Ret false
      else castle_path_safe n' b (x + dir) dir y opponent
  end.

Definition move_gen_castle (g : move_gen) (b : board) (player side undo_move : Z)
  : res (Z * board) :=
  let* can := board_can_castle b player side in
  if negb (truthy can) then Ret (MOVE_END, b)
  else
    let y := if player =? WHITE then 0 else 7 in
    let dir := if side =? QUEEN then -1 else 1 in
    let king := board_pos_from_xy 4 y in
    let rook := if side =? QUEEN then board_pos_from_xy 0 y else board_pos_from_xy 7 y in
    let* pk := board_piece_on_square b king in
    let* _ := assert (pk =? KING) in
    let* pr := board_piece_on_square b rook in
    let* _ := assert (pr =? ROOK) in
    let* ok := board_player_on_square b king in
    let* _ := assert (ok =? player) in
    let* orook := board_player_on_square b rook in
    let* _ := assert (orook =? player) in
    let* clear :=
      castle_path_clear 8 (occupancy_for_sliders g) (board_pos_to_x king + dir)
                        (board_pos_to_x rook) dir y in
    if negb clear then Ret (MOVE_END, b)
    else
      let* safe := castle_path_safe 3 b (board_pos_to_x king) dir y (c_not player) in
      if negb safe then Ret (MOVE_END, b)
      else
        let mv := construct_move (flags b) king
                    (board_pos_from_xy (board_pos_to_x king + 2 * dir) y)
                    0 0 0 0 0 1 in
        if negb (truthy undo_move) then
          let* b := board_make_move b mv in
          let* chk := board_player_in_check b player in
          let* _ := assert (negb (truthy chk)) in
          Ret (mv, b)
        else Ret (mv, b).

(** The [do ... while] loop of [move_gen_next] that steps to the next square
    holding a piece of the player to move.  The result is the cursor the
    loop leaves ([cur_piece_type], [cur_square]), with [true] when it
    stands on such a square and [false] when the piece types are exhausted
    (the source then switches to the castling modes). *)
Fixpoint next_occupied_square (n : nat) (b : board) (player_mask piece_type square : Z)
  : res (bool * Z * Z) :=
  match n with
  | O => OutOfFuel
  | S n' =>
      let square := Z.land (square + 1) 255 in
      let '(piece_type, square) :=
        if square >=? 64 then (Z.land (piece_type + 1) 255, 0)
        else (piece_type, square) in
      if piece_type >? QUEEN then Ret (false, piece_type, square)
      else
        let* p := rd (pieces b) piece_type in
        let* c := bitboard_check_square (Z.land p player_mask) square in
        if truthy c then Ret (true, piece_type, square)
        else next_occupied_square n' b player_mask piece_type square
  end.

(** One activation of [move_gen_next].  Every recursive call of the source
    is a tail call [return move_gen_next(generator, undo_moves)]: the body
    either returns a move ([inl]) or asks to be run again on the updated
    generator and board ([inr]). *)
Definition move_gen_next_body (undo_moves : Z) (st : move_gen * board)
  : res (Z * move_gen * board + move_gen * board) :=
  let '(g, b) := st in
  let* _ := assert (board_invariants b) in
  let player := board_player_to_move b in
  let* player_mask := rd (players b) player in
  if cur_mode g =? MOVE_GEN_MODE_END then
    if truthy (hit_move g) then
      Ret (inl (MOVE_END, set_done g MOVE_DONE_NORMAL, b))
    else
      let* chk := board_player_in_check b player in
      if truthy chk
      then Ret (inl (MOVE_END, set_done g MOVE_DONE_CHECKMATE, b))
      else Ret (inl (MOVE_END, set_done g MOVE_DONE_STALEMATE, b))
  else if cur_mode g =? MOVE_GEN_MODE_CASTLE_KING then
    let g := set_cur_mode g MOVE_GEN_MODE_CASTLE_QUEEN in
    let* '(castle, b) := move_gen_castle g b player KING undo_moves in
    if negb (castle =? MOVE_END) then Ret (inl (castle, set_hit_move g 1, b))
    else Ret (inr (g, b))
  else if cur_mode g =? MOVE_GEN_MODE_CASTLE_QUEEN then
    let g := set_cur_mode g MOVE_GEN_MODE_END in
    let* '(castle, b) := move_gen_castle g b player QUEEN undo_moves in
    if negb (castle =? MOVE_END) then Ret (inl (castle, set_hit_move g 1, b))
    else Ret (inr (g, b))
  else if cur_mode g =? MOVE_GEN_MODE_NORMAL then
    if truthy (cur_moves g) then
      let* '(next_move, g) := move_gen_next_from_cur_moves g b in
      let* b := board_make_move b next_move in
      let* chk := board_player_in_check b player in
      if truthy chk then
        let* b := board_unmake_move b next_move in
        Ret (inr (g, b))
      else
        let* b := if truthy undo_moves then board_unmake_move b next_move else Ret b in
        Ret (inl (next_move, set_hit_move g 1, b))
    else
      let* '(found, piece_type, square) :=
        next_occupied_square 385 b player_mask (cur_piece_type g) (cur_square g) in
      let g := set_cur_position g piece_type square in
      if negb found then
        let g := set_cur_mode g MOVE_GEN_MODE_CASTLE_KING in
        Ret (inr (g, b))
      else
        let* m := move_gen_reg_moves_mask (occupancy_for_sliders g)
                    (occupancy_for_pawns g) piece_type player square in
        let g := set_cur_moves g (Z.land m (final_moves_mask g)) in
        Ret (inr (g, b))
  else Abort.

(** Running a body with tail calls: [tail_loop n body s] runs [body] up to
    [2 ^ n] times, until it returns a value. *)
Fixpoint tail_loop {R S : Type} (n : nat) (body : S -> res (R + S)) (s : S)
  : res (R + S) :=
  match n with
  | O => body s
  | S n' =>
      let* r := tail_loop n' body s in
      match r with
      | inl v => Ret (inl v)
      | inr s' => tail_loop n' body s'
      end
  end.

Definition tail_run {R S : Type} (n : nat) (body : S -> res (R + S)) (s : S) : res R :=
  let* r := tail_loop n body s in
  match r with
  | inl v => Ret v
  | inr _ => OutOfFuel
  end.

(** Recursion budget of [move_gen_next], as a power of two: one activation
    per square visited, per destination and promotion tried, and per mode
    stays below [2 ^ 17]. *)
Definition GEN_FUEL : nat := 17.

Definition move_gen_next (g : move_gen) (b : board) (undo_moves : Z)
  : res (Z * move_gen * board) :=
  tail_run GEN_FUEL (move_gen_next_body undo_moves) (g, b).

Definition move_gen_next_move (g : move_gen) (b : board) : res (Z * move_gen * board) :=
  move_gen_next g b 1.

Definition move_gen_make_next_move (g : move_gen) (b : board) : res (Z * move_gen * board) :=
  move_gen_next g b 0.

Definition move_gen_is_checkmate (g : move_gen) : res Z :=
  let* _ := assert (truthy (done g)) in
  Ret (b2i (done g =? MOVE_DONE_CHECKMATE)).

Definition move_gen_is_stalemate (g : move_gen) : res Z :=
  let* _ := assert (truthy (done g)) in
  Ret (b2i (done g =? MOVE_DONE_STALEMATE)).

(** ** C strings

    A [const char *] into a NUL-terminated string is modelled by the
    characters from the pointer up to the terminator.  Reading at the pointer
    gives the first character, or 0 at the terminator; stepping the pointer
    over the terminator leaves the string object, and every such step in the
    sources is followed by a read, so the step itself is given as the
    failure. *)

Definition code (c : ascii) : Z := Z.of_N (N_of_ascii c).
Definition chr (v : Z) : ascii := ascii_of_N (Z.to_N v).

Definition peek (s : string) : Z :=
  match s with
  | EmptyString => 0
  | String c _ => code c
  end.

Definition advance (s : string) : res string :=
  match s with
  | EmptyString => Abort
  | String _ t => Ret t
  end.

(** [s[i]]: defined up to and including the terminator. *)
Fixpoint char_at (s : string) (i : nat) : res Z :=
  match i, s with
  | O, _ => Ret (peek s)
  | S i', String _ t => char_at t i'
  | S _, EmptyString => Abort
  end.

Definition isspace (c : Z) : bool :=
  (c =? 32) || ((9 <=? c) && (c <=? 13)).

Fixpoint skip_spaces (s : string) : string :=
  match s with
  | String c t => if isspace (code c) then skip_spaces t else s
  | EmptyString => s
  end.

(** [while (!isspace( *p )) p++;] runs over the terminator when no white
    space follows. *)
Fixpoint skip_non_spaces (s : string) : res string :=
  match s with
  | String c t => if isspace (code c) then Ret s else skip_non_spaces t
  | EmptyString => Abort
  end.

(** ** Squares and pieces as text *)

Definition board_pos_to_str (pos : Z) : res string :=
  let* '(x, y) := board_pos_to_xy pos in
  Ret (String (chr (x + code "a")) (String (chr (y + code "1")) EmptyString)).

Definition board_pos_from_str (s : string) : res Z :=
  let* c0 := char_at s 0 in
  let* x :=
    if (c0 >=? code "a") && (c0 <=? code "h") then Ret (c0 - code "a")
    else if (c0 >=? code "A") && (c0 <=? code "H") then Ret (c0 - code "A")
    else Abort in
  let* c1 := char_at s 1 in
  let* _ := assert ((c1 >=? code "1") && (c1 <=? code "8")) in
  let y := c1 - code "1" in
  let* c2 := char_at s 2 in
  let* _ := assert (c2 =? 0) in
  Ret (board_pos_from_xy x y).

Definition board_piece_char_to_piece (c : Z) : res Z :=
  if (c =? code "P") || (c =? code "p") then Ret PAWN
  else if (c =? code "N") || (c =? code "n") then Ret KNIGHT
  else if (c =? code "B") || (c =? code "b") then Ret BISHOP
  else if (c =? code "R") || (c =? code "r") then Ret ROOK
  else if (c =? code "Q") || (c =? code "q") then Ret QUEEN
  else if (c =? code "k") || (c =? code "K") then Ret KING
  else Abort.

Definition board_piece_char_to_player (c : Z) : res Z :=
  if (c =? code "P") || (c =? code "N") || (c =? code "B")
     || (c =? code "R") || (c =? code "Q") || (c =? code "K") then Ret WHITE
  else if (c =? code "p") || (c =? code "n") || (c =? code "b")
     || (c =? code "r") || (c =? code "q") || (c =? code "k") then Ret BLACK
  else Abort.

Definition piece_str : list (list Z) :=
  [ [code "K"; code "P"; code "N"; code "R"; code "B"; code "Q"];
    [code "k"; code "p"; code "n"; code "r"; code "b"; code "q"] ].

Definition board_piece_char_from_piece_player (piece player : Z) : res Z :=
  let* _ := assert ((player =? WHITE) || (player =? BLACK)) in
  let* _ := assert ((piece >=? 0) && (piece <? 6)) in
  rd (nth (Z.to_nat player) piece_str []) piece.

(** ** FEN *)

(** The [while] loop over one rank of the piece placement. *)
Fixpoint fen_rank (s : string) (b : board) (file rank : Z) : res (board * string) :=
  match s with
  | EmptyString =>
      (* the terminator is neither '/' nor white space nor a digit *)
      let* player := board_piece_char_to_player 0 in Abort
  | String ch t =>
      let c := code ch in
      if (c =? code "/") || isspace c then Ret (b, s)
      else if (c >=? code "1") && (c <=? code "8") then
        fen_rank t b (file + (c - code "0")) rank
      else
        let* player := board_piece_char_to_player c in
        let* piece := board_piece_char_to_piece c in
        let* pl := arr_set_square (players b) player (board_pos_from_xy file rank) in
        let* pc := arr_set_square (pieces b) piece (board_pos_from_xy file rank) in
        fen_rank t (mkBoard pl pc (flags b)) (file + 1) rank
  end.

(** The [for (rank = 7; rank >= 0; rank--)] loop, [n] ranks to go. *)
Fixpoint fen_ranks (n : nat) (s : string) (b : board) : res (board * string) :=
  match n with
  | O => Ret (b, s)
  | S n' =>
      let* '(b, s) := fen_rank s b 0 (Z.of_nat n') in
      let* s := advance s in
      fen_ranks n' s b
  end.

(** The castling availability loop. *)
Fixpoint fen_castling (s : string) (f : Z) : Z * string :=
  match s with
  | EmptyString => (f, s)
  | String ch t =>
      let c := code ch in
      if c =? code "K" then fen_castling t (Z.lor f BOARD_FLAGS_W_CASTLE_KING)
      else if c =? code "Q" then fen_castling t (Z.lor f BOARD_FLAGS_W_CASTLE_QUEEN)
      else if c =? code "k" then fen_castling t (Z.lor f BOARD_FLAGS_B_CASTLE_KING)
      else if c =? code "q" then fen_castling t (Z.lor f BOARD_FLAGS_B_CASTLE_QUEEN)
      else if c =? code "-" then fen_castling t f
      else (f, s)
  end.

(** The loop copying at most [n] characters of the turn counter. *)
Fixpoint fen_turn_chars (n : nat) (s : string) : string :=
  match n, s with
  | S n', String ch t =>
      if isspace (code ch) then EmptyString else String ch (fen_turn_chars n' t)
  | _, _ => EmptyString
  end.

Fixpoint atoi_digits (s : string) (acc : Z) : Z :=
  match s with
  | String ch t =>
      let c := code ch in
      if (c >=? code "0") && (c <=? code "9")
      then atoi_digits t (acc * 10 + (c - code "0"))
      else acc
  | EmptyString => acc
  end.

(** [atoi] of <stdlib.h>, for values that fit an [int]. *)
Definition atoi (s : string) : Z :=
  match skip_spaces s with
  | String ch t =>
      if code ch =? code "-" then - atoi_digits t 0
      else if code ch =? code "+" then atoi_digits t 0
      else atoi_digits (String ch t) 0
  | EmptyString => 0
  end.

Definition board_from_fen_str (fen_string : string) : res board :=
  let b := mkBoard [0; 0] [0; 0; 0; 0; 0; 0] 0 in
  let* '(b, s) := fen_ranks 8 fen_string b in
  let s := skip_spaces s in
  let* f :=
    if peek s =? code "b" then Ret (Z.lor (flags b) BOARD_FLAGS_TURN)
    else if peek s =? code "w" then Ret (Z.land (flags b) (Z.lnot BOARD_FLAGS_TURN))
    else Abort in
  let* s := advance s in
  let s := skip_spaces s in
  let '(f, s) := fen_castling s f in
  let s := skip_spaces s in
  let* '(f, s) :=
    if peek s =? code "-" then
      let* s := advance s in
      Ret (Z.land f (Z.lnot BOARD_FLAGS_EP_PRESENT), s)
    else
      let c0 := peek s in
      let* s := advance s in
      let c1 := peek s in
      let* s := advance s in
      let square_str := String (chr c0) (String (chr c1) EmptyString) in
      let f := Z.lor f BOARD_FLAGS_EP_PRESENT in
      let* sq := board_pos_from_str square_str in
      Ret (Z.lor f (Z.land sq BOARD_FLAGS_EP_SQUARE), s) in
  let s := skip_spaces s in
  let* s := skip_non_spaces s in
  let s := skip_spaces s in
  let turn_count_str := fen_turn_chars 5 s in
  let turn_count := atoi turn_count_str in
  let f := Z.lor f (Z.land (Z.shiftl turn_count BOARD_FLAGS_TURN_NUM_SHIFT)
                           BOARD_FLAGS_TURN_NUM) in
  let b := set_flags b f in
  let* _ := assert (board_invariants b) in
  Ret b.

Definition board_castling_to_str (b : board) : string :=
  let put (flag : Z) (c : string) : string :=
    if truthy (Z.land (flags b) flag) then c else EmptyString in
  let s := (put BOARD_FLAGS_W_CASTLE_KING "K" ++ put BOARD_FLAGS_W_CASTLE_QUEEN "Q"
            ++ put BOARD_FLAGS_B_CASTLE_KING "k" ++ put BOARD_FLAGS_B_CASTLE_QUEEN "q")%string in
  match s with
  | EmptyString => "-"%string
  | _ => s
  end.

Definition board_ep_to_str (b : board) : res string :=
  if truthy (Z.land (flags b) BOARD_FLAGS_EP_PRESENT)
  then board_pos_to_str (Z.land (flags b) BOARD_FLAGS_EP_SQUARE)
  else Ret "-"%string.

(** The decimal digits of a non-negative [int], as ["%i"] prints them. *)
Fixpoint decimal_digits (n : nat) (v : Z) (acc : string) : string :=
  match n with
  | O => acc
  | S n' =>
      let acc := String (chr (code "0" + v mod 10)) acc in
      if v / 10 =? 0 then acc else decimal_digits n' (v / 10) acc
  end.

Fixpoint take_chars (n : nat) (s : string) : string :=
  match n, s with
  | S n', String c t => String c (take_chars n' t)
  | _, _ => EmptyString
  end.

(** [snprintf(str, size, "%i", v)] for [v >= 0]: at most [size - 1]
    characters are stored before the terminator. *)
Definition snprintf_int (size : nat) (v : Z) : string :=
  take_chars (size - 1) (decimal_digits 10 v EmptyString).

(** One rank of [board_to_fen_str]: the [x] loop, carrying
    [empty_counter]. *)
Fixpoint fen_emit_rank (n : nat) (b : board) (x y empty_counter : Z) : res string :=
  match n with
  | O =>
      if empty_counter >? 0 then
        let* _ := assert (empty_counter <=? 8) in
        Ret (String (chr (empty_counter + code "0")) EmptyString)
      else Ret EmptyString
  | S n' =>
      let* player := board_player_on_square b (board_pos_from_xy x y) in
      let* piece := board_piece_on_square b (board_pos_from_xy x y) in
      if player =? -1 then fen_emit_rank n' b (x + 1) y (empty_counter + 1)
      else
        let* digit :=
          if empty_counter >? 0 then
            let* _ := assert (empty_counter <=? 8) in
            Ret (String (chr (empty_counter + code "0")) EmptyString)
          else Ret EmptyString in
        let* c := board_piece_char_from_piece_player piece player in
        let* rest := fen_emit_rank n' b (x + 1) y 0 in
        Ret (digit ++ String (chr c) rest)%string
  end.

Fixpoint fen_emit_ranks (n : nat) (b : board) : res string :=
  match n with
  | O => Ret EmptyString
  | S n' =>
      let* r := fen_emit_rank 8 b 0 (Z.of_nat n') 0 in
      let* rest := fen_emit_ranks n' b in
      Ret (r ++ (if (Z.of_nat n' >? 0) then "/" else EmptyString) ++ rest)%string
  end.

Definition board_to_fen_str (b : board) : res string :=
  let* _ := assert (board_invariants b) in
  let* placement := fen_emit_ranks 8 b in
  let side : string := if board_player_to_move b =? WHITE then "w"%string else "b"%string in
  let* ep := board_ep_to_str b in
  Ret (placement ++ " " ++ side ++ " " ++ board_castling_to_str b ++ " " ++ ep
       ++ " " ++ "0" ++ " " ++ snprintf_int 4 (board_get_full_turn_number b))%string.

(** ** Moves as text *)

Definition promote_codes : list Z :=
  [code "k"; code "p"; code "n"; code "r"; code "b"; code "q"].

Definition move_to_str (mv : Z) : res string :=
  let* s := board_pos_to_str (move_source_square mv) in
  let* d := board_pos_to_str (move_destination_square mv) in
  if truthy (move_is_promotion mv) then
    let* c := rd promote_codes (move_promotion_piece mv) in
    Ret (s ++ d ++ String (chr c) EmptyString)%string
  else Ret (s ++ d)%string.

Definition is_castle_squares (src dst : Z) : bool :=
  ((src =? board_pos_from_xy 4 0)
   && ((dst =? board_pos_from_xy 2 0) || (dst =? board_pos_from_xy 6 0)))
  || ((src =? board_pos_from_xy 4 7)
      && ((dst =? board_pos_from_xy 2 7) || (dst =? board_pos_from_xy 6 7))).

(** [move_new].  The two early [return MOVE_END] statements are the [own]
    test and the [None] of the en-passant block. *)
Definition move_new (src dst is_promote promote_piece : Z) (b : board) : res Z :=
  let* capture_piece := board_piece_on_square b dst in
  let* own :=
    if negb (capture_piece =? -1) then
      let* owner := board_player_on_square b dst in
      Ret (owner =? board_player_to_move b)
    else Ret false in
  if own then Ret MOVE_END
  else
    let is_capture := if negb (capture_piece =? -1) then 1 else 0 in
    let capture_pos := if negb (capture_piece =? -1) then dst else BOARD_POS_INVALID in
    let* en_passant :=
      if dst =? board_get_en_passant_target b then
        let* p := board_piece_on_square b src in
        Ret (p =? PAWN)
      else Ret false in
    let* cap :=
      if en_passant then
        let* capture_pos :=
          en_passant_target_to_pawn_pos (board_get_en_passant_target b) in
        let* capture_piece := board_piece_on_square b capture_pos in
        if negb (capture_piece =? PAWN) then Ret None
        else Ret (Some (1, capture_piece, capture_pos))
      else Ret (Some (is_capture, capture_piece, capture_pos)) in
    match cap with
    | None => Ret MOVE_END
    | Some (is_capture, capture_piece, capture_pos) =>
        let* is_castle :=
          if is_castle_squares src dst then
            let* p := board_piece_on_square b src in
            Ret (if p =? KING then 1 else 0)
          else Ret 0 in
        Ret (construct_move (flags b) src dst is_promote promote_piece
                            is_capture capture_piece capture_pos is_castle)
    end.

Definition file_wellformed (file : Z) : bool :=
  ((file >=? code "a") && (file <=? code "h"))
  || ((file >=? code "A") && (file <=? code "H")).

Definition rank_wellformed (rank : Z) : bool :=
  (rank >=? code "1") && (rank <=? code "8").




(** The C string held by a [char[3]] buffer filled with two characters and
    a terminator: it ends at the first NUL. *)
Definition two_char_str (c0 c1 : Z) : string :=
  if c0 =? 0 then EmptyString
  else if c1 =? 0 then String (chr c0) EmptyString
  else String (chr c0) (String (chr c1) EmptyString).

(** The loop [for (p = 0; p < 6; p++) if (promote_codes[p] == c) promote_piece = p;]. *)
Fixpoint find_promote_code (codes : list Z) (c p found : Z) : Z :=
  match codes with
  | [] => found
  | k :: rest => find_promote_code rest c (p + 1) (if k =? c then p else found)
  end.

Definition move_from_str (move_str : string) (b : board) : res Z :=
  let* c0 := char_at move_str 0 in
  let* c1 := char_at move_str 1 in
  let src_str := two_char_str c0 c1 in
  let* c2 := char_at move_str 2 in
  let* c3 := char_at move_str 3 in
  let dst_str := two_char_str c2 c3 in
  let* c4 := char_at move_str 4 in
  let is_promote := if negb (c4 =? 0) then 1 else 0 in
  let promote_piece :=
    if negb (c4 =? 0) then find_promote_code promote_codes c4 0 (-1) else -1 in
  if negb (c4 =? 0) && (promote_piece =? -1) then Ret MOVE_END
  else
    let* src := board_pos_from_str src_str in
    let* dst := board_pos_from_str dst_str in
    move_new src dst is_promote promote_piece b.

(** ** Enumerating the legal moves *)

(** The client loop [while ((m = move_gen_next_move(&gen)) != MOVE_END)],
    collecting the moves; at most [n] moves are taken. *)
Fixpoint collect_moves (n : nat) (g : move_gen) (b : board)
  : res (list Z * move_gen * board) :=
  match n with
  | O => OutOfFuel
  | S n' =>
      let* '(m, g, b) := move_gen_next_move g b in
      if m =? MOVE_END then Ret ([], g, b)
      else
        let* '(ms, g, b) := collect_moves n' g b in
        Ret (m :: ms, g, b)
  end.

(** No position has more than 256 legal moves. *)
Definition MAX_MOVES : nat := 256.

Definition generate_moves (b : board) : res (list Z * move_gen * board) :=
  let* g := move_gen_init b in
  collect_moves MAX_MOVES g b.

Fixpoint moves_to_strs (ms : list Z) : res (list string) :=
  match ms with
  | [] => Ret []
  | m :: rest =>
      let* s := move_to_str m in
      let* r := moves_to_strs rest in
      Ret (s :: r)
  end.

(** The moves the generator emits for the position a FEN string describes,
    in the order of emission and as text, with the verdict it reaches. *)
Definition moves_of_fen (fen : string) : res (list string * Z) :=
  let* b := board_from_fen_str fen in
  let* '(ms, g, _) := generate_moves b in
  let* strs := moves_to_strs ms in
  Ret (strs, done g).

(** ** More of bitboard.c *)

Definition bitboard_flip_square (board square : Z) : res Z :=
  let* _ := assert (square <? 64) in
  Ret (Z.lxor board (Z.shiftl 1 square)).

(** The shifts work on [uint64_t]: what is shifted out at the top is lost. *)
Definition bitboard_shift_n (board : Z) : Z := Z.land (Z.shiftl board 8) U64_MAX.
Definition bitboard_shift_s (board : Z) : Z := Z.shiftr board 8.

Definition shift_w_mask : Z := 0xfefefefefefefefe.
Definition shift_e_mask : Z := 0x7f7f7f7f7f7f7f7f.

Definition bitboard_shift_w (board : Z) : Z :=
  Z.land (Z.land (Z.shiftl board 1) U64_MAX) shift_w_mask.
Definition bitboard_shift_e (board : Z) : Z :=
  Z.land (Z.shiftr board 1) shift_e_mask.

Definition bitboard_shift_nw (board : Z) : Z := bitboard_shift_w (bitboard_shift_n board).
Definition bitboard_shift_ne (board : Z) : Z := bitboard_shift_e (bitboard_shift_n board).
Definition bitboard_shift_sw (board : Z) : Z := bitboard_shift_w (bitboard_shift_s board).
Definition bitboard_shift_se (board : Z) : Z := bitboard_shift_e (bitboard_shift_s board).

(** ** Comparing moves and testing legality (move_gen.c) *)

Definition moves_equal (move0 move1 : Z) : Z :=
  if negb (Z.land move0 MOVE_FLAGS_PREV_FLAGS =? Z.land move1 MOVE_FLAGS_PREV_FLAGS)
  then 0
  else if negb (move_source_square move0 =? move_source_square move1)
          || negb (move_destination_square move0 =? move_destination_square move1)
  then 0
  else if negb (move_is_promotion move0 =? move_is_promotion move1)
          || (truthy (move_is_promotion move0)
              && negb (move_promotion_piece move0 =? move_promotion_piece move1))
  then 0
  else if negb (move_is_capture move0 =? move_is_capture move1)
          || (truthy (move_is_capture move0)
              && (negb (move_capture_piece move0 =? move_capture_piece move1)
                  || negb (move_capture_square move0 =? move_capture_square move1)))
  then 0
  else if negb (move_is_castle move0 =? move_is_castle move1) then 0
  else 1.

(** The loop of [move_is_legal]: the generator is advanced until it returns
    a move equal to [move_to_check] or [MOVE_END]; at most [n] calls. *)
Fixpoint move_is_legal_loop (n : nat) (move_to_check : Z) (g : move_gen) (b : board)
  : res (Z * board) :=
  match n with
  | O => OutOfFuel
  | S n' =>
      let* '(cur, g, b) := move_gen_next_move g b in
      if cur =? MOVE_END then Ret (0, b)
      else if truthy (moves_equal move_to_check cur) then Ret (1, b)
      else move_is_legal_loop n' move_to_check g b
  end.

(** [move_is_legal]; the board is reached through a pointer that is not
    [const], so the board the call leaves is returned with the answer. *)
Definition move_is_legal (move_to_check : Z) (b : board) : res (Z * board) :=
  if move_to_check =? MOVE_END then Ret (0, b)
  else
    let* g := move_gen_init b in
    move_is_legal_loop MAX_MOVES move_to_check g b.

(** * Vocabulary of the statements *)

(** A 64-bit value. *)
Definition u64 (x : Z) : Prop := 0 <= x < 2 ^ 64.

Definition setb (x s : Z) : Z := Z.lor x (Z.shiftl 1 s).
Definition clrb (x s : Z) : Z := Z.land x (Z.lnot (Z.shiftl 1 s)).

Definition get (a : list Z) (i : Z) : Z := nth (Z.to_nat i) a 0.
Definition upd (a : list Z) (i v : Z) : list Z := <[Z.to_nat i := v]> a.

Definition in_arr (a : list Z) (i : Z) : Prop := 0 <= i < Z.of_nat (length a).

(** With pairwise disjoint entries the entry holding a square is unique. *)
Definition disjoint_at (arr : list Z) (s : Z) : Prop :=
  forall i j, in_arr arr i -> in_arr arr j -> i <> j ->
    Z.testbit (get arr i) s = true -> Z.testbit (get arr j) s = false.

Definition mk_flags (lo hi : Z) : Z := lo + 65536 * hi.
Definition u16 (x : Z) : Prop := 0 <= x < 65536.
Definition u32 (x : Z) : Prop := 0 <= x < 2 ^ 32.

(** The value [construct_move] packs, as a sum of its fields. *)
Definition packed_move (lo src dst ip pp ic cp cpos cas : Z) : Z :=
  lo + 65536 * src + 4194304 * dst + 268435456 * ip + 536870912 * pp
  + 4294967296 * ic + 8589934592 * cp + 68719476736 * cpos
  + 4398046511104 * cas.

Definition tb (a : list Z) (k n : Z) : bool := Z.testbit (get a k) n.
Definition set_cell (a : list Z) (i s : Z) : list Z := upd a i (setb (get a i) s).
Definition clear_cell (a : list Z) (i s : Z) : list Z := upd a i (clrb (get a i) s).

Record board_typed (b : board) : Prop := {
  typed_players : length (players b) = 2%nat;
  typed_pieces : length (pieces b) = 6%nat;
  typed_players_u64 : Forall u64 (players b);
  typed_pieces_u64 : Forall u64 (pieces b);
  typed_flags : u32 (flags b)
}.

Definition u64b (x : Z) : bool := (0 <=? x) && (x <? 2 ^ 64).

Definition board_typedb (b : board) : bool :=
  (length (players b) =? 2)%nat && (length (pieces b) =? 6)%nat
  && forallb u64b (players b) && forallb u64b (pieces b)
  && (0 <=? flags b) && (flags b <? 2 ^ 32).

(** Every square of a piece bitboard is occupied by one of the players. *)
Definition occupancy (b : board) : Z := Z.lor (get (players b) 0) (get (players b) 1).

Definition pieces_ownedb (b : board) : bool :=
  forallb (fun p => Z.land p (Z.lnot (occupancy b)) =? 0) (pieces b).

Definition pieces_owned (b : board) : Prop :=
  forall k n, in_arr (pieces b) k -> 0 <= n ->
    tb (pieces b) k n = true -> Z.testbit (occupancy b) n = true.

(** Castling rights are the bits 8 to 11; clearing some of them is the only
    change [board_clear_castling] makes. *)
Definition castle_rights_cleared (f f' : Z) : Prop :=
  exists c, u16 c /\ (forall n, 0 <= n < 8 -> Z.testbit c n = false)
            /\ f' = Z.land f (Z.lnot c).

Definition same_arrays (b b' : board) : Prop :=
  players b' = players b /\ pieces b' = pieces b.

Definition castle_step (b b' : board) : Prop :=
  same_arrays b b' /\ castle_rights_cleared (flags b) (flags b').

Definition ep_ok (b : board) : bool :=
  if truthy (Z.land (flags b) BOARD_FLAGS_EP_PRESENT) then
    let y := Z.land (Z.shiftr (Z.land (flags b) BOARD_FLAGS_EP_SQUARE) 3) 7 in
    ((board_player_to_move b =? WHITE) && (y =? 5))
    || ((board_player_to_move b =? BLACK) && (y =? 2))
  else true.

(** The square a capture removes a piece from, as [board_make_move]
    determines it. *)
Definition make_capture_square (b : board) (mv dst : Z) : res Z :=
  let ep_target := board_get_en_passant_target b in
  if negb (ep_target =? BOARD_POS_INVALID) && (ep_target =? dst)
  then en_passant_target_to_pawn_pos ep_target
  else Ret (move_capture_square mv).

Definition moved (arr : list Z) (to_idx from_idx src dst : Z) : list Z :=
  clear_cell (set_cell arr to_idx dst) from_idx src.

Inductive regular_outcome
    (b : board) (mv src dst piece dst_piece player opponent : Z) (b' : board) : Prop :=
| ro_quiet :
    truthy (move_is_capture mv) = false ->
    tb (players b) opponent dst = false ->
    in_arr (pieces b) piece -> in_arr (pieces b) dst_piece ->
    players b' = moved (players b) player player src dst ->
    pieces b' = moved (pieces b) dst_piece piece src dst ->
    regular_outcome b mv src dst piece dst_piece player opponent b'
| ro_capture (cap_square cap_piece owner : Z) :
    truthy (move_is_capture mv) = true ->
    make_capture_square b mv dst = Ret cap_square ->
    0 <= cap_square < 64 ->
    board_piece_on_square b cap_square = Ret cap_piece ->
    in_arr (pieces b) cap_piece ->
    tb (pieces b) cap_piece cap_square = true ->
    cap_square <> src ->
    board_player_on_square b cap_square = Ret owner ->
    owner <> player ->
    in_arr (pieces b) piece -> in_arr (pieces b) dst_piece ->
    players b' = moved (clear_cell (players b) opponent cap_square) player player src dst ->
    pieces b' = moved (clear_cell (pieces b) cap_piece cap_square) dst_piece piece src dst ->
    regular_outcome b mv src dst piece dst_piece player opponent b'.

Definition is_double_push (piece src dst : Z) : bool :=
  (piece =? PAWN) && ((src - dst =? 16) || (dst - src =? 16)).

Definition ep_flags (f src dst : Z) : Z :=
  Z.lor (Z.land (Z.lor f BOARD_FLAGS_EP_PRESENT) (Z.lnot BOARD_FLAGS_EP_SQUARE))
        (Z.land (if dst >? src then Z.land (src + 8) 255 else Z.land (src - 8) 255)
                BOARD_FLAGS_EP_SQUARE).

Definition turn_flags (f d : Z) : Z :=
  Z.lor (Z.land f BOARD_FLAGS_LOW)
        (Z.land (Z.shiftl (Z.shiftr (Z.land f BOARD_FLAGS_TURN_NUM)
                                    BOARD_FLAGS_TURN_NUM_SHIFT + d)
                          BOARD_FLAGS_TURN_NUM_SHIFT)
                BOARD_FLAGS_TURN_NUM).

Definition make_flags (f piece src dst player : Z) : Z :=
  let f2 := Z.land f (Z.lnot BOARD_FLAGS_EP_PRESENT) in
  let f3 := if is_double_push piece src dst then ep_flags f2 src dst else f2 in
  let f4 := if player =? BLACK then turn_flags f3 1 else f3 in
  Z.lxor f4 BOARD_FLAGS_TURN.

Definition unmake_flags (f mv : Z) : Z :=
  let f1 := Z.lor (Z.land f (Z.lnot BOARD_FLAGS_LOW)) (Z.land mv MOVE_FLAGS_PREV_FLAGS) in
  if board_player_to_move (mkBoard [] [] f1) =? BLACK then turn_flags f1 (-1) else f1.

(** The piece placement step of [board_make_move]. *)
Definition make_placement (b : board) (mv piece : Z) : res board :=
  let src := move_source_square mv in
  let dst := move_destination_square mv in
  let dst_piece := if truthy (move_is_promotion mv) then move_promotion_piece mv else piece in
  let player := board_player_to_move b in
  if truthy (move_is_castle mv) then move_gen_make_castle b mv
  else make_regular_move b mv src dst piece dst_piece player (c_not player).

(** The assertion guarding the en-passant update. *)
Definition double_push_rank_ok (player src : Z) : bool :=
  ((player =? WHITE) && (src / 8 =? 1)) || ((player =? BLACK) && (src / 8 =? 6)).

Definition restored_low (f mv : Z) : Z :=
  Z.lor (Z.land f (Z.lnot BOARD_FLAGS_LOW)) (Z.land mv MOVE_FLAGS_PREV_FLAGS).

(** The array updates of [board_unmake_move]. *)
Definition unmake_arrays (b : board) (mv piece_dst player : Z)
  : res (list Z * list Z) :=
  let src := move_source_square mv in
  let dst := move_destination_square mv in
  let piece_src := if truthy (move_is_promotion mv) then PAWN else piece_dst in
  let opponent := c_not player in
  let* pc := arr_clear_square (pieces b) piece_dst dst in
  let* pl := arr_clear_square (players b) player dst in
  let* pc := arr_set_square pc piece_src src in
  let* pl := arr_set_square pl player src in
  let* '(pl, pc) :=
    if truthy (move_is_capture mv) then
      let cap_piece := move_capture_piece mv in
      let cap_square := move_capture_square mv in
      let* pc := arr_set_square pc cap_piece cap_square in
      let* pl := arr_set_square pl opponent cap_square in
      Ret (pl, pc)
    else Ret (pl, pc) in
  if truthy (move_is_castle mv) then
    let side := if board_pos_to_x dst =? 2 then QUEEN else KING in
    let rook_y := if player =? WHITE then 0 else 7 in
    let rook_src_x := if side =? QUEEN then 0 else 7 in
    let rook_dst_x := if side =? QUEEN then 3 else 5 in
    let rook_src := board_pos_from_xy rook_src_x rook_y in
    let rook_dst := board_pos_from_xy rook_dst_x rook_y in
    let* pl := arr_set_square pl player rook_src in
    let* pc := arr_set_square pc ROOK rook_src in
    let* pl := arr_clear_square pl player rook_dst in
    let* pc := arr_clear_square pc ROOK rook_dst in
    Ret (pl, pc)
  else Ret (pl, pc).

Definition restored_flags (f mv : Z) : Z :=
  let f1 := restored_low f mv in
  if (if truthy (Z.land f1 BOARD_FLAGS_TURN) then 1 else 0) =? BLACK
  then turn_flags f1 (-1) else f1.

Definition opponent_of (b : board) : Z := c_not (board_player_to_move b).

Inductive capture_shape (b : board) (mv dst piece : Z) : Prop :=
| cs_none :
    move_is_capture mv = 0 ->
    tb (players b) (opponent_of b) dst = false ->
    (piece = PAWN -> board_get_en_passant_target b <> dst) ->
    capture_shape b mv dst piece
| cs_plain (cp : Z) :
    move_is_capture mv = 1 ->
    move_capture_square mv = dst ->
    move_capture_piece mv = cp ->
    board_piece_on_square b dst = Ret cp ->
    tb (players b) (opponent_of b) dst = true ->
    (piece = PAWN -> board_get_en_passant_target b <> dst) ->
    capture_shape b mv dst piece
| cs_ep (cpos : Z) :
    move_is_capture mv = 1 ->
    piece = PAWN ->
    board_get_en_passant_target b = dst ->
    en_passant_target_to_pawn_pos dst = Ret cpos ->
    move_capture_square mv = cpos ->
    move_capture_piece mv = PAWN ->
    board_piece_on_square b cpos = Ret PAWN ->
    capture_shape b mv dst piece.

Record move_shape (b : board) (mv src dst piece : Z) : Prop := {
  ms_prev : Z.land mv MOVE_FLAGS_PREV_FLAGS = Z.land (flags b) BOARD_FLAGS_LOW;
  ms_src : move_source_square mv = src;
  ms_dst : move_destination_square mv = dst;
  ms_castle : move_is_castle mv = 0;
  ms_promo : move_is_promotion mv = 0
             \/ (move_is_promotion mv = 1 /\ piece = PAWN
                 /\ 0 <= move_promotion_piece mv < 6);
  ms_capture : capture_shape b mv dst piece
}.

Record mover_ok (b : board) (src dst piece : Z) : Prop := {
  mo_src : 0 <= src < 64;
  mo_dst : 0 <= dst < 64;
  mo_piece : 0 <= piece < 6;
  mo_piece_src : tb (pieces b) piece src = true;
  mo_player_src : tb (players b) (board_player_to_move b) src = true;
  mo_player_dst : tb (players b) (board_player_to_move b) dst = false
}.

Definition start_fen : string :=
  "rnbqkbnr/pppppppp/8/8/8/8/PPPPPPPP/RNBQKBNR w KQkq - 0 1".

(** The standard initial position, as [board_from_fen_str] builds it. *)
Definition initial_board : board :=
  mkBoard [0xffff; 0xffff000000000000]
          [0x1000000000000010; 0x00ff00000000ff00; 0x4200000000000042;
           0x8100000000000081; 0x2400000000000024; 0x0800000000000008]
          0x10f00.

Definition promotion_fen : string := "8/P7/8/8/8/8/8/k6K w - - 0 1".

Definition castle_fen : string := "r3k2r/8/8/8/8/8/4r3/R3K2R w KQkq - 0 1".

Definition stalemate_fen : string := "7k/5Q2/6K1/8/8/8/8/8 b - - 0 1".

(** The square [board_pos_from_str] computes from a file and a rank
    character. *)
Definition square_of_chars (file rank : Z) : Z :=
  board_pos_from_xy
    (if (file >=? code "a") && (file <=? code "h") then file - code "a"
     else file - code "A")
    (rank - code "1").

(** The position after 1998 plies of the knights g1 and g8 going to f3 and
    f6 and back: White to move in turn 1000, knights on f3 and f6. *)
Definition long_game_fen : string :=
  "rnbqkb1r/pppppppp/5n2/8/8/5N2/PPPPPPPP/RNBQKB1R w KQkq - 0 1000".

Definition lsb_index (m : Z) : Z :=
  match bitboard_scan_lsb m with
  | Ret d => d
  | _ => 64
  end.

(** Destinations are taken lowest square first: what is left of [cur_moves]
    lies above the square just taken. *)
Definition moves_rank (m : Z) : Z := if m =? 0 then 0 else 64 - lsb_index m.

Definition gen_measure (g : move_gen) : Z :=
  if cur_mode g =? MOVE_GEN_MODE_NORMAL then
    3 + 261 * (384 - (64 * cur_piece_type g + cur_square g))
    + 4 * moves_rank (cur_moves g) + (5 - cur_promotion g)
  else if cur_mode g =? MOVE_GEN_MODE_CASTLE_KING then 2
  else if cur_mode g =? MOVE_GEN_MODE_CASTLE_QUEEN then 1
  else 0.

Record gen_cursor (g : move_gen) : Prop := {
  gc_square : 0 <= cur_square g < 64;
  gc_piece : 0 <= cur_piece_type g < 6;
  gc_moves : u64 (cur_moves g)
}.

(** [n] is a destination the pawn table gives for a pawn of the player to
    move on [src]. *)
Definition pawn_reach (P : board) (occ_p src n : Z) : Prop :=
  exists m, pawn_move_lookup occ_p src (board_player_to_move P) = Ret m
            /\ Z.testbit m n = true.

Record gen_target (P : board) (g : move_gen) : Prop := {
  gt_piece_at : tb (pieces P) (cur_piece_type g) (cur_square g) = true;
  gt_player_at : tb (players P) (board_player_to_move P) (cur_square g) = true;
  gt_free : forall n, 0 <= n -> Z.testbit (cur_moves g) n = true ->
            tb (players P) (board_player_to_move P) n = false;
  gt_pawn : cur_piece_type g = PAWN ->
            forall n, 0 <= n -> Z.testbit (cur_moves g) n = true ->
            pawn_reach P (occupancy_for_pawns g) (cur_square g) n
}.

Record gen_inv (P : board) (g : move_gen) : Prop := {
  gi_sliders : occupancy_for_sliders g = occupancy P;
  gi_pawns : board_occupancy_for_pawns_lookups P = Ret (occupancy_for_pawns g);
  gi_final : final_moves_mask g
             = Z.land (Z.lnot (get (players P) (board_player_to_move P))) U64_MAX;
  gi_promo : 2 <= cur_promotion g <= 5;
  gi_cursor : cur_mode g = MOVE_GEN_MODE_NORMAL -> gen_cursor g;
  gi_target : cur_mode g = MOVE_GEN_MODE_NORMAL -> cur_moves g <> 0 -> gen_target P g
}.

(** A test that holds for each of the numbers [i .. i+n-1]. *)
Fixpoint holds_from (n : nat) (i : Z) (f : Z -> bool) : bool :=
  match n with
  | O => true
  | S n' => f i && holds_from n' (i + 1) f
  end.

(** A test that holds for each of the numbers [0 .. N-1]. *)
Definition holds_below (N : nat) (f : Z -> bool) : bool := holds_from N 0 f.

(** The fields [moves_equal] compares: the promotion piece only for a
    promotion, the captured piece and its square only for a capture. *)
Definition same_move_fields (a b : Z) : Prop :=
  Z.land a MOVE_FLAGS_PREV_FLAGS = Z.land b MOVE_FLAGS_PREV_FLAGS
  /\ move_source_square a = move_source_square b
  /\ move_destination_square a = move_destination_square b
  /\ move_is_promotion a = move_is_promotion b
  /\ (move_is_promotion a <> 0 -> move_promotion_piece a = move_promotion_piece b)
  /\ move_is_capture a = move_is_capture b
  /\ (move_is_capture a <> 0 ->
      move_capture_piece a = move_capture_piece b
      /\ move_capture_square a = move_capture_square b)
  /\ move_is_castle a = move_is_castle b.

(** The move a user enters for the king's pawn and the move the generator
    builds for it: different values, equal for [moves_equal]. *)
Definition e2e4_entered : Z :=
  Eval vm_compute in
    match move_from_str "e2e4" initial_board with Ret m => m | _ => MOVE_END end.

Definition e2e4_generated : Z :=
  Eval vm_compute in construct_move (flags initial_board) 12 28 0 KNIGHT 0 0 0 0.

(** The moves of the initial position, as the generator enumerates them. *)
Definition initial_moves : list Z :=
  Eval vm_compute in
    match generate_moves initial_board with Ret (ms, _, _) => ms | _ => [] end.

Definition after_e2e4 : board :=
  Eval vm_compute in
    match board_make_move initial_board e2e4_generated with
    | Ret b => b
    | _ => initial_board
    end.

(** The generator on the initial position with the destinations of the pawn
    a2 loaded. *)
Definition a2_cursor : move_gen :=
  mkGen 0xffff00000000ffff 0xffff00000000ffff 0xffffffffffff0000
        MOVE_GEN_MODE_NORMAL PAWN 8 KNIGHT 0x1010000 0 0.

(** Kings and rooks on their home squares, nothing between them. *)
Definition castle_board : board :=
  Eval vm_compute in
    match board_from_fen_str "r3k2r/8/8/8/8/8/8/R3K2R w KQkq - 0 1" with
    | Ret b => b
    | _ => initial_board
    end.

Definition castle_gen : move_gen :=
  Eval vm_compute in
    match move_gen_init castle_board with
    | Ret g => g
    | _ => mkGen 0 0 0 0 0 0 0 0 0 0
    end.

(** What [board_from_fen_str] reads from the turn counter
    [board_to_fen_str] wrote. *)
Definition turn_counter_read_back (v : Z) : Z :=
  atoi (fen_turn_chars 5 (snprintf_int 4 v)).

Definition pawn_dir (player : Z) : Z := if player =? WHITE then 1 else -1.

(** The test of one entry of the pawn table: a push needs the square ahead
    free, a push by two also the second square free and the pawn on its
    home rank. *)
Definition pawn_entry_pushes_ok (player double_ahead ahead pos : Z) : bool :=
  match move_gen_init_pawns_entry player double_ahead ahead pos with
  | Ret e =>
      implb (Z.testbit e (pos + 8 * pawn_dir player)) (negb (Z.testbit ahead 1))
      && implb (Z.testbit e (pos + 16 * pawn_dir player))
           (negb (Z.testbit ahead 1) && (double_ahead =? 0)
            && (pos / 8 =? (if player =? WHITE then 1 else 6)))
  | _ => true
  end.



(** The locals [y] and [dir] of [move_gen_castle], and the three squares
    its last loop tests: the king's square ([i = 0]), the square the king
    crosses ([i = 1]) and its destination ([i = 2]). *)
Definition home_rank (player : Z) : Z := if player =? WHITE then 0 else 7.
Definition castle_dir (side : Z) : Z := if side =? QUEEN then -1 else 1.
Definition castle_square (player side i : Z) : Z :=
  board_pos_from_xy (4 + i * castle_dir side) (home_rank player).

(** The generator [g'] and board [b'] a call leaves when it returns
    [MOVE_END], where [h] is [hit_move] at the start of the call. *)
Definition end_verdict (h : Z) (g' : move_gen) (b' : board) : Prop :=
  cur_mode g' = MOVE_GEN_MODE_END
  /\ ((h <> 0 /\ done g' = MOVE_DONE_NORMAL)
      \/ (h = 0
          /\ exists chk,
               board_player_in_check b' (board_player_to_move b') = Ret chk
               /\ done g' = if truthy chk then MOVE_DONE_CHECKMATE
                            else MOVE_DONE_STALEMATE)).

(** What a call of [move_gen_next] returns: a move, with [hit_move] set, or
    [MOVE_END], with [hit_move] as it was and the verdict. *)
Definition call_outcome (h : Z) (v : Z * move_gen * board) : Prop :=
  let '(m, g', b') := v in
  (m <> MOVE_END /\ hit_move g' = 1)
  \/ (m = MOVE_END /\ hit_move g' = h /\ end_verdict h g' b').

(** A generator initialised on [P] and advanced by calls of
    [move_gen_next] (of either client function), with the values the calls
    returned, oldest first. *)
Inductive gen_calls (P : board) : move_gen -> board -> list Z -> Prop :=
| calls_none g : move_gen_init P = Ret g -> gen_calls P g P []
| calls_more g b ms undo_moves m g' b' :
    gen_calls P g b ms ->
    move_gen_next g b undo_moves = Ret (m, g', b') ->
    gen_calls P g' b' (ms ++ [m]).

(** One of the values returned is a move. *)
Definition some_emitted (ms : list Z) : bool :=
  existsb (fun m => negb (m =? MOVE_END)) ms.

(** A pawn on a7 that can also capture a knight on b8. *)
Definition capture_promotion_fen : string := "1n5k/P7/8/8/8/8/8/7K w - - 0 1".

(** The test [is_promote] of [move_gen_next_from_cur_moves]: the piece is a
    pawn and the destination lies on the first or the last rank. *)
Definition is_promote_at (g : move_gen) (dst : Z) : bool :=
  (cur_piece_type g =? PAWN) && ((Z.shiftr dst 3 =? 0) || (Z.shiftr dst 3 =? 7)).

(** The position of [capture_promotion_fen], and the generator on it with
    the two destinations of the pawn a7 loaded (a8 and b8). *)
Definition capture_promotion_board : board :=
  mkBoard [281474976710784; 9367487224930631680]
          [9223372036854775936; 281474976710656; 144115188075855872; 0; 0; 0]
          65536.

Definition a7_cursor : move_gen :=
  mkGen 9367768699907342464 9367768699907342464 18446462598732840831
        MOVE_GEN_MODE_NORMAL PAWN 48 KNIGHT 216172782113783808 0 1.

(** The position of [castle_fen] with the black rook on f2, g2, d2 or b2
    instead of e2. *)
Definition rook_f2_fen : string := "r3k2r/8/8/8/8/8/5r2/R3K2R w KQkq - 0 1".
Definition rook_g2_fen : string := "r3k2r/8/8/8/8/8/6r1/R3K2R w KQkq - 0 1".
Definition rook_d2_fen : string := "r3k2r/8/8/8/8/8/3r4/R3K2R w KQkq - 0 1".
Definition rook_b2_fen : string := "r3k2r/8/8/8/8/8/1r6/R3K2R w KQkq - 0 1".

(** The castles of White among the moves emitted for a position. *)
Definition castles_of_fen (fen : string) : res (list string) :=
  let* '(strs, _) := moves_of_fen fen in
  Ret (List.filter (fun s => String.eqb s "e1g1" || String.eqb s "e1c1") strs).

(** The position of [rook_f2_fen] and the generator [move_gen_init] gives
    for it. *)
Definition rook_f2_board : board :=
  mkBoard [145; 10448351135499558912]
          [1152921504606846992; 0; 0; 9295429630892712065; 0; 0]
          69376.

Definition rook_f2_gen : move_gen :=
  mkGen 10448351135499559057 10448351135499559057 18446744073709551470
        MOVE_GEN_MODE_NORMAL 0 0 KNIGHT 0 0 0.

(** White is mated after 1. f3 e5 2. g4 Qh4. *)
Definition checkmate_fen : string :=
  "rnb1kbnr/pppp1ppp/8/4p3/6Pq/5P2/PPPPP2P/RNBQKBNR w KQkq - 1 3".

(** * Lemmas and theorems *)

(** * Reasoning about the error monad *)

Lemma bind_Ret_inv {A B : Type} (m : res A) (k : A -> res B) (v : B) :
  bind m k = Ret v -> exists a, m = Ret a /\ k a = Ret v.
Proof. destruct m as [a| |]; simpl; intros H; try discriminate. eauto. Qed.

Lemma assert_Ret_inv (c : bool) (u : unit) : assert c = Ret u -> c = true.
Proof. destruct c; simpl; [reflexivity | discriminate]. Qed.

Lemma assert_true (c : bool) : c = true -> assert c = Ret tt.
Proof. intros ->. reflexivity. Qed.

Lemma truthy_b2z (t : bool) : truthy (Z.b2z t) = t.
Proof. destruct t; reflexivity. Qed.

(** * Bitboard primitives *)

Lemma land_shiftr_1 (x s : Z) :
  0 <= s -> Z.land (Z.shiftr x s) 1 = Z.b2z (Z.testbit x s).
Proof.
  intros Hs. rewrite Z.testbit_spec' by assumption.
  change 1 with (Z.ones 1). rewrite Z.land_ones by lia.
  rewrite Z.shiftr_div_pow2 by assumption. reflexivity.
Qed.

Lemma testbit_one_shl (s n : Z) :
  0 <= s -> 0 <= n -> Z.testbit (Z.shiftl 1 s) n = (n =? s).
Proof.
  intros Hs Hn. rewrite Z.shiftl_1_l, Z.pow2_bits_eqb by assumption.
  apply Z.eqb_sym.
Qed.

Lemma testbit_set (x s n : Z) :
  0 <= s -> 0 <= n ->
  Z.testbit (Z.lor x (Z.shiftl 1 s)) n = (n =? s) || Z.testbit x n.
Proof.
  intros Hs Hn. rewrite Z.lor_spec, testbit_one_shl by assumption.
  apply orb_comm.
Qed.

Lemma testbit_clear (x s n : Z) :
  0 <= s -> 0 <= n ->
  Z.testbit (Z.land x (Z.lnot (Z.shiftl 1 s))) n = negb (n =? s) && Z.testbit x n.
Proof.
  intros Hs Hn. rewrite Z.land_spec, Z.lnot_spec, testbit_one_shl by assumption.
  apply andb_comm.
Qed.

Lemma u64_testbit_high (x n : Z) : u64 x -> 64 <= n -> Z.testbit x n = false.
Proof.
  intros [H0 H1] Hn. destruct (Z.eq_dec x 0) as [->|Hx]; [apply Z.bits_0|].
  apply Z.bits_above_log2; [lia|].
  apply Z.lt_le_trans with 64; [|assumption].
  apply Z.log2_lt_pow2; lia.
Qed.

Lemma u64_of_bits (x : Z) :
  0 <= x -> (forall n, 64 <= n -> Z.testbit x n = false) -> u64 x.
Proof.
  intros H0 H. split; [assumption|].
  destruct (Z.eq_dec x 0) as [->|Hx]; [lia|].
  apply Z.log2_lt_pow2; [lia|].
  destruct (Z_lt_le_dec (Z.log2 x) 64) as [Hl|Hl]; [assumption|].
  specialize (H (Z.log2 x) Hl). rewrite Z.bit_log2 in H by lia. discriminate.
Qed.

Lemma testbit_setb (x s n : Z) :
  0 <= s -> 0 <= n -> Z.testbit (setb x s) n = (n =? s) || Z.testbit x n.
Proof. apply testbit_set. Qed.

Lemma testbit_clrb (x s n : Z) :
  0 <= s -> 0 <= n -> Z.testbit (clrb x s) n = negb (n =? s) && Z.testbit x n.
Proof. apply testbit_clear. Qed.

Lemma setb_nonneg (x s : Z) : 0 <= x -> 0 <= s -> 0 <= setb x s.
Proof.
  intros Hx Hs. unfold setb. apply Z.lor_nonneg. split; [assumption|].
  apply Z.shiftl_nonneg. lia.
Qed.

Lemma clrb_nonneg (x s : Z) : 0 <= x -> 0 <= clrb x s.
Proof. intros Hx. unfold clrb. apply Z.land_nonneg. left. assumption. Qed.

Lemma u64_setb (x s : Z) : u64 x -> 0 <= s < 64 -> u64 (setb x s).
Proof.
  intros Hx Hs. apply u64_of_bits.
  - apply setb_nonneg; [apply Hx | lia].
  - intros n Hn. rewrite testbit_setb by lia.
    rewrite (u64_testbit_high x n Hx Hn).
    destruct (Z.eqb_spec n s); [lia | reflexivity].
Qed.

Lemma u64_clrb (x s : Z) : u64 x -> 0 <= s -> u64 (clrb x s).
Proof.
  intros Hx Hs. apply u64_of_bits.
  - apply clrb_nonneg, Hx.
  - intros n Hn. rewrite testbit_clrb by lia.
    rewrite (u64_testbit_high x n Hx Hn). apply andb_false_r.
Qed.

Lemma u64_land_l (x y : Z) : u64 x -> u64 (Z.land x y).
Proof.
  intros Hx. apply u64_of_bits.
  - apply Z.land_nonneg. left. apply Hx.
  - intros n Hn. rewrite Z.land_spec, (u64_testbit_high x n Hx Hn). reflexivity.
Qed.

Lemma u64_land_r (x y : Z) : u64 y -> u64 (Z.land x y).
Proof. rewrite Z.land_comm. apply u64_land_l. Qed.

Lemma u64_lor (x y : Z) : u64 x -> u64 y -> u64 (Z.lor x y).
Proof.
  intros Hx Hy. apply u64_of_bits.
  - apply Z.lor_nonneg. split; [apply Hx | apply Hy].
  - intros n Hn.
    rewrite Z.lor_spec, (u64_testbit_high x n Hx Hn), (u64_testbit_high y n Hy Hn).
    reflexivity.
Qed.

Lemma u64_0 : u64 0.
Proof. split; [lia | reflexivity]. Qed.

Lemma u64_max : u64 U64_MAX.
Proof. split; [discriminate | reflexivity]. Qed.

Lemma testbit_U64_MAX (n : Z) : 0 <= n -> Z.testbit U64_MAX n = (n <? 64).
Proof.
  intros Hn. change U64_MAX with (Z.ones 64).
  destruct (Z.ltb_spec n 64).
  - apply Z.ones_spec_low. lia.
  - apply Z.ones_spec_high. lia.
Qed.

Lemma bitboard_check_square_Ret (x s : Z) :
  0 <= s < 64 -> bitboard_check_square x s = Ret (Z.b2z (Z.testbit x s)).
Proof.
  intros [H0 H1]. unfold bitboard_check_square.
  rewrite assert_true by (apply Z.ltb_lt; assumption). simpl.
  rewrite land_shiftr_1 by assumption. reflexivity.
Qed.

Lemma bitboard_set_square_Ret (x s : Z) :
  s < 64 -> bitboard_set_square x s = Ret (setb x s).
Proof.
  intros H1. unfold bitboard_set_square.
  rewrite assert_true by (apply Z.ltb_lt; assumption). reflexivity.
Qed.

Lemma bitboard_clear_square_Ret (x s : Z) :
  s < 64 -> bitboard_clear_square x s = Ret (clrb x s).
Proof.
  intros H1. unfold bitboard_clear_square.
  rewrite assert_true by (apply Z.ltb_lt; assumption). reflexivity.
Qed.

Lemma bitboard_check_square_inv (x s c : Z) :
  0 <= s -> bitboard_check_square x s = Ret c ->
  s < 64 /\ c = Z.b2z (Z.testbit x s).
Proof.
  intros H0 H. unfold bitboard_check_square in H.
  apply bind_Ret_inv in H. destruct H as (u & Ha & H).
  apply assert_Ret_inv, Z.ltb_lt in Ha. split; [assumption|].
  rewrite land_shiftr_1 in H by assumption. congruence.
Qed.

Lemma bitboard_set_square_inv (x s v : Z) :
  bitboard_set_square x s = Ret v -> s < 64 /\ v = setb x s.
Proof.
  intros H. unfold bitboard_set_square in H.
  apply bind_Ret_inv in H. destruct H as (u & Ha & H).
  apply assert_Ret_inv, Z.ltb_lt in Ha. split; [assumption|].
  simpl in H. injection H as <-. reflexivity.
Qed.

Lemma bitboard_clear_square_inv (x s v : Z) :
  bitboard_clear_square x s = Ret v -> s < 64 /\ v = clrb x s.
Proof.
  intros H. unfold bitboard_clear_square in H.
  apply bind_Ret_inv in H. destruct H as (u & Ha & H).
  apply assert_Ret_inv, Z.ltb_lt in Ha. split; [assumption|].
  simpl in H. injection H as <-. reflexivity.
Qed.

(** * Arrays *)

Lemma rd_Ret (a : list Z) (i : Z) : in_arr a i -> rd a i = Ret (get a i).
Proof.
  intros [H0 H1]. unfold rd, get.
  destruct (Z.ltb_spec i 0); [lia|].
  rewrite nth_lookup.
  destruct (a !! Z.to_nat i) eqn:E; [reflexivity|].
  apply lookup_ge_None in E. lia.
Qed.

Lemma rd_inv (a : list Z) (i v : Z) : rd a i = Ret v -> in_arr a i /\ v = get a i.
Proof.
  unfold rd, get, in_arr. destruct (Z.ltb_spec i 0); [discriminate|].
  rewrite nth_lookup.
  destruct (a !! Z.to_nat i) eqn:E; [|discriminate].
  intros [= ->]. apply lookup_lt_Some in E. split; [lia | reflexivity].
Qed.

Lemma wr_Ret (a : list Z) (i v : Z) : in_arr a i -> wr a i v = Ret (upd a i v).
Proof.
  intros [H0 H1]. unfold wr, upd.
  destruct (Z.leb_spec 0 i); [|lia]. destruct (Z.ltb_spec i (Z.of_nat (length a))); [|lia].
  reflexivity.
Qed.

Lemma wr_inv (a : list Z) (i v : Z) (a' : list Z) :
  wr a i v = Ret a' -> in_arr a i /\ a' = upd a i v.
Proof.
  unfold wr, upd, in_arr.
  destruct (Z.leb_spec 0 i); simpl; [|discriminate].
  destruct (Z.ltb_spec i (Z.of_nat (length a))); [|discriminate].
  intros [= <-]. split; [lia | reflexivity].
Qed.

Lemma length_upd (a : list Z) (i v : Z) : length (upd a i v) = length a.
Proof. apply length_insert. Qed.

Lemma in_arr_upd (a : list Z) (i v j : Z) : in_arr (upd a i v) j <-> in_arr a j.
Proof. unfold in_arr. rewrite length_upd. reflexivity. Qed.

Lemma get_upd (a : list Z) (i v j : Z) :
  in_arr a i -> 0 <= j -> get (upd a i v) j = if j =? i then v else get a j.
Proof.
  intros [H0 H1] Hj. unfold get, upd. rewrite !nth_lookup.
  destruct (Z.eqb_spec j i) as [->|Hne].
  - rewrite list_lookup_insert_eq by lia. reflexivity.
  - rewrite list_lookup_insert_ne by lia. reflexivity.
Qed.

Lemma list_eq_get (a a' : list Z) :
  length a = length a' ->
  (forall i, in_arr a i -> get a i = get a' i) -> a = a'.
Proof.
  intros Hl H. apply (nth_ext a a' 0 0 Hl).
  intros n Hn. specialize (H (Z.of_nat n)). unfold get in H.
  rewrite Nat2Z.id in H. apply H. unfold in_arr. lia.
Qed.

Lemma Forall_get (P : Z -> Prop) (a : list Z) (i : Z) :
  Forall P a -> in_arr a i -> P (get a i).
Proof.
  intros HF [H0 H1]. unfold get. rewrite Forall_forall in HF.
  apply HF. apply list_elem_of_In, nth_In. lia.
Qed.

Lemma Forall_upd (P : Z -> Prop) (a : list Z) (i v : Z) :
  Forall P a -> P v -> Forall P (upd a i v).
Proof. intros HF Hv. unfold upd. apply Forall_insert; assumption. Qed.

Lemma arr_set_square_Ret (a : list Z) (i s : Z) :
  in_arr a i -> s < 64 ->
  arr_set_square a i s = Ret (upd a i (setb (get a i) s)).
Proof.
  intros Hi Hs. unfold arr_set_square. rewrite rd_Ret by assumption. simpl.
  rewrite bitboard_set_square_Ret by assumption. simpl.
  apply wr_Ret. assumption.
Qed.

Lemma arr_clear_square_Ret (a : list Z) (i s : Z) :
  in_arr a i -> s < 64 ->
  arr_clear_square a i s = Ret (upd a i (clrb (get a i) s)).
Proof.
  intros Hi Hs. unfold arr_clear_square. rewrite rd_Ret by assumption. simpl.
  rewrite bitboard_clear_square_Ret by assumption. simpl.
  apply wr_Ret. assumption.
Qed.

Lemma arr_set_square_inv (a : list Z) (i s : Z) (a' : list Z) :
  arr_set_square a i s = Ret a' ->
  in_arr a i /\ s < 64 /\ a' = upd a i (setb (get a i) s).
Proof.
  unfold arr_set_square. intros H.
  apply bind_Ret_inv in H. destruct H as (v & Hr & H).
  apply bind_Ret_inv in H. destruct H as (w & Hs & H).
  apply rd_inv in Hr. destruct Hr as [Hi ->].
  apply bitboard_set_square_inv in Hs. destruct Hs as [Hs ->].
  apply wr_inv in H. destruct H as [_ ->]. auto.
Qed.

Lemma arr_clear_square_inv (a : list Z) (i s : Z) (a' : list Z) :
  arr_clear_square a i s = Ret a' ->
  in_arr a i /\ s < 64 /\ a' = upd a i (clrb (get a i) s).
Proof.
  unfold arr_clear_square. intros H.
  apply bind_Ret_inv in H. destruct H as (v & Hr & H).
  apply bind_Ret_inv in H. destruct H as (w & Hs & H).
  apply rd_inv in Hr. destruct Hr as [Hi ->].
  apply bitboard_clear_square_inv in Hs. destruct Hs as [Hs ->].
  apply wr_inv in H. destruct H as [_ ->]. auto.
Qed.

(** * The first array entry holding a square *)

Lemma first_with_square_total (arr : list Z) (s p : Z) :
  0 <= s < 64 -> exists k, first_with_square arr s p = Ret k.
Proof.
  intros Hs. revert p. induction arr as [|x arr IH]; intros p; simpl.
  - eauto.
  - rewrite bitboard_check_square_Ret by assumption. simpl.
    rewrite truthy_b2z. destruct (Z.testbit x s); eauto.
Qed.

Lemma first_with_square_spec (arr : list Z) (s p k : Z) :
  0 <= s < 64 -> 0 <= p ->
  first_with_square arr s p = Ret k ->
  (k = -1 /\ forall j, (j < length arr)%nat -> Z.testbit (nth j arr 0) s = false)
  \/ (exists j, k = p + Z.of_nat j /\ (j < length arr)%nat
                /\ Z.testbit (nth j arr 0) s = true
                /\ forall j', (j' < j)%nat -> Z.testbit (nth j' arr 0) s = false).
Proof.
  intros Hs. revert p. induction arr as [|x arr IH]; intros p Hp; simpl.
  - intros [= <-]. left. split; [reflexivity|]. intros j Hj. lia.
  - rewrite bitboard_check_square_Ret by assumption. simpl.
    rewrite truthy_b2z. destruct (Z.testbit x s) eqn:E.
    + intros [= <-]. right. exists 0%nat. simpl. repeat split; try lia. assumption.
    + intros H. apply IH in H; [|lia]. destruct H as [[-> H]|(j & -> & Hj & Ht & Hlt)].
      * left. split; [reflexivity|]. intros [|j] Hj; [assumption|]. apply H. lia.
      * right. exists (S j). repeat split; try lia; [assumption|].
        intros [|j'] Hj'; [assumption|]. apply Hlt. lia.
Qed.

Lemma first_with_square_found (arr : list Z) (s k : Z) :
  0 <= s < 64 -> first_with_square arr s 0 = Ret k -> k <> -1 ->
  in_arr arr k /\ Z.testbit (get arr k) s = true.
Proof.
  intros Hs H Hk. apply first_with_square_spec in H; [|assumption|lia].
  destruct H as [[-> _]|(j & -> & Hj & Ht & _)]; [contradiction|].
  rewrite Z.add_0_l. unfold in_arr, get. rewrite Nat2Z.id.
  split; [lia | assumption].
Qed.

Lemma first_with_square_none (arr : list Z) (s i : Z) :
  0 <= s < 64 -> first_with_square arr s 0 = Ret (-1) ->
  in_arr arr i -> Z.testbit (get arr i) s = false.
Proof.
  intros Hs H [Hi0 Hi1]. apply first_with_square_spec in H; [|assumption|lia].
  destruct H as [[_ H]|(j & E & _)]; [|lia].
  unfold get. apply H. lia.
Qed.

Lemma first_with_square_unique (arr : list Z) (s k : Z) :
  0 <= s < 64 -> disjoint_at arr s -> in_arr arr k ->
  Z.testbit (get arr k) s = true ->
  first_with_square arr s 0 = Ret k.
Proof.
  intros Hs Hd Hk Ht.
  destruct (first_with_square_total arr s 0 Hs) as [k' Hk'].
  rewrite Hk'. f_equal.
  destruct (Z.eq_dec k' (-1)) as [->|Hne].
  - rewrite (first_with_square_none arr s k Hs Hk' Hk) in Ht. discriminate.
  - destruct (first_with_square_found arr s k' Hs Hk' Hne) as [Hin Ht'].
    destruct (Z.eq_dec k' k) as [|Hkk]; [assumption|].
    rewrite (Hd k' k Hin Hk Hkk Ht') in Ht. discriminate.
Qed.

Lemma land_0_testbit (x y s : Z) :
  Z.land x y = 0 -> Z.testbit x s = true -> Z.testbit y s = false.
Proof.
  intros H Hx. assert (E : Z.testbit (Z.land x y) s = false) by (rewrite H; apply Z.bits_0).
  rewrite Z.land_spec, Hx in E. exact E.
Qed.

Lemma pieces_disjoint_spec (ps : list Z) :
  length ps = 6%nat -> pieces_disjoint ps = true ->
  forall i j, in_arr ps i -> in_arr ps j -> i <> j ->
    Z.land (get ps i) (get ps j) = 0.
Proof.
  intros Hl H i j [Hi0 Hi1] [Hj0 Hj1] Hne. unfold pieces_disjoint in H.
  rewrite Hl in Hi1, Hj1.
  rewrite forallb_forall in H.
  assert (Hin : forall n, (n < 6)%nat -> In n (seq 0 6)).
  { intros n Hn. apply in_seq. lia. }
  assert (Hi : (Z.to_nat i < 6)%nat) by lia.
  assert (Hj : (Z.to_nat j < 6)%nat) by lia.
  specialize (H (Z.to_nat i) (Hin _ Hi)). rewrite forallb_forall in H.
  specialize (H (Z.to_nat j) (Hin _ Hj)).
  apply orb_true_iff in H. destruct H as [H|H].
  - apply Nat.eqb_eq in H. lia.
  - apply Z.eqb_eq in H. exact H.
Qed.

Lemma pieces_disjoint_at (ps : list Z) (s : Z) :
  length ps = 6%nat -> pieces_disjoint ps = true -> disjoint_at ps s.
Proof.
  intros Hl H i j Hi Hj Hne Ht.
  apply (land_0_testbit (get ps i)); [|assumption].
  apply pieces_disjoint_spec; assumption.
Qed.

Lemma pieces_disjoint_intro (ps : list Z) :
  (forall i j, 0 <= i < 6 -> 0 <= j < 6 -> i <> j ->
     Z.land (get ps i) (get ps j) = 0) ->
  pieces_disjoint ps = true.
Proof.
  intros H. unfold pieces_disjoint. apply forallb_forall. intros i Hi.
  apply forallb_forall. intros j Hj. apply in_seq in Hi, Hj.
  destruct (Nat.eqb_spec i j) as [|Hne]; [reflexivity|]. simpl.
  apply Z.eqb_eq. specialize (H (Z.of_nat i) (Z.of_nat j)).
  unfold get in H. rewrite !Nat2Z.id in H. apply H; lia.
Qed.

(** * Lowest set bit and population count *)

Lemma ctz_pos_nonneg (p : positive) : 0 <= ctz_pos p.
Proof. induction p; simpl; lia. Qed.

Lemma ctz_pos_testbit (p : positive) : Z.testbit (Zpos p) (ctz_pos p) = true.
Proof.
  induction p as [p IH|p IH|]; simpl ctz_pos; try reflexivity.
  pose proof (ctz_pos_nonneg p).
  change (Zpos p~0) with (2 * Zpos p).
  replace (1 + ctz_pos p) with (Z.succ (ctz_pos p)) by lia.
  rewrite Z.testbit_even_succ by assumption. exact IH.
Qed.

Lemma ctz_pos_lowest (p : positive) (n : Z) :
  0 <= n < ctz_pos p -> Z.testbit (Zpos p) n = false.
Proof.
  revert n. induction p as [p IH|p IH|]; simpl ctz_pos; intros n Hn; try lia.
  change (Zpos p~0) with (2 * Zpos p).
  destruct (Z.eq_dec n 0) as [->|Hne].
  - apply Z.testbit_even_0.
  - replace n with (Z.succ (n - 1)) by lia.
    rewrite Z.testbit_even_succ by lia. apply IH. lia.
Qed.

Lemma bitboard_scan_lsb_spec (x s : Z) :
  bitboard_scan_lsb x = Ret s ->
  0 <= s /\ Z.testbit x s = true /\ forall n, 0 <= n < s -> Z.testbit x n = false.
Proof.
  destruct x as [|p|p]; simpl; try discriminate. intros [= <-].
  split; [apply ctz_pos_nonneg|]. split; [apply ctz_pos_testbit|].
  apply ctz_pos_lowest.
Qed.

Lemma bitboard_scan_lsb_Ret (x : Z) :
  0 < x -> exists s, bitboard_scan_lsb x = Ret s.
Proof. destruct x; try lia. intros _. simpl. eauto. Qed.

Lemma testbit_true_u64 (x s : Z) : u64 x -> 0 <= s -> Z.testbit x s = true -> s < 64.
Proof.
  intros Hx Hs Ht. destruct (Z_lt_le_dec s 64) as [|Hge]; [assumption|].
  rewrite (u64_testbit_high x s Hx Hge) in Ht. discriminate.
Qed.

Lemma popcount_pos_pos (p : positive) : 1 <= popcount_pos p.
Proof. induction p; simpl; lia. Qed.

Lemma popcount_pos_one (p : positive) :
  popcount_pos p = 1 -> Zpos p = 2 ^ ctz_pos p.
Proof.
  induction p as [p IH|p IH|]; simpl; intros H.
  - pose proof (popcount_pos_pos p). lia.
  - pose proof (ctz_pos_nonneg p).
    rewrite Z.pow_add_r by lia. rewrite <- IH by assumption. reflexivity.
  - reflexivity.
Qed.

Lemma bitboard_popcount_one (x : Z) :
  bitboard_popcount x = 1 ->
  exists s, 0 <= s /\ bitboard_scan_lsb x = Ret s /\ x = 2 ^ s.
Proof.
  destruct x as [|p|p]; simpl; try discriminate. intros H.
  exists (ctz_pos p). split; [apply ctz_pos_nonneg|]. split; [reflexivity|].
  apply popcount_pos_one. assumption.
Qed.

Lemma bitboard_popcount_pow2 (s : Z) : 0 <= s -> bitboard_popcount (2 ^ s) = 1.
Proof.
  intros Hs. pattern s. apply natlike_ind; [reflexivity| |assumption].
  intros n Hn IH. rewrite Z.pow_succ_r by assumption.
  assert (Hp : 0 < 2 ^ n) by (apply Z.pow_pos_nonneg; lia).
  destruct (2 ^ n) as [|p|p]; try lia. exact IH.
Qed.

Lemma testbit_pow2 (s n : Z) : 0 <= s -> 0 <= n -> Z.testbit (2 ^ s) n = (n =? s).
Proof. intros Hs Hn. rewrite Z.pow2_bits_eqb by assumption. apply Z.eqb_sym. Qed.

(** A value with exactly the bit [s] set. *)
Lemma bits_single (x s : Z) :
  0 <= s -> (forall n, 0 <= n -> Z.testbit x n = (n =? s)) -> x = 2 ^ s.
Proof.
  intros Hs H. apply Z.bits_inj'. intros n Hn.
  rewrite H, testbit_pow2 by assumption. reflexivity.
Qed.

(** * Bits of the constants *)

Lemma testbit_ones (k n : Z) : 0 <= k -> 0 <= n -> Z.testbit (Z.ones k) n = (n <? k).
Proof.
  intros Hk Hn. destruct (Z.ltb_spec n k).
  - apply Z.ones_spec_low. lia.
  - apply Z.ones_spec_high. lia.
Qed.

Lemma testbit_63 n : 0 <= n -> Z.testbit 63 n = (n <? 6).
Proof. apply (testbit_ones 6). lia. Qed.
Lemma testbit_7 n : 0 <= n -> Z.testbit 7 n = (n <? 3).
Proof. apply (testbit_ones 3). lia. Qed.
Lemma testbit_255 n : 0 <= n -> Z.testbit 255 n = (n <? 8).
Proof. apply (testbit_ones 8). lia. Qed.
Lemma testbit_65535 n : 0 <= n -> Z.testbit 65535 n = (n <? 16).
Proof. apply (testbit_ones 16). lia. Qed.
Lemma testbit_64 n : 0 <= n -> Z.testbit 64 n = (n =? 6).
Proof. apply (testbit_pow2 6). lia. Qed.
Lemma testbit_128 n : 0 <= n -> Z.testbit 128 n = (n =? 7).
Proof. apply (testbit_pow2 7). lia. Qed.
Lemma testbit_256 n : 0 <= n -> Z.testbit 256 n = (n =? 8).
Proof. apply (testbit_pow2 8). lia. Qed.
Lemma testbit_512 n : 0 <= n -> Z.testbit 512 n = (n =? 9).
Proof. apply (testbit_pow2 9). lia. Qed.
Lemma testbit_1024 n : 0 <= n -> Z.testbit 1024 n = (n =? 10).
Proof. apply (testbit_pow2 10). lia. Qed.
Lemma testbit_2048 n : 0 <= n -> Z.testbit 2048 n = (n =? 11).
Proof. apply (testbit_pow2 11). lia. Qed.
Lemma testbit_turn_num n :
  0 <= n -> Z.testbit 4294901760 n = (16 <=? n) && (n <? 32).
Proof.
  intros Hn. change 4294901760 with (Z.shiftl (Z.ones 16) 16).
  destruct (Z.leb_spec 16 n).
  - rewrite Z.shiftl_spec, testbit_ones by lia. simpl.
    destruct (Z.ltb_spec (n - 16) 16), (Z.ltb_spec n 32); try reflexivity; lia.
  - rewrite Z.shiftl_spec_low by lia. reflexivity.
Qed.

#[export] Hint Rewrite Z.lor_spec Z.land_spec Z.lxor_spec : flagbits.
#[export] Hint Rewrite Z.lnot_spec testbit_63 testbit_7 testbit_255 testbit_65535 testbit_64
  testbit_128 testbit_256 testbit_512 testbit_1024 testbit_2048 testbit_turn_num
  using lia : flagbits.

(** Case analysis on every comparison of the bit index that occurs in the
    goal. *)
Ltac cmp_cases :=
  repeat match goal with
         | |- context [?a =? ?b] => destruct (Z.eqb_spec a b)
         | |- context [?a <? ?b] => destruct (Z.ltb_spec a b)
         | |- context [?a <=? ?b] => destruct (Z.leb_spec a b)
         end.

(** Evaluate the comparisons between numerals. *)
Ltac eval_cmp :=
  repeat match goal with
         | |- context [Z.eqb ?a ?b] =>
             let v := eval cbv in (Z.eqb a b) in
             match v with
             | true => change (Z.eqb a b) with true
             | false => change (Z.eqb a b) with false
             end
         | |- context [Z.ltb ?a ?b] =>
             let v := eval cbv in (Z.ltb a b) in
             match v with
             | true => change (Z.ltb a b) with true
             | false => change (Z.ltb a b) with false
             end
         | |- context [Z.leb ?a ?b] =>
             let v := eval cbv in (Z.leb a b) in
             match v with
             | true => change (Z.leb a b) with true
             | false => change (Z.leb a b) with false
             end
         end;
  repeat (progress (rewrite ?andb_false_r, ?andb_true_r, ?orb_false_r, ?orb_true_r,
                      ?xorb_false_r;
                    cbn [andb orb negb xorb])).

Ltac bool_cases :=
  repeat match goal with
         | |- context [Z.testbit ?a ?b] => destruct (Z.testbit a b)
         end.

(** Equality of flag words, bit by bit. *)
Ltac flagbits :=
  apply Z.bits_inj'; let n := fresh "n" in let Hn := fresh "Hn" in
  intros n Hn; autorewrite with flagbits;
  cmp_cases; try lia; simpl; bool_cases; try reflexivity; try lia.

(** * The two halves of the flags word *)

Lemma u16_testbit_high (x n : Z) : u16 x -> 16 <= n -> Z.testbit x n = false.
Proof.
  intros [H0 H1] Hn. destruct (Z.eq_dec x 0) as [->|Hx]; [apply Z.bits_0|].
  apply Z.bits_above_log2; [assumption|].
  apply Z.lt_le_trans with 16; [|assumption].
  apply Z.log2_lt_pow2; [lia | exact H1].
Qed.

Lemma u16_of_bits (x : Z) :
  0 <= x -> (forall n, 16 <= n -> Z.testbit x n = false) -> u16 x.
Proof.
  intros H0 H. split; [assumption|].
  destruct (Z.eq_dec x 0) as [->|Hx]; [lia|].
  change 65536 with (2 ^ 16). apply Z.log2_lt_pow2; [lia|].
  destruct (Z_lt_le_dec (Z.log2 x) 16) as [Hl|Hl]; [assumption|].
  specialize (H (Z.log2 x) Hl). rewrite Z.bit_log2 in H by lia. discriminate.
Qed.

Lemma mk_flags_lor (lo hi : Z) : u16 lo -> mk_flags lo hi = Z.lor lo (Z.shiftl hi 16).
Proof.
  intros Hlo. unfold mk_flags.
  assert (Hd : Z.land lo (Z.shiftl hi 16) = 0).
  { apply Z.bits_inj'. intros k Hk. rewrite Z.land_spec, Z.bits_0.
    destruct (Z.ltb_spec k 16).
    - rewrite Z.shiftl_spec_low by lia. apply andb_false_r.
    - rewrite (u16_testbit_high lo k) by assumption. reflexivity. }
  rewrite <- Z.lxor_lor by assumption.
  rewrite <- Z.add_nocarry_lxor by assumption.
  rewrite Z.shiftl_mul_pow2 by lia. change (2 ^ 16) with 65536. lia.
Qed.

Lemma testbit_mk_flags (lo hi n : Z) :
  u16 lo -> 0 <= n ->
  Z.testbit (mk_flags lo hi) n = if n <? 16 then Z.testbit lo n else Z.testbit hi (n - 16).
Proof.
  intros Hlo Hn. rewrite mk_flags_lor, Z.lor_spec by assumption.
  destruct (Z.ltb_spec n 16).
  - rewrite Z.shiftl_spec_low by lia. apply orb_false_r.
  - rewrite Z.shiftl_spec by lia.
    rewrite (u16_testbit_high lo n) by assumption. reflexivity.
Qed.

Lemma u32_mk_flags (lo hi : Z) : u16 lo -> u16 hi -> u32 (mk_flags lo hi).
Proof. unfold u16, u32, mk_flags. change (2 ^ 32) with 4294967296. lia. Qed.

Lemma mk_flags_inj (lo hi lo' hi' : Z) :
  u16 lo -> u16 lo' -> mk_flags lo hi = mk_flags lo' hi' -> lo = lo' /\ hi = hi'.
Proof. unfold u16, mk_flags. lia. Qed.

Lemma u16_land_l (x y : Z) : u16 x -> u16 (Z.land x y).
Proof.
  intros Hx. apply u16_of_bits.
  - apply Z.land_nonneg. left. apply Hx.
  - intros n Hn. rewrite Z.land_spec, (u16_testbit_high x n Hx Hn). reflexivity.
Qed.

Lemma u16_land_r (x y : Z) : u16 y -> u16 (Z.land x y).
Proof. rewrite Z.land_comm. apply u16_land_l. Qed.

Lemma u16_lor (x y : Z) : u16 x -> u16 y -> u16 (Z.lor x y).
Proof.
  intros Hx Hy. apply u16_of_bits.
  - apply Z.lor_nonneg. split; [apply Hx | apply Hy].
  - intros n Hn.
    rewrite Z.lor_spec, (u16_testbit_high x n Hx Hn), (u16_testbit_high y n Hy Hn).
    reflexivity.
Qed.

Lemma u16_lxor (x y : Z) : u16 x -> u16 y -> u16 (Z.lxor x y).
Proof.
  intros Hx Hy. apply u16_of_bits.
  - apply Z.lxor_nonneg. split; intros _; [apply Hy | apply Hx].
  - intros n Hn.
    rewrite Z.lxor_spec, (u16_testbit_high x n Hx Hn), (u16_testbit_high y n Hy Hn).
    reflexivity.
Qed.

(** Every flags word splits into its two halves. *)
Lemma flags_split (f : Z) :
  u32 f -> f = mk_flags (Z.land f 65535) (Z.shiftr f 16)
           /\ u16 (Z.land f 65535) /\ u16 (Z.shiftr f 16).
Proof.
  intros [H0 H1]. change 65535 with (Z.ones 16).
  rewrite Z.land_ones, Z.shiftr_div_pow2 by lia.
  unfold mk_flags, u16. change (2 ^ 16) with 65536 in *.
  change (2 ^ 32) with 4294967296 in H1.
  pose proof (Z.div_mod f 65536 ltac:(lia)).
  pose proof (Z.mod_pos_bound f 65536 ltac:(lia)).
  assert (0 <= f / 65536 < 65536).
  { split; [apply Z.div_pos; lia | apply Z.div_lt_upper_bound; lia]. }
  lia.
Qed.

(** Operations on the low half leave the high half alone. *)
Lemma mk_flags_land_low (lo hi c : Z) :
  u16 lo -> u16 c -> Z.land (mk_flags lo hi) c = Z.land lo c.
Proof.
  intros Hlo Hc. apply Z.bits_inj'. intros n Hn.
  rewrite !Z.land_spec, testbit_mk_flags by assumption.
  destruct (Z.ltb_spec n 16); [reflexivity|].
  rewrite (u16_testbit_high c n), (u16_testbit_high lo n) by assumption.
  rewrite andb_false_r. reflexivity.
Qed.

Lemma mk_flags_land_lnot (lo hi c : Z) :
  u16 lo -> u16 c ->
  Z.land (mk_flags lo hi) (Z.lnot c) = mk_flags (Z.land lo (Z.lnot c)) hi.
Proof.
  intros Hlo Hc. apply Z.bits_inj'. intros n Hn.
  rewrite Z.land_spec, !testbit_mk_flags, Z.lnot_spec; try assumption.
  - destruct (Z.ltb_spec n 16).
    + rewrite Z.land_spec, Z.lnot_spec by assumption. reflexivity.
    + rewrite (u16_testbit_high c n) by assumption. apply andb_true_r.
  - apply u16_land_l. assumption.
Qed.

Lemma mk_flags_lor_low (lo hi c : Z) :
  u16 lo -> u16 c -> Z.lor (mk_flags lo hi) c = mk_flags (Z.lor lo c) hi.
Proof.
  intros Hlo Hc. apply Z.bits_inj'. intros n Hn.
  rewrite Z.lor_spec, !testbit_mk_flags; try assumption.
  - destruct (Z.ltb_spec n 16).
    + rewrite Z.lor_spec. reflexivity.
    + rewrite (u16_testbit_high c n) by assumption. apply orb_false_r.
  - apply u16_lor; assumption.
Qed.

Lemma mk_flags_lxor_low (lo hi c : Z) :
  u16 lo -> u16 c -> Z.lxor (mk_flags lo hi) c = mk_flags (Z.lxor lo c) hi.
Proof.
  intros Hlo Hc. apply Z.bits_inj'. intros n Hn.
  rewrite Z.lxor_spec, !testbit_mk_flags; try assumption.
  - destruct (Z.ltb_spec n 16).
    + rewrite Z.lxor_spec. reflexivity.
    + rewrite (u16_testbit_high c n) by assumption. apply xorb_false_r.
  - apply u16_lxor; assumption.
Qed.

Lemma mk_flags_low (lo hi : Z) : u16 lo -> Z.land (mk_flags lo hi) 65535 = lo.
Proof.
  intros Hlo. rewrite mk_flags_land_low by (assumption || (split; lia)).
  change 65535 with (Z.ones 16). rewrite Z.land_ones by lia.
  apply Z.mod_small. exact Hlo.
Qed.

Lemma mk_flags_turn (lo hi : Z) :
  u16 lo -> u16 hi ->
  Z.shiftr (Z.land (mk_flags lo hi) 4294901760) 16 = hi.
Proof.
  intros Hlo Hhi. apply Z.bits_inj'. intros n Hn.
  rewrite Z.shiftr_spec, Z.land_spec, testbit_mk_flags, testbit_turn_num
    by (try assumption; lia).
  destruct (Z.ltb_spec (n + 16) 16); [lia|].
  replace (n + 16 - 16) with n by lia.
  destruct (Z.leb_spec 16 (n + 16)); [|lia]. simpl.
  destruct (Z.ltb_spec (n + 16) 32); [apply andb_true_r|].
  rewrite (u16_testbit_high hi n) by (assumption || lia). reflexivity.
Qed.

(** Storing a turn number keeps its low sixteen bits. *)
Lemma mk_flags_set_turn (f t : Z) :
  u32 f ->
  Z.lor (Z.land f 65535) (Z.land (Z.shiftl t 16) 4294901760)
  = mk_flags (Z.land f 65535) (t mod 65536).
Proof.
  intros Hf. destruct (flags_split f Hf) as (_ & Hlo & _).
  apply Z.bits_inj'. intros n Hn.
  rewrite Z.lor_spec, testbit_mk_flags, (Z.land_spec (Z.shiftl t 16)),
    testbit_turn_num by (try assumption; lia).
  destruct (Z.ltb_spec n 16).
  - rewrite Z.shiftl_spec_low by lia. simpl. apply orb_false_r.
  - rewrite (u16_testbit_high _ n Hlo) by assumption.
    rewrite Z.shiftl_spec by lia. simpl.
    destruct (Z.leb_spec 16 n); [|lia]. simpl.
    change 65536 with (2 ^ 16).
    destruct (Z.ltb_spec n 32).
    + rewrite Z.mod_pow2_bits_low by lia. apply andb_true_r.
    + rewrite Z.mod_pow2_bits_high by lia. apply andb_false_r.
Qed.

(** * The move encoding *)

Lemma to_u64_small (v : Z) : u64 v -> to_u64 v = v.
Proof.
  intros Hv. unfold to_u64. change U64_MAX with (Z.ones 64).
  rewrite Z.land_ones by lia. apply Z.mod_small. exact Hv.
Qed.

Lemma shl64_small (v k : Z) :
  0 <= k -> 0 <= v -> v * 2 ^ k < 2 ^ 64 -> shl64 v k = v * 2 ^ k.
Proof.
  intros Hk Hv Hlt. unfold shl64. change U64_MAX with (Z.ones 64).
  rewrite Z.land_ones, Z.shiftl_mul_pow2 by lia. apply Z.mod_small.
  split; [|assumption]. apply Z.mul_nonneg_nonneg; [assumption|].
  apply Z.pow_nonneg. lia.
Qed.

(** A field of width [w] at bit [k]: its mask is [Z.ones w] shifted. *)
Lemma field_store (v w k : Z) :
  0 <= k -> 0 <= w -> k + w <= 64 -> 0 <= v < 2 ^ w ->
  Z.land (shl64 (to_u64 v) k) (Z.shiftl (Z.ones w) k) = v * 2 ^ k.
Proof.
  intros Hk Hw Hkw Hv.
  assert (Hpw : 2 ^ w * 2 ^ k <= 2 ^ 64).
  { rewrite <- Z.pow_add_r by lia. apply Z.pow_le_mono_r; lia. }
  assert (Hpk : 0 < 2 ^ k) by (apply Z.pow_pos_nonneg; lia).
  assert (H64 : 2 ^ w <= 2 ^ 64) by (apply Z.pow_le_mono_r; lia).
  rewrite to_u64_small by (unfold u64; lia).
  rewrite shl64_small by (try lia; nia).
  rewrite <- Z.shiftl_mul_pow2 by lia. rewrite <- Z.shiftl_land.
  rewrite Z.land_ones by lia. rewrite Z.mod_small by lia. reflexivity.
Qed.

Lemma field_load (m w k : Z) :
  0 <= k -> 0 <= w ->
  Z.shiftr (Z.land m (Z.shiftl (Z.ones w) k)) k = (m / 2 ^ k) mod 2 ^ w.
Proof.
  intros Hk Hw. rewrite Z.shiftr_land, Z.shiftr_shiftl_l, Z.sub_diag by lia.
  rewrite Z.shiftl_0_r, Z.land_ones, Z.shiftr_div_pow2 by lia. reflexivity.
Qed.

Lemma flag_load (m k : Z) :
  0 <= k -> truthy (Z.land m (2 ^ k)) = Z.testbit m k.
Proof.
  intros Hk. unfold truthy.
  destruct (Z.testbit m k) eqn:E.
  - apply negb_true_iff, Z.eqb_neq. intros H.
    assert (E' : Z.testbit (Z.land m (2 ^ k)) k = false) by (rewrite H; apply Z.bits_0).
    rewrite Z.land_spec, E, testbit_pow2, Z.eqb_refl in E' by lia. discriminate.
  - apply negb_false_iff, Z.eqb_eq. apply Z.bits_inj'. intros n Hn.
    rewrite Z.land_spec, Z.bits_0, testbit_pow2 by lia.
    destruct (Z.eqb_spec n k) as [->|]; [rewrite E|]; apply andb_false_r || reflexivity.
Qed.

Lemma testbit_div_mod (m k : Z) :
  0 <= k -> Z.b2z (Z.testbit m k) = (m / 2 ^ k) mod 2.
Proof. apply Z.testbit_spec'. Qed.

Lemma b2i_range (c : bool) : 0 <= b2i c < 2.
Proof. destruct c; simpl; lia. Qed.

Lemma construct_move_packed (f src dst ip pp ic cp cpos cas : Z) :
  0 <= src < 64 -> 0 <= dst < 64 -> 0 <= pp < 8 -> 0 <= cp < 8 ->
  0 <= cpos < 64 ->
  construct_move f src dst ip pp ic cp cpos cas
  = packed_move (Z.land f 65535) src dst (b2i (negb (ip =? 0))) pp
                (b2i (negb (ic =? 0))) cp cpos (b2i (negb (cas =? 0))).
Proof.
  intros Hsrc Hdst Hpp Hcp Hcpos. unfold construct_move.
  assert (Hlo : u16 (Z.land f 65535)) by (apply u16_land_r; split; lia).
  pose proof (b2i_range (negb (ip =? 0))) as Hip.
  pose proof (b2i_range (negb (ic =? 0))) as Hic.
  pose proof (b2i_range (negb (cas =? 0))) as Hcas.
  set (lo := Z.land f 65535) in *.
  set (ipb := b2i (negb (ip =? 0))) in *.
  set (icb := b2i (negb (ic =? 0))) in *.
  set (casb := b2i (negb (cas =? 0))) in *.
  assert (E0 : Z.land (to_u64 lo) MOVE_FLAGS_PREV_FLAGS = lo).
  { rewrite to_u64_small by (unfold u64, u16 in *; lia).
    change MOVE_FLAGS_PREV_FLAGS with (Z.ones 16). rewrite Z.land_ones by lia.
    apply Z.mod_small. exact Hlo. }
  assert (E1 : Z.land (shl64 (to_u64 src) MOVE_SHIFT_SRC) MOVE_FLAGS_SRC = src * 2 ^ 16).
  { apply (field_store src 6 16); lia. }
  assert (E2 : Z.land (shl64 (to_u64 dst) MOVE_SHIFT_DST) MOVE_FLAGS_DST = dst * 2 ^ 22).
  { apply (field_store dst 6 22); lia. }
  assert (E3 : shl64 ipb MOVE_SHIFT_IS_PROMOTE = ipb * 2 ^ 28).
  { apply shl64_small; unfold MOVE_SHIFT_IS_PROMOTE; lia. }
  assert (E4 : Z.land (shl64 (to_u64 pp) MOVE_SHIFT_PROMOTE_PIECE) MOVE_FLAGS_PROMOTE_PIECE
               = pp * 2 ^ 29).
  { apply (field_store pp 3 29); lia. }
  assert (E5 : shl64 icb MOVE_SHIFT_IS_CAPTURE = icb * 2 ^ 32).
  { apply shl64_small; unfold MOVE_SHIFT_IS_CAPTURE; lia. }
  assert (E6 : Z.land (shl64 (to_u64 cp) MOVE_SHIFT_CAPTURE_PIECE) MOVE_FLAGS_CAPTURE_PIECE
               = cp * 2 ^ 33).
  { apply (field_store cp 3 33); lia. }
  assert (E7 : Z.land (shl64 (to_u64 cpos) MOVE_SHIFT_CAPTURE_SQUARE) MOVE_FLAGS_CAPTURE_SQUARE
               = cpos * 2 ^ 36).
  { apply (field_store cpos 6 36); lia. }
  assert (E8 : Z.land (shl64 casb MOVE_SHIFTS_IS_CASTLE) MOVE_FLAGS_IS_CASTLE = casb * 2 ^ 42).
  { rewrite <- (to_u64_small casb) at 1 by (unfold u64; lia).
    apply (field_store casb 1 42); lia. }
  rewrite E0, E1, E2, E3, E4, E5, E6, E7, E8.
  change U64_MAX with (Z.ones 64). rewrite Z.land_ones by lia.
  unfold packed_move. unfold u16 in Hlo.
  rewrite Z.mod_small; [lia|].
  change (2 ^ 16) with 65536. change (2 ^ 22) with 4194304.
  change (2 ^ 28) with 268435456. change (2 ^ 29) with 536870912.
  change (2 ^ 32) with 4294967296. change (2 ^ 33) with 8589934592.
  change (2 ^ 36) with 68719476736. change (2 ^ 42) with 4398046511104.
  change (2 ^ 64) with 18446744073709551616. lia.
Qed.

Section PackedMove.
Variables lo src dst ip pp ic cp cpos cas : Z.
Hypothesis Hlo : u16 lo.
Hypothesis Hsrc : 0 <= src < 64.
Hypothesis Hdst : 0 <= dst < 64.
Hypothesis Hip : 0 <= ip < 2.
Hypothesis Hpp : 0 <= pp < 8.
Hypothesis Hic : 0 <= ic < 2.
Hypothesis Hcp : 0 <= cp < 8.
Hypothesis Hcpos : 0 <= cpos < 64.
Hypothesis Hcas : 0 <= cas < 2.

Let m : Z := packed_move lo src dst ip pp ic cp cpos cas.

Ltac field_arith :=
  unfold m, packed_move; unfold u16 in Hlo;
  Z.div_mod_to_equations; lia.

Lemma packed_nonneg : 0 <= m < 2 ^ 43.
Proof. change (2 ^ 43) with 8796093022208. unfold m, packed_move. unfold u16 in Hlo. lia. Qed.

Lemma packed_not_end : m <> MOVE_END.
Proof. pose proof packed_nonneg as H. change (2 ^ 43) with 8796093022208 in H.
       unfold MOVE_END. lia. Qed.

Lemma packed_prev_flags : Z.land m MOVE_FLAGS_PREV_FLAGS = lo.
Proof.
  change MOVE_FLAGS_PREV_FLAGS with (Z.ones 16). rewrite Z.land_ones by lia.
  change (2 ^ 16) with 65536. field_arith.
Qed.

Lemma packed_source : move_source_square m = src.
Proof.
  unfold move_source_square.
  change MOVE_FLAGS_SRC with (Z.shiftl (Z.ones 6) 16). unfold MOVE_SHIFT_SRC.
  rewrite field_load by lia. change (2 ^ 16) with 65536. change (2 ^ 6) with 64.
  field_arith.
Qed.

Lemma packed_destination : move_destination_square m = dst.
Proof.
  unfold move_destination_square.
  change MOVE_FLAGS_DST with (Z.shiftl (Z.ones 6) 22). unfold MOVE_SHIFT_DST.
  rewrite field_load by lia. change (2 ^ 22) with 4194304. change (2 ^ 6) with 64.
  field_arith.
Qed.

Lemma packed_bit (k : Z) (v : Z) :
  0 <= k -> 0 <= v < 2 -> (m / 2 ^ k) mod 2 = v ->
  truthy (Z.land m (2 ^ k)) = negb (v =? 0).
Proof.
  intros Hk Hv E. rewrite flag_load by assumption.
  pose proof (testbit_div_mod m k Hk) as Hb. rewrite E in Hb.
  destruct (Z.testbit m k); simpl in Hb; rewrite <- Hb; reflexivity.
Qed.

Lemma packed_is_promotion : move_is_promotion m = ip.
Proof.
  unfold move_is_promotion. change MOVE_FLAGS_IS_PROMOTE with (2 ^ 28).
  rewrite (packed_bit 28 ip) by (try lia; change (2 ^ 28) with 268435456; field_arith).
  destruct (Z.eqb_spec ip 0); simpl; lia.
Qed.

Lemma packed_promotion_piece : ip = 1 -> move_promotion_piece m = pp.
Proof.
  intros E. unfold move_promotion_piece. rewrite packed_is_promotion, E. simpl.
  change MOVE_FLAGS_PROMOTE_PIECE with (Z.shiftl (Z.ones 3) 29).
  unfold MOVE_SHIFT_PROMOTE_PIECE.
  rewrite field_load by lia. change (2 ^ 29) with 536870912. change (2 ^ 3) with 8.
  field_arith.
Qed.

Lemma packed_is_capture : move_is_capture m = ic.
Proof.
  unfold move_is_capture. change MOVE_FLAGS_IS_CAPTURE with (2 ^ 32).
  rewrite (packed_bit 32 ic) by (try lia; change (2 ^ 32) with 4294967296; field_arith).
  destruct (Z.eqb_spec ic 0); simpl; lia.
Qed.

Lemma packed_capture_piece : ic = 1 -> move_capture_piece m = cp.
Proof.
  intros E. unfold move_capture_piece. rewrite packed_is_capture, E. simpl.
  change MOVE_FLAGS_CAPTURE_PIECE with (Z.shiftl (Z.ones 3) 33).
  unfold MOVE_SHIFT_CAPTURE_PIECE.
  rewrite field_load by lia. change (2 ^ 33) with 8589934592. change (2 ^ 3) with 8.
  field_arith.
Qed.

Lemma packed_capture_square : ic = 1 -> move_capture_square m = cpos.
Proof.
  intros E. unfold move_capture_square. rewrite packed_is_capture, E. simpl.
  change MOVE_FLAGS_CAPTURE_SQUARE with (Z.shiftl (Z.ones 6) 36).
  unfold MOVE_SHIFT_CAPTURE_SQUARE.
  rewrite field_load by lia. change (2 ^ 36) with 68719476736. change (2 ^ 6) with 64.
  field_arith.
Qed.

Lemma packed_is_castle : move_is_castle m = cas.
Proof.
  unfold move_is_castle.
  change MOVE_FLAGS_IS_CASTLE with (Z.shiftl (Z.ones 1) 42).
  unfold MOVE_SHIFTS_IS_CASTLE.
  rewrite field_load by lia. change (2 ^ 42) with 4398046511104. change (2 ^ 1) with 2.
  field_arith.
Qed.
End PackedMove.

(** * Cells: one square of one array entry *)

Lemma length_set_cell a i s : length (set_cell a i s) = length a.
Proof. apply length_upd. Qed.
Lemma length_clear_cell a i s : length (clear_cell a i s) = length a.
Proof. apply length_upd. Qed.

Lemma in_arr_set_cell a i s j : in_arr (set_cell a i s) j <-> in_arr a j.
Proof. apply in_arr_upd. Qed.
Lemma in_arr_clear_cell a i s j : in_arr (clear_cell a i s) j <-> in_arr a j.
Proof. apply in_arr_upd. Qed.

Lemma tb_set_cell a i s k n :
  in_arr a i -> 0 <= s -> 0 <= k -> 0 <= n ->
  tb (set_cell a i s) k n = ((k =? i) && (n =? s)) || tb a k n.
Proof.
  intros Hi Hs Hk Hn. unfold tb, set_cell. rewrite get_upd by assumption.
  destruct (Z.eqb_spec k i) as [->|]; [|reflexivity].
  rewrite testbit_setb by assumption. reflexivity.
Qed.

Lemma tb_clear_cell a i s k n :
  in_arr a i -> 0 <= s -> 0 <= k -> 0 <= n ->
  tb (clear_cell a i s) k n = negb ((k =? i) && (n =? s)) && tb a k n.
Proof.
  intros Hi Hs Hk Hn. unfold tb, clear_cell. rewrite get_upd by assumption.
  destruct (Z.eqb_spec k i) as [->|]; [|reflexivity].
  rewrite testbit_clrb by assumption. reflexivity.
Qed.

Lemma arr_eq_cells (a a' : list Z) :
  length a = length a' ->
  (forall k n, in_arr a k -> 0 <= n -> tb a k n = tb a' k n) -> a = a'.
Proof.
  intros Hl H. apply list_eq_get; [assumption|]. intros k Hk.
  apply Z.bits_inj'. intros n Hn. apply H; assumption.
Qed.

Lemma Forall_u64_set_cell a i s :
  Forall u64 a -> in_arr a i -> 0 <= s < 64 -> Forall u64 (set_cell a i s).
Proof.
  intros HF Hi Hs. apply Forall_upd; [assumption|].
  apply u64_setb; [|assumption]. apply Forall_get; assumption.
Qed.

Lemma Forall_u64_clear_cell a i s :
  Forall u64 a -> in_arr a i -> 0 <= s -> Forall u64 (clear_cell a i s).
Proof.
  intros HF Hi Hs. apply Forall_upd; [assumption|].
  apply u64_clrb; [|assumption]. apply Forall_get; assumption.
Qed.

Lemma arr_set_square_cell (a : list Z) (i s : Z) :
  in_arr a i -> s < 64 -> arr_set_square a i s = Ret (set_cell a i s).
Proof. apply arr_set_square_Ret. Qed.

Lemma arr_clear_square_cell (a : list Z) (i s : Z) :
  in_arr a i -> s < 64 -> arr_clear_square a i s = Ret (clear_cell a i s).
Proof. apply arr_clear_square_Ret. Qed.

Lemma arr_set_square_cell_inv (a : list Z) (i s : Z) (a' : list Z) :
  arr_set_square a i s = Ret a' -> in_arr a i /\ s < 64 /\ a' = set_cell a i s.
Proof. apply arr_set_square_inv. Qed.

Lemma arr_clear_square_cell_inv (a : list Z) (i s : Z) (a' : list Z) :
  arr_clear_square a i s = Ret a' -> in_arr a i /\ s < 64 /\ a' = clear_cell a i s.
Proof. apply arr_clear_square_inv. Qed.

(** * Well-typed boards *)

Lemma u64b_spec x : u64b x = true <-> u64 x.
Proof. unfold u64b, u64. rewrite andb_true_iff, Z.leb_le, Z.ltb_lt. reflexivity. Qed.

Lemma forallb_u64b l : forallb u64b l = true <-> Forall u64 l.
Proof.
  rewrite forallb_forall, Forall_forall. split; intros H x Hx.
  - apply u64b_spec, H, list_elem_of_In, Hx.
  - apply u64b_spec, H, list_elem_of_In, Hx.
Qed.

Lemma board_typedb_spec b : board_typedb b = true <-> board_typed b.
Proof.
  unfold board_typedb. rewrite !andb_true_iff, !forallb_u64b, !Nat.eqb_eq, Z.leb_le, Z.ltb_lt.
  split.
  - intros (((((H1 & H2) & H3) & H4) & H5) & H6). constructor; try assumption. split; assumption.
  - intros [H1 H2 H3 H4 [H5 H6]]. tauto.
Qed.

Lemma pieces_ownedb_spec b : pieces_ownedb b = true <-> pieces_owned b.
Proof.
  unfold pieces_ownedb, pieces_owned. rewrite forallb_forall. split.
  - intros H k n Hk Hn Ht.
    assert (Hin : In (get (pieces b) k) (pieces b)).
    { unfold get. apply nth_In. unfold in_arr in Hk. lia. }
    specialize (H _ Hin). apply Z.eqb_eq in H.
    assert (E : Z.testbit (Z.land (get (pieces b) k) (Z.lnot (occupancy b))) n = false)
      by (rewrite H; apply Z.bits_0).
    unfold tb in Ht. rewrite Z.land_spec, Z.lnot_spec, Ht in E by assumption.
    simpl in E. apply negb_false_iff in E. exact E.
  - intros H p Hp. apply Z.eqb_eq. apply Z.bits_inj'. intros n Hn.
    rewrite Z.land_spec, Z.lnot_spec, Z.bits_0 by assumption.
    apply In_nth with (d := 0) in Hp. destruct Hp as (i & Hi & <-).
    destruct (Z.testbit (nth i (pieces b) 0) n) eqn:E; [|reflexivity].
    specialize (H (Z.of_nat i) n). unfold tb, get in H. rewrite Nat2Z.id in H.
    rewrite H; [reflexivity | unfold in_arr; lia | assumption | assumption].
Qed.

Lemma testbit_occupancy b n :
  Z.testbit (occupancy b) n = tb (players b) 0 n || tb (players b) 1 n.
Proof. unfold occupancy, tb. apply Z.lor_spec. Qed.

(** * Flags of a board *)

Lemma truthy_land_pow2 (f k : Z) :
  0 <= k -> truthy (Z.land f (2 ^ k)) = Z.testbit f k.
Proof. apply flag_load. Qed.

Lemma board_player_to_move_bit (b : board) :
  board_player_to_move b = Z.b2z (Z.testbit (flags b) 7).
Proof.
  unfold board_player_to_move, BOARD_FLAGS_TURN. change 128 with (2 ^ 7).
  rewrite truthy_land_pow2 by lia. destruct (Z.testbit (flags b) 7); reflexivity.
Qed.

Lemma board_player_to_move_range (b : board) :
  board_player_to_move b = 0 \/ board_player_to_move b = 1.
Proof. rewrite board_player_to_move_bit. destruct (Z.testbit _ _); auto. Qed.

Lemma c_not_player (p : Z) : p = 0 \/ p = 1 -> c_not p = 1 - p.
Proof. intros [->| ->]; reflexivity. Qed.

Lemma crc_refl f : castle_rights_cleared f f.
Proof.
  exists 0. split; [split; lia|]. split; [intros; apply Z.bits_0|].
  change (Z.lnot 0) with (-1). rewrite Z.land_m1_r. reflexivity.
Qed.

Lemma crc_trans f f' f'' :
  castle_rights_cleared f f' -> castle_rights_cleared f' f'' ->
  castle_rights_cleared f f''.
Proof.
  intros (c & Hc & Hlow & ->) (c' & Hc' & Hlow' & ->).
  exists (Z.lor c c'). split; [apply u16_lor; assumption|]. split.
  - intros n Hn. rewrite Z.lor_spec, Hlow, Hlow' by assumption. reflexivity.
  - apply Z.bits_inj'. intros n Hn.
    rewrite !Z.land_spec, !Z.lnot_spec, Z.lor_spec by assumption.
    rewrite negb_orb. symmetry. apply andb_assoc.
Qed.

Lemma crc_clear (f flag : Z) :
  flag = 256 \/ flag = 512 \/ flag = 1024 \/ flag = 2048 ->
  castle_rights_cleared f (Z.land f (Z.lnot flag)).
Proof.
  intros H. exists flag. split; [unfold u16; lia|]. split; [|reflexivity].
  intros n Hn.
  destruct H as [->|[->|[->| ->]]]; autorewrite with flagbits;
    apply Z.eqb_neq; lia.
Qed.

Lemma crc_land (f f' x : Z) :
  castle_rights_cleared f f' -> 0 <= x < 256 -> Z.land f' x = Z.land f x.
Proof.
  intros (c & Hc & Hlow & ->) Hx. apply Z.bits_inj'. intros n Hn.
  rewrite !Z.land_spec, Z.lnot_spec by assumption.
  destruct (Z_lt_le_dec n 8).
  - rewrite Hlow by lia. simpl. rewrite andb_true_r. reflexivity.
  - assert (Z.testbit x n = false) as ->; [|rewrite !andb_false_r; reflexivity].
    destruct (Z.eq_dec x 0) as [->|]; [apply Z.bits_0|].
    apply Z.bits_above_log2; [lia|].
    apply Z.lt_le_trans with 8; [|assumption].
    apply Z.log2_lt_pow2; [lia|]. change (2 ^ 8) with 256. lia.
Qed.

Lemma crc_halves (f f' : Z) :
  u32 f -> castle_rights_cleared f f' ->
  exists lo', u16 lo' /\ f' = mk_flags lo' (Z.shiftr f 16)
              /\ Z.land lo' 255 = Z.land f 255.
Proof.
  intros Hf Hc. pose proof (crc_land f f' 255 Hc ltac:(lia)) as Hl.
  destruct Hc as (c & Hc & Hlow & ->).
  destruct (flags_split f Hf) as (E & Hlo & Hhi).
  exists (Z.land (Z.land f 65535) (Z.lnot c)). split; [apply u16_land_l; assumption|].
  split.
  - rewrite E at 1. apply mk_flags_land_lnot; assumption.
  - rewrite <- Hl. apply Z.bits_inj'. intros n Hn.
    autorewrite with flagbits.
    destruct (Z.ltb_spec n 16), (Z.ltb_spec n 8); try lia;
      rewrite ?andb_true_r, ?andb_false_r; reflexivity.
Qed.

Lemma castle_step_refl b : castle_step b b.
Proof. split; [split; reflexivity | apply crc_refl]. Qed.

Lemma castle_step_trans b b' b'' :
  castle_step b b' -> castle_step b' b'' -> castle_step b b''.
Proof.
  intros [[H1 H2] H3] [[H4 H5] H6]. split; [split; congruence|].
  eapply crc_trans; eassumption.
Qed.

Lemma board_clear_castling_inv b player side b' :
  board_clear_castling b player side = Ret b' -> castle_step b b'.
Proof.
  unfold board_clear_castling. intros H.
  apply bind_Ret_inv in H. destruct H as (u & _ & H). injection H as <-.
  split; [split; reflexivity|]. simpl. apply crc_clear.
  destruct (player =? WHITE), (side =? QUEEN); cbv; auto.
Qed.

Lemma board_clear_castling_Ret b player side :
  side = QUEEN \/ side = KING ->
  exists b', board_clear_castling b player side = Ret b' /\ castle_step b b'.
Proof.
  intros Hs. unfold board_clear_castling.
  rewrite assert_true by (destruct Hs as [->| ->]; reflexivity).
  eexists. split; [reflexivity|].
  split; [split; reflexivity|]. simpl. apply crc_clear.
  destruct (player =? WHITE), (side =? QUEEN); cbv; auto.
Qed.

Lemma clear_castling_for_rook_inv b owner square b' :
  clear_castling_for_rook b owner square = Ret b' -> castle_step b b'.
Proof.
  unfold clear_castling_for_rook. intros H.
  repeat match type of H with
         | (if ?c then _ else _) = _ => destruct c
         end;
    try (apply board_clear_castling_inv in H; exact H).
  injection H as <-. apply castle_step_refl.
Qed.

Lemma clear_castling_for_rook_Ret b owner square :
  exists b', clear_castling_for_rook b owner square = Ret b' /\ castle_step b b'.
Proof.
  unfold clear_castling_for_rook.
  repeat match goal with
         | |- context [if ?c then _ else _] => destruct c
         end;
    try (apply board_clear_castling_Ret; cbv; auto).
  eexists. split; [reflexivity | apply castle_step_refl].
Qed.

(** Queries that read the arrays only. *)
Lemma board_piece_on_square_arrays b b' s :
  pieces b' = pieces b -> board_piece_on_square b' s = board_piece_on_square b s.
Proof. unfold board_piece_on_square. intros ->. reflexivity. Qed.

Lemma board_player_on_square_arrays b b' s :
  players b' = players b -> board_player_on_square b' s = board_player_on_square b s.
Proof. unfold board_player_on_square. intros ->. reflexivity. Qed.

Lemma board_get_en_passant_target_crc b b' :
  castle_rights_cleared (flags b) (flags b') ->
  board_get_en_passant_target b' = board_get_en_passant_target b.
Proof.
  intros H. unfold board_get_en_passant_target, BOARD_FLAGS_EP_PRESENT, BOARD_FLAGS_EP_SQUARE.
  rewrite !(crc_land _ _ _ H) by lia. reflexivity.
Qed.

Lemma board_player_to_move_crc b b' :
  castle_rights_cleared (flags b) (flags b') ->
  board_player_to_move b' = board_player_to_move b.
Proof.
  intros H. unfold board_player_to_move, BOARD_FLAGS_TURN.
  rewrite !(crc_land _ _ _ H) by lia. reflexivity.
Qed.

(** * What the assertions of [board_invariants] say *)

Lemma board_invariants_inv (b : board) :
  board_invariants b = true ->
  Z.land (get (players b) 0) (get (players b) 1) = 0
  /\ pieces_disjoint (pieces b) = true
  /\ bitboard_popcount (Z.land (get (players b) 0) (get (pieces b) 0)) = 1
  /\ bitboard_popcount (Z.land (get (players b) 1) (get (pieces b) 0)) = 1
  /\ ep_ok b = true.
Proof.
  unfold board_invariants, ep_ok. rewrite !andb_true_iff, !Z.eqb_eq.
  intros ((((H1 & H2) & H3) & H4) & H5). repeat split; try assumption.
  destruct (truthy (Z.land (flags b) BOARD_FLAGS_EP_PRESENT)); [|reflexivity].
  apply andb_true_iff in H5. apply H5.
Qed.

Lemma board_invariants_intro (b : board) :
  Z.land (get (players b) 0) (get (players b) 1) = 0 ->
  pieces_disjoint (pieces b) = true ->
  bitboard_popcount (Z.land (get (players b) 0) (get (pieces b) 0)) = 1 ->
  bitboard_popcount (Z.land (get (players b) 1) (get (pieces b) 0)) = 1 ->
  ep_ok b = true ->
  board_invariants b = true.
Proof.
  intros H1 H2 H3 H4 H5. unfold board_invariants, ep_ok in *.
  change (nth 0 (players b) 0) with (get (players b) 0).
  change (nth 1 (players b) 0) with (get (players b) 1).
  change (nth 0 (pieces b) 0) with (get (pieces b) 0).
  rewrite H1, H2, H3, H4. simpl.
  destruct (truthy (Z.land (flags b) BOARD_FLAGS_EP_PRESENT)); [|reflexivity].
  rewrite H5, Z.shiftr_0_l. reflexivity.
Qed.

(** Invariants depend on the arrays and on the low eight flag bits. *)
Lemma board_invariants_ext (b b' : board) :
  players b' = players b -> pieces b' = pieces b ->
  Z.land (flags b') 255 = Z.land (flags b) 255 ->
  board_invariants b' = board_invariants b.
Proof.
  intros Hp Hc Hf. unfold board_invariants, board_player_to_move.
  rewrite Hp, Hc.
  assert (E : forall x, 0 <= x < 256 -> Z.land (flags b') x = Z.land (flags b) x).
  { intros x Hx. replace x with (Z.land 255 x).
    - rewrite !Z.land_assoc, Hf. reflexivity.
    - change 255 with (Z.ones 8). rewrite Z.land_comm, Z.land_ones by lia.
      apply Z.mod_small. change (2 ^ 8) with 256. lia. }
  unfold BOARD_FLAGS_EP_PRESENT, BOARD_FLAGS_EP_SQUARE, BOARD_FLAGS_TURN.
  rewrite !E by lia. reflexivity.
Qed.

Section TypedBoard.
Variable b : board.
Hypothesis Htyped : board_typed b.

Lemma in_players (c : Z) : c = 0 \/ c = 1 -> in_arr (players b) c.
Proof. unfold in_arr. rewrite (typed_players b Htyped). lia. Qed.

Lemma in_pieces (k : Z) : 0 <= k < 6 -> in_arr (pieces b) k.
Proof. unfold in_arr. rewrite (typed_pieces b Htyped). lia. Qed.

Lemma in_pieces_inv (k : Z) : in_arr (pieces b) k -> 0 <= k < 6.
Proof. unfold in_arr. rewrite (typed_pieces b Htyped). lia. Qed.

Lemma in_players_inv (c : Z) : in_arr (players b) c -> c = 0 \/ c = 1.
Proof. unfold in_arr. rewrite (typed_players b Htyped). lia. Qed.

Lemma in_players_to_move : in_arr (players b) (board_player_to_move b).
Proof. apply in_players, board_player_to_move_range. Qed.

Lemma tb_players_high (c n : Z) :
  in_arr (players b) c -> 64 <= n -> tb (players b) c n = false.
Proof.
  intros Hc Hn. apply u64_testbit_high; [|assumption].
  apply Forall_get; [apply Htyped | assumption].
Qed.

Lemma tb_pieces_high (k n : Z) :
  in_arr (pieces b) k -> 64 <= n -> tb (pieces b) k n = false.
Proof.
  intros Hc Hn. apply u64_testbit_high; [|assumption].
  apply Forall_get; [apply Htyped | assumption].
Qed.

Hypothesis Hinv : board_invariants b = true.

Lemma players_disjoint (c c' n : Z) :
  in_arr (players b) c -> in_arr (players b) c' -> c <> c' ->
  tb (players b) c n = true -> tb (players b) c' n = false.
Proof.
  intros Hc Hc' Hne Ht.
  destruct (board_invariants_inv b Hinv) as (Hd & _).
  apply in_players_inv in Hc, Hc'. unfold tb in *.
  destruct Hc as [->| ->], Hc' as [->| ->]; try lia.
  - eapply land_0_testbit; eassumption.
  - rewrite Z.land_comm in Hd. eapply land_0_testbit; eassumption.
Qed.

Lemma pieces_disjoint_tb (k k' n : Z) :
  in_arr (pieces b) k -> in_arr (pieces b) k' -> k <> k' ->
  tb (pieces b) k n = true -> tb (pieces b) k' n = false.
Proof.
  intros Hk Hk' Hne Ht.
  destruct (board_invariants_inv b Hinv) as (_ & Hd & _).
  apply (pieces_disjoint_at (pieces b) n (typed_pieces b Htyped) Hd k k'); assumption.
Qed.

Lemma board_piece_on_square_at (k s : Z) :
  in_arr (pieces b) k -> 0 <= s < 64 -> tb (pieces b) k s = true ->
  board_piece_on_square b s = Ret k.
Proof.
  intros Hk Hs Ht. unfold board_piece_on_square.
  rewrite assert_true by (apply Z.ltb_lt; lia). simpl.
  apply first_with_square_unique; try assumption.
  destruct (board_invariants_inv b Hinv) as (_ & Hd & _).
  apply pieces_disjoint_at; [apply Htyped | assumption].
Qed.

Lemma board_player_on_square_at (c s : Z) :
  in_arr (players b) c -> 0 <= s < 64 -> tb (players b) c s = true ->
  board_player_on_square b s = Ret c.
Proof.
  intros Hc Hs Ht. unfold board_player_on_square.
  rewrite assert_true by (apply Z.ltb_lt; lia). simpl.
  apply first_with_square_unique; try assumption.
  intros i j Hi Hj Hne Hti. apply (players_disjoint i j s); assumption.
Qed.
End TypedBoard.

Lemma board_piece_on_square_inv (b : board) (s k : Z) :
  0 <= s -> board_piece_on_square b s = Ret k ->
  s < 64 /\ ((k = -1 /\ forall j, in_arr (pieces b) j -> tb (pieces b) j s = false)
             \/ (in_arr (pieces b) k /\ tb (pieces b) k s = true)).
Proof.
  intros Hs H. unfold board_piece_on_square in H.
  apply bind_Ret_inv in H. destruct H as (u & Ha & H).
  apply assert_Ret_inv, Z.ltb_lt in Ha. split; [assumption|].
  destruct (Z.eq_dec k (-1)) as [->|Hne].
  - left. split; [reflexivity|]. intros j Hj.
    apply (first_with_square_none (pieces b) s j); [lia | assumption | assumption].
  - right. apply first_with_square_found; [lia | assumption | assumption].
Qed.

Lemma board_player_on_square_inv (b : board) (s k : Z) :
  0 <= s -> board_player_on_square b s = Ret k ->
  s < 64 /\ ((k = -1 /\ forall j, in_arr (players b) j -> tb (players b) j s = false)
             \/ (in_arr (players b) k /\ tb (players b) k s = true)).
Proof.
  intros Hs H. unfold board_player_on_square in H.
  apply bind_Ret_inv in H. destruct H as (u & Ha & H).
  apply assert_Ret_inv, Z.ltb_lt in Ha. split; [assumption|].
  destruct (Z.eq_dec k (-1)) as [->|Hne].
  - left. split; [reflexivity|]. intros j Hj.
    apply (first_with_square_none (players b) s j); [lia | assumption | assumption].
  - right. apply first_with_square_found; [lia | assumption | assumption].
Qed.

Lemma board_piece_on_square_total (b : board) (s : Z) :
  0 <= s < 64 -> exists k, board_piece_on_square b s = Ret k.
Proof.
  intros Hs. unfold board_piece_on_square.
  rewrite assert_true by (apply Z.ltb_lt; lia). simpl.
  apply first_with_square_total. assumption.
Qed.

Lemma board_player_on_square_total (b : board) (s : Z) :
  0 <= s < 64 -> exists k, board_player_on_square b s = Ret k.
Proof.
  intros Hs. unfold board_player_on_square.
  rewrite assert_true by (apply Z.ltb_lt; lia). simpl.
  apply first_with_square_total. assumption.
Qed.

Tactic Notation "inv_bind" hyp(H) "as" ident(a) ident(Ha) :=
  apply bind_Ret_inv in H; destruct H as (a & Ha & H).

Ltac inv_assert H := apply assert_Ret_inv in H.

(** * The effect of a move that is not a castle *)

Lemma board_pos_from_xy_valid (x y : Z) :
  0 <= x < 8 -> 0 <= y < 8 -> board_pos_from_xy x y = x + 8 * y.
Proof.
  intros Hx Hy. unfold board_pos_from_xy.
  destruct (Z.ltb_spec x 0); [lia|]. destruct (Z.ltb_spec y 0); [lia|].
  destruct (Z.geb_spec x 8); [lia|]. destruct (Z.geb_spec y 8); [lia|].
  simpl. rewrite Z.shiftl_mul_pow2 by lia. change (2 ^ 3) with 8. lia.
Qed.

Lemma square_xy (s : Z) :
  0 <= s < 64 ->
  Z.land s 7 = s mod 8 /\ Z.land (Z.shiftr s 3) 7 = s / 8
  /\ 0 <= s mod 8 < 8 /\ 0 <= s / 8 < 8.
Proof.
  intros Hs. change 7 with (Z.ones 3). rewrite !Z.land_ones by lia.
  rewrite Z.shiftr_div_pow2 by lia. change (2 ^ 3) with 8.
  assert (0 <= s / 8 < 8) by (split; [apply Z.div_pos; lia | apply Z.div_lt_upper_bound; lia]).
  rewrite (Z.mod_small (s / 8)) by lia.
  pose proof (Z.mod_pos_bound s 8 ltac:(lia)). auto.
Qed.

Lemma board_pos_to_xy_inv (s x y : Z) :
  0 <= s -> board_pos_to_xy s = Ret (x, y) ->
  s < 64 /\ x = s mod 8 /\ y = s / 8 /\ 0 <= x < 8 /\ 0 <= y < 8.
Proof.
  intros Hs H. unfold board_pos_to_xy in H.
  inv_bind H as u Ha. inv_assert Ha. apply Z.ltb_lt in Ha.
  destruct (square_xy s ltac:(lia)) as (Ex & Ey & Hx & Hy).
  injection H as <- <-. rewrite Ex, Ey. auto.
Qed.

Lemma board_pos_to_xy_Ret (s : Z) :
  0 <= s < 64 -> board_pos_to_xy s = Ret (s mod 8, s / 8).
Proof.
  intros Hs. unfold board_pos_to_xy. rewrite assert_true by (apply Z.ltb_lt; lia).
  simpl. destruct (square_xy s Hs) as (-> & -> & _). reflexivity.
Qed.

Lemma en_passant_target_to_pawn_pos_inv (ep sq : Z) :
  0 <= ep -> en_passant_target_to_pawn_pos ep = Ret sq ->
  (16 <= ep < 24 /\ sq = ep + 8) \/ (40 <= ep < 48 /\ sq = ep - 8).
Proof.
  intros Hep H. unfold en_passant_target_to_pawn_pos in H.
  inv_bind H as xy Hxy. destruct xy as [x y].
  apply board_pos_to_xy_inv in Hxy; [|assumption].
  destruct Hxy as (Hlt & -> & -> & Hx & Hy).
  pose proof (Z.div_mod ep 8 ltac:(lia)) as Hdm.
  destruct (Z.eqb_spec (ep / 8) 2) as [E2|_].
  - injection H as <-. left.
    rewrite board_pos_from_xy_valid by lia. lia.
  - destruct (Z.eqb_spec (ep / 8) 5) as [E5|_]; [|discriminate].
    injection H as <-. right.
    rewrite board_pos_from_xy_valid by lia. lia.
Qed.

Lemma board_get_en_passant_target_range (b : board) :
  board_get_en_passant_target b = BOARD_POS_INVALID
  \/ 0 <= board_get_en_passant_target b < 64.
Proof.
  unfold board_get_en_passant_target.
  destruct (negb _); [left; reflexivity|]. right.
  unfold BOARD_FLAGS_EP_SQUARE. change 63 with (Z.ones 6).
  rewrite Z.land_ones by lia. apply Z.mod_pos_bound. reflexivity.
Qed.

Lemma make_capture_square_inv (b : board) (mv dst sq : Z) :
  0 <= dst < 64 ->
  make_capture_square b mv dst = Ret sq ->
  (board_get_en_passant_target b = dst
   /\ ((16 <= dst < 24 /\ sq = dst + 8) \/ (40 <= dst < 48 /\ sq = dst - 8)))
  \/ (board_get_en_passant_target b <> dst /\ sq = move_capture_square mv).
Proof.
  intros Hdst H. unfold make_capture_square in H.
  destruct (Z.eqb_spec (board_get_en_passant_target b) dst) as [E|E].
  - rewrite E in H.
    assert ((dst =? BOARD_POS_INVALID) = false) as Hne
        by (apply Z.eqb_neq; unfold BOARD_POS_INVALID; lia).
    rewrite Hne in H. simpl in H.
    apply en_passant_target_to_pawn_pos_inv in H; [|lia]. left. tauto.
  - rewrite andb_false_r in H. injection H as <-. right. auto.
Qed.

Lemma make_regular_move_inv b mv src dst piece dst_piece player opponent b' :
  board_typed b ->
  0 <= src < 64 -> 0 <= dst < 64 ->
  in_arr (players b) player -> in_arr (players b) opponent ->
  make_regular_move b mv src dst piece dst_piece player opponent = Ret b' ->
  piece <> -1
  /\ castle_rights_cleared (flags b) (flags b')
  /\ regular_outcome b mv src dst piece dst_piece player opponent b'.
Proof.
  intros Htyped Hsrc Hdst Hpl Hop H. unfold make_regular_move in H.
  inv_bind H as u1 Hpiece. inv_assert Hpiece. apply negb_true_iff, Z.eqb_neq in Hpiece.
  split; [assumption|].
  inv_bind H as opp Hopp. apply rd_inv in Hopp. destruct Hopp as [_ ->].
  inv_bind H as c Hc. apply bitboard_check_square_inv in Hc; [|lia]. destruct Hc as [_ ->].
  rewrite truthy_b2z in H. fold (tb (players b) opponent dst) in H.
  inv_bind H as u2 Hquiet. inv_assert Hquiet.
  inv_bind H as b1 Hb1.
  assert (Hk : castle_step b b1).
  { destruct (piece =? KING).
    - inv_bind Hb1 as b0 Hb0. apply board_clear_castling_inv in Hb0, Hb1.
      eapply castle_step_trans; eassumption.
    - injection Hb1 as <-. apply castle_step_refl. }
  clear Hb1.
  inv_bind H as b2 Hb2.
  assert (Hr : castle_step b b2).
  { eapply castle_step_trans; [exact Hk|].
    destruct (piece =? ROOK).
    - apply clear_castling_for_rook_inv in Hb2. exact Hb2.
    - injection Hb2 as <-. apply castle_step_refl. }
  clear Hb2 Hk b1.
  destruct Hr as [[Hrp Hrc] Hrf].
  inv_bind H as b3 Hb3.
  destruct (truthy (move_is_capture mv)) eqn:Hcap.
  - (* capture *)
    inv_bind Hb3 as cap_square Hcs.
    assert (Hcs' : make_capture_square b mv dst = Ret cap_square).
    { unfold make_capture_square.
      rewrite <- (board_get_en_passant_target_crc b b2 Hrf). exact Hcs. }
    clear Hcs.
    inv_bind Hb3 as cap_piece Hcp.
    rewrite (board_piece_on_square_arrays b b2 _ Hrc) in Hcp.
    inv_bind Hb3 as u3 Hcpne. inv_assert Hcpne. apply negb_true_iff, Z.eqb_neq in Hcpne.
    inv_bind Hb3 as u4 Hcsne. inv_assert Hcsne. apply negb_true_iff, Z.eqb_neq in Hcsne.
    inv_bind Hb3 as owner Hown.
    rewrite (board_player_on_square_arrays b b2 _ Hrp) in Hown.
    inv_bind Hb3 as u5 Hownne. inv_assert Hownne. apply negb_true_iff, Z.eqb_neq in Hownne.
    inv_bind Hb3 as pl1 Hpl1. inv_bind Hb3 as pc1 Hpc1.
    rewrite Hrp in Hpl1. rewrite Hrc in Hpc1.
    apply arr_clear_square_cell_inv in Hpl1, Hpc1.
    destruct Hpl1 as (_ & Hcslt & ->). destruct Hpc1 as (Hcpin & _ & ->).
    assert (Hcs0 : 0 <= cap_square).
    { apply make_capture_square_inv in Hcs'; [|assumption].
      destruct Hcs' as [(_ & [[? ->]|[? ->]])|[_ ->]]; try lia.
      unfold move_capture_square. rewrite Hcap. simpl.
      apply Z.shiftr_nonneg, Z.land_nonneg. right. discriminate. }
    assert (Hb3' : castle_step
                     (mkBoard (clear_cell (players b) opponent cap_square)
                              (clear_cell (pieces b) cap_piece cap_square) (flags b2)) b3).
    { destruct (cap_piece =? ROOK).
      - apply clear_castling_for_rook_inv in Hb3. exact Hb3.
      - injection Hb3 as <-. apply castle_step_refl. }
    clear Hb3. destruct Hb3' as [[Hp3 Hc3] Hf3]. simpl in Hp3, Hc3, Hf3.
    inv_bind H as pc2 Hpc2. inv_bind H as pl2 Hpl2.
    inv_bind H as pc3 Hpc3. inv_bind H as pl3 Hpl3. injection H as <-.
    simpl. split; [eapply crc_trans; eassumption|].
    rewrite Hc3 in Hpc2. rewrite Hp3 in Hpl2.
    apply arr_set_square_cell_inv in Hpc2, Hpl2.
    destruct Hpc2 as (Hdp & _ & ->). destruct Hpl2 as (_ & _ & ->).
    apply arr_clear_square_cell_inv in Hpc3, Hpl3.
    destruct Hpc3 as (Hp & _ & ->). destruct Hpl3 as (_ & _ & ->).
    apply (proj1 (in_arr_set_cell _ _ _ _)) in Hp.
    apply (proj1 (in_arr_clear_cell _ _ _ _)) in Hp.
    apply (proj1 (in_arr_clear_cell _ _ _ _)) in Hdp.
    apply board_piece_on_square_inv in Hcp as Hcp'; [|assumption].
    destruct Hcp' as (_ & [[-> _]|[_ Htb]]); [contradiction|].
    apply (ro_capture b mv src dst piece dst_piece player opponent _
             cap_square cap_piece owner); simpl; try assumption; try reflexivity; lia.
  - injection Hb3 as <-.
    inv_bind H as pc2 Hpc2. inv_bind H as pl2 Hpl2.
    inv_bind H as pc3 Hpc3. inv_bind H as pl3 Hpl3. injection H as <-.
    simpl. split; [assumption|].
    rewrite Hrc in Hpc2. rewrite Hrp in Hpl2.
    apply arr_set_square_cell_inv in Hpc2, Hpl2.
    destruct Hpc2 as (Hdp & _ & ->). destruct Hpl2 as (_ & _ & ->).
    apply arr_clear_square_cell_inv in Hpc3, Hpl3.
    destruct Hpc3 as (Hp & _ & ->). destruct Hpl3 as (_ & _ & ->).
    apply (proj1 (in_arr_set_cell _ _ _ _)) in Hp.
    apply ro_quiet; try assumption; try reflexivity.
    rewrite orb_false_r in Hquiet. apply negb_true_iff in Hquiet. exact Hquiet.
Qed.

(** * The flags word after a move *)

Lemma board_make_move_inv (b : board) (mv : Z) (b' : board) :
  0 <= move_source_square mv ->
  board_make_move b mv = Ret b' ->
  exists piece b1,
    board_invariants b = true
    /\ Z.land (flags b) BOARD_FLAGS_LOW = Z.land mv MOVE_FLAGS_PREV_FLAGS
    /\ board_piece_on_square b (move_source_square mv) = Ret piece
    /\ make_placement b mv piece = Ret b1
    /\ (is_double_push piece (move_source_square mv) (move_destination_square mv) = true ->
        double_push_rank_ok
          (board_player_to_move
             (set_flags b1 (Z.land (flags b1) (Z.lnot BOARD_FLAGS_EP_PRESENT))))
          (move_source_square mv) = true)
    /\ b' = mkBoard (players b1) (pieces b1)
                    (make_flags (flags b1) piece (move_source_square mv)
                                (move_destination_square mv) (board_player_to_move b))
    /\ board_invariants b' = true.
Proof.
  intros Hsrc H. unfold board_make_move in H.
  inv_bind H as u1 Hinv. inv_assert Hinv.
  inv_bind H as u2 Hfl. inv_assert Hfl. apply Z.eqb_eq in Hfl.
  inv_bind H as piece Hpiece.
  inv_bind H as b1 Hb1.
  inv_bind H as b2 Hb2.
  inv_bind H as u3 Hpost. inv_assert Hpost. injection H as H.
  exists piece, b1. split; [assumption|]. split; [assumption|].
  split; [assumption|]. split; [exact Hb1|].
  fold (is_double_push piece (move_source_square mv) (move_destination_square mv)) in Hb2.
  assert (Hb' : b' = mkBoard (players b1) (pieces b1)
                       (make_flags (flags b1) piece (move_source_square mv)
                          (move_destination_square mv) (board_player_to_move b))
                /\ (is_double_push piece (move_source_square mv)
                                   (move_destination_square mv) = true ->
                    double_push_rank_ok
                      (board_player_to_move
                         (set_flags b1 (Z.land (flags b1) (Z.lnot BOARD_FLAGS_EP_PRESENT))))
                      (move_source_square mv) = true)).
  { rewrite <- H. unfold make_flags.
    destruct (is_double_push piece (move_source_square mv) (move_destination_square mv)).
    - inv_bind Hb2 as xy Hxy. destruct xy as [x y].
      apply board_pos_to_xy_inv in Hxy; [|assumption].
      destruct Hxy as (_ & -> & -> & _ & _).
      inv_bind Hb2 as u4 Hrank. inv_assert Hrank. injection Hb2 as <-.
      split; [|intros _; exact Hrank].
      destruct (board_player_to_move b =? BLACK); reflexivity.
    - injection Hb2 as <-. split; [|discriminate].
      destruct (board_player_to_move b =? BLACK); reflexivity. }
  destruct Hb' as [Hb' Hrank]. split; [exact Hrank|]. split; [exact Hb'|].
  rewrite <- H. exact Hpost.
Qed.

(** * Undoing a move *)

Lemma board_unmake_move_Ret (b' : board) (mv piece_dst : Z) (pl pc : list Z) :
  board_invariants b' = true ->
  board_piece_on_square b' (move_destination_square mv) = Ret piece_dst ->
  piece_dst <> -1 ->
  unmake_arrays b' mv piece_dst
    (if truthy (Z.land (restored_low (flags b') mv) BOARD_FLAGS_TURN) then 1 else 0)
  = Ret (pl, pc) ->
  board_invariants (mkBoard pl pc (restored_flags (flags b') mv)) = true ->
  board_unmake_move b' mv = Ret (mkBoard pl pc (restored_flags (flags b') mv)).
Proof.
  intros Hinv Hpd Hne Harr Hpost. unfold board_unmake_move.
  rewrite Hinv. simpl assert. cbn [bind].
  rewrite (board_piece_on_square_arrays b' (set_flags b' _) _ eq_refl), Hpd. cbn [bind].
  rewrite assert_true by (apply negb_true_iff, Z.eqb_neq; assumption). cbn [bind].
  unfold unmake_arrays in Harr.
  unfold board_player_to_move, set_flags. cbn [flags players pieces].
  fold (restored_low (flags b') mv).
  set (player := if truthy (Z.land (restored_low (flags b') mv) BOARD_FLAGS_TURN) then 1 else 0) in *.
  assert (Ef : flags (if player =? BLACK
                      then mkBoard (players b') (pieces b')
                             (Z.lor (Z.land (restored_low (flags b') mv) BOARD_FLAGS_LOW)
                                (Z.land (Z.shiftl
                                   (board_get_full_turn_number
                                      (mkBoard (players b') (pieces b') (restored_low (flags b') mv)) - 1)
                                   BOARD_FLAGS_TURN_NUM_SHIFT) BOARD_FLAGS_TURN_NUM))
                      else mkBoard (players b') (pieces b') (restored_low (flags b') mv))
               = restored_flags (flags b') mv).
  { unfold restored_flags. fold player. destruct (player =? BLACK); reflexivity. }
  destruct (player =? BLACK) eqn:Epl; cbn [flags players pieces] in *.
  - inv_bind Harr as pc1 H1. rewrite H1. cbn [bind].
    inv_bind Harr as pl1 H2. rewrite H2. cbn [bind].
    inv_bind Harr as pc2 H3. rewrite H3. cbn [bind].
    inv_bind Harr as pl2 H4. rewrite H4. cbn [bind].
    inv_bind Harr as plpc H5. rewrite H5. cbn [bind]. destruct plpc as [pl3 pc3].
    rewrite Harr. cbn [bind]. rewrite Ef, Hpost. reflexivity.
  - inv_bind Harr as pc1 H1. rewrite H1. cbn [bind].
    inv_bind Harr as pl1 H2. rewrite H2. cbn [bind].
    inv_bind Harr as pc2 H3. rewrite H3. cbn [bind].
    inv_bind Harr as pl2 H4. rewrite H4. cbn [bind].
    inv_bind Harr as plpc H5. rewrite H5. cbn [bind]. destruct plpc as [pl3 pc3].
    rewrite Harr. cbn [bind]. rewrite Ef, Hpost. reflexivity.
Qed.

(** * The flags word through a move and back *)

Lemma u16_small (c : Z) : 0 <= c < 65536 -> u16 c.
Proof. intros H. exact H. Qed.

Lemma ep_flags_halves (lo hi src dst : Z) :
  u16 lo ->
  ep_flags (mk_flags lo hi) src dst = mk_flags (ep_flags lo src dst) hi
  /\ u16 (ep_flags lo src dst).
Proof.
  intros Hlo. unfold ep_flags, BOARD_FLAGS_EP_PRESENT, BOARD_FLAGS_EP_SQUARE.
  set (e := if dst >? src then Z.land (src + 8) 255 else Z.land (src - 8) 255).
  assert (H64 : u16 64) by (unfold u16; lia).
  assert (H63 : u16 63) by (unfold u16; lia).
  assert (He : u16 (Z.land e 63)) by (apply u16_land_r; assumption).
  assert (H1 : u16 (Z.lor lo 64)) by (apply u16_lor; assumption).
  assert (H2 : u16 (Z.land (Z.lor lo 64) (Z.lnot 63))) by (apply u16_land_l; assumption).
  split.
  - rewrite mk_flags_lor_low, mk_flags_land_lnot, mk_flags_lor_low by assumption.
    reflexivity.
  - apply u16_lor; assumption.
Qed.

Lemma turn_flags_halves (lo hi d : Z) :
  u16 lo -> u16 hi ->
  turn_flags (mk_flags lo hi) d = mk_flags lo ((hi + d) mod 65536).
Proof.
  intros Hlo Hhi. unfold turn_flags, BOARD_FLAGS_LOW, BOARD_FLAGS_TURN_NUM,
    BOARD_FLAGS_TURN_NUM_SHIFT.
  rewrite mk_flags_turn by assumption.
  rewrite mk_flags_set_turn by (apply u32_mk_flags; assumption).
  rewrite mk_flags_low by assumption. reflexivity.
Qed.

Lemma make_flags_halves (lo hi piece src dst player : Z) :
  u16 lo -> u16 hi ->
  make_flags (mk_flags lo hi) piece src dst player
  = mk_flags (make_flags lo piece src dst WHITE)
             (if player =? BLACK then (hi + 1) mod 65536 else hi)
  /\ u16 (make_flags lo piece src dst WHITE).
Proof.
  intros Hlo Hhi. unfold make_flags. change (WHITE =? BLACK) with false. cbv iota.
  unfold BOARD_FLAGS_EP_PRESENT, BOARD_FLAGS_TURN.
  assert (H64 : u16 64) by (unfold u16; lia).
  assert (H128 : u16 128) by (unfold u16; lia).
  assert (H2 : u16 (Z.land lo (Z.lnot 64))) by (apply u16_land_l; assumption).
  rewrite mk_flags_land_lnot by assumption.
  destruct (ep_flags_halves (Z.land lo (Z.lnot 64)) hi src dst H2) as [Eep Hep].
  assert (H3 : u16 (if is_double_push piece src dst
                    then ep_flags (Z.land lo (Z.lnot 64)) src dst
                    else Z.land lo (Z.lnot 64)))
    by (destruct (is_double_push piece src dst); assumption).
  assert (E3 : (if is_double_push piece src dst
                then ep_flags (mk_flags (Z.land lo (Z.lnot 64)) hi) src dst
                else mk_flags (Z.land lo (Z.lnot 64)) hi)
               = mk_flags (if is_double_push piece src dst
                           then ep_flags (Z.land lo (Z.lnot 64)) src dst
                           else Z.land lo (Z.lnot 64)) hi)
    by (destruct (is_double_push piece src dst); [exact Eep | reflexivity]).
  rewrite E3. split; [|apply u16_lxor; assumption].
  destruct (player =? BLACK).
  - rewrite turn_flags_halves by assumption. apply mk_flags_lxor_low; assumption.
  - apply mk_flags_lxor_low; assumption.
Qed.

Lemma restored_low_halves (lo5 hi5 lo mv : Z) :
  u16 lo5 -> u16 lo -> Z.land mv MOVE_FLAGS_PREV_FLAGS = lo ->
  restored_low (mk_flags lo5 hi5) mv = mk_flags lo hi5.
Proof.
  intros H5 Hlo E. unfold restored_low, BOARD_FLAGS_LOW. rewrite E.
  apply Z.bits_inj'. intros n Hn.
  rewrite Z.lor_spec, Z.land_spec, Z.lnot_spec, !testbit_mk_flags, testbit_65535
    by assumption.
  destruct (Z.ltb_spec n 16); simpl.
  - rewrite andb_false_r. reflexivity.
  - rewrite andb_true_r, (u16_testbit_high lo n) by assumption. apply orb_false_r.
Qed.

Lemma player_bit_low (lo hi : Z) :
  u16 lo ->
  (if truthy (Z.land (mk_flags lo hi) BOARD_FLAGS_TURN) then 1 else 0)
  = (if truthy (Z.land lo BOARD_FLAGS_TURN) then 1 else 0).
Proof.
  intros Hlo. unfold BOARD_FLAGS_TURN.
  rewrite mk_flags_land_low by (assumption || (unfold u16; lia)). reflexivity.
Qed.

Lemma flags_round_trip (f f1 piece src dst mv : Z) :
  u32 f -> castle_rights_cleared f f1 ->
  Z.land f BOARD_FLAGS_LOW = Z.land mv MOVE_FLAGS_PREV_FLAGS ->
  restored_flags
    (make_flags f1 piece src dst (if truthy (Z.land f BOARD_FLAGS_TURN) then 1 else 0)) mv
  = f.
Proof.
  intros Hf Hcrc Hmv.
  destruct (flags_split f Hf) as (Ef & Hlo & Hhi).
  destruct (crc_halves f f1 Hf Hcrc) as (lo1 & Hlo1 & Ef1 & _).
  set (lo := Z.land f 65535) in *. set (hi := Z.shiftr f 16) in *.
  change BOARD_FLAGS_LOW with 65535 in Hmv. fold lo in Hmv.
  assert (Epl : (if truthy (Z.land f BOARD_FLAGS_TURN) then 1 else 0)
                = (if truthy (Z.land lo BOARD_FLAGS_TURN) then 1 else 0)).
  { rewrite Ef at 1. apply player_bit_low. assumption. }
  rewrite Epl. set (player := if truthy (Z.land lo BOARD_FLAGS_TURN) then 1 else 0).
  rewrite Ef1.
  destruct (make_flags_halves lo1 hi piece src dst player Hlo1 Hhi) as [E5 H5].
  rewrite E5. unfold restored_flags.
  rewrite (restored_low_halves _ _ lo mv H5 Hlo (eq_sym Hmv)).
  rewrite player_bit_low by assumption. fold player.
  rewrite Ef at 1.
  destruct (player =? BLACK) eqn:Eb; [|reflexivity].
  rewrite turn_flags_halves.
  - f_equal. unfold u16 in Hhi.
    destruct (Z.eq_dec hi 65535) as [->|]; [reflexivity|].
    rewrite (Z.mod_small (hi + 1)) by lia.
    replace (hi + 1 + -1) with hi by lia. apply Z.mod_small. lia.
  - assumption.
  - apply Z.mod_pos_bound. reflexivity.
Qed.

Lemma make_flags_u32 (f f1 piece src dst player : Z) :
  u32 f -> castle_rights_cleared f f1 -> u32 (make_flags f1 piece src dst player).
Proof.
  intros Hf Hcrc.
  destruct (flags_split f Hf) as (Ef & Hlo & Hhi).
  destruct (crc_halves f f1 Hf Hcrc) as (lo1 & Hlo1 & Ef1 & _).
  rewrite Ef1.
  destruct (make_flags_halves lo1 (Z.shiftr f 16) piece src dst player Hlo1 Hhi) as [E5 H5].
  rewrite E5. apply u32_mk_flags; [assumption|].
  destruct (player =? BLACK); [|assumption]. apply Z.mod_pos_bound. reflexivity.
Qed.

Lemma restored_player (f f1 piece src dst pl mv : Z) :
  u32 f -> castle_rights_cleared f f1 ->
  Z.land f BOARD_FLAGS_LOW = Z.land mv MOVE_FLAGS_PREV_FLAGS ->
  (if truthy (Z.land (restored_low (make_flags f1 piece src dst pl) mv) BOARD_FLAGS_TURN)
   then 1 else 0)
  = (if truthy (Z.land f BOARD_FLAGS_TURN) then 1 else 0).
Proof.
  intros Hf Hcrc Hmv.
  destruct (flags_split f Hf) as (Ef & Hlo & Hhi).
  destruct (crc_halves f f1 Hf Hcrc) as (lo1 & Hlo1 & Ef1 & _).
  change BOARD_FLAGS_LOW with 65535 in Hmv.
  rewrite Ef1.
  destruct (make_flags_halves lo1 (Z.shiftr f 16) piece src dst pl Hlo1 Hhi) as [E5 H5].
  rewrite E5.
  rewrite (restored_low_halves _ _ (Z.land f 65535) mv H5 Hlo (eq_sym Hmv)).
  rewrite player_bit_low by assumption.
  rewrite Ef at 2. rewrite player_bit_low by assumption. reflexivity.
Qed.

(** The en-passant fields of the flags word after a move. *)
Lemma make_flags_low (f f1 piece src dst pl c : Z) :
  u32 f -> castle_rights_cleared f f1 -> u16 c ->
  exists lo1, u16 lo1
    /\ Z.land (make_flags f1 piece src dst pl) c
       = Z.land (make_flags lo1 piece src dst WHITE) c.
Proof.
  intros Hf Hcrc Hc.
  destruct (flags_split f Hf) as (Ef & Hlo & Hhi).
  destruct (crc_halves f f1 Hf Hcrc) as (lo1 & Hlo1 & Ef1 & _).
  exists lo1. split; [assumption|]. rewrite Ef1.
  destruct (make_flags_halves lo1 (Z.shiftr f 16) piece src dst pl Hlo1 Hhi) as [E5 H5].
  rewrite E5. apply mk_flags_land_low; assumption.
Qed.

Lemma make_flags_ep_present (f f1 piece src dst pl : Z) :
  u32 f -> castle_rights_cleared f f1 ->
  truthy (Z.land (make_flags f1 piece src dst pl) BOARD_FLAGS_EP_PRESENT)
  = is_double_push piece src dst.
Proof.
  intros Hf Hcrc. unfold BOARD_FLAGS_EP_PRESENT.
  destruct (make_flags_low f f1 piece src dst pl 64 Hf Hcrc ltac:(unfold u16; lia))
    as (lo1 & Hlo1 & ->).
  change 64 with (2 ^ 6). rewrite truthy_land_pow2 by lia.
  unfold make_flags. change (WHITE =? BLACK) with false. cbv iota.
  unfold BOARD_FLAGS_TURN, BOARD_FLAGS_EP_PRESENT.
  destruct (is_double_push piece src dst).
  - unfold ep_flags, BOARD_FLAGS_EP_PRESENT, BOARD_FLAGS_EP_SQUARE.
    autorewrite with flagbits. eval_cmp. reflexivity.
  - autorewrite with flagbits. eval_cmp. reflexivity.
Qed.

Lemma make_flags_ep_square (f f1 piece src dst pl : Z) :
  u32 f -> castle_rights_cleared f f1 ->
  is_double_push piece src dst = true ->
  0 <= src < 64 -> 0 <= dst < 64 ->
  Z.land (make_flags f1 piece src dst pl) BOARD_FLAGS_EP_SQUARE
  = if dst >? src then src + 8 else src - 8.
Proof.
  intros Hf Hcrc Hdp Hsrc Hdst. unfold BOARD_FLAGS_EP_SQUARE.
  destruct (make_flags_low f f1 piece src dst pl 63 Hf Hcrc ltac:(unfold u16; lia))
    as (lo1 & Hlo1 & ->).
  unfold make_flags. change (WHITE =? BLACK) with false. cbv iota.
  rewrite Hdp. unfold ep_flags, BOARD_FLAGS_TURN, BOARD_FLAGS_EP_PRESENT, BOARD_FLAGS_EP_SQUARE.
  unfold is_double_push in Hdp. apply andb_true_iff in Hdp. destruct Hdp as [_ Hdp].
  apply orb_true_iff in Hdp. rewrite !Z.eqb_eq in Hdp.
  set (e := if dst >? src then src + 8 else src - 8).
  assert (He : 0 <= e < 64).
  { unfold e. destruct (Z.gtb_spec dst src); lia. }
  assert (Ee : (if dst >? src then Z.land (src + 8) 255 else Z.land (src - 8) 255) = e).
  { unfold e. change 255 with (Z.ones 8). rewrite !Z.land_ones by lia.
    change (2 ^ 8) with 256. destruct (Z.gtb_spec dst src); apply Z.mod_small; lia. }
  rewrite Ee.
  assert (E63 : Z.land e 63 = e).
  { change 63 with (Z.ones 6). rewrite Z.land_ones by lia. apply Z.mod_small.
    change (2 ^ 6) with 64. lia. }
  rewrite <- E63 at 2. apply Z.bits_inj'. intros n Hn.
  autorewrite with flagbits.
  destruct (Z.ltb_spec n 6); [|eval_cmp; reflexivity].
  destruct (Z.eqb_spec n 7); [lia|]. destruct (Z.eqb_spec n 6); [lia|].
  eval_cmp. reflexivity.
Qed.

(** * Moves the generator builds from a destination bitboard *)

Lemma in_arr_set_cell_i a i s j : in_arr a j -> in_arr (set_cell a i s) j.
Proof. apply in_arr_set_cell. Qed.
Lemma in_arr_clear_cell_i a i s j : in_arr a j -> in_arr (clear_cell a i s) j.
Proof. apply in_arr_clear_cell. Qed.

Ltac in_arr_tac :=
  repeat (apply in_arr_set_cell_i || apply in_arr_clear_cell_i); assumption.

Ltac cell_side := first [ in_arr_tac | lia | unfold in_arr in *; lia ].

Ltac cells :=
  unfold moved;
  repeat first [ rewrite tb_set_cell by cell_side
               | rewrite tb_clear_cell by cell_side ].

Ltac cells_in H :=
  unfold moved in H;
  repeat first [ rewrite tb_set_cell in H by cell_side
               | rewrite tb_clear_cell in H by cell_side ].

Section RegularMove.
Variable b : board.
Hypothesis Htyped : board_typed b.
Hypothesis Howned : pieces_owned b.

Variables mv src dst piece : Z.
Hypothesis Hshape : move_shape b mv src dst piece.
Hypothesis Hmover : mover_ok b src dst piece.

Variable b1 : board.
Hypothesis Hmake : board_make_move b mv = Ret b1.

Variables player opponent : Z.
Hypothesis Hplayer : player = board_player_to_move b.
Hypothesis Hopponent : opponent = c_not player.

Lemma rm_player_range : player = 0 \/ player = 1.
Proof. rewrite Hplayer. apply board_player_to_move_range. Qed.

Lemma rm_opponent : opponent = 1 - player.
Proof. rewrite Hopponent. apply c_not_player, rm_player_range. Qed.

Lemma rm_players_cases :
  (player = 0 /\ opponent = 1) \/ (player = 1 /\ opponent = 0).
Proof. pose proof rm_opponent. destruct rm_player_range; [left | right]; lia. Qed.

Lemma rm_in_player : in_arr (players b) player.
Proof. apply in_players; [assumption | apply rm_player_range]. Qed.

Lemma rm_in_opponent : in_arr (players b) opponent.
Proof.
  apply in_players; [assumption|]. rewrite rm_opponent.
  destruct rm_player_range as [-> | ->]; auto.
Qed.

Lemma rm_player_src : tb (players b) player src = true.
Proof. rewrite Hplayer. apply Hmover. Qed.

Lemma rm_player_dst : tb (players b) player dst = false.
Proof. rewrite Hplayer. apply Hmover. Qed.

Lemma rm_src_ne_dst : src <> dst.
Proof.
  intros E. pose proof rm_player_src as H1.
  rewrite E, rm_player_dst in H1. discriminate.
Qed.

Lemma rm_inverted :
  exists br,
    board_invariants b = true
    /\ castle_rights_cleared (flags b) (flags br)
    /\ regular_outcome b mv src dst piece
         (if truthy (move_is_promotion mv) then move_promotion_piece mv else piece)
         player opponent br
    /\ (is_double_push piece src dst = true ->
        double_push_rank_ok player src = true)
    /\ b1 = mkBoard (players br) (pieces br) (make_flags (flags br) piece src dst player)
    /\ board_invariants b1 = true.
Proof.
  destruct Hshape as [Hprev Hsrc Hdst Hcastle Hpromo Hcap].
  destruct Hmover as [Rs Rd Rp Tps Tls Tld].
  apply board_make_move_inv in Hmake; [|rewrite Hsrc; lia].
  destruct Hmake as (piece' & br & Hinv & _ & Hpiece & Hplace & Hrank & Hb1 & Hpost).
  rewrite Hsrc in *. rewrite Hdst in *.
  rewrite (board_piece_on_square_at b Htyped Hinv piece src) in Hpiece;
    [|apply in_pieces; assumption|assumption|assumption].
  injection Hpiece as <-.
  unfold make_placement in Hplace. rewrite Hcastle, Hsrc, Hdst in Hplace.
  change (truthy 0) with false in Hplace. cbv iota in Hplace.
  rewrite <- Hplayer, <- Hopponent in Hplace. rewrite <- Hplayer in Hb1.
  apply make_regular_move_inv in Hplace;
    [|assumption|assumption|assumption|apply rm_in_player|apply rm_in_opponent].
  destruct Hplace as (_ & Hcrc & Hout).
  exists br. repeat split; try assumption.
  intros Hdp. specialize (Hrank Hdp).
  unfold double_push_rank_ok in *.
  replace (board_player_to_move (set_flags br (Z.land (flags br) (Z.lnot BOARD_FLAGS_EP_PRESENT))))
    with player in Hrank; [exact Hrank|].
  rewrite Hplayer. rewrite !board_player_to_move_bit. f_equal.
  unfold set_flags. cbn [flags].
  destruct Hcrc as (c & Hc & Hlow & ->).
  rewrite !Z.land_spec, !Z.lnot_spec by lia. rewrite Hlow by lia.
  unfold BOARD_FLAGS_EP_PRESENT. rewrite testbit_64 by lia.
  change (7 =? 6) with false. cbn [negb]. rewrite !andb_true_r. reflexivity.
Qed.

(** What is known about the captured piece, for either kind of capture. *)
Record capture_facts (cs cp : Z) : Prop := {
  cf_square : 0 <= cs < 64;
  cf_piece : in_arr (pieces b) cp;
  cf_move_square : move_capture_square mv = cs;
  cf_move_piece : move_capture_piece mv = cp;
  cf_piece_at : tb (pieces b) cp cs = true;
  cf_opponent_at : tb (players b) opponent cs = true;
  cf_not_src : cs <> src;
  cf_dst : cs = dst \/ (cs <> dst /\ tb (players b) opponent dst = false)
}.

Lemma rm_unoccupied_no_piece (n : Z) :
  0 <= n ->
  tb (players b) player n = false -> tb (players b) opponent n = false ->
  forall k, in_arr (pieces b) k -> tb (pieces b) k n = false.
Proof.
  intros Hn Hp Ho k Hk. destruct (tb (pieces b) k n) eqn:E; [|reflexivity].
  apply Howned in E; [|assumption|assumption].
  rewrite testbit_occupancy in E.
  destruct rm_players_cases as [[Ep Eo]|[Ep Eo]]; rewrite Ep in Hp; rewrite Eo in Ho;
    rewrite Hp, Ho in E; discriminate.
Qed.

Lemma length_moved a i j s d : length (moved a i j s d) = length a.
Proof. unfold moved. rewrite length_clear_cell, length_set_cell. reflexivity. Qed.

Lemma Forall_u64_moved a i j s d :
  Forall u64 a -> in_arr a i -> in_arr a j -> 0 <= s -> 0 <= d < 64 ->
  Forall u64 (moved a i j s d).
Proof.
  intros Ha Hi Hj Hs Hd. unfold moved.
  apply Forall_u64_clear_cell; [|in_arr_tac|assumption].
  apply Forall_u64_set_cell; assumption.
Qed.

(** The arrays after the move: [cap] is the square and kind of the
    captured piece, if any. *)
Definition arrays_after (dp : Z) (cap : option (Z * Z)) (pl pc : list Z) : Prop :=
  match cap with
  | None =>
      pl = moved (players b) player player src dst
      /\ pc = moved (pieces b) dp piece src dst
  | Some (cs, cp) =>
      pl = moved (clear_cell (players b) opponent cs) player player src dst
      /\ pc = moved (clear_cell (pieces b) cp cs) dp piece src dst
  end.

Definition capture_in_range (cap : option (Z * Z)) : Prop :=
  match cap with
  | None => True
  | Some (cs, cp) => 0 <= cs < 64 /\ in_arr (pieces b) cp
  end.

Let dst_piece : Z :=
  if truthy (move_is_promotion mv) then move_promotion_piece mv else piece.

Lemma rm_in_piece : in_arr (pieces b) piece.
Proof. apply in_pieces; [assumption | apply Hmover]. Qed.

Lemma rm_typed_after (dp : Z) (cap : option (Z * Z)) (pl pc : list Z) (f : Z) :
  in_arr (pieces b) dp -> u32 f -> capture_in_range cap ->
  arrays_after dp cap pl pc ->
  board_typed (mkBoard pl pc f).
Proof.
  intros Hdp Hf Hcap H.
  pose proof rm_in_player as Hip. pose proof rm_in_opponent as Hio.
  pose proof rm_in_piece as Hpc.
  pose proof (mo_src _ _ _ _ Hmover) as Rs.
  pose proof (mo_dst _ _ _ _ Hmover) as Rd.
  destruct cap as [[cs cp]|]; cbn [arrays_after capture_in_range] in *.
  - destruct Hcap as [Rc Hcp]. destruct H as [-> ->].
    constructor; cbn [players pieces flags]; try assumption.
    + rewrite length_moved, length_clear_cell. apply Htyped.
    + rewrite length_moved, length_clear_cell. apply Htyped.
    + apply Forall_u64_moved; try in_arr_tac; try lia.
      apply Forall_u64_clear_cell; [apply Htyped | assumption | lia].
    + apply Forall_u64_moved; try in_arr_tac; try lia.
      apply Forall_u64_clear_cell; [apply Htyped | assumption | lia].
  - destruct H as [-> ->].
    constructor; cbn [players pieces flags]; try assumption.
    + rewrite length_moved. apply Htyped.
    + rewrite length_moved. apply Htyped.
    + apply Forall_u64_moved; try assumption; try lia. apply Htyped.
    + apply Forall_u64_moved; try assumption; try lia. apply Htyped.
Qed.

(** The outcome of [board_make_move], before the captured piece is
    related to the move's own fields. *)
Lemma rm_outcome :
  exists br cap,
    board_invariants b = true
    /\ castle_rights_cleared (flags b) (flags br)
    /\ in_arr (pieces b) dst_piece
    /\ capture_in_range cap
    /\ arrays_after dst_piece cap (players b1) (pieces b1)
    /\ match cap with
       | None => truthy (move_is_capture mv) = false
                 /\ tb (players b) opponent dst = false
       | Some (cs, cp) =>
           truthy (move_is_capture mv) = true
           /\ make_capture_square b mv dst = Ret cs
           /\ board_piece_on_square b cs = Ret cp
           /\ tb (pieces b) cp cs = true
           /\ cs <> src
           /\ exists owner, board_player_on_square b cs = Ret owner /\ owner <> player
       end
    /\ (is_double_push piece src dst = true -> double_push_rank_ok player src = true)
    /\ flags b1 = make_flags (flags br) piece src dst player
    /\ board_invariants b1 = true
    /\ board_typed b1.
Proof.
  destruct rm_inverted as (br & Hinv & Hcrc & Hout & Hrank & Hb1 & Hpost).
  fold dst_piece in Hout.
  assert (Hf : u32 (make_flags (flags br) piece src dst player)).
  { eapply make_flags_u32; [apply Htyped | exact Hcrc]. }
  destruct Hout as [Hq Hod Hip Hidp Hpl Hpc
                   |cs cp owner Hc Hmcs Rc Hcp Hicp Htb Hne Hown Hownne Hip Hidp Hpl Hpc].
  - assert (Ht : board_typed b1).
    { rewrite Hb1. apply (rm_typed_after dst_piece None); cbn; auto. }
    exists br, None.
    refine (conj Hinv (conj Hcrc (conj Hidp (conj I (conj _ (conj _
              (conj Hrank (conj _ (conj Hpost Ht))))))))).
    + rewrite Hb1. cbn. auto.
    + auto.
    + rewrite Hb1. reflexivity.
  - assert (Ht : board_typed b1).
    { rewrite Hb1. apply (rm_typed_after dst_piece (Some (cs, cp))); cbn; auto. }
    exists br, (Some (cs, cp)).
    refine (conj Hinv (conj Hcrc (conj Hidp (conj (conj Rc Hicp) (conj _ (conj _
              (conj Hrank (conj _ (conj Hpost Ht))))))))).
    + rewrite Hb1. cbn. auto.
    + repeat split; try assumption. exists owner. auto.
    + rewrite Hb1. reflexivity.
Qed.

Lemma rm_player_ne_opponent : player <> opponent.
Proof. destruct rm_players_cases as [[-> ->]|[-> ->]]; lia. Qed.

Lemma rm_dst_conflict (dp cs cp : Z) :
  arrays_after dp (Some (cs, cp)) (players b1) (pieces b1) ->
  0 <= cs < 64 -> cs <> dst ->
  tb (players b) opponent dst = true ->
  board_invariants b1 = true -> board_typed b1 -> False.
Proof.
  intros [Hpl _] Rc Hne Hopp Hpost Ht.
  pose proof rm_in_player as Hip. pose proof rm_in_opponent as Hio.
  pose proof (mo_src _ _ _ _ Hmover) as Rs.
  pose proof (mo_dst _ _ _ _ Hmover) as Rd.
  pose proof rm_src_ne_dst as Hsd. pose proof rm_player_ne_opponent as Hpo.
  assert (Hlen : length (players b1) = length (players b)).
  { rewrite Hpl, length_moved, length_clear_cell. reflexivity. }
  assert (H1 : tb (players b1) player dst = true).
  { rewrite Hpl. cells. rewrite !Z.eqb_refl.
    destruct (Z.eqb_spec dst src); [lia | reflexivity]. }
  assert (H2 : tb (players b1) opponent dst = true).
  { rewrite Hpl. cells. rewrite Hopp.
    destruct (Z.eqb_spec opponent player); [lia|].
    destruct (Z.eqb_spec dst cs); [lia|]. rewrite andb_false_r. reflexivity. }
  rewrite (players_disjoint b1 Ht Hpost player opponent dst) in H2;
    [discriminate| | |assumption|assumption].
  - unfold in_arr in *. rewrite Hlen. assumption.
  - unfold in_arr in *. rewrite Hlen. assumption.
Qed.

Lemma rm_capture_facts (dp cs cp : Z) :
  board_invariants b = true ->
  arrays_after dp (Some (cs, cp)) (players b1) (pieces b1) ->
  board_invariants b1 = true -> board_typed b1 ->
  0 <= cs < 64 -> in_arr (pieces b) cp ->
  truthy (move_is_capture mv) = true ->
  make_capture_square b mv dst = Ret cs ->
  board_piece_on_square b cs = Ret cp ->
  tb (pieces b) cp cs = true ->
  cs <> src ->
  (exists owner, board_player_on_square b cs = Ret owner /\ owner <> player) ->
  capture_facts cs cp.
Proof.
  intros Hinv Harr Hpost Ht Rc Hicp Hc Hmcs Hcp Htb Hne (owner & Hown & Hownne).
  pose proof rm_in_player as Hip. pose proof rm_in_opponent as Hio.
  pose proof (mo_dst _ _ _ _ Hmover) as Rd.
  assert (Hpcs : tb (players b) player cs = false).
  { destruct (tb (players b) player cs) eqn:E; [|reflexivity].
    rewrite (board_player_on_square_at b Htyped Hinv player cs) in Hown by assumption.
    injection Hown as <-. contradiction. }
  assert (Hocs : tb (players b) opponent cs = true).
  { pose proof (Howned cp cs Hicp ltac:(lia) Htb) as Ho.
    rewrite testbit_occupancy in Ho.
    destruct rm_players_cases as [[Ep Eo]|[Ep Eo]]; rewrite Ep in Hpcs; rewrite Eo;
      rewrite Hpcs in Ho; simpl in Ho; [exact Ho|].
    rewrite orb_false_r in Ho. exact Ho. }
  apply make_capture_square_inv in Hmcs as Hmcs'; [|assumption].
  destruct (ms_capture _ _ _ _ _ Hshape) as [Hic _ _|cp' Hic Hsq Hpc Hpd Hod Hnep
                                             |cpos Hic Hpawn Hep Hpos Hsq Hpc Hpd].
  - unfold truthy in Hc. rewrite Hic in Hc. discriminate.
  - unfold opponent_of in Hod. rewrite <- Hplayer, <- Hopponent in Hod.
    destruct Hmcs' as [[Hep Hcs]|[Hep ->]].
    + exfalso. apply (rm_dst_conflict dp cs cp); try assumption. lia.
    + rewrite Hsq in *. rewrite Hpd in Hcp. injection Hcp as <-.
      constructor; try assumption; try reflexivity. left. reflexivity.
  - destruct Hmcs' as [[_ Hcs]|[Hep' _]]; [|contradiction].
    assert (Ecs : cs = cpos).
    { unfold make_capture_square in Hmcs. rewrite Hep in Hmcs.
      assert ((dst =? BOARD_POS_INVALID) = false) as Hv
          by (apply Z.eqb_neq; unfold BOARD_POS_INVALID; lia).
      rewrite Hv, Z.eqb_refl in Hmcs. simpl in Hmcs. congruence. }
    rewrite <- Ecs in *. rewrite Hpd in Hcp. injection Hcp as <-.
    constructor; try assumption; try reflexivity.
    right. split; [lia|].
    destruct (tb (players b) opponent dst) eqn:E; [|reflexivity].
    exfalso. apply (rm_dst_conflict dp cs PAWN); try assumption. lia.
Qed.

Definition capture_ok (cap : option (Z * Z)) : Prop :=
  match cap with
  | None => move_is_capture mv = 0 /\ tb (players b) opponent dst = false
  | Some (cs, cp) => move_is_capture mv = 1 /\ capture_facts cs cp
  end.

Lemma move_is_capture_cases (m : Z) : move_is_capture m = 0 \/ move_is_capture m = 1.
Proof.
  unfold move_is_capture. destruct (truthy (Z.land m MOVE_FLAGS_IS_CAPTURE)); auto.
Qed.

Lemma truthy_false_is_capture (m : Z) :
  truthy (move_is_capture m) = false -> move_is_capture m = 0.
Proof. destruct (move_is_capture_cases m) as [->| ->]; [reflexivity | discriminate]. Qed.

Lemma truthy_true_is_capture (m : Z) :
  truthy (move_is_capture m) = true -> move_is_capture m = 1.
Proof. destruct (move_is_capture_cases m) as [->| ->]; [discriminate | reflexivity]. Qed.

(** The normal form of a generated move's effect. *)
Lemma rm_normal :
  exists br cap,
    board_invariants b = true
    /\ castle_rights_cleared (flags b) (flags br)
    /\ in_arr (pieces b) dst_piece
    /\ capture_ok cap
    /\ arrays_after dst_piece cap (players b1) (pieces b1)
    /\ (is_double_push piece src dst = true -> double_push_rank_ok player src = true)
    /\ flags b1 = make_flags (flags br) piece src dst player
    /\ board_invariants b1 = true
    /\ board_typed b1.
Proof.
  destruct rm_outcome as (br & cap & Hinv & Hcrc & Hdp & Hrange & Harr & Hcap
                          & Hrank & Hf & Hpost & Ht).
  exists br, cap.
  refine (conj Hinv (conj Hcrc (conj Hdp (conj _ (conj Harr (conj Hrank
            (conj Hf (conj Hpost Ht)))))))).
  destruct cap as [[cs cp]|]; cbn [capture_ok capture_in_range] in *.
  - destruct Hrange as [Rc Hicp].
    destruct Hcap as (Hc & Hmcs & Hcp & Htb & Hne & Hown).
    split; [apply truthy_true_is_capture; assumption|].
    apply (rm_capture_facts dst_piece); assumption.
  - destruct Hcap as [Hc Hod]. split; [|assumption].
    apply truthy_false_is_capture. assumption.
Qed.

(** After the captured piece is taken off, no piece stands on [dst]. *)
Lemma rm_dst_clean (cap : option (Z * Z)) (k : Z) :
  board_invariants b = true -> capture_ok cap -> in_arr (pieces b) k ->
  match cap with
  | None => tb (pieces b) k dst = false
  | Some (cs, cp) => (k = cp /\ cs = dst) \/ tb (pieces b) k dst = false
  end.
Proof.
  intros Hinv Hcap Hk. pose proof (mo_dst _ _ _ _ Hmover) as Rd.
  destruct cap as [[cs cp]|]; cbn [capture_ok] in Hcap.
  - destruct Hcap as [_ [Rc Hicp Hms Hmp Hat Hopp Hns Hd]].
    destruct Hd as [->|[Hne Hod]].
    + destruct (Z.eq_dec k cp) as [->|Hkc]; [left; auto|]. right.
      apply (pieces_disjoint_tb b Htyped Hinv cp k dst); auto.
    + right. apply rm_unoccupied_no_piece; try assumption; [lia|].
      apply rm_player_dst.
  - destruct Hcap as [_ Hod].
    apply rm_unoccupied_no_piece; try assumption; [lia|]. apply rm_player_dst.
Qed.

Lemma rm_piece_src_kind :
  (if truthy (move_is_promotion mv) then PAWN else dst_piece) = piece.
Proof.
  unfold dst_piece.
  destruct (ms_promo _ _ _ _ _ Hshape) as [E|(E & -> & _)]; rewrite E; reflexivity.
Qed.

Lemma rm_piece_at_dst (cap : option (Z * Z)) :
  in_arr (pieces b) dst_piece ->
  capture_in_range cap ->
  arrays_after dst_piece cap (players b1) (pieces b1) ->
  board_invariants b1 = true -> board_typed b1 ->
  board_piece_on_square b1 dst = Ret dst_piece.
Proof.
  intros Hdp Hrange Harr Hpost Ht.
  pose proof rm_in_piece as Hip.
  pose proof (mo_src _ _ _ _ Hmover) as Rs.
  pose proof (mo_dst _ _ _ _ Hmover) as Rd.
  pose proof rm_src_ne_dst as Hsd.
  apply (board_piece_on_square_at b1 Ht Hpost); [|assumption|].
  - apply in_pieces; [assumption|]. apply (in_pieces_inv b Htyped). assumption.
  - destruct cap as [[cs cp]|]; cbn [arrays_after capture_in_range] in *.
    + destruct Hrange as [Rc Hicp]. destruct Harr as [_ ->]. cells.
      rewrite !Z.eqb_refl. destruct (Z.eqb_spec dst src); [lia|].
      rewrite andb_false_r. reflexivity.
    + destruct Harr as [_ ->]. cells.
      rewrite !Z.eqb_refl. destruct (Z.eqb_spec dst src); [lia|].
      rewrite andb_false_r. reflexivity.
Qed.

Lemma capture_ok_in_range (cap : option (Z * Z)) :
  capture_ok cap -> capture_in_range cap.
Proof.
  destruct cap as [[cs cp]|]; cbn; [|auto].
  intros [_ H]. split; apply H.
Qed.

Ltac split_var x :=
  repeat match goal with
         | |- context [x =? ?y] => destruct (Z.eqb_spec x y) as [->|?]
         end.

Ltac split_cell k n :=
  split_var k; split_var n; cmp_cases; try lia; cbn [andb orb negb].

Lemma rm_unmake_arrays (cap : option (Z * Z)) :
  board_invariants b = true ->
  in_arr (pieces b) dst_piece ->
  capture_ok cap ->
  arrays_after dst_piece cap (players b1) (pieces b1) ->
  unmake_arrays b1 mv dst_piece player = Ret (players b, pieces b).
Proof.
  intros Hinv Hdp Hcap Harr.
  pose proof rm_in_piece as Hip. pose proof rm_in_player as Hipl.
  pose proof rm_in_opponent as Hio.
  pose proof (mo_src _ _ _ _ Hmover) as Rs.
  pose proof (mo_dst _ _ _ _ Hmover) as Rd.
  pose proof rm_src_ne_dst as Hsd.
  pose proof rm_player_src as Hps. pose proof rm_player_dst as Hpd.
  pose proof (mo_piece_src _ _ _ _ Hmover) as Hcs.
  pose proof rm_player_ne_opponent as Hpo.
  unfold unmake_arrays.
  rewrite (ms_src _ _ _ _ _ Hshape), (ms_dst _ _ _ _ _ Hshape), (ms_castle _ _ _ _ _ Hshape).
  rewrite rm_piece_src_kind. rewrite <- Hopponent.
  change (truthy 0) with false. cbv iota.
  destruct cap as [[cs cp]|]; cbn [arrays_after capture_ok] in *.
  - destruct Hcap as [Hic [Rc Hicp Hms Hmp Hat Hopp Hns Hd]].
    destruct Harr as [Hpl Hpc]. rewrite Hpl, Hpc. unfold moved.
    rewrite Hic, Hms, Hmp. change (truthy 1) with true. cbv iota.
    repeat (rewrite arr_clear_square_cell by cell_side; cbn [bind]).
    repeat (rewrite arr_set_square_cell by cell_side; cbn [bind]).
    f_equal. f_equal.
    + symmetry. apply arr_eq_cells.
      { rewrite !length_set_cell, !length_clear_cell, !length_set_cell,
          !length_clear_cell. reflexivity. }
      intros c n Hc Hn. cells.
      split_cell c n; rewrite ?Hopp, ?Hps, ?Hpd; try reflexivity; congruence.
    + symmetry. apply arr_eq_cells.
      { rewrite !length_set_cell, !length_clear_cell, !length_set_cell,
          !length_clear_cell. reflexivity. }
      intros k n Hk Hn. cells.
      pose proof (rm_dst_clean (Some (cs, cp)) k Hinv
                    (conj Hic (Build_capture_facts cs cp Rc Hicp Hms Hmp Hat Hopp Hns Hd))
                    Hk) as Hclean.
      cbn in Hclean.
      split_cell k n; rewrite ?Hat, ?Hcs; try reflexivity; try congruence;
        destruct Hclean as [[? ?]|?]; congruence.
  - destruct Hcap as [Hic Hod]. destruct Harr as [Hpl Hpc]. rewrite Hpl, Hpc.
    unfold moved. rewrite Hic. change (truthy 0) with false. cbv iota.
    repeat (rewrite arr_clear_square_cell by cell_side; cbn [bind]).
    repeat (rewrite arr_set_square_cell by cell_side; cbn [bind]).
    f_equal. f_equal.
    + symmetry. apply arr_eq_cells.
      { rewrite !length_set_cell, !length_clear_cell, !length_set_cell. reflexivity. }
      intros c n Hc Hn. cells.
      split_cell c n; rewrite ?Hps, ?Hpd; try reflexivity; congruence.
    + symmetry. apply arr_eq_cells.
      { rewrite !length_set_cell, !length_clear_cell, !length_set_cell. reflexivity. }
      intros k n Hk Hn. cells.
      pose proof (rm_dst_clean None k Hinv (conj Hic Hod) Hk) as Hclean.
      cbn in Hclean.
      split_cell k n; rewrite ?Hcs; try reflexivity; congruence.
Qed.

Theorem rm_round_trip : board_unmake_move b1 mv = Ret b.
Proof.
  destruct rm_normal as (br & cap & Hinv & Hcrc & Hdp & Hcap & Harr & Hrank
                         & Hf & Hpost & Ht).
  pose proof (ms_prev _ _ _ _ _ Hshape) as Hprev.
  assert (Hpl : (if truthy (Z.land (flags b) BOARD_FLAGS_TURN) then 1 else 0) = player).
  { rewrite Hplayer. reflexivity. }
  assert (Eflags : restored_flags (flags b1) mv = flags b).
  { rewrite Hf, <- Hpl. apply flags_round_trip; [apply Htyped | assumption | auto]. }
  assert (Eplayer : (if truthy (Z.land (restored_low (flags b1) mv) BOARD_FLAGS_TURN)
                     then 1 else 0) = player).
  { rewrite Hf, <- Hpl. apply restored_player; [apply Htyped | assumption | auto]. }
  assert (Eb : mkBoard (players b) (pieces b) (restored_flags (flags b1) mv) = b).
  { rewrite Eflags. destruct b. reflexivity. }
  rewrite <- Eb at 1.
  apply (board_unmake_move_Ret b1 mv dst_piece).
  - assumption.
  - rewrite (ms_dst _ _ _ _ _ Hshape).
    apply (rm_piece_at_dst cap); try assumption.
    apply capture_ok_in_range. assumption.
  - unfold in_arr in Hdp. lia.
  - rewrite Eplayer. apply (rm_unmake_arrays cap); assumption.
  - rewrite Eb. assumption.
Qed.

Lemma rm_occupancy (bb : board) (n : Z) :
  Z.testbit (occupancy bb) n = tb (players bb) player n || tb (players bb) opponent n.
Proof.
  rewrite testbit_occupancy.
  destruct rm_players_cases as [[-> ->]|[-> ->]]; [reflexivity | apply orb_comm].
Qed.

(** The squares occupied after the move: those occupied before, without
    the source and the capture square, with the destination. *)
Lemma rm_players_after (cap : option (Z * Z)) (n : Z) :
  capture_in_range cap ->
  arrays_after dst_piece cap (players b1) (pieces b1) ->
  0 <= n ->
  tb (players b1) player n = negb (n =? src) && ((n =? dst) || tb (players b) player n)
  /\ tb (players b1) opponent n
     = match cap with
       | None => tb (players b) opponent n
       | Some (cs, _) => negb (n =? cs) && tb (players b) opponent n
       end.
Proof.
  intros Hrange Harr Hn.
  pose proof rm_in_player as Hipl. pose proof rm_in_opponent as Hio.
  pose proof (mo_src _ _ _ _ Hmover) as Rs.
  pose proof (mo_dst _ _ _ _ Hmover) as Rd.
  pose proof rm_player_ne_opponent as Hpo.
  destruct cap as [[cs cp]|]; cbn [arrays_after capture_in_range] in *.
  - destruct Hrange as [Rc _]. destruct Harr as [-> _]. cells.
    rewrite !Z.eqb_refl.
    destruct (Z.eqb_spec player opponent); [lia|].
    destruct (Z.eqb_spec opponent player); [lia|].
    cbn [andb orb negb]. auto.
  - destruct Harr as [-> _]. cells.
    rewrite !Z.eqb_refl.
    destruct (Z.eqb_spec opponent player); [lia|].
    cbn [andb orb negb]. auto.
Qed.

Theorem rm_owned_after : pieces_owned b1.
Proof.
  destruct rm_normal as (br & cap & Hinv & Hcrc & Hdp & Hcap & Harr & Hrank
                         & Hf & Hpost & Ht).
  pose proof (capture_ok_in_range cap Hcap) as Hrange.
  pose proof rm_in_piece as Hip.
  pose proof (mo_src _ _ _ _ Hmover) as Rs.
  pose proof (mo_dst _ _ _ _ Hmover) as Rd.
  pose proof rm_src_ne_dst as Hsd.
  pose proof (mo_piece_src _ _ _ _ Hmover) as Hcs.
  intros k n Hk Hn Htb.
  assert (Hk' : in_arr (pieces b) k).
  { apply in_pieces; [assumption|]. apply (in_pieces_inv b1 Ht). assumption. }
  rewrite rm_occupancy.
  destruct (rm_players_after cap n Hrange Harr Hn) as [-> ->].
  assert (Hown : tb (pieces b) k n = true ->
                 tb (players b) player n || tb (players b) opponent n = true).
  { intros H. rewrite <- rm_occupancy. apply (Howned k n); assumption. }
  assert (Hsrc : n = src -> k <> piece -> tb (pieces b) k n = true -> False).
  { intros -> Hkp H.
    rewrite (pieces_disjoint_tb b Htyped Hinv piece k src) in H;
      [discriminate|assumption|assumption|congruence|assumption]. }
  destruct cap as [[cs cp]|]; cbn [arrays_after capture_ok capture_in_range] in *.
  - destruct Hcap as [Hic [Rc Hicp Hms Hmp Hat Hopp Hns Hd]].
    destruct Harr as [_ Hpc]. rewrite Hpc in Htb. cells_in Htb.
    destruct (Z.eqb_spec n src) as [En|Hns'].
    + exfalso. rewrite andb_true_r in Htb.
      destruct (Z.eqb_spec n dst); [lia|]. rewrite andb_false_r in Htb.
      destruct (Z.eqb_spec k piece) as [|Hkp]; [discriminate|].
      cbn [negb andb orb] in Htb. apply andb_true_iff in Htb.
      apply (Hsrc En Hkp), Htb.
    + destruct (Z.eqb_spec n dst) as [|Hnd]; [reflexivity|].
      rewrite !andb_false_r in Htb. cbn [negb andb orb] in *.
      destruct (Z.eqb_spec n cs) as [Enc|Hnc].
      * exfalso. rewrite andb_true_r in Htb.
        destruct (Z.eqb_spec k cp) as [|Hkc]; [discriminate|].
        cbn [negb andb] in Htb. rewrite Enc in Htb.
        rewrite (pieces_disjoint_tb b Htyped Hinv cp k cs) in Htb;
          [discriminate|assumption|assumption|congruence|assumption].
      * rewrite andb_false_r in Htb. cbn [negb andb orb] in *.
        apply Hown. assumption.
  - destruct Harr as [_ Hpc]. rewrite Hpc in Htb. cells_in Htb.
    destruct (Z.eqb_spec n src) as [En|Hns'].
    + exfalso. rewrite andb_true_r in Htb.
      destruct (Z.eqb_spec n dst); [lia|]. rewrite andb_false_r in Htb.
      destruct (Z.eqb_spec k piece) as [|Hkp]; [discriminate|].
      cbn [negb andb orb] in Htb.
      apply (Hsrc En Hkp), Htb.
    + destruct (Z.eqb_spec n dst) as [|Hnd]; [reflexivity|].
      rewrite !andb_false_r in Htb. cbn [negb andb orb] in *.
      apply Hown. assumption.
Qed.

(** The en-passant square set by a double pawn push is the square the pawn
    crossed; it stays empty when it was empty before. *)
Definition crossed_square : Z := if dst >? src then src + 8 else src - 8.

Definition ep_unoccupied (bb : board) : Prop :=
  truthy (Z.land (flags bb) BOARD_FLAGS_EP_PRESENT) = true ->
  Z.testbit (occupancy bb) (Z.land (flags bb) BOARD_FLAGS_EP_SQUARE) = false.

Theorem rm_ep_after :
  (is_double_push piece src dst = true ->
   Z.testbit (occupancy b) crossed_square = false) ->
  ep_unoccupied b1.
Proof.
  intros Hmid Hep.
  destruct rm_normal as (br & cap & Hinv & Hcrc & Hdp & Hcap & Harr & Hrank
                         & Hf & Hpost & Ht).
  pose proof (capture_ok_in_range cap Hcap) as Hrange.
  pose proof (mo_src _ _ _ _ Hmover) as Rs.
  pose proof (mo_dst _ _ _ _ Hmover) as Rd.
  rewrite Hf in *.
  rewrite (make_flags_ep_present (flags b)) in Hep by (apply Htyped || assumption).
  rewrite (make_flags_ep_square (flags b)) by (apply Htyped || assumption).
  fold crossed_square. specialize (Hmid Hep).
  assert (Hc : 0 <= crossed_square /\ crossed_square <> dst).
  { unfold crossed_square, is_double_push in *.
    apply andb_true_iff in Hep. destruct Hep as [_ Hep].
    apply orb_true_iff in Hep. rewrite !Z.eqb_eq in Hep.
    destruct (Z.gtb_spec dst src); lia. }
  destruct Hc as [Hc0 Hcd].
  rewrite rm_occupancy in Hmid. apply orb_false_iff in Hmid. destruct Hmid as [Hm1 Hm2].
  rewrite rm_occupancy.
  destruct (rm_players_after cap crossed_square Hrange Harr Hc0) as [-> ->].
  rewrite Hm1, Hm2.
  destruct (Z.eqb_spec crossed_square dst); [contradiction|].
  destruct cap as [[cs cp]|]; rewrite ?andb_false_r; reflexivity.
Qed.
End RegularMove.

Lemma initial_board_fen : board_from_fen_str start_fen = Ret initial_board.
Proof. vm_compute. reflexivity. Qed.

Lemma tail_loop_inl {R S : Type} (n : nat) (body : S -> res (R + S)) (s : S) (v : R) :
  body s = Ret (inl v) -> tail_loop n body s = Ret (inl v).
Proof.
  intros H. induction n as [|n IH]; [exact H|].
  cbn [tail_loop]. rewrite IH. reflexivity.
Qed.

Lemma tail_run_inl {R S : Type} (n : nat) (body : S -> res (R + S)) (s : S) (v : R) :
  body s = Ret (inl v) -> tail_run n body s = Ret v.
Proof.
  intros H. unfold tail_run. rewrite (tail_loop_inl n body s v H). reflexivity.
Qed.

(** * Positions of the examples *)

(** * The END mode of the generator *)

Lemma end_mode_body (g : move_gen) (b : board) (undo_moves : Z) :
  board_typed b -> board_invariants b = true -> cur_mode g = MOVE_GEN_MODE_END ->
  move_gen_next_body undo_moves (g, b)
  = if truthy (hit_move g) then Ret (inl (MOVE_END, set_done g MOVE_DONE_NORMAL, b))
    else
      let* chk := board_player_in_check b (board_player_to_move b) in
      if truthy chk
      then Ret (inl (MOVE_END, set_done g MOVE_DONE_CHECKMATE, b))
      else Ret (inl (MOVE_END, set_done g MOVE_DONE_STALEMATE, b)).
Proof.
  intros Ht Hinv Hmode. unfold move_gen_next_body.
  rewrite Hinv. cbn [assert bind].
  rewrite (rd_Ret _ _ (in_players_to_move b Ht)). cbn [bind].
  rewrite Hmode. change (MOVE_GEN_MODE_END =? MOVE_GEN_MODE_END) with true.
  cbv iota. reflexivity.
Qed.

(** * The guard of [move_new] against capturing one's own piece (C10) *)

(** C10: when the destination holds a piece ([board_piece_on_square] finds
    one) that belongs to the player to move ([board_player_on_square] gives
    that player), [move_new] returns [MOVE_END], whatever the source square
    and the promotion arguments are. *)
Theorem move_new_own_piece (b : board) (src dst is_promote promote_piece p : Z) :
  0 <= src < 64 -> 0 <= dst < 64 ->
  board_piece_on_square b dst = Ret p -> p <> -1 ->
  board_player_on_square b dst = Ret (board_player_to_move b) ->
  move_new src dst is_promote promote_piece b = Ret MOVE_END.
Proof.
  intros _ _ Hp Hne Hpl. unfold move_new.
  rewrite Hp. cbn [bind].
  destruct (Z.eqb_spec p (-1)) as [|_]; [contradiction|].
  cbn [negb]. rewrite Hpl. cbn [bind].
  rewrite Z.eqb_refl. reflexivity.
Qed.

(** In the initial position a2 holds a pawn of White, who is to move: no
    move to a2 is built. *)
Lemma move_new_own_piece_witness :
  move_new 0 8 0 0 initial_board = Ret MOVE_END.
Proof.
  apply (move_new_own_piece initial_board 0 8 0 0 PAWN);
    [lia | lia | vm_compute; reflexivity | discriminate | vm_compute; reflexivity].
Defined.

(** * Move strings *)


Lemma code_chr (v : Z) : 0 <= v < 256 -> code (chr v) = v.
Proof. intros H. unfold code, chr. rewrite N_ascii_embedding by lia. lia. Qed.

Ltac cmp_split :=
  repeat (match goal with
          | |- context [Z.geb ?x ?y] => destruct (Z.geb x y)
          | |- context [Z.leb ?x ?y] => destruct (Z.leb x y)
          end; cbn [andb orb negb bind assert]).

Lemma board_pos_from_str_two (c0 c1 : Z) :
  0 <= c0 < 256 -> 0 <= c1 < 256 ->
  board_pos_from_str (two_char_str c0 c1)
  = if file_wellformed c0 && rank_wellformed c1
    then Ret (square_of_chars c0 c1) else Abort.
Proof.
  intros H0 H1. unfold two_char_str.
  destruct (Z.eqb_spec c0 0) as [->|N0]; [reflexivity|].
  destruct (Z.eqb_spec c1 0) as [->|N1].
  - unfold board_pos_from_str. cbn [char_at peek bind].
    rewrite code_chr by lia.
    change (rank_wellformed 0) with false. rewrite andb_false_r.
    cmp_split; reflexivity.
  - unfold board_pos_from_str. cbn [char_at peek bind].
    rewrite !code_chr by lia.
    unfold file_wellformed, rank_wellformed, square_of_chars.
    cmp_split; reflexivity.
Qed.


(** * The turn counter in FEN text (C6) *)

(** C6 fails for a turn counter of four digits: [board_to_fen_str] prints
    the counter with [snprintf] into a buffer of size 4, that is three
    digits, and [board_from_fen_str] reads the text back as turn 100. *)
Theorem fen_turn_counter_truncated :
  exists b s b',
    board_from_fen_str long_game_fen = Ret b
    /\ board_get_full_turn_number b = 1000
    /\ board_to_fen_str b = Ret s
    /\ s = "rnbqkb1r/pppppppp/5n2/8/8/5N2/PPPPPPPP/RNBQKB1R w KQkq - 0 100"%string
    /\ board_from_fen_str s = Ret b'
    /\ board_get_full_turn_number b' = 100
    /\ (flags b' =? flags b) = false.
Proof.
  eexists _, _, _.
  split; [vm_compute; reflexivity|].
  split; [vm_compute; reflexivity|].
  split; [vm_compute; reflexivity|].
  split; [reflexivity|].
  split; [vm_compute; reflexivity|].
  split; [vm_compute; reflexivity | vm_compute; reflexivity].
Qed.

(** * Tail calls: invariants and termination *)

Section TailLoop.
Context {R S : Type}.
Variable body : S -> res (R + S).
Variable Inv : S -> Prop.
Variable Post : R -> Prop.
Variable mu : S -> Z.

Hypothesis Hstep : forall s r, Inv s -> body s = Ret r ->
  match r with
  | inl v => Post v
  | inr s' => Inv s' /\ mu s' < mu s
  end.
Hypothesis Hfuel : forall s, Inv s -> body s <> OutOfFuel.
Hypothesis Hmu : forall s, Inv s -> 0 <= mu s.

Lemma tail_loop_spec (n : nat) :
  forall (s : S) (r : R + S),
    Inv s -> tail_loop n body s = Ret r ->
    match r with
    | inl v => Post v
    | inr s' => Inv s' /\ mu s' + 2 ^ Z.of_nat n <= mu s
    end.
Proof.
  induction n as [|n IH]; intros s r Hs H.
  - cbn [tail_loop] in H. specialize (Hstep s r Hs H).
    destruct r as [v|s']; [assumption|].
    change (2 ^ Z.of_nat 0) with 1. split; [tauto | lia].
  - cbn [tail_loop] in H. apply bind_Ret_inv in H. destruct H as (r1 & H1 & H).
    pose proof (IH s r1 Hs H1) as IH1. destruct r1 as [v|s1].
    + injection H as <-. assumption.
    + destruct IH1 as [Hs1 Hm1]. pose proof (IH s1 r Hs1 H) as IH2.
      destruct r as [v|s']; [assumption|].
      destruct IH2 as [Hs' Hm']. split; [assumption|].
      rewrite Nat2Z.inj_succ, Z.pow_succ_r by lia. lia.
Qed.

Lemma tail_loop_fuel (n : nat) :
  forall s : S, Inv s -> tail_loop n body s <> OutOfFuel.
Proof.
  induction n as [|n IH]; intros s Hs; [exact (Hfuel s Hs)|].
  cbn [tail_loop]. pose proof (IH s Hs) as H1.
  pose proof (tail_loop_spec n s) as Hspec.
  destruct (tail_loop n body s) as [r1| |] eqn:E; cbn [bind];
    [|discriminate|contradiction].
  specialize (Hspec r1 Hs eq_refl). destruct r1 as [v|s1]; [discriminate|].
  apply IH, Hspec.
Qed.

(** With a recursion budget above the measure, a run ends with a value or
    with a failed assertion. *)
Lemma tail_run_spec (n : nat) (s : S) :
  Inv s -> mu s < 2 ^ Z.of_nat n ->
  tail_run n body s <> OutOfFuel
  /\ forall v, tail_run n body s = Ret v -> Post v.
Proof.
  intros Hs Hn. unfold tail_run.
  pose proof (tail_loop_fuel n s Hs) as Hf.
  pose proof (tail_loop_spec n s) as Hspec.
  destruct (tail_loop n body s) as [r| |] eqn:E; cbn [bind];
    [|split; [discriminate | intros v; discriminate]|contradiction].
  specialize (Hspec r Hs eq_refl). destruct r as [v|s'].
  - split; [discriminate|]. intros v' Hv. injection Hv as <-. assumption.
  - destruct Hspec as [Hs' Hm]. specialize (Hmu s' Hs'). lia.
Qed.
End TailLoop.

(** * The generator's measure *)

Lemma moves_rank_range (m : Z) : u64 m -> 0 <= moves_rank m <= 64.
Proof.
  intros Hm. unfold moves_rank, lsb_index.
  destruct (Z.eqb_spec m 0); [lia|].
  destruct (bitboard_scan_lsb m) as [d| |] eqn:E; try lia.
  destruct (bitboard_scan_lsb_spec m d E) as (H0 & Ht & _).
  pose proof (testbit_true_u64 m d Hm H0 Ht). lia.
Qed.

Lemma moves_rank_clear (m dst : Z) :
  u64 m -> bitboard_scan_lsb m = Ret dst ->
  moves_rank m = 64 - dst /\ 0 <= dst < 64
  /\ 0 <= moves_rank (clrb m dst) < moves_rank m.
Proof.
  intros Hm E.
  destruct (bitboard_scan_lsb_spec m dst E) as (H0 & Ht & Hlow).
  pose proof (testbit_true_u64 m dst Hm H0 Ht) as Hd.
  assert (Hr : moves_rank m = 64 - dst).
  { unfold moves_rank, lsb_index. rewrite E.
    destruct (Z.eqb_spec m 0) as [->|]; [discriminate E | reflexivity]. }
  split; [assumption|]. split; [lia|]. rewrite Hr.
  pose proof (u64_clrb m dst Hm H0) as Hm'.
  pose proof (moves_rank_range _ Hm') as Hrange.
  split; [lia|].
  unfold moves_rank, lsb_index.
  destruct (Z.eqb_spec (clrb m dst) 0) as [|Hne]; [lia|].
  destruct (bitboard_scan_lsb_Ret (clrb m dst)) as (s' & E');
    [unfold u64 in Hm'; lia|].
  rewrite E'.
  destruct (bitboard_scan_lsb_spec _ _ E') as (H0' & Ht' & _).
  rewrite testbit_clrb in Ht' by lia.
  apply andb_true_iff in Ht'. destruct Ht' as [Hne' Ht'].
  destruct (Z.eqb_spec s' dst); [discriminate|].
  destruct (Z_lt_le_dec s' dst) as [Hlt|Hge]; [|lia].
  rewrite (Hlow s') in Ht' by lia. discriminate.
Qed.

(** * The generator's invariant *)

Lemma move_gen_next_promote_spec (g : move_gen) :
  2 <= cur_promotion g <= 5 ->
  move_gen_next_promote g
  = set_cur_promotion g (if cur_promotion g =? 5 then 2 else cur_promotion g + 1).
Proof.
  intros H. unfold move_gen_next_promote.
  assert (E : cur_promotion g = 2 \/ cur_promotion g = 3
              \/ cur_promotion g = 4 \/ cur_promotion g = 5) by lia.
  destruct E as [E|[E|[E|E]]]; rewrite E; reflexivity.
Qed.

Lemma gen_capture_shape (P : board) (pt dst : Z) (ic1 cp1 cpos1 ic cp cpos : Z) :
  board_typed P -> 0 <= dst < 64 ->
  (if Z.testbit (get (players P) (c_not (board_player_to_move P))) dst then
     let* capture_piece := board_piece_on_square P dst in
     let* _ := assert (negb (capture_piece =? -1)) in
     Ret (1, capture_piece, dst)
   else Ret (0, 0, 0)) = Ret (ic1, cp1, cpos1) ->
  (if pt =? PAWN then
     if negb (board_get_en_passant_target P =? BOARD_POS_INVALID)
        && (dst =? board_get_en_passant_target P) then
       let* capture_pos :=
         en_passant_target_to_pawn_pos (board_get_en_passant_target P) in
       let* p := board_piece_on_square P capture_pos in
       let* _ := assert (p =? PAWN) in
       Ret (1, PAWN, capture_pos)
     else Ret (ic1, cp1, cpos1)
   else Ret (ic1, cp1, cpos1)) = Ret (ic, cp, cpos) ->
  (ic = 0 \/ ic = 1) /\ 0 <= cp < 8 /\ 0 <= cpos < 64
  /\ forall m,
      move_is_capture m = ic ->
      (ic = 1 -> move_capture_piece m = cp /\ move_capture_square m = cpos) ->
      capture_shape P m dst pt.
Proof.
  intros Ht Rd H1 H2.
  assert (Hfirst :
    (ic1 = 0 /\ cp1 = 0 /\ cpos1 = 0
     /\ tb (players P) (opponent_of P) dst = false)
    \/ (ic1 = 1 /\ cpos1 = dst /\ board_piece_on_square P dst = Ret cp1
        /\ 0 <= cp1 < 6 /\ tb (players P) (opponent_of P) dst = true)).
  { unfold tb, opponent_of.
    destruct (Z.testbit (get (players P) (c_not (board_player_to_move P))) dst) eqn:E.
    - right. inv_bind H1 as p Hp. inv_bind H1 as u Hu. inv_assert Hu.
      injection H1 as <- <- <-.
      destruct (board_piece_on_square_inv P dst p) as (_ & [[Ep _]|[Hin _]]);
        [lia | assumption | rewrite Ep in Hu; discriminate Hu |].
      pose proof (in_pieces_inv P Ht p Hin). auto.
    - left. injection H1 as <- <- <-. auto. }
  assert (Hplain :
    (pt = PAWN -> board_get_en_passant_target P <> dst) ->
    ic = ic1 -> cp = cp1 -> cpos = cpos1 ->
    (ic = 0 \/ ic = 1) /\ 0 <= cp < 8 /\ 0 <= cpos < 64
    /\ forall m,
        move_is_capture m = ic ->
        (ic = 1 -> move_capture_piece m = cp /\ move_capture_square m = cpos) ->
        capture_shape P m dst pt).
  { intros Hep -> -> ->.
    destruct Hfirst as [(-> & -> & -> & Hfree)|(-> & -> & Hp & Rc & Hocc)].
    - split; [auto|]. split; [lia|]. split; [lia|].
      intros m Hic _. apply cs_none; assumption.
    - split; [auto|]. split; [lia|]. split; [lia|].
      intros m Hic Hcap. destruct (Hcap eq_refl) as [Hcp Hcs].
      apply (cs_plain P m dst pt cp1); assumption. }
  destruct (Z.eqb_spec pt PAWN) as [Epawn|Npawn].
  - destruct (negb (board_get_en_passant_target P =? BOARD_POS_INVALID)
              && (dst =? board_get_en_passant_target P)) eqn:Eep.
    + apply andb_true_iff in Eep. destruct Eep as [_ Eep].
      apply Z.eqb_eq in Eep. rewrite <- Eep in H2.
      inv_bind H2 as cpos' Hcpos. inv_bind H2 as p Hp. inv_bind H2 as u Hu.
      inv_assert Hu. apply Z.eqb_eq in Hu. rewrite Hu in Hp.
      injection H2 as <- <- <-.
      pose proof (en_passant_target_to_pawn_pos_inv dst cpos') as Hr.
      destruct Hr as [Hr|Hr]; [lia | assumption | |];
        (split; [auto|]; split; [unfold PAWN; lia|]; split; [lia|];
         intros m Hic Hcap; destruct (Hcap eq_refl) as [Hcp Hcs];
         apply (cs_ep P m dst pt cpos'); auto).
    + injection H2 as <- <- <-. apply Hplain; try reflexivity.
      intros _ E. apply andb_false_iff in Eep. destruct Eep as [Eep|Eep].
      * apply negb_false_iff, Z.eqb_eq in Eep. rewrite Eep in E.
        unfold BOARD_POS_INVALID in E. lia.
      * apply Z.eqb_neq in Eep. congruence.
  - injection H2 as <- <- <-. apply Hplain; try reflexivity.
    intros E. contradiction.
Qed.

Lemma gen_inv_shrink (P : board) (g : move_gen) (m' promo' : Z) :
  gen_inv P g -> cur_mode g = MOVE_GEN_MODE_NORMAL ->
  u64 m' ->
  (forall n, 0 <= n -> Z.testbit m' n = true -> Z.testbit (cur_moves g) n = true) ->
  2 <= promo' <= 5 ->
  gen_inv P (set_cur_promotion (set_cur_moves g m') promo').
Proof.
  intros [Hs Hp Hf Hpr Hc Ht] Hmode Hm Hsub Hpromo.
  constructor; cbn; try assumption.
  - intros _. destruct (Hc Hmode) as [A B C]. constructor; cbn; assumption.
  - intros _ Hnz.
    assert (Hnz' : cur_moves g <> 0).
    { intros E. apply Hnz. apply Z.bits_inj'. intros n Hn.
      rewrite Z.bits_0. destruct (Z.testbit m' n) eqn:Eb; [|reflexivity].
      specialize (Hsub n Hn Eb). rewrite E, Z.bits_0 in Hsub. discriminate. }
    destruct (Ht Hmode Hnz') as [A B C D].
    constructor; cbn; try assumption.
    + intros n Hn Hb. apply C; auto.
    + intros E n Hn Hb. apply D; auto.
Qed.

Lemma from_cur_moves_spec (P : board) (g : move_gen) (m : Z) (g' : move_gen) :
  board_typed P -> gen_inv P g -> cur_mode g = MOVE_GEN_MODE_NORMAL ->
  move_gen_next_from_cur_moves g P = Ret (m, g') ->
  exists dst,
    move_shape P m (cur_square g) dst (cur_piece_type g)
    /\ mover_ok P (cur_square g) dst (cur_piece_type g)
    /\ Z.testbit (cur_moves g) dst = true
    /\ bitboard_scan_lsb (cur_moves g) = Ret dst
    /\ m <> MOVE_END
    /\ gen_inv P g' /\ cur_mode g' = MOVE_GEN_MODE_NORMAL
    /\ cur_square g' = cur_square g /\ cur_piece_type g' = cur_piece_type g
    /\ hit_move g' = hit_move g
    /\ 0 <= 4 * moves_rank (cur_moves g') + (5 - cur_promotion g')
         < 4 * moves_rank (cur_moves g) + (5 - cur_promotion g)
    /\ (let promotes := (cur_piece_type g =? PAWN)
                        && ((Z.shiftr dst 3 =? 0) || (Z.shiftr dst 3 =? 7)) in
        move_is_promotion m = (if promotes then 1 else 0)
        /\ (promotes = true -> move_promotion_piece m = cur_promotion g)
        /\ cur_promotion g'
           = (if promotes
              then (if cur_promotion g =? QUEEN then KNIGHT else cur_promotion g + 1)
              else cur_promotion g)
        /\ (if promotes && negb (cur_promotion g =? QUEEN)
            then cur_moves g' = cur_moves g
            else bitboard_clear_square (cur_moves g) dst = Ret (cur_moves g'))).
Proof.
  intros Ht Hgi Hmode H. unfold move_gen_next_from_cur_moves in H.
  inv_bind H as u Hu. inv_assert Hu.
  inv_bind H as dst Hdst. cbv zeta in H.
  pose proof (gi_cursor P g Hgi Hmode) as [Rs Rp Hm64].
  destruct (moves_rank_clear _ _ Hm64 Hdst) as (Hrank & Rd & Hdec).
  destruct (bitboard_scan_lsb_spec _ _ Hdst) as (_ & Hbit & _).
  assert (Hnz : cur_moves g <> 0).
  { intros E. rewrite E in Hdst. discriminate. }
  pose proof (gi_target P g Hgi Hmode Hnz) as [Hpa Hpla Hfree Hpawn].
  pose proof (gi_promo P g Hgi) as Rpromo.
  remember ((cur_piece_type g =? PAWN)
            && ((Z.shiftr dst 3 =? 0) || (Z.shiftr dst 3 =? 7))) as pb eqn:Epb.
  inv_bind H as g1 Hg1.
  assert (Hg1' : exists m1,
             g1 = set_cur_moves g m1
             /\ ((m1 = clrb (cur_moves g) dst /\ (pb = false \/ cur_promotion g = 5))
                 \/ (m1 = cur_moves g /\ pb = true /\ cur_promotion g <> 5))).
  { destruct pb.
    - change (truthy 1) with true in Hg1. cbn [negb orb] in Hg1.
      destruct (Z.eqb_spec (cur_promotion g) QUEEN) as [E|E].
      + inv_bind Hg1 as m1 Hm1. apply bitboard_clear_square_inv in Hm1.
        destruct Hm1 as [_ ->]. injection Hg1 as <-.
        eexists. split; [reflexivity|]. left. auto.
      + injection Hg1 as <-. exists (cur_moves g). split.
        * destruct g; reflexivity.
        * right. auto.
    - change (truthy 0) with false in Hg1. cbn [negb orb] in Hg1.
      inv_bind Hg1 as m1 Hm1. apply bitboard_clear_square_inv in Hm1.
      destruct Hm1 as [_ ->]. injection Hg1 as <-.
      eexists. split; [reflexivity|]. left. auto. }
  destruct Hg1' as (m1 & -> & Hm1). cbn [cur_piece_type cur_square cur_promotion
                                         set_cur_moves] in H.
  inv_bind H as opp Hopp. apply rd_inv in Hopp. destruct Hopp as [Hio ->].
  inv_bind H as c Hc. apply bitboard_check_square_inv in Hc; [|lia].
  destruct Hc as [_ ->]. rewrite truthy_b2z in H.
  inv_bind H as cap1 Hcap1. destruct cap1 as [[ic1 cp1] cpos1].
  inv_bind H as cap2 Hcap2. destruct cap2 as [[ic cp] cpos].
  injection H as Hm Hg'.
  destruct (gen_capture_shape P (cur_piece_type g) dst ic1 cp1 cpos1 ic cp cpos
              Ht Rd Hcap1 Hcap2) as (Ric & Rcp & Rcpos & Hshape).
  assert (Rip : 0 <= (if pb then 1 else 0) < 2) by (destruct pb; lia).
  rewrite construct_move_packed in Hm by lia.
  change (b2i (negb (0 =? 0))) with 0 in Hm.
  assert (Eip : b2i (negb ((if pb then 1 else 0) =? 0)) = if pb then 1 else 0)
    by (destruct pb; reflexivity).
  assert (Eic : b2i (negb (ic =? 0)) = ic) by (destruct Ric as [->| ->]; reflexivity).
  rewrite Eip, Eic in Hm.
  assert (Hlo : u16 (Z.land (flags P) 65535)).
  { apply u16_land_r. apply u16_small. lia. }
  assert (Ric' : 0 <= ic < 2) by lia.
  assert (Rpp : 0 <= cur_promotion g < 8) by lia.
  assert (Rcas : 0 <= 0 < 2) by lia.
  exists dst.
  split.
  { subst m. constructor.
    - apply packed_prev_flags; assumption.
    - apply packed_source; assumption.
    - apply packed_destination; assumption.
    - apply packed_is_castle; assumption.
    - rewrite packed_is_promotion by assumption.
      destruct pb; [right | left; reflexivity].
      split; [reflexivity|]. symmetry in Epb. apply andb_true_iff in Epb.
      destruct Epb as [Epb _]. apply Z.eqb_eq in Epb. split; [assumption|].
      rewrite packed_promotion_piece by (assumption || reflexivity). lia.
    - apply Hshape.
      + apply packed_is_capture; assumption.
      + intros E. split.
        * apply packed_capture_piece; assumption.
        * apply packed_capture_square; assumption. }
  split.
  { constructor; try assumption. apply Hfree; [lia | assumption]. }
  split; [assumption|].
  split; [assumption|].
  split.
  { subst m. apply packed_not_end; assumption. }
  assert (Eg' : g' = set_cur_promotion (set_cur_moves g m1)
                       (if pb then (if cur_promotion g =? 5 then 2 else cur_promotion g + 1)
                        else cur_promotion g)).
  { subst g'. destruct pb.
    - change (truthy 1) with true. cbn iota.
      rewrite move_gen_next_promote_spec by (cbn; lia). reflexivity.
    - change (truthy 0) with false. cbn iota. destruct g; reflexivity. }
  assert (Hsub : u64 m1 /\ forall n, 0 <= n -> Z.testbit m1 n = true ->
                                Z.testbit (cur_moves g) n = true).
  { destruct Hm1 as [[-> _]|[-> _]].
    - split; [apply u64_clrb; [assumption | lia]|].
      intros n Hn Hb. rewrite testbit_clrb in Hb by lia.
      apply andb_true_iff in Hb. tauto.
    - split; auto. }
  destruct Hsub as [Hm1u Hsub].
  assert (Rpromo' : 2 <= (if pb then (if cur_promotion g =? 5 then 2
                                       else cur_promotion g + 1)
                          else cur_promotion g) <= 5).
  { destruct pb; [|lia]. destruct (Z.eqb_spec (cur_promotion g) 5); lia. }
  split.
  { rewrite Eg'. apply gen_inv_shrink; assumption. }
  rewrite Eg'. cbn.
  split; [assumption|]. split; [reflexivity|]. split; [reflexivity|].
  split; [reflexivity|].
  split.
  { pose proof (moves_rank_range _ Hm1u) as Rr1.
    destruct Hm1 as [[-> [Epb'|E5]]|[-> [Epb' N5]]].
    - rewrite Epb'. lia.
    - rewrite E5. destruct pb; cbn; lia.
    - rewrite Epb'. destruct (Z.eqb_spec (cur_promotion g) 5); lia. }
  cbv zeta. rewrite <- Epb. unfold QUEEN, KNIGHT.
  split.
  { subst m. apply packed_is_promotion; assumption. }
  split.
  { intros Et. subst m. apply packed_promotion_piece; try assumption.
    rewrite Et. reflexivity. }
  split; [reflexivity|].
  destruct Hm1 as [[-> [Epb'|E5]]|[-> [Epb' N5]]].
  - rewrite Epb'. cbn [andb]. apply bitboard_clear_square_Ret. lia.
  - rewrite E5. change (5 =? 5) with true. cbn [negb]. rewrite andb_false_r.
    apply bitboard_clear_square_Ret. lia.
  - rewrite Epb'. destruct (Z.eqb_spec (cur_promotion g) 5); [contradiction|].
    reflexivity.
Qed.

(** * Further properties of bitboard.c *)

Lemma testbit_flip (x s n : Z) :
  0 <= s -> 0 <= n ->
  Z.testbit (Z.lxor x (Z.shiftl 1 s)) n = xorb (Z.testbit x n) (n =? s).
Proof. intros Hs Hn. rewrite Z.lxor_spec, testbit_one_shl by lia. reflexivity. Qed.

Lemma u64_flip (x s : Z) : u64 x -> 0 <= s < 64 -> u64 (Z.lxor x (Z.shiftl 1 s)).
Proof.
  intros Hx Hs. apply u64_of_bits.
  - apply Z.lxor_nonneg. split; intros _; [|apply Hx].
    apply Z.shiftl_nonneg. lia.
  - intros n Hn. rewrite testbit_flip by lia.
    rewrite (u64_testbit_high x n Hx Hn).
    destruct (Z.eqb_spec n s); [lia | reflexivity].
Qed.

(** X1: Setting, clearing and flipping a square of a bitboard, read back with
    [bitboard_check_square]: the square itself reads 1, 0, and the inverse
    of what it was; every other square reads as before; flipping twice
    gives the bitboard back.  A square of 64 or more fails the assertion of
    each of the four operations. *)
Theorem bitboard_square_ops (b s : Z) :
  (64 <= s ->
   bitboard_check_square b s = Abort /\ bitboard_set_square b s = Abort
   /\ bitboard_clear_square b s = Abort /\ bitboard_flip_square b s = Abort)
  /\ (u64 b -> 0 <= s < 64 ->
      exists bs bc bf,
        bitboard_set_square b s = Ret bs
        /\ bitboard_clear_square b s = Ret bc
        /\ bitboard_flip_square b s = Ret bf
        /\ u64 bs /\ u64 bc /\ u64 bf
        /\ bitboard_flip_square bf s = Ret b
        /\ forall n, 0 <= n < 64 ->
             bitboard_check_square bs n
             = Ret (if n =? s then 1 else Z.b2z (Z.testbit b n))
             /\ bitboard_check_square bc n
                = Ret (if n =? s then 0 else Z.b2z (Z.testbit b n))
             /\ bitboard_check_square bf n
                = Ret (if n =? s then 1 - Z.b2z (Z.testbit b s)
                       else Z.b2z (Z.testbit b n))).
Proof.
  split.
  - intros Hs. unfold bitboard_check_square, bitboard_set_square,
      bitboard_clear_square, bitboard_flip_square.
    destruct (Z.ltb_spec s 64); [lia|]. cbn. auto.
  - intros Hb Hs.
    exists (setb b s), (clrb b s), (Z.lxor b (Z.shiftl 1 s)).
    split; [apply bitboard_set_square_Ret; lia|].
    split; [apply bitboard_clear_square_Ret; lia|].
    assert (Hflip : forall x, bitboard_flip_square x s = Ret (Z.lxor x (Z.shiftl 1 s))).
    { intros x. unfold bitboard_flip_square.
      rewrite assert_true by (apply Z.ltb_lt; lia). reflexivity. }
    split; [apply Hflip|].
    split; [apply u64_setb; assumption|].
    split; [apply u64_clrb; [assumption | lia]|].
    split; [apply u64_flip; assumption|].
    split.
    { rewrite Hflip. f_equal.
      rewrite Z.lxor_assoc, Z.lxor_nilpotent, Z.lxor_0_r. reflexivity. }
    intros n Hn.
    rewrite !bitboard_check_square_Ret by lia.
    rewrite testbit_setb, testbit_clrb, testbit_flip by lia.
    destruct (Z.eqb_spec n s) as [->|Hne]; cbn [orb negb andb].
    + destruct (Z.testbit b s); auto.
    + rewrite xorb_false_r. auto.
Qed.

Lemma bitboard_square_ops_witness :
  exists bs bc bf,
    bitboard_set_square 5 1 = Ret bs
    /\ bitboard_clear_square 5 1 = Ret bc
    /\ bitboard_flip_square 5 1 = Ret bf
    /\ u64 bs /\ u64 bc /\ u64 bf
    /\ bitboard_flip_square bf 1 = Ret 5
    /\ forall n, 0 <= n < 64 ->
         bitboard_check_square bs n
         = Ret (if n =? 1 then 1 else Z.b2z (Z.testbit 5 n))
         /\ bitboard_check_square bc n
            = Ret (if n =? 1 then 0 else Z.b2z (Z.testbit 5 n))
         /\ bitboard_check_square bf n
            = Ret (if n =? 1 then 1 - Z.b2z (Z.testbit 5 1)
                   else Z.b2z (Z.testbit 5 n)).
Proof.
  apply (proj2 (bitboard_square_ops 5 1)); [unfold u64; lia | lia].
Defined.

(** X3: [bitboard_scan_lsb] gives the lowest square of a bitboard that is not
    empty, below 64 for a 64-bit value; on the empty bitboard the count of
    trailing zeros is undefined, which the model gives as a failure. *)
Theorem bitboard_scan_lsb_lowest (x : Z) :
  (x <= 0 -> bitboard_scan_lsb x = Abort)
  /\ (0 < x ->
      exists s, bitboard_scan_lsb x = Ret s
                /\ 0 <= s /\ Z.testbit x s = true
                /\ (forall n, 0 <= n < s -> Z.testbit x n = false)
                /\ (u64 x -> s < 64)).
Proof.
  split.
  - intros Hx. destruct x; try reflexivity. lia.
  - intros Hx. destruct (bitboard_scan_lsb_Ret x Hx) as (s & Hs).
    exists s. split; [assumption|].
    destruct (bitboard_scan_lsb_spec x s Hs) as (H0 & Ht & Hlow).
    repeat split; try assumption.
    intros Hu. apply (testbit_true_u64 x s); assumption.
Qed.

Lemma bitboard_scan_lsb_lowest_witness :
  exists s, bitboard_scan_lsb 40 = Ret s
            /\ 0 <= s /\ Z.testbit 40 s = true
            /\ (forall n, 0 <= n < s -> Z.testbit 40 n = false)
            /\ (u64 40 -> s < 64).
Proof. apply (proj2 (bitboard_scan_lsb_lowest 40)). lia. Defined.

(** X4: [bitboard_popcount] is 0 on the empty bitboard, at least 1 on any
    other, and 1 exactly on the bitboards of a single square: the test
    [board_invariants] uses for "one king". *)
Theorem bitboard_popcount_single (x : Z) :
  (x <= 0 -> bitboard_popcount x = 0)
  /\ (0 < x -> 1 <= bitboard_popcount x)
  /\ (bitboard_popcount x = 1 <-> exists s, 0 <= s /\ x = 2 ^ s).
Proof.
  split; [|split].
  - intros Hx. destruct x; try reflexivity. lia.
  - intros Hx. destruct x; try lia. apply popcount_pos_pos.
  - split.
    + intros H. destruct (bitboard_popcount_one x H) as (s & H0 & _ & E).
      exists s. auto.
    + intros (s & H0 & ->). apply bitboard_popcount_pow2. assumption.
Qed.

Lemma bitboard_popcount_single_witness :
  1 <= bitboard_popcount 12 /\ bitboard_popcount 0 = 0.
Proof.
  split.
  - apply (proj1 (proj2 (bitboard_popcount_single 12))). lia.
  - apply (proj1 (bitboard_popcount_single 0)). lia.
Defined.

(** X5: Squares and coordinates: [board_pos_from_xy] and [board_pos_to_xy] are
    inverse to each other on the board; coordinates off the board give
    [BOARD_POS_INVALID], which [board_pos_to_xy] refuses. *)
Theorem board_pos_xy_round_trip :
  (forall x y, 0 <= x < 8 -> 0 <= y < 8 ->
     0 <= board_pos_from_xy x y < 64
     /\ board_pos_to_xy (board_pos_from_xy x y) = Ret (x, y)
     /\ board_pos_to_x (board_pos_from_xy x y) = x
     /\ board_pos_to_y (board_pos_from_xy x y) = y)
  /\ (forall s, 0 <= s < 64 ->
        board_pos_from_xy (board_pos_to_x s) (board_pos_to_y s) = s)
  /\ (forall x y, x < 0 \/ 8 <= x \/ y < 0 \/ 8 <= y ->
        board_pos_from_xy x y = BOARD_POS_INVALID)
  /\ board_pos_to_xy BOARD_POS_INVALID = Abort.
Proof.
  split; [|split; [|split]].
  - intros x y Hx Hy. rewrite board_pos_from_xy_valid by assumption.
    assert (Hs : 0 <= x + 8 * y < 64) by lia.
    destruct (square_xy _ Hs) as (E1 & E2 & _).
    assert (Em : (x + 8 * y) mod 8 = x) by (Z.div_mod_to_equations; lia).
    assert (Ed : (x + 8 * y) / 8 = y) by (Z.div_mod_to_equations; lia).
    split; [assumption|]. rewrite board_pos_to_xy_Ret by assumption.
    unfold board_pos_to_x, board_pos_to_y. rewrite E1, E2, Em, Ed. auto.
  - intros s Hs. destruct (square_xy _ Hs) as (E1 & E2 & R1 & R2).
    unfold board_pos_to_x, board_pos_to_y. rewrite E1, E2.
    rewrite board_pos_from_xy_valid by assumption.
    Z.div_mod_to_equations. lia.
  - intros x y H. unfold board_pos_from_xy.
    destruct (Z.ltb_spec x 0), (Z.ltb_spec y 0), (Z.geb_spec x 8), (Z.geb_spec y 8);
      cbn [orb]; try reflexivity; lia.
  - reflexivity.
Qed.

(** X6: The text of a square: [board_pos_from_str] reads back what
    [board_pos_to_str] writes. *)
Theorem board_pos_str_round_trip (s : Z) :
  0 <= s < 64 ->
  exists str, board_pos_to_str s = Ret str
              /\ String.length str = 2%nat
              /\ board_pos_from_str str = Ret s.
Proof.
  intros Hs. destruct (square_xy _ Hs) as (_ & _ & R1 & R2).
  unfold board_pos_to_str. rewrite board_pos_to_xy_Ret by assumption.
  cbn [bind]. eexists. split; [reflexivity|]. split; [reflexivity|].
  unfold board_pos_from_str. cbn [char_at peek bind].
  change (code "a") with 97. change (code "h") with 104.
  change (code "1") with 49. change (code "8") with 56.
  rewrite !code_chr by lia.
  destruct (Z.geb_spec (s mod 8 + 97) 97); [|lia].
  destruct (Z.leb_spec (s mod 8 + 97) 104); [|lia].
  cbn [andb bind].
  destruct (Z.geb_spec (s / 8 + 49) 49); [|lia].
  destruct (Z.leb_spec (s / 8 + 49) 56); [|lia].
  cbn [andb assert bind]. change (0 =? 0) with true. cbn [assert bind]. f_equal.
  rewrite board_pos_from_xy_valid by lia.
  Z.div_mod_to_equations. lia.
Qed.

Lemma board_pos_str_round_trip_witness :
  exists str, board_pos_to_str 28 = Ret str
              /\ String.length str = 2%nat
              /\ board_pos_from_str str = Ret 28.
Proof. apply (board_pos_str_round_trip 28). lia. Defined.

(** X7: What stands on a square: [board_piece_on_square] and
    [board_player_on_square] give the first piece kind, or player, whose
    bitboard holds the square, and -1 when none does; a square of 64 or more
    fails their assertion. *)
Theorem board_square_lookup (b : board) (s : Z) :
  (64 <= s -> board_piece_on_square b s = Abort /\ board_player_on_square b s = Abort)
  /\ (board_typed b -> 0 <= s < 64 ->
      exists k c,
        board_piece_on_square b s = Ret k
        /\ board_player_on_square b s = Ret c
        /\ ((k = -1 /\ forall j, 0 <= j < 6 -> tb (pieces b) j s = false)
            \/ (0 <= k < 6 /\ tb (pieces b) k s = true))
        /\ ((c = -1 /\ tb (players b) 0 s = false /\ tb (players b) 1 s = false)
            \/ (c = 0 /\ tb (players b) 0 s = true)
            \/ (c = 1 /\ tb (players b) 0 s = false /\ tb (players b) 1 s = true))).
Proof.
  split.
  - intros Hs. unfold board_piece_on_square, board_player_on_square.
    destruct (Z.ltb_spec s 64); [lia|]. cbn. auto.
  - intros Ht Hs.
    destruct (board_piece_on_square_total b s Hs) as (k & Hk).
    destruct (board_player_on_square_total b s Hs) as (c & Hc).
    exists k, c. split; [assumption|]. split; [assumption|]. split.
    + destruct (board_piece_on_square_inv b s k) as (_ & [[-> Hno]|[Hin Hb]]);
        [lia | assumption | |].
      * left. split; [reflexivity|]. intros j Hj. apply Hno.
        apply in_pieces; assumption.
      * right. split; [apply (in_pieces_inv b Ht); assumption | assumption].
    + unfold board_player_on_square in Hc.
      rewrite assert_true in Hc by (apply Z.ltb_lt; lia). cbn [bind] in Hc.
      pose proof (typed_players b Ht) as Hlen.
      destruct (players b) as [|p0 [|p1 [|p2 rest]]] eqn:Epl; try discriminate Hlen.
      unfold tb, get. change (Z.to_nat 0) with 0%nat. change (Z.to_nat 1) with 1%nat.
      cbn [nth].
      cbn [first_with_square] in Hc.
      rewrite !bitboard_check_square_Ret in Hc by lia. cbn [bind] in Hc.
      rewrite !truthy_b2z in Hc.
      destruct (Z.testbit p0 s); [injection Hc as <-; auto|].
      destruct (Z.testbit p1 s); injection Hc as <-; auto.
Qed.

Lemma board_square_lookup_witness :
  exists k c,
    board_piece_on_square initial_board 12 = Ret k
    /\ board_player_on_square initial_board 12 = Ret c
    /\ ((k = -1 /\ forall j, 0 <= j < 6 -> tb (pieces initial_board) j 12 = false)
        \/ (0 <= k < 6 /\ tb (pieces initial_board) k 12 = true))
    /\ ((c = -1 /\ tb (players initial_board) 0 12 = false
         /\ tb (players initial_board) 1 12 = false)
        \/ (c = 0 /\ tb (players initial_board) 0 12 = true)
        \/ (c = 1 /\ tb (players initial_board) 0 12 = false
            /\ tb (players initial_board) 1 12 = true)).
Proof.
  apply (proj2 (board_square_lookup initial_board 12)); [|lia].
  apply board_typedb_spec. vm_compute. reflexivity.
Defined.

(** X8: What [board_invariants] asserts, for a board with two player and six
    piece bitboards: no square is held by both players, no square by two
    piece kinds, each player has a king on exactly one square, and an
    en-passant square lies on the sixth rank of the player to move.  The
    last assertion of the function, meant for "the en-passant square is
    empty", reads [players[0] & players[1]] and adds nothing to these. *)
Theorem board_invariants_iff (b : board) :
  board_typed b ->
  (board_invariants b = true
   <-> Z.land (get (players b) 0) (get (players b) 1) = 0
       /\ (forall i j, 0 <= i < 6 -> 0 <= j < 6 -> i <> j ->
             Z.land (get (pieces b) i) (get (pieces b) j) = 0)
       /\ (exists s, 0 <= s /\ Z.land (get (players b) 0) (get (pieces b) 0) = 2 ^ s)
       /\ (exists s, 0 <= s /\ Z.land (get (players b) 1) (get (pieces b) 0) = 2 ^ s)
       /\ ep_ok b = true).
Proof.
  intros Ht. split.
  - intros H. destruct (board_invariants_inv b H) as (H1 & H2 & H3 & H4 & H5).
    split; [assumption|]. split.
    { intros i j Hi Hj Hne.
      apply pieces_disjoint_spec; try assumption;
        [apply Ht | apply in_pieces | apply in_pieces]; assumption. }
    split.
    { destruct (bitboard_popcount_one _ H3) as (s & H0 & _ & E). exists s. auto. }
    split; [|assumption].
    destruct (bitboard_popcount_one _ H4) as (s & H0 & _ & E). exists s. auto.
  - intros (H1 & H2 & (s0 & Hs0 & E0) & (s1 & Hs1 & E1) & H5).
    apply board_invariants_intro; try assumption.
    + apply pieces_disjoint_intro. assumption.
    + rewrite E0. apply bitboard_popcount_pow2. assumption.
    + rewrite E1. apply bitboard_popcount_pow2. assumption.
Qed.

Lemma board_invariants_iff_witness :
  board_invariants initial_board = true
  <-> Z.land (get (players initial_board) 0) (get (players initial_board) 1) = 0
      /\ (forall i j, 0 <= i < 6 -> 0 <= j < 6 -> i <> j ->
            Z.land (get (pieces initial_board) i) (get (pieces initial_board) j) = 0)
      /\ (exists s, 0 <= s
                    /\ Z.land (get (players initial_board) 0)
                              (get (pieces initial_board) 0) = 2 ^ s)
      /\ (exists s, 0 <= s
                    /\ Z.land (get (players initial_board) 1)
                              (get (pieces initial_board) 0) = 2 ^ s)
      /\ ep_ok initial_board = true.
Proof.
  apply (board_invariants_iff initial_board).
  apply board_typedb_spec. vm_compute. reflexivity.
Defined.

(** * Further properties of move_gen.c: the move word *)

(** X11: The fields of a move: what [construct_move] packs, the accessors give
    back; the move keeps the low half of the board's flags; the promotion
    piece, capture piece and capture square read as -1, -1 and
    [BOARD_POS_INVALID] when the move is no promotion or no capture; and no
    such move is [MOVE_END]. *)
Theorem construct_move_fields (f src dst ip pp ic cp cpos cas : Z) :
  0 <= src < 64 -> 0 <= dst < 64 -> 0 <= pp < 8 -> 0 <= cp < 8 -> 0 <= cpos < 64 ->
  let m := construct_move f src dst ip pp ic cp cpos cas in
  m <> MOVE_END
  /\ Z.land m MOVE_FLAGS_PREV_FLAGS = Z.land f BOARD_FLAGS_LOW
  /\ move_source_square m = src
  /\ move_destination_square m = dst
  /\ move_is_promotion m = (if ip =? 0 then 0 else 1)
  /\ move_promotion_piece m = (if ip =? 0 then -1 else pp)
  /\ move_is_capture m = (if ic =? 0 then 0 else 1)
  /\ move_capture_piece m = (if ic =? 0 then -1 else cp)
  /\ move_capture_square m = (if ic =? 0 then BOARD_POS_INVALID else cpos)
  /\ move_is_castle m = (if cas =? 0 then 0 else 1).
Proof.
  intros Hsrc Hdst Hpp Hcp Hcpos m. subst m.
  rewrite construct_move_packed by assumption.
  assert (Hlo : u16 (Z.land f 65535)) by (apply u16_land_r, u16_small; lia).
  pose proof (b2i_range (negb (ip =? 0))) as Rip.
  pose proof (b2i_range (negb (ic =? 0))) as Ric.
  pose proof (b2i_range (negb (cas =? 0))) as Rcas.
  assert (Eb : forall v, b2i (negb (v =? 0)) = if v =? 0 then 0 else 1)
    by (intros v; destruct (v =? 0); reflexivity).
  split; [apply packed_not_end; assumption|].
  split; [apply packed_prev_flags; assumption|].
  split; [apply packed_source; assumption|].
  split; [apply packed_destination; assumption|].
  split; [rewrite packed_is_promotion by assumption; apply Eb|].
  split.
  { destruct (Z.eqb_spec ip 0) as [E|E].
    - unfold move_promotion_piece. rewrite packed_is_promotion by assumption. reflexivity.
    - apply packed_promotion_piece; try assumption. reflexivity. }
  split; [rewrite packed_is_capture by assumption; apply Eb|].
  split.
  { destruct (Z.eqb_spec ic 0) as [E|E].
    - unfold move_capture_piece. rewrite packed_is_capture by assumption. reflexivity.
    - apply packed_capture_piece; try assumption. reflexivity. }
  split.
  { destruct (Z.eqb_spec ic 0) as [E|E].
    - unfold move_capture_square. rewrite packed_is_capture by assumption. reflexivity.
    - apply packed_capture_square; try assumption. reflexivity. }
  rewrite packed_is_castle by assumption. apply Eb.
Qed.

Lemma construct_move_fields_witness :
  let m := construct_move (flags initial_board) 12 28 0 2 0 0 0 0 in
  m <> MOVE_END
  /\ Z.land m MOVE_FLAGS_PREV_FLAGS = Z.land (flags initial_board) BOARD_FLAGS_LOW
  /\ move_source_square m = 12
  /\ move_destination_square m = 28
  /\ move_is_promotion m = (if 0 =? 0 then 0 else 1)
  /\ move_promotion_piece m = (if 0 =? 0 then -1 else 2)
  /\ move_is_capture m = (if 0 =? 0 then 0 else 1)
  /\ move_capture_piece m = (if 0 =? 0 then -1 else 0)
  /\ move_capture_square m = (if 0 =? 0 then BOARD_POS_INVALID else 0)
  /\ move_is_castle m = (if 0 =? 0 then 0 else 1).
Proof.
  apply (construct_move_fields (flags initial_board) 12 28 0 2 0 0 0 0); lia.
Defined.

(** X12: The pawn an en-passant capture takes stands one rank behind the target
    square: on the fourth rank for a target on the third, on the fifth for
    a target on the sixth; for any other square the function fails. *)
Theorem en_passant_target_to_pawn_pos_cases (ep : Z) :
  0 <= ep < 64 ->
  en_passant_target_to_pawn_pos ep
  = if ep / 8 =? 2 then Ret (ep + 8)
    else if ep / 8 =? 5 then Ret (ep - 8)
    else Abort.
Proof.
  intros Hep. destruct (square_xy _ Hep) as (_ & _ & R1 & R2).
  unfold en_passant_target_to_pawn_pos.
  rewrite board_pos_to_xy_Ret by assumption. cbn [bind].
  destruct (Z.eqb_spec (ep / 8) 2) as [E|E].
  - f_equal. rewrite board_pos_from_xy_valid by lia.
    Z.div_mod_to_equations. lia.
  - destruct (Z.eqb_spec (ep / 8) 5) as [E'|E']; [|reflexivity].
    f_equal. rewrite board_pos_from_xy_valid by lia.
    Z.div_mod_to_equations. lia.
Qed.

Lemma en_passant_target_to_pawn_pos_cases_witness :
  en_passant_target_to_pawn_pos 20
  = if 20 / 8 =? 2 then Ret (20 + 8)
    else if 20 / 8 =? 5 then Ret (20 - 8)
    else Abort.
Proof. apply (en_passant_target_to_pawn_pos_cases 20). lia. Defined.

Lemma board_pos_xy_round_trip_witness :
  0 <= board_pos_from_xy 4 1 < 64
  /\ board_pos_to_xy (board_pos_from_xy 4 1) = Ret (4, 1)
  /\ board_pos_to_x (board_pos_from_xy 4 1) = 4
  /\ board_pos_to_y (board_pos_from_xy 4 1) = 1.
Proof. apply (proj1 board_pos_xy_round_trip 4 1); lia. Defined.

Lemma holds_from_spec (n : nat) (f : Z -> bool) :
  forall i, holds_from n i f = true ->
            forall k, i <= k < i + Z.of_nat n -> f k = true.
Proof.
  induction n as [|n IH]; intros i H k Hk; [lia|].
  cbn [holds_from] in H. apply andb_true_iff in H. destruct H as [Hi H].
  destruct (Z.eq_dec k i) as [->|Hne]; [assumption|].
  apply (IH (i + 1) H). lia.
Qed.

Lemma holds_below_spec (N : nat) (f : Z -> bool) :
  holds_below N f = true -> forall n, 0 <= n < Z.of_nat N -> f n = true.
Proof. intros H n Hn. apply (holds_from_spec N f 0 H). lia. Qed.

(** * The shifts of bitboard.c *)

Lemma testbit_shift_w_mask (n : Z) :
  0 <= n < 64 -> Z.testbit shift_w_mask n = negb (n mod 8 =? 0).
Proof.
  intros Hn.
  apply Bool.eqb_prop.
  apply (holds_below_spec 64
           (fun n => Bool.eqb (Z.testbit shift_w_mask n) (negb (n mod 8 =? 0))));
    [vm_compute; reflexivity | assumption].
Qed.

Lemma testbit_shift_e_mask (n : Z) :
  0 <= n < 64 -> Z.testbit shift_e_mask n = negb (n mod 8 =? 7).
Proof.
  intros Hn.
  apply Bool.eqb_prop.
  apply (holds_below_spec 64
           (fun n => Bool.eqb (Z.testbit shift_e_mask n) (negb (n mod 8 =? 7))));
    [vm_compute; reflexivity | assumption].
Qed.

Lemma testbit_shift_n (b n : Z) :
  n < 64 -> Z.testbit (bitboard_shift_n b) n = Z.testbit b (n - 8).
Proof.
  intros Hn. destruct (Z_lt_le_dec n 0) as [Hneg|Hpos].
  - rewrite !Z.testbit_neg_r by lia. reflexivity.
  - unfold bitboard_shift_n. rewrite Z.land_spec, Z.shiftl_spec by lia.
    rewrite testbit_U64_MAX by lia.
    destruct (Z.ltb_spec n 64); [apply andb_true_r | lia].
Qed.

Lemma testbit_shift_s (b n : Z) :
  0 <= n -> Z.testbit (bitboard_shift_s b) n = Z.testbit b (n + 8).
Proof. intros Hn. unfold bitboard_shift_s. apply Z.shiftr_spec. assumption. Qed.

Lemma testbit_shift_w (b n : Z) :
  0 <= n < 64 ->
  Z.testbit (bitboard_shift_w b) n = negb (n mod 8 =? 0) && Z.testbit b (n - 1).
Proof.
  intros Hn. unfold bitboard_shift_w.
  rewrite !Z.land_spec, Z.shiftl_spec, testbit_U64_MAX, testbit_shift_w_mask by lia.
  destruct (Z.ltb_spec n 64); [|lia]. rewrite andb_true_r. apply andb_comm.
Qed.

Lemma testbit_shift_e (b n : Z) :
  0 <= n < 64 ->
  Z.testbit (bitboard_shift_e b) n = negb (n mod 8 =? 7) && Z.testbit b (n + 1).
Proof.
  intros Hn. unfold bitboard_shift_e.
  rewrite Z.land_spec, Z.shiftr_spec, testbit_shift_e_mask by lia.
  apply andb_comm.
Qed.

Lemma u64_shift_n (b : Z) : u64 (bitboard_shift_n b).
Proof. apply u64_land_r, u64_max. Qed.

Lemma u64_shift_s (b : Z) : u64 b -> u64 (bitboard_shift_s b).
Proof.
  intros Hb. apply u64_of_bits.
  - unfold bitboard_shift_s. apply Z.shiftr_nonneg, Hb.
  - intros n Hn. rewrite testbit_shift_s by lia.
    apply u64_testbit_high; [assumption | lia].
Qed.

(** X2: The eight shifts of a bitboard, square by square: the shifts by a rank
    take the square eight below or above; the shifts by a file take the
    neighbouring square and leave the border file empty, so that nothing
    moves from one rank's end to the next rank's start; the diagonal shifts
    compose the two.  The results are 64-bit values. *)
Theorem bitboard_shift_bits (b n : Z) :
  u64 b -> 0 <= n < 64 ->
  Z.testbit (bitboard_shift_n b) n = Z.testbit b (n - 8)
  /\ Z.testbit (bitboard_shift_s b) n = Z.testbit b (n + 8)
  /\ Z.testbit (bitboard_shift_w b) n = negb (n mod 8 =? 0) && Z.testbit b (n - 1)
  /\ Z.testbit (bitboard_shift_e b) n = negb (n mod 8 =? 7) && Z.testbit b (n + 1)
  /\ Z.testbit (bitboard_shift_nw b) n = negb (n mod 8 =? 0) && Z.testbit b (n - 9)
  /\ Z.testbit (bitboard_shift_ne b) n = negb (n mod 8 =? 7) && Z.testbit b (n - 7)
  /\ Z.testbit (bitboard_shift_sw b) n = negb (n mod 8 =? 0) && Z.testbit b (n + 7)
  /\ Z.testbit (bitboard_shift_se b) n = negb (n mod 8 =? 7) && Z.testbit b (n + 9)
  /\ u64 (bitboard_shift_n b) /\ u64 (bitboard_shift_s b)
  /\ u64 (bitboard_shift_w b) /\ u64 (bitboard_shift_e b).
Proof.
  intros Hb Hn.
  split; [apply testbit_shift_n; lia|].
  split; [apply testbit_shift_s; lia|].
  split; [apply testbit_shift_w; lia|].
  split; [apply testbit_shift_e; lia|].
  split.
  { unfold bitboard_shift_nw. rewrite testbit_shift_w by lia.
    rewrite testbit_shift_n by lia. do 2 f_equal. lia. }
  split.
  { unfold bitboard_shift_ne. rewrite testbit_shift_e by lia.
    destruct (Z.eqb_spec (n mod 8) 7) as [E|E]; [reflexivity|].
    cbn [negb andb]. rewrite testbit_shift_n by (Z.div_mod_to_equations; lia).
    f_equal. lia. }
  split.
  { unfold bitboard_shift_sw. rewrite testbit_shift_w by lia.
    destruct (Z.eqb_spec (n mod 8) 0) as [E|E]; [reflexivity|].
    cbn [negb andb]. rewrite testbit_shift_s by (Z.div_mod_to_equations; lia).
    f_equal. lia. }
  split.
  { unfold bitboard_shift_se. rewrite testbit_shift_e by lia.
    rewrite testbit_shift_s by lia. do 2 f_equal. lia. }
  split; [apply u64_shift_n|]. split; [apply u64_shift_s; assumption|].
  split; [apply u64_land_r; unfold u64, shift_w_mask; lia|].
  apply u64_land_r; unfold u64, shift_e_mask; lia.
Qed.

Lemma bitboard_shift_bits_witness :
  Z.testbit (bitboard_shift_n 128) 15 = Z.testbit 128 (15 - 8)
  /\ Z.testbit (bitboard_shift_s 128) 15 = Z.testbit 128 (15 + 8)
  /\ Z.testbit (bitboard_shift_w 128) 15 = negb (15 mod 8 =? 0) && Z.testbit 128 (15 - 1)
  /\ Z.testbit (bitboard_shift_e 128) 15 = negb (15 mod 8 =? 7) && Z.testbit 128 (15 + 1)
  /\ Z.testbit (bitboard_shift_nw 128) 15 = negb (15 mod 8 =? 0) && Z.testbit 128 (15 - 9)
  /\ Z.testbit (bitboard_shift_ne 128) 15 = negb (15 mod 8 =? 7) && Z.testbit 128 (15 - 7)
  /\ Z.testbit (bitboard_shift_sw 128) 15 = negb (15 mod 8 =? 0) && Z.testbit 128 (15 + 7)
  /\ Z.testbit (bitboard_shift_se 128) 15 = negb (15 mod 8 =? 7) && Z.testbit 128 (15 + 9)
  /\ u64 (bitboard_shift_n 128) /\ u64 (bitboard_shift_s 128)
  /\ u64 (bitboard_shift_w 128) /\ u64 (bitboard_shift_e 128).
Proof. apply (bitboard_shift_bits 128 15); [unfold u64; lia | lia]. Defined.

(** * The knight and king tables *)

(** X13: The tables [move_gen_knights] and [move_gen_kings] are symmetric: a
    knight (a king) on [s] reaches [n] exactly when one on [n] reaches [s],
    which is what lets [board_is_square_attacked] look from the attacked
    square; no piece reaches its own square, and the entries are what the
    geometry says: a knight's step is (1,2) or (2,1), a king's step is at
    most 1 in each direction. *)
Theorem leaper_tables_symmetric (s n : Z) :
  0 <= s < 64 -> 0 <= n < 64 ->
  Z.testbit (get move_gen_knights s) n = Z.testbit (get move_gen_knights n) s
  /\ Z.testbit (get move_gen_kings s) n = Z.testbit (get move_gen_kings n) s
  /\ Z.testbit (get move_gen_knights s) n
     = ((Z.abs (s mod 8 - n mod 8) =? 1) && (Z.abs (s / 8 - n / 8) =? 2))
       || ((Z.abs (s mod 8 - n mod 8) =? 2) && (Z.abs (s / 8 - n / 8) =? 1))
  /\ Z.testbit (get move_gen_kings s) n
     = (Z.abs (s mod 8 - n mod 8) <=? 1) && (Z.abs (s / 8 - n / 8) <=? 1)
       && negb (s =? n).
Proof.
  intros Hs Hn.
  pose (f := fun s n =>
    Bool.eqb (Z.testbit (get move_gen_knights s) n) (Z.testbit (get move_gen_knights n) s)
    && Bool.eqb (Z.testbit (get move_gen_kings s) n) (Z.testbit (get move_gen_kings n) s)
    && Bool.eqb (Z.testbit (get move_gen_knights s) n)
         (((Z.abs (s mod 8 - n mod 8) =? 1) && (Z.abs (s / 8 - n / 8) =? 2))
          || ((Z.abs (s mod 8 - n mod 8) =? 2) && (Z.abs (s / 8 - n / 8) =? 1)))
    && Bool.eqb (Z.testbit (get move_gen_kings s) n)
         ((Z.abs (s mod 8 - n mod 8) <=? 1) && (Z.abs (s / 8 - n / 8) <=? 1)
          && negb (s =? n))).
  assert (H : holds_below 64 (fun s => holds_below 64 (f s)) = true)
    by (vm_compute; reflexivity).
  pose proof (holds_below_spec 64 _ (holds_below_spec 64 _ H s Hs) n Hn) as Hf.
  unfold f in Hf.
  apply andb_true_iff in Hf. destruct Hf as [Hf H4].
  apply andb_true_iff in Hf. destruct Hf as [Hf H3].
  apply andb_true_iff in Hf. destruct Hf as [H1 H2].
  apply Bool.eqb_prop in H1, H2, H3, H4. auto.
Qed.

Lemma leaper_tables_symmetric_witness :
  Z.testbit (get move_gen_knights 1) 18 = Z.testbit (get move_gen_knights 18) 1
  /\ Z.testbit (get move_gen_kings 1) 18 = Z.testbit (get move_gen_kings 18) 1
  /\ Z.testbit (get move_gen_knights 1) 18
     = ((Z.abs (1 mod 8 - 18 mod 8) =? 1) && (Z.abs (1 / 8 - 18 / 8) =? 2))
       || ((Z.abs (1 mod 8 - 18 mod 8) =? 2) && (Z.abs (1 / 8 - 18 / 8) =? 1))
  /\ Z.testbit (get move_gen_kings 1) 18
     = (Z.abs (1 mod 8 - 18 mod 8) <=? 1) && (Z.abs (1 / 8 - 18 / 8) <=? 1)
       && negb (1 =? 18).
Proof. apply (leaper_tables_symmetric 1 18); lia. Defined.

(** * Comparing moves *)

Ltac eqb_chain :=
  repeat (match goal with
          | |- context [Z.eqb ?x ?y] => destruct (Z.eqb_spec x y)
          end; cbn [negb orb andb]).

Lemma moves_equal_spec (a b : Z) :
  (moves_equal a b = 1 <-> same_move_fields a b)
  /\ (moves_equal a b = 0 \/ moves_equal a b = 1).
Proof.
  unfold moves_equal, same_move_fields, truthy.
  eqb_chain; (split; [split; [intros H; try discriminate H; intuition congruence
                             | intros H; try reflexivity; exfalso; intuition congruence]
                     | auto]).
Qed.

(** X23: [moves_equal] is an equivalence on moves, with the values 0 and 1; it is
    coarser than equality of the 64-bit values, because the bits of a
    promotion piece or of a captured piece are not looked at when the move is
    no promotion or no capture: the move [move_from_str] builds for "e2e4"
    and the move the generator builds for it differ as values and are equal
    moves. *)
Theorem moves_equal_equivalence :
  (forall a, moves_equal a a = 1)
  /\ (forall a b, moves_equal a b = moves_equal b a)
  /\ (forall a b c, moves_equal a b = 1 -> moves_equal b c = 1 -> moves_equal a c = 1)
  /\ (forall a b, moves_equal a b = 0 \/ moves_equal a b = 1)
  /\ (move_from_str "e2e4" initial_board = Ret e2e4_entered
      /\ (e2e4_entered =? e2e4_generated) = false
      /\ moves_equal e2e4_entered e2e4_generated = 1).
Proof.
  assert (Hsym : forall a b, same_move_fields a b -> same_move_fields b a).
  { unfold same_move_fields. intros a b (H1 & H2 & H3 & H4 & H5 & H6 & H7 & H8).
    repeat split; try congruence.
    - intros N. symmetry. apply H5. congruence.
    - symmetry. apply H7. congruence.
    - symmetry. apply H7. congruence. }
  split.
  { intros a. apply (proj1 (moves_equal_spec a a)). unfold same_move_fields. tauto. }
  split.
  { intros a b.
    destruct (proj2 (moves_equal_spec a b)) as [E|E],
             (proj2 (moves_equal_spec b a)) as [E'|E']; try congruence.
    - apply (proj1 (moves_equal_spec b a)), Hsym, (proj1 (moves_equal_spec a b)) in E'.
      congruence.
    - apply (proj1 (moves_equal_spec a b)), Hsym, (proj1 (moves_equal_spec b a)) in E.
      congruence. }
  split.
  { intros a b c Hab Hbc.
    apply (proj1 (moves_equal_spec a b)) in Hab.
    apply (proj1 (moves_equal_spec b c)) in Hbc.
    apply (proj1 (moves_equal_spec a c)).
    unfold same_move_fields in *.
    destruct Hab as (A1 & A2 & A3 & A4 & A5 & A6 & A7 & A8).
    destruct Hbc as (B1 & B2 & B3 & B4 & B5 & B6 & B7 & B8).
    repeat split; try congruence.
    - intros N. rewrite (A5 N). apply B5. congruence.
    - rewrite (proj1 (A7 H)). apply B7. congruence.
    - rewrite (proj2 (A7 H)). apply B7. congruence. }
  split; [intros a b; apply moves_equal_spec|].
  split; [vm_compute; reflexivity|]. split; vm_compute; reflexivity.
Qed.

(** * Testing a move for legality *)

Lemma move_is_legal_loop_collect (n : nat) :
  forall (g : move_gen) (b : board) (ms : list Z) (g' : move_gen) (b' : board) (m : Z),
    collect_moves n g b = Ret (ms, g', b') ->
    exists b'',
      move_is_legal_loop n m g b
      = Ret (b2i (existsb (fun c => truthy (moves_equal m c)) ms), b'').
Proof.
  induction n as [|n IH]; intros g b ms g' b' m H; [discriminate H|].
  cbn [collect_moves] in H. cbn [move_is_legal_loop].
  destruct (move_gen_next_move g b) as [[[c g1] b1]| |]; try discriminate H.
  cbn [bind] in *.
  destruct (c =? MOVE_END).
  - injection H as <- _ _. exists b1. reflexivity.
  - destruct (collect_moves n g1 b1) as [[[ms' g2] b2]| |] eqn:E; try discriminate H.
    cbn [bind] in H. injection H as <- _ _. cbn [existsb].
    destruct (truthy (moves_equal m c)).
    + exists b1. reflexivity.
    + cbn [orb]. apply (IH g1 b1 ms' g2 b2 m E).
Qed.

(** X24: [move_is_legal] answers 1 exactly for the moves that are equal, in the
    sense of [moves_equal], to one of the moves the generator enumerates for
    the board, and 0 for every other move; [MOVE_END] is answered with 0
    without a generator being run. *)
Theorem move_is_legal_spec (b : board) (ms : list Z) (g : move_gen) (b' : board) :
  generate_moves b = Ret (ms, g, b') ->
  move_is_legal MOVE_END b = Ret (0, b)
  /\ forall m, m <> MOVE_END ->
       exists b'',
         move_is_legal m b
         = Ret (b2i (existsb (fun c => truthy (moves_equal m c)) ms), b'').
Proof.
  intros H. split; [reflexivity|].
  intros m Hm. unfold move_is_legal.
  destruct (Z.eqb_spec m MOVE_END); [contradiction|].
  unfold generate_moves in H.
  destruct (move_gen_init b) as [g0| |]; try discriminate H.
  cbn [bind] in *. apply (move_is_legal_loop_collect _ _ _ _ _ _ m H).
Qed.

Lemma move_is_legal_spec_witness :
  move_is_legal MOVE_END initial_board = Ret (0, initial_board)
  /\ forall m, m <> MOVE_END ->
       exists b'',
         move_is_legal m initial_board
         = Ret (b2i (existsb (fun c => truthy (moves_equal m c)) initial_moves), b'').
Proof.
  assert (H : exists g b', generate_moves initial_board = Ret (initial_moves, g, b')).
  { eexists _, _. vm_compute. reflexivity. }
  destruct H as (g & b' & H).
  exact (move_is_legal_spec initial_board initial_moves g b' H).
Defined.

Lemma moves_equal_equivalence_witness :
  moves_equal e2e4_generated e2e4_entered = 1.
Proof.
  destruct moves_equal_equivalence as (_ & Hsym & _ & _ & _ & _ & H).
  rewrite Hsym. exact H.
Defined.

(** * Making a move that is not a castle *)

Section MadeMove.
Variables (b : board) (mv src dst piece : Z) (b1 : board).
Hypothesis Htyped : board_typed b.
Hypothesis Howned : pieces_owned b.
Hypothesis Hshape : move_shape b mv src dst piece.
Hypothesis Hmover : mover_ok b src dst piece.
Hypothesis Hmake : board_make_move b mv = Ret b1.

Lemma made_flags :
  exists lo1,
    u16 lo1 /\ Z.land lo1 255 = Z.land (flags b) 255
    /\ u16 (make_flags lo1 piece src dst WHITE)
    /\ flags b1
       = mk_flags (make_flags lo1 piece src dst WHITE)
                  (if board_player_to_move b =? BLACK
                   then (Z.shiftr (flags b) 16 + 1) mod 65536
                   else Z.shiftr (flags b) 16).
Proof.
  destruct (rm_normal b Htyped Howned mv src dst piece Hshape Hmover b1 Hmake
              _ _ eq_refl eq_refl)
    as (br & cap & _ & Hcrc & _ & _ & _ & _ & Hf & _ & _).
  pose proof (typed_flags b Htyped) as Hu.
  destruct (flags_split _ Hu) as (_ & _ & Hhi).
  destruct (crc_halves _ _ Hu Hcrc) as (lo1 & Hlo1 & Ef1 & E255).
  destruct (make_flags_halves lo1 (Z.shiftr (flags b) 16) piece src dst
              (board_player_to_move b) Hlo1 Hhi) as [E5 H5].
  exists lo1. rewrite Hf, Ef1, E5. auto.
Qed.

(** X19: Unmaking the move gives the board back, bit for bit. *)
Theorem make_unmake_regular : board_unmake_move b1 mv = Ret b.
Proof.
  exact (rm_round_trip b Htyped Howned mv src dst piece Hshape Hmover b1 Hmake
           _ _ eq_refl eq_refl).
Qed.

(** X20: A move is made only on a board that passes [board_invariants], and the
    board it leaves passes them again, has its eight bitboards and its
    flags in range, and every piece on it belongs to a player. *)
Theorem make_keeps_wellformed :
  board_invariants b = true /\ board_invariants b1 = true
  /\ board_typed b1 /\ pieces_owned b1.
Proof.
  destruct (rm_normal b Htyped Howned mv src dst piece Hshape Hmover b1 Hmake
              _ _ eq_refl eq_refl)
    as (br & cap & Hinv & _ & _ & _ & _ & _ & _ & Hinv1 & Ht1).
  repeat split; try assumption; try apply Ht1.
  exact (rm_owned_after b Htyped Howned mv src dst piece Hshape Hmover b1 Hmake
           _ _ eq_refl eq_refl).
Qed.

(** X21: The en-passant target after the move: the square the pawn crossed when
    the move is a pawn's step of two ranks, none otherwise. *)
Theorem make_en_passant_target :
  board_get_en_passant_target b1
  = if is_double_push piece src dst then crossed_square src dst
    else BOARD_POS_INVALID.
Proof.
  destruct (rm_normal b Htyped Howned mv src dst piece Hshape Hmover b1 Hmake
              _ _ eq_refl eq_refl)
    as (br & cap & _ & Hcrc & _ & _ & _ & _ & Hf & _ & _).
  pose proof (typed_flags b Htyped) as Hu.
  unfold board_get_en_passant_target. rewrite Hf.
  rewrite (make_flags_ep_present (flags b)) by assumption.
  destruct (is_double_push piece src dst) eqn:Edp; [|reflexivity].
  cbn [negb]. apply (make_flags_ep_square (flags b)); try assumption;
    apply Hmover.
Qed.

(** X22: The move passes the turn to the other player, and the full-turn counter
    goes up by one, within its 16 bits, when Black has moved. *)
Theorem make_turn :
  board_player_to_move b1 = 1 - board_player_to_move b
  /\ board_get_full_turn_number b1
     = if board_player_to_move b =? BLACK
       then (board_get_full_turn_number b + 1) mod 65536
       else board_get_full_turn_number b.
Proof.
  destruct made_flags as (lo1 & Hlo1 & E255 & Hlo5 & Ef).
  pose proof (typed_flags b Htyped) as Hu.
  destruct (flags_split _ Hu) as (Esplit & Hlo & Hhi).
  assert (Eturn : board_get_full_turn_number b = Z.shiftr (flags b) 16).
  { unfold board_get_full_turn_number. rewrite Esplit at 1.
    apply mk_flags_turn; assumption. }
  split.
  - unfold board_player_to_move. rewrite Ef. rewrite player_bit_low by assumption.
    unfold BOARD_FLAGS_TURN. change 128 with (2 ^ 7).
    rewrite !truthy_land_pow2 by lia.
    assert (E7 : Z.testbit (make_flags lo1 piece src dst WHITE) 7
                 = negb (Z.testbit (flags b) 7)).
    { assert (E : Z.testbit lo1 7 = Z.testbit (flags b) 7).
      { pose proof (f_equal (fun x => Z.testbit x 7) E255) as E.
        cbn beta in E. rewrite !Z.land_spec in E.
        change (Z.testbit 255 7) with true in E.
        rewrite !andb_true_r in E. exact E. }
      rewrite <- E. unfold make_flags. change (WHITE =? BLACK) with false.
      cbv iota. unfold BOARD_FLAGS_TURN, BOARD_FLAGS_EP_PRESENT.
      destruct (is_double_push piece src dst).
      - unfold ep_flags, BOARD_FLAGS_EP_PRESENT, BOARD_FLAGS_EP_SQUARE.
        autorewrite with flagbits. eval_cmp. destruct (Z.testbit lo1 7); reflexivity.
      - autorewrite with flagbits. eval_cmp. destruct (Z.testbit lo1 7); reflexivity. }
    rewrite E7. destruct (Z.testbit (flags b) 7); reflexivity.
  - unfold board_get_full_turn_number at 1. rewrite Ef, Eturn.
    apply mk_flags_turn; [assumption|].
    destruct (board_player_to_move b =? BLACK); [|assumption].
    apply u16_small. apply Z.mod_pos_bound. lia.
Qed.
End MadeMove.

(** * The initial position and the king's pawn *)

Lemma initial_typed : board_typed initial_board.
Proof. apply board_typedb_spec. vm_compute. reflexivity. Qed.

Lemma initial_owned : pieces_owned initial_board.
Proof. apply pieces_ownedb_spec. vm_compute. reflexivity. Qed.

Lemma e2e4_shape : move_shape initial_board e2e4_generated 12 28 PAWN.
Proof.
  constructor; try (vm_compute; reflexivity).
  - left. vm_compute. reflexivity.
  - apply cs_none; [vm_compute; reflexivity | vm_compute; reflexivity|].
    intros _. vm_compute. discriminate.
Qed.

Lemma e2e4_mover : mover_ok initial_board 12 28 PAWN.
Proof. constructor; try (vm_compute; reflexivity); unfold PAWN; lia. Qed.

Lemma e2e4_made : board_make_move initial_board e2e4_generated = Ret after_e2e4.
Proof. vm_compute. reflexivity. Qed.

Lemma make_unmake_regular_witness :
  board_unmake_move after_e2e4 e2e4_generated = Ret initial_board.
Proof.
  exact (make_unmake_regular initial_board e2e4_generated 12 28 PAWN after_e2e4
           initial_typed initial_owned e2e4_shape e2e4_mover e2e4_made).
Defined.

Lemma make_keeps_wellformed_witness :
  board_invariants initial_board = true /\ board_invariants after_e2e4 = true
  /\ board_typed after_e2e4 /\ pieces_owned after_e2e4.
Proof.
  exact (make_keeps_wellformed initial_board e2e4_generated 12 28 PAWN after_e2e4
           initial_typed initial_owned e2e4_shape e2e4_mover e2e4_made).
Defined.

Lemma make_en_passant_target_witness :
  board_get_en_passant_target after_e2e4
  = if is_double_push PAWN 12 28 then crossed_square 12 28 else BOARD_POS_INVALID.
Proof.
  exact (make_en_passant_target initial_board e2e4_generated 12 28 PAWN after_e2e4
           initial_typed initial_owned e2e4_shape e2e4_mover e2e4_made).
Defined.

Lemma make_turn_witness :
  board_player_to_move after_e2e4 = 1 - board_player_to_move initial_board
  /\ board_get_full_turn_number after_e2e4
     = if board_player_to_move initial_board =? BLACK
       then (board_get_full_turn_number initial_board + 1) mod 65536
       else board_get_full_turn_number initial_board.
Proof.
  exact (make_turn initial_board e2e4_generated 12 28 PAWN after_e2e4
           initial_typed initial_owned e2e4_shape e2e4_mover e2e4_made).
Defined.

(** * Starting a generator *)

Lemma sliders_occupancy (P : board) :
  board_typed P -> board_occupancy_for_sliders_lookups P = Ret (occupancy P).
Proof.
  intros Ht. unfold board_occupancy_for_sliders_lookups, occupancy, WHITE, BLACK.
  rewrite !rd_Ret by (apply in_players; auto). reflexivity.
Qed.

Lemma pawns_occupancy (P : board) :
  board_typed P ->
  board_occupancy_for_pawns_lookups P
  = Ret (if truthy (Z.land (flags P) BOARD_FLAGS_EP_PRESENT)
         then setb (occupancy P) (Z.land (flags P) BOARD_FLAGS_EP_SQUARE)
         else occupancy P).
Proof.
  intros Ht. unfold board_occupancy_for_pawns_lookups, occupancy, WHITE, BLACK.
  rewrite !rd_Ret by (apply in_players; auto). cbn [bind].
  destruct (truthy (Z.land (flags P) BOARD_FLAGS_EP_PRESENT)); [|reflexivity].
  apply bitboard_set_square_Ret. unfold BOARD_FLAGS_EP_SQUARE.
  change 63 with (Z.ones 6). rewrite Z.land_ones by lia.
  pose proof (Z.mod_pos_bound (flags P) (2 ^ 6)). lia.
Qed.

Lemma move_gen_init_inv (P : board) (g : move_gen) :
  board_typed P -> move_gen_init P = Ret g ->
  gen_inv P g /\ cur_mode g = MOVE_GEN_MODE_NORMAL /\ cur_moves g = 0.
Proof.
  intros Ht H. unfold move_gen_init in H.
  rewrite sliders_occupancy, pawns_occupancy in H by assumption.
  rewrite rd_Ret in H by (apply in_players_to_move; assumption).
  cbn [bind] in H. injection H as <-.
  split; [|split; reflexivity].
  constructor; cbn.
  - reflexivity.
  - apply pawns_occupancy. assumption.
  - reflexivity.
  - unfold KNIGHT. lia.
  - intros _. constructor; cbn; [lia | unfold KING; lia | apply u64_0].
  - intros _ N. contradiction.
Qed.

(** X15: [move_gen_init] succeeds on every board with two player and six piece
    bitboards.  The generator starts in the normal mode, before the first
    square, with no destinations loaded, no move hit and no verdict; the
    occupancy it keeps for the sliders is the union of the two players'
    squares, the one for the pawns has the en-passant square added, and the
    final mask holds exactly the squares not held by the player to move. *)
Theorem move_gen_init_spec (P : board) :
  board_typed P ->
  exists g,
    move_gen_init P = Ret g
    /\ cur_mode g = MOVE_GEN_MODE_NORMAL
    /\ cur_piece_type g = 0 /\ cur_square g = 0
    /\ cur_promotion g = KNIGHT /\ cur_moves g = 0
    /\ hit_move g = 0 /\ done g = 0
    /\ (forall n, 0 <= n ->
          Z.testbit (occupancy_for_sliders g) n
          = tb (players P) WHITE n || tb (players P) BLACK n)
    /\ (forall n, 0 <= n ->
          Z.testbit (occupancy_for_pawns g) n
          = (negb (board_get_en_passant_target P =? BOARD_POS_INVALID)
             && (n =? board_get_en_passant_target P))
            || tb (players P) WHITE n || tb (players P) BLACK n)
    /\ (forall n, 0 <= n ->
          Z.testbit (final_moves_mask g) n
          = (n <? 64) && negb (tb (players P) (board_player_to_move P) n)).
Proof.
  intros Ht. unfold move_gen_init.
  rewrite sliders_occupancy, pawns_occupancy by assumption.
  rewrite rd_Ret by (apply in_players_to_move; assumption).
  cbn [bind]. eexists. split; [reflexivity|]. cbn.
  repeat (split; [reflexivity|]).
  split; [intros n Hn; apply testbit_occupancy|].
  split.
  - intros n Hn. unfold board_get_en_passant_target.
    destruct (truthy (Z.land (flags P) BOARD_FLAGS_EP_PRESENT)); cbn [negb].
    + assert (Hr : 0 <= Z.land (flags P) BOARD_FLAGS_EP_SQUARE < 64).
      { unfold BOARD_FLAGS_EP_SQUARE. change 63 with (Z.ones 6).
        rewrite Z.land_ones by lia.
        pose proof (Z.mod_pos_bound (flags P) (2 ^ 6)). lia. }
      rewrite testbit_setb by lia. rewrite testbit_occupancy.
      destruct (Z.eqb_spec (Z.land (flags P) BOARD_FLAGS_EP_SQUARE) BOARD_POS_INVALID)
        as [E|E]; [unfold BOARD_POS_INVALID in E; lia|].
      cbn [negb andb]. rewrite orb_assoc. reflexivity.
    + change (BOARD_POS_INVALID =? BOARD_POS_INVALID) with true. cbn [negb andb orb].
      apply testbit_occupancy.
  - intros n Hn. rewrite Z.land_spec, Z.lnot_spec, testbit_U64_MAX by lia.
    apply andb_comm.
Qed.

Lemma move_gen_init_spec_witness :
  exists g,
    move_gen_init initial_board = Ret g
    /\ cur_mode g = MOVE_GEN_MODE_NORMAL
    /\ cur_piece_type g = 0 /\ cur_square g = 0
    /\ cur_promotion g = KNIGHT /\ cur_moves g = 0
    /\ hit_move g = 0 /\ done g = 0
    /\ (forall n, 0 <= n ->
          Z.testbit (occupancy_for_sliders g) n
          = tb (players initial_board) WHITE n || tb (players initial_board) BLACK n)
    /\ (forall n, 0 <= n ->
          Z.testbit (occupancy_for_pawns g) n
          = (negb (board_get_en_passant_target initial_board =? BOARD_POS_INVALID)
             && (n =? board_get_en_passant_target initial_board))
            || tb (players initial_board) WHITE n || tb (players initial_board) BLACK n)
    /\ (forall n, 0 <= n ->
          Z.testbit (final_moves_mask g) n
          = (n <? 64)
            && negb (tb (players initial_board) (board_player_to_move initial_board) n)).
Proof. exact (move_gen_init_spec initial_board initial_typed). Defined.

(** * The next move from the loaded destinations *)

(** X16: What [move_gen_next_from_cur_moves] builds, for a generator that keeps
    its invariant on the board [P]: a move, never [MOVE_END], from the
    current square to the lowest destination loaded; the destination does
    not hold a piece of the player to move; the capture fields name the
    piece the other player has there, or the pawn behind the en-passant
    target; the move promotes only a pawn, to a piece kind in range; and the
    generator it leaves keeps the invariant, with destinations among the
    ones it had. *)
Theorem next_from_cur_moves_move (P : board) (g : move_gen) (m : Z) (g' : move_gen) :
  board_typed P -> gen_inv P g -> cur_mode g = MOVE_GEN_MODE_NORMAL ->
  move_gen_next_from_cur_moves g P = Ret (m, g') ->
  exists dst,
    bitboard_scan_lsb (cur_moves g) = Ret dst
    /\ m <> MOVE_END
    /\ move_shape P m (cur_square g) dst (cur_piece_type g)
    /\ mover_ok P (cur_square g) dst (cur_piece_type g)
    /\ gen_inv P g' /\ cur_mode g' = MOVE_GEN_MODE_NORMAL
    /\ cur_square g' = cur_square g /\ cur_piece_type g' = cur_piece_type g.
Proof.
  intros Ht Hgi Hmode H.
  destruct (from_cur_moves_spec P g m g' Ht Hgi Hmode H)
    as (dst & Hshape & Hmover & Hbit & Hlsb & Hne & Hgi' & Hmode' & Hsq & Hpt & _ & _).
  exists dst. repeat (split; [assumption|]). assumption.
Qed.

Lemma a2_cursor_inv : gen_inv initial_board a2_cursor.
Proof.
  constructor.
  - vm_compute. reflexivity.
  - vm_compute. reflexivity.
  - vm_compute. reflexivity.
  - cbn. unfold KNIGHT. lia.
  - intros _. constructor; cbn; unfold PAWN, u64; lia.
  - intros _ _. constructor.
    + vm_compute. reflexivity.
    + vm_compute. reflexivity.
    + intros n Hn Hb. destruct (Z_lt_le_dec n 64) as [Hlt|Hge].
      * pose proof (holds_below_spec 64
          (fun n => implb (Z.testbit (cur_moves a2_cursor) n)
                      (negb (tb (players initial_board)
                               (board_player_to_move initial_board) n)))
          ltac:(vm_compute; reflexivity) n ltac:(lia)) as H.
        cbn beta in H. rewrite Hb in H. cbn [implb] in H.
        apply negb_true_iff in H. exact H.
      * apply (tb_players_high initial_board initial_typed); [|assumption].
        apply in_players_to_move, initial_typed.
    + intros _ n Hn Hb. exists 0x1010000. split; [vm_compute; reflexivity | exact Hb].
Qed.

Lemma next_from_cur_moves_move_witness :
  exists m g' dst,
    move_gen_next_from_cur_moves a2_cursor initial_board = Ret (m, g')
    /\ bitboard_scan_lsb (cur_moves a2_cursor) = Ret dst
    /\ m <> MOVE_END
    /\ move_shape initial_board m (cur_square a2_cursor) dst (cur_piece_type a2_cursor)
    /\ mover_ok initial_board (cur_square a2_cursor) dst (cur_piece_type a2_cursor)
    /\ gen_inv initial_board g' /\ cur_mode g' = MOVE_GEN_MODE_NORMAL
    /\ cur_square g' = cur_square a2_cursor
    /\ cur_piece_type g' = cur_piece_type a2_cursor.
Proof.
  assert (H : exists m g',
             move_gen_next_from_cur_moves a2_cursor initial_board = Ret (m, g')).
  { eexists _, _. vm_compute. reflexivity. }
  destruct H as (m & g' & H).
  destruct (next_from_cur_moves_move initial_board a2_cursor m g'
              initial_typed a2_cursor_inv eq_refl H) as (dst & Hd).
  exists m, g', dst. split; [exact H | exact Hd].
Defined.

(** * Castling in the generator *)

(** X17: With [undo_move] set, [move_gen_castle] never touches the board: it
    answers [MOVE_END], or a move marked as a castle of the king from its
    home square two files towards the rook, without making it.  When the
    castling right is not held the answer is [MOVE_END]. *)
Theorem move_gen_castle_undo
    (g : move_gen) (b : board) (player side : Z) (m : Z) (b' : board) :
  player = WHITE \/ player = BLACK -> side = KING \/ side = QUEEN ->
  move_gen_castle g b player side 1 = Ret (m, b') ->
  b' = b
  /\ (board_can_castle b player side = Ret 0 -> m = MOVE_END)
  /\ (m = MOVE_END
      \/ (board_can_castle b player side = Ret 1
          /\ move_is_castle m = 1
          /\ move_is_capture m = 0 /\ move_is_promotion m = 0
          /\ move_source_square m = 4 + 56 * player
          /\ move_destination_square m
             = (if side =? QUEEN then 2 else 6) + 56 * player
          /\ board_piece_on_square b (4 + 56 * player) = Ret KING
          /\ board_player_on_square b (4 + 56 * player) = Ret player)).
Proof.
  intros Hp Hs H. unfold move_gen_castle in H.
  inv_bind H as can Hcan.
  assert (Hcan01 : can = 0 \/ can = 1).
  { unfold board_can_castle in Hcan.
    inv_bind Hcan as u1 Hu1. inv_bind Hcan as u2 Hu2.
    repeat match type of Hcan with
           | (if ?c then _ else _) = _ => destruct c
           end;
      try discriminate Hcan; injection Hcan as <-;
      match goal with |- context [truthy ?x] => destruct (truthy x) end; auto. }
  destruct Hcan01 as [-> | ->].
  - change (truthy 0) with false in H. cbn [negb] in H. injection H as <- <-.
    split; [reflexivity|]. split; auto.
  - change (truthy 1) with true in H. cbn [negb] in H. cbv zeta in H.
    assert (Eking : board_pos_from_xy 4 (if player =? WHITE then 0 else 7)
                    = 4 + 56 * player).
    { destruct Hp as [-> | ->]; reflexivity. }
    assert (Edst : board_pos_from_xy
                     (board_pos_to_x (board_pos_from_xy 4 (if player =? WHITE then 0 else 7))
                      + 2 * (if side =? QUEEN then -1 else 1))
                     (if player =? WHITE then 0 else 7)
                   = (if side =? QUEEN then 2 else 6) + 56 * player).
    { destruct Hp as [-> | ->], Hs as [-> | ->]; reflexivity. }
    rewrite Edst in H. rewrite !Eking in H.
    inv_bind H as pk Hpk. inv_bind H as u1 Hu1. inv_assert Hu1.
    apply Z.eqb_eq in Hu1. subst pk.
    inv_bind H as pr Hpr. inv_bind H as u2 Hu2.
    inv_bind H as ok Hok. inv_bind H as u3 Hu3. inv_assert Hu3.
    apply Z.eqb_eq in Hu3. subst ok.
    inv_bind H as orook Horook. inv_bind H as u4 Hu4.
    inv_bind H as clear Hclear.
    split.
    { destruct clear; cbn [negb] in H; [|injection H as _ <-; reflexivity].
      inv_bind H as safe Hsafe.
      destruct safe; cbn [negb] in H; injection H as _ <-; reflexivity. }
    split; [intros E; rewrite E in Hcan; discriminate Hcan|].
    destruct clear; cbn [negb] in H; [|injection H as <- _; auto].
    inv_bind H as safe Hsafe.
    destruct safe; cbn [negb] in H; [|injection H as <- _; auto].
    change (truthy 1) with true in H. cbn [negb] in H. injection H as <- _.
    right. split; [assumption|].
    assert (Rk : 0 <= 4 + 56 * player < 64) by (destruct Hp as [-> | ->]; unfold WHITE, BLACK; lia).
    assert (Rd : 0 <= (if side =? QUEEN then 2 else 6) + 56 * player < 64).
    { destruct Hp as [-> | ->]; unfold WHITE, BLACK; destruct (side =? QUEEN); lia. }
    destruct (construct_move_fields (flags b) (4 + 56 * player)
                ((if side =? QUEEN then 2 else 6) + 56 * player) 0 0 0 0 0 1
                Rk Rd ltac:(lia) ltac:(lia) ltac:(lia))
      as (_ & _ & Hsrc & Hdst & Hip & _ & Hic & _ & _ & Hcas).
    repeat split; assumption.
Qed.

Lemma move_gen_castle_undo_witness :
  exists m,
    move_gen_castle castle_gen castle_board WHITE KING 1 = Ret (m, castle_board)
    /\ (board_can_castle castle_board WHITE KING = Ret 0 -> m = MOVE_END)
    /\ (m = MOVE_END
        \/ (board_can_castle castle_board WHITE KING = Ret 1
            /\ move_is_castle m = 1
            /\ move_is_capture m = 0 /\ move_is_promotion m = 0
            /\ move_source_square m = 4 + 56 * WHITE
            /\ move_destination_square m = (if KING =? QUEEN then 2 else 6) + 56 * WHITE
            /\ board_piece_on_square castle_board (4 + 56 * WHITE) = Ret KING
            /\ board_player_on_square castle_board (4 + 56 * WHITE) = Ret WHITE)).
Proof.
  assert (H : exists m b', move_gen_castle castle_gen castle_board WHITE KING 1
                           = Ret (m, b')).
  { eexists _, _. vm_compute. reflexivity. }
  destruct H as (m & b' & H).
  destruct (move_gen_castle_undo castle_gen castle_board WHITE KING m b'
              (or_introl eq_refl) (or_introl eq_refl) H) as (Eb & H1 & H2).
  exists m. rewrite Eb in H. auto.
Defined.

(** * Squares attacked *)

(** X18: [board_is_square_attacked] wants WHITE or BLACK as the attacking player,
    and what it returns are squares held by that player: the union of the
    hits is masked with the player's bitboard. *)
Theorem board_is_square_attacked_owned (b : board) (s p r : Z) :
  board_is_square_attacked b s p = Ret r ->
  (p = WHITE \/ p = BLACK)
  /\ forall n, Z.testbit r n = true -> tb (players b) p n = true.
Proof.
  intros H. unfold board_is_square_attacked in H.
  inv_bind H as u Hu. inv_assert Hu.
  inv_bind H as mask Hmask. apply rd_inv in Hmask. destruct Hmask as [_ ->].
  inv_bind H as os Hos. inv_bind H as op Hop. cbv zeta in H.
  inv_bind H as hits Hhits. injection H as <-.
  split.
  - apply orb_true_iff in Hu. rewrite !Z.eqb_eq in Hu. exact Hu.
  - intros n Hn. rewrite Z.land_spec in Hn. apply andb_true_iff in Hn.
    unfold tb. tauto.
Qed.

Lemma board_is_square_attacked_owned_witness :
  exists r,
    board_is_square_attacked initial_board 20 WHITE = Ret r
    /\ (WHITE = WHITE \/ WHITE = BLACK)
    /\ forall n, Z.testbit r n = true -> tb (players initial_board) WHITE n = true.
Proof.
  assert (H : exists r, board_is_square_attacked initial_board 20 WHITE = Ret r).
  { eexists. vm_compute. reflexivity. }
  destruct H as (r & H). exists r. split; [exact H|].
  exact (board_is_square_attacked_owned initial_board 20 WHITE r H).
Defined.

(** * Text *)

(** X9: The letter of a piece: [board_piece_char_to_piece] and
    [board_piece_char_to_player] read back the kind and the player
    [board_piece_char_from_piece_player] wrote. *)
Theorem piece_char_round_trip (piece player : Z) :
  0 <= piece < 6 -> player = WHITE \/ player = BLACK ->
  exists c,
    board_piece_char_from_piece_player piece player = Ret c
    /\ board_piece_char_to_piece c = Ret piece
    /\ board_piece_char_to_player c = Ret player.
Proof.
  intros Hp Hpl.
  assert (E : piece = 0 \/ piece = 1 \/ piece = 2 \/ piece = 3 \/ piece = 4 \/ piece = 5)
    by lia.
  destruct Hpl as [-> | ->], E as [->|[->|[->|[->|[->| ->]]]]];
    (eexists; split; [vm_compute; reflexivity | split; vm_compute; reflexivity]).
Qed.

Lemma piece_char_round_trip_witness :
  exists c,
    board_piece_char_from_piece_player QUEEN BLACK = Ret c
    /\ board_piece_char_to_piece c = Ret QUEEN
    /\ board_piece_char_to_player c = Ret BLACK.
Proof.
  apply (piece_char_round_trip QUEEN BLACK); [unfold QUEEN; lia | right; reflexivity].
Defined.

Lemma move_square_range (m : Z) :
  0 <= move_source_square m < 64 /\ 0 <= move_destination_square m < 64.
Proof.
  unfold move_source_square, move_destination_square.
  change MOVE_FLAGS_SRC with (Z.shiftl (Z.ones 6) 16).
  change MOVE_FLAGS_DST with (Z.shiftl (Z.ones 6) 22).
  unfold MOVE_SHIFT_SRC, MOVE_SHIFT_DST.
  rewrite !field_load by lia. change (2 ^ 6) with 64.
  split; apply Z.mod_pos_bound; lia.
Qed.

Lemma square_text (s : Z) :
  0 <= s < 64 ->
  board_pos_to_str s
  = Ret (String (chr (s mod 8 + 97)) (String (chr (s / 8 + 49)) EmptyString))
  /\ code (chr (s mod 8 + 97)) = s mod 8 + 97
  /\ code (chr (s / 8 + 49)) = s / 8 + 49
  /\ board_pos_from_str (two_char_str (s mod 8 + 97) (s / 8 + 49)) = Ret s.
Proof.
  intros Hs. destruct (square_xy _ Hs) as (_ & _ & R1 & R2).
  split.
  { unfold board_pos_to_str. rewrite board_pos_to_xy_Ret by assumption. reflexivity. }
  split; [apply code_chr; lia|]. split; [apply code_chr; lia|].
  rewrite board_pos_from_str_two by lia.
  unfold file_wellformed, rank_wellformed, square_of_chars.
  change (code "a") with 97. change (code "h") with 104.
  change (code "A") with 65. change (code "H") with 72.
  change (code "1") with 49. change (code "8") with 56.
  destruct (Z.geb_spec (s mod 8 + 97) 97); [|lia].
  destruct (Z.leb_spec (s mod 8 + 97) 104); [|lia].
  destruct (Z.geb_spec (s / 8 + 49) 49); [|lia].
  destruct (Z.leb_spec (s / 8 + 49) 56); [|lia].
  cbn [andb orb]. f_equal. rewrite board_pos_from_xy_valid by lia.
  Z.div_mod_to_equations. lia.
Qed.

(** X25: The text of a move reads back as the same move request: for a move
    that is no promotion, [move_to_str] writes four characters and
    [move_from_str] asks [move_new] for the same two squares; for a promotion
    to a piece kind below 6 it writes five, and [move_from_str] asks for the
    same squares and the same promotion piece. *)
Theorem move_text_round_trip (m : Z) (b : board) :
  (move_is_promotion m = 0 ->
   exists s, move_to_str m = Ret s /\ String.length s = 4%nat
             /\ move_from_str s b
                = move_new (move_source_square m) (move_destination_square m) 0 (-1) b)
  /\ (move_is_promotion m = 1 -> 0 <= move_promotion_piece m < 6 ->
      exists s, move_to_str m = Ret s /\ String.length s = 5%nat
                /\ move_from_str s b
                   = move_new (move_source_square m) (move_destination_square m) 1
                              (move_promotion_piece m) b).
Proof.
  destruct (move_square_range m) as [Rs Rd].
  destruct (square_text _ Rs) as (Es & Cs0 & Cs1 & Ps).
  destruct (square_text _ Rd) as (Ed & Cd0 & Cd1 & Pd).
  split.
  - intros Hp. unfold move_to_str. rewrite Es, Ed, Hp. cbn [bind].
    change (truthy 0) with false. cbv iota.
    eexists. split; [reflexivity|]. split; [reflexivity|].
    unfold move_from_str. cbn [append char_at peek bind].
    rewrite Cs0, Cs1, Cd0, Cd1.
    change (negb (0 =? 0)) with false. cbn [andb].
    rewrite Ps, Pd. reflexivity.
  - intros Hp Hpp. unfold move_to_str. rewrite Es, Ed, Hp. cbn [bind].
    change (truthy 1) with true. cbv iota.
    assert (E : move_promotion_piece m = 0 \/ move_promotion_piece m = 1
                \/ move_promotion_piece m = 2 \/ move_promotion_piece m = 3
                \/ move_promotion_piece m = 4 \/ move_promotion_piece m = 5) by lia.
    destruct E as [E|[E|[E|[E|[E|E]]]]]; rewrite E;
      (cbn [bind]; eexists; split; [reflexivity|]; split; [reflexivity|];
       unfold move_from_str; cbn [append char_at peek bind];
       rewrite Cs0, Cs1, Cd0, Cd1, Ps, Pd; reflexivity).
Qed.

Lemma move_text_round_trip_witness :
  exists s, move_to_str e2e4_generated = Ret s /\ String.length s = 4%nat
            /\ move_from_str s initial_board
               = move_new (move_source_square e2e4_generated)
                          (move_destination_square e2e4_generated) 0 (-1) initial_board.
Proof.
  apply (proj1 (move_text_round_trip e2e4_generated initial_board)).
  vm_compute. reflexivity.
Defined.

(** * The turn counter in FEN text *)

Lemma turn_counter_table :
  holds_below (Z.to_nat 65536)
    (fun v => turn_counter_read_back v
              =? (if v <? 1000 then v else if v <? 10000 then v / 10 else v / 100))
  = true.
Proof. vm_compute. reflexivity. Qed.

(** X10: The turn counter survives the FEN text up to 999; from 1000 on only its
    first three digits are written and read back. *)
Theorem turn_counter_text (v : Z) :
  0 <= v < 65536 ->
  turn_counter_read_back v
  = if v <? 1000 then v else if v <? 10000 then v / 10 else v / 100.
Proof.
  intros Hv. apply Z.eqb_eq.
  apply (holds_below_spec _ _ turn_counter_table).
  rewrite Z2Nat.id by lia. assumption.
Qed.

Lemma turn_counter_text_witness :
  turn_counter_read_back 1000
  = if 1000 <? 1000 then 1000 else if 1000 <? 10000 then 1000 / 10 else 1000 / 100.
Proof. apply (turn_counter_text 1000). lia. Defined.

(** * Pawn pushes *)

Lemma pawn_entries_pushes_ok :
  holds_below 2 (fun player =>
    holds_below 2 (fun da =>
      holds_below 8 (fun ahead =>
        holds_below 64 (fun pos => pawn_entry_pushes_ok player da ahead pos)))) = true.
Proof. vm_compute. reflexivity. Qed.

Lemma land_7_range (x : Z) : 0 <= Z.land x 7 < 8.
Proof.
  change 7 with (Z.ones 3). rewrite Z.land_ones by lia. apply Z.mod_pos_bound. lia.
Qed.

Lemma land_1_range (x : Z) : 0 <= Z.land x 1 < 2.
Proof.
  change 1 with (Z.ones 1). rewrite Z.land_ones by lia. apply Z.mod_pos_bound. lia.
Qed.

(** X14: A pawn is pushed only onto a free square, and by two ranks only from its
    home rank over a free square: for every occupancy, a destination
    [pawn_move_lookup] gives straight ahead of the pawn is not occupied, and
    for a destination two ranks ahead neither that square nor the one
    crossed is. *)
Theorem pawn_pushes_free (occ sq player m : Z) :
  pawn_move_lookup occ sq player = Ret m ->
  (0 <= sq + 8 * pawn_dir player ->
   Z.testbit m (sq + 8 * pawn_dir player) = true ->
   Z.testbit occ (sq + 8 * pawn_dir player) = false)
  /\ (Z.testbit m (sq + 16 * pawn_dir player) = true ->
      sq / 8 = (if player =? WHITE then 1 else 6)
      /\ Z.testbit occ (sq + 8 * pawn_dir player) = false
      /\ Z.testbit occ (sq + 16 * pawn_dir player) = false).
Proof.
  intros H. unfold pawn_move_lookup in H. cbv zeta in H.
  inv_bind H as u Hu. inv_assert Hu.
  apply andb_true_iff in Hu. destruct Hu as [Hu H4].
  apply andb_true_iff in Hu. destruct Hu as [Hu H3].
  apply andb_true_iff in Hu. destruct Hu as [H1 H2].
  apply Z.leb_le in H1, H3. apply Z.ltb_lt in H2, H4.
  fold (pawn_dir player) in H.
  set (fs := sq - 1 + pawn_dir player * 8) in *.
  set (ds := sq + pawn_dir player * 16) in *.
  set (ahead := if fs >=? 0 then Z.land (Z.shiftr occ fs) 7
                else Z.land (Z.land (Z.shiftl occ (- fs)) U64_MAX) 7) in *.
  set (da := if ds >? 0 then Z.land (Z.shiftr occ ds) 1
             else Z.land (Z.land (Z.shiftl occ (- ds)) U64_MAX) 1) in *.
  assert (Ra : 0 <= ahead < 8) by (unfold ahead; destruct (fs >=? 0); apply land_7_range).
  assert (Rd : 0 <= da < 2) by (unfold da; destruct (ds >? 0); apply land_1_range).
  pose proof (holds_below_spec 64 _
                (holds_below_spec 8 _
                   (holds_below_spec 2 _
                      (holds_below_spec 2 _ pawn_entries_pushes_ok player ltac:(lia))
                      da ltac:(lia))
                   ahead ltac:(lia))
                sq ltac:(lia)) as Hchk.
  cbn beta in Hchk. unfold pawn_entry_pushes_ok in Hchk. rewrite H in Hchk.
  apply andb_true_iff in Hchk. destruct Hchk as [Hc1 Hc2].
  assert (Hdir : pawn_dir player = 1 \/ pawn_dir player = -1)
    by (unfold pawn_dir; destruct (player =? WHITE); auto).
  assert (Hahead : 0 <= sq + 8 * pawn_dir player ->
                   Z.testbit ahead 1 = Z.testbit occ (sq + 8 * pawn_dir player)).
  { intros Ht. unfold ahead. destruct (Z.geb_spec fs 0) as [Hfs|Hfs].
    - rewrite Z.land_spec, Z.shiftr_spec by lia.
      change (Z.testbit 7 1) with true. rewrite andb_true_r.
      f_equal. unfold fs. lia.
    - assert (Efs : fs = -1) by (unfold fs in *; lia).
      rewrite Efs. change (- -1) with 1.
      rewrite !Z.land_spec, Z.shiftl_spec by lia.
      change (Z.testbit U64_MAX 1) with true. change (Z.testbit 7 1) with true.
      rewrite !andb_true_r. f_equal. unfold fs in Efs. lia. }
  split.
  - intros Ht Hb. rewrite Hb in Hc1. cbn [implb] in Hc1.
    apply negb_true_iff in Hc1. rewrite <- Hahead by assumption. exact Hc1.
  - intros Hb. rewrite Hb in Hc2. cbn [implb] in Hc2.
    apply andb_true_iff in Hc2. destruct Hc2 as [Hc2 Hrank].
    apply andb_true_iff in Hc2. destruct Hc2 as [Hfree Hda].
    apply negb_true_iff in Hfree. apply Z.eqb_eq in Hda, Hrank.
    split; [assumption|].
    assert (Hsq : (player = WHITE /\ 8 <= sq < 16) \/ (player <> WHITE /\ 48 <= sq < 56)).
    { destruct (Z.eqb_spec player WHITE); [left | right];
        (split; [assumption | Z.div_mod_to_equations; lia]). }
    assert (Ht : 0 <= sq + 8 * pawn_dir player).
    { unfold pawn_dir. destruct Hsq as [[-> ?]|[N ?]];
        [change (WHITE =? WHITE) with true
        |destruct (Z.eqb_spec player WHITE); [contradiction|]]; lia. }
    split; [rewrite <- Hahead by assumption; exact Hfree|].
    assert (Hds : ds > 0).
    { unfold ds, pawn_dir. destruct Hsq as [[-> ?]|[N ?]];
        [change (WHITE =? WHITE) with true
        |destruct (Z.eqb_spec player WHITE); [contradiction|]]; lia. }
    unfold da in Hda. destruct (Z.gtb_spec ds 0); [|lia].
    rewrite land_shiftr_1 in Hda by lia.
    replace (sq + 16 * pawn_dir player) with ds by (unfold ds; lia).
    destruct (Z.testbit occ ds); [discriminate Hda | reflexivity].
Qed.

Lemma pawn_pushes_free_witness :
  exists m,
    pawn_move_lookup 0xffff00000000ffff 12 WHITE = Ret m
    /\ (0 <= 12 + 8 * pawn_dir WHITE ->
        Z.testbit m (12 + 8 * pawn_dir WHITE) = true ->
        Z.testbit 0xffff00000000ffff (12 + 8 * pawn_dir WHITE) = false)
    /\ (Z.testbit m (12 + 16 * pawn_dir WHITE) = true ->
        12 / 8 = (if WHITE =? WHITE then 1 else 6)
        /\ Z.testbit 0xffff00000000ffff (12 + 8 * pawn_dir WHITE) = false
        /\ Z.testbit 0xffff00000000ffff (12 + 16 * pawn_dir WHITE) = false).
Proof.
  assert (H : exists m, pawn_move_lookup 0xffff00000000ffff 12 WHITE = Ret m).
  { eexists. vm_compute. reflexivity. }
  destruct H as (m & H). exists m. split; [exact H|].
  exact (pawn_pushes_free 0xffff00000000ffff 12 WHITE m H).
Defined.

(** The entries of the pawn table that a shift count of 64 or more would
    select: for a white pawn on the last rank the entry does not depend on
    the occupancy bits at all, and from the seventh rank on it does not
    depend on the bit of the second square ahead. *)
Lemma pawn_entry_ahead_absent (da da' ahead ahead' pos : Z) :
  0 <= da < 2 -> 0 <= da' < 2 -> 0 <= ahead < 8 -> 0 <= ahead' < 8 ->
  (56 <= pos < 64 ->
   move_gen_init_pawns_entry WHITE da ahead pos
   = move_gen_init_pawns_entry WHITE da' ahead' pos)
  /\ (48 <= pos < 64 ->
      move_gen_init_pawns_entry WHITE da ahead pos
      = move_gen_init_pawns_entry WHITE da' ahead pos).
Proof.
  intros Hda Hda' Ha Ha'.
  pose (same := fun (x y : res Z) =>
    match x, y with
    | Ret u, Ret v => u =? v
    | Abort, Abort => true
    | OutOfFuel, OutOfFuel => true
    | _, _ => false
    end).
  assert (Hsame : forall x y, same x y = true -> x = y).
  { intros [u| |] [v| |] H; try discriminate H; try reflexivity.
    apply Z.eqb_eq in H. congruence. }
  assert (H : holds_below 2 (fun da => holds_below 2 (fun da' =>
              holds_below 8 (fun ahead => holds_below 8 (fun ahead' =>
                holds_from 8 56 (fun pos =>
                  same (move_gen_init_pawns_entry WHITE da ahead pos)
                       (move_gen_init_pawns_entry WHITE da' ahead' pos))
                && holds_from 16 48 (fun pos =>
                     same (move_gen_init_pawns_entry WHITE da ahead pos)
                          (move_gen_init_pawns_entry WHITE da' ahead pos)))))) = true)
    by (vm_compute; reflexivity).
  pose proof (holds_below_spec 8 _
                (holds_below_spec 8 _
                   (holds_below_spec 2 _
                      (holds_below_spec 2 _ H da ltac:(lia)) da' ltac:(lia))
                   ahead ltac:(lia))
                ahead' ltac:(lia)) as Hchk.
  cbn beta in Hchk. apply andb_true_iff in Hchk. destruct Hchk as [H1 H2].
  split; intros Hpos; apply Hsame.
  - apply (holds_from_spec 8 _ 56 H1). lia.
  - apply (holds_from_spec 16 _ 48 H2). lia.
Qed.

(** * No built move is the end marker *)

Lemma land_mask_range (x m : Z) : 0 <= m -> 0 <= Z.land x m <= m.
Proof.
  intros Hm. apply Z.ldiff_le; [assumption|].
  apply Z.bits_inj'. intros n Hn.
  rewrite Z.ldiff_spec, Z.land_spec, Z.bits_0.
  destruct (Z.testbit x n), (Z.testbit m n); reflexivity.
Qed.

(** Whatever its arguments are, [construct_move] gives a value below
    [2 ^ 43]: every field is cut by its mask. *)
Lemma construct_move_range (f src dst ip pp ic cp cpos cas : Z) :
  0 <= construct_move f src dst ip pp ic cp cpos cas < 2 ^ 43.
Proof.
  unfold construct_move.
  pose proof (land_mask_range (to_u64 (Z.land f 65535)) MOVE_FLAGS_PREV_FLAGS
                ltac:(unfold MOVE_FLAGS_PREV_FLAGS; lia)) as H0.
  pose proof (land_mask_range (shl64 (to_u64 src) MOVE_SHIFT_SRC) MOVE_FLAGS_SRC
                ltac:(unfold MOVE_FLAGS_SRC; lia)) as H1.
  pose proof (land_mask_range (shl64 (to_u64 dst) MOVE_SHIFT_DST) MOVE_FLAGS_DST
                ltac:(unfold MOVE_FLAGS_DST; lia)) as H2.
  assert (H3 : 0 <= shl64 (b2i (negb (ip =? 0))) MOVE_SHIFT_IS_PROMOTE <= 2 ^ 28).
  { pose proof (b2i_range (negb (ip =? 0))).
    rewrite shl64_small by (unfold MOVE_SHIFT_IS_PROMOTE; lia).
    unfold MOVE_SHIFT_IS_PROMOTE. lia. }
  pose proof (land_mask_range (shl64 (to_u64 pp) MOVE_SHIFT_PROMOTE_PIECE)
                MOVE_FLAGS_PROMOTE_PIECE
                ltac:(unfold MOVE_FLAGS_PROMOTE_PIECE; lia)) as H4.
  assert (H5 : 0 <= shl64 (b2i (negb (ic =? 0))) MOVE_SHIFT_IS_CAPTURE <= 2 ^ 32).
  { pose proof (b2i_range (negb (ic =? 0))).
    rewrite shl64_small by (unfold MOVE_SHIFT_IS_CAPTURE; lia).
    unfold MOVE_SHIFT_IS_CAPTURE. lia. }
  pose proof (land_mask_range (shl64 (to_u64 cp) MOVE_SHIFT_CAPTURE_PIECE)
                MOVE_FLAGS_CAPTURE_PIECE
                ltac:(unfold MOVE_FLAGS_CAPTURE_PIECE; lia)) as H6.
  pose proof (land_mask_range (shl64 (to_u64 cpos) MOVE_SHIFT_CAPTURE_SQUARE)
                MOVE_FLAGS_CAPTURE_SQUARE
                ltac:(unfold MOVE_FLAGS_CAPTURE_SQUARE; lia)) as H7.
  pose proof (land_mask_range (shl64 (b2i (negb (cas =? 0))) MOVE_SHIFTS_IS_CASTLE)
                MOVE_FLAGS_IS_CASTLE
                ltac:(unfold MOVE_FLAGS_IS_CASTLE; lia)) as H8.
  unfold MOVE_FLAGS_PREV_FLAGS, MOVE_FLAGS_SRC, MOVE_FLAGS_DST,
    MOVE_FLAGS_PROMOTE_PIECE, MOVE_FLAGS_CAPTURE_PIECE, MOVE_FLAGS_CAPTURE_SQUARE,
    MOVE_FLAGS_IS_CASTLE in *.
  change U64_MAX with (Z.ones 64). rewrite Z.land_ones by lia.
  change (2 ^ 28) with 268435456 in H3. change (2 ^ 32) with 4294967296 in H5.
  change (2 ^ 43) with 8796093022208.
  rewrite Z.mod_small; [lia|].
  change (2 ^ 64) with 18446744073709551616. lia.
Qed.

Lemma construct_move_not_end (f src dst ip pp ic cp cpos cas : Z) :
  construct_move f src dst ip pp ic cp cpos cas <> MOVE_END.
Proof.
  pose proof (construct_move_range f src dst ip pp ic cp cpos cas) as H.
  change (2 ^ 43) with 8796093022208 in H. unfold MOVE_END. lia.
Qed.

(** * When [move_new] gives the end marker *)





(** * The squares a castling king stands on and crosses *)

Lemma castle_path_safe_true (n : nat) (b : board) (x dir y opponent : Z) :
  castle_path_safe n b x dir y opponent = Ret true ->
  forall i, 0 <= i < Z.of_nat n ->
    board_is_square_attacked b (board_pos_from_xy (x + i * dir) y) opponent = Ret 0.
Proof.
  revert x. induction n as [|n IH]; intros x H i Hi; [lia|].
  cbn [castle_path_safe] in H. inv_bind H as a Ha.
  unfold truthy in H. destruct (Z.eqb_spec a 0) as [->|Na]; cbn [negb] in H;
    [|discriminate].
  destruct (Z.eq_dec i 0) as [->|Ni].
  - replace (x + 0 * dir) with x by lia. exact Ha.
  - replace (x + i * dir) with ((x + dir) + (i - 1) * dir) by lia.
    apply IH; [assumption | lia].
Qed.

Lemma move_gen_castle_inv
    (g : move_gen) (b : board) (player side undo_move m : Z) (b' : board) :
  move_gen_castle g b player side undo_move = Ret (m, b') ->
  (m = MOVE_END /\ b' = b)
  \/ (m <> MOVE_END
      /\ castle_path_safe 3 b 4 (castle_dir side) (home_rank player) (c_not player)
         = Ret true).
Proof.
  intros H. unfold move_gen_castle in H.
  inv_bind H as can Hcan.
  destruct (negb (truthy can)); [injection H as <- <-; auto|].
  cbv zeta in H.
  inv_bind H as pk Hpk. inv_bind H as u1 Hu1.
  inv_bind H as pr Hpr. inv_bind H as u2 Hu2.
  inv_bind H as ok Hok. inv_bind H as u3 Hu3.
  inv_bind H as orook Horook. inv_bind H as u4 Hu4.
  inv_bind H as clear Hclear.
  destruct clear; cbn [negb] in H; [|injection H as <- <-; auto].
  inv_bind H as safe Hsafe.
  assert (E4 : board_pos_to_x (board_pos_from_xy 4 (if player =? WHITE then 0 else 7)) = 4).
  { destruct (player =? WHITE); reflexivity. }
  rewrite E4 in Hsafe.
  destruct safe; cbn [negb] in H; [|injection H as <- <-; auto].
  right. split; [|exact Hsafe].
  destruct (negb (truthy undo_move)).
  - inv_bind H as b1 Hb1. inv_bind H as chk Hchk. inv_bind H as u5 Hu5.
    injection H as <- <-. apply construct_move_not_end.
  - injection H as <- <-. apply construct_move_not_end.
Qed.

Lemma move_gen_castle_squares
    (g : move_gen) (b : board) (player side undo_move m : Z) (b' : board) :
  move_gen_castle g b player side undo_move = Ret (m, b') ->
  (m <> MOVE_END ->
   forall i, 0 <= i <= 2 ->
     board_is_square_attacked b (castle_square player side i) (c_not player) = Ret 0)
  /\ (forall i a, 0 <= i <= 2 ->
        board_is_square_attacked b (castle_square player side i) (c_not player) = Ret a ->
        a <> 0 -> m = MOVE_END /\ b' = b).
Proof.
  intros H. destruct (move_gen_castle_inv _ _ _ _ _ _ _ H) as [[-> ->]|[Hne Hsafe]].
  - split; [intros N; contradiction | auto].
  - assert (Hall : forall i, 0 <= i <= 2 ->
              board_is_square_attacked b (castle_square player side i) (c_not player)
              = Ret 0).
    { intros i Hi. unfold castle_square.
      apply (castle_path_safe_true 3 b 4 _ _ _ Hsafe i). lia. }
    split; [intros _; exact Hall|].
    intros i a Hi Ha Na. rewrite (Hall i Hi) in Ha. injection Ha as <-. contradiction.
Qed.

(** * Running a body with tail calls: invariants *)

Lemma tail_loop_inv {R S : Type} (Inv : S -> Prop) (Post : R -> Prop)
    (body : S -> res (R + S)) :
  (forall s r, Inv s -> body s = Ret r ->
               match r with inl v => Post v | inr s' => Inv s' end) ->
  forall n s r, Inv s -> tail_loop n body s = Ret r ->
                match r with inl v => Post v | inr s' => Inv s' end.
Proof.
  intros Hstep. induction n as [|n IH]; intros s r Hs H.
  - exact (Hstep s r Hs H).
  - cbn [tail_loop] in H. inv_bind H as r0 Hr0.
    pose proof (IH s r0 Hs Hr0) as Hp. destruct r0 as [v|s'].
    + injection H as <-. exact Hp.
    + exact (IH s' r Hp H).
Qed.

Lemma tail_run_inv {R S : Type} (Inv : S -> Prop) (Post : R -> Prop)
    (body : S -> res (R + S)) :
  (forall s r, Inv s -> body s = Ret r ->
               match r with inl v => Post v | inr s' => Inv s' end) ->
  forall n s v, Inv s -> tail_run n body s = Ret v -> Post v.
Proof.
  intros Hstep n s v Hs H. unfold tail_run in H. inv_bind H as r Hr.
  pose proof (tail_loop_inv Inv Post body Hstep n s r Hs Hr) as Hp.
  destruct r as [v'|s']; [|discriminate]. injection H as <-. exact Hp.
Qed.

(** * [hit_move] and the verdict *)

Lemma move_gen_next_promote_frame (g : move_gen) :
  hit_move (move_gen_next_promote g) = hit_move g
  /\ cur_mode (move_gen_next_promote g) = cur_mode g.
Proof.
  unfold move_gen_next_promote.
  destruct (Z.land (cur_promotion g + 1) 255 >? QUEEN); split; reflexivity.
Qed.

Lemma from_cur_moves_frame (g : move_gen) (b : board) (m : Z) (g' : move_gen) :
  move_gen_next_from_cur_moves g b = Ret (m, g') ->
  m <> MOVE_END /\ hit_move g' = hit_move g /\ cur_mode g' = cur_mode g.
Proof.
  intros H. unfold move_gen_next_from_cur_moves in H.
  inv_bind H as u Hu. inv_bind H as dst Hdst. cbv zeta in H.
  inv_bind H as g1 Hg1.
  assert (Hf : hit_move g1 = hit_move g /\ cur_mode g1 = cur_mode g).
  { destruct (negb _ || _) in Hg1.
    - inv_bind Hg1 as m1 Hm1. injection Hg1 as <-. split; reflexivity.
    - injection Hg1 as <-. split; reflexivity. }
  inv_bind H as opp Hopp. inv_bind H as c Hc.
  inv_bind H as cap1 Hcap1. destruct cap1 as [[ic1 cp1] cpos1].
  inv_bind H as cap2 Hcap2. destruct cap2 as [[ic cp] cpos].
  injection H as <- <-.
  split; [apply construct_move_not_end|].
  destruct Hf as [Hf1 Hf2].
  match goal with
  | |- context [if ?c then move_gen_next_promote g1 else g1] => destruct c
  end.
  - destruct (move_gen_next_promote_frame g1) as [-> ->]. auto.
  - auto.
Qed.

Lemma move_gen_init_hit (P : board) (g : move_gen) :
  move_gen_init P = Ret g -> hit_move g = 0.
Proof.
  intros H. unfold move_gen_init in H.
  inv_bind H as os Hos. inv_bind H as op Hop. inv_bind H as own Hown.
  injection H as <-. reflexivity.
Qed.

Lemma move_gen_next_body_hit (undo_moves : Z) (g : move_gen) (b : board)
    (r : Z * move_gen * board + move_gen * board) :
  move_gen_next_body undo_moves (g, b) = Ret r ->
  match r with
  | inl v => call_outcome (hit_move g) v
  | inr s' => hit_move (fst s') = hit_move g
  end.
Proof.
  intros H. unfold move_gen_next_body in H.
  inv_bind H as u Hu. inv_bind H as pm Hpm.
  destruct (Z.eqb_spec (cur_mode g) MOVE_GEN_MODE_END) as [Eend|_].
  { unfold truthy in H. destruct (Z.eqb_spec (hit_move g) 0) as [E0|N0]; cbn [negb] in H.
    - inv_bind H as chk Hchk.
      assert (Hr : r = inl (MOVE_END,
                            set_done g (if truthy chk then MOVE_DONE_CHECKMATE
                                        else MOVE_DONE_STALEMATE), b)).
      { unfold truthy. destruct (negb (chk =? 0)); injection H as <-; reflexivity. }
      subst r. cbn. right. split; [reflexivity|]. split; [reflexivity|].
      split; [exact Eend|]. right. split; [assumption|]. exists chk. auto.
    - injection H as <-. cbn. right. split; [reflexivity|]. split; [reflexivity|].
      split; [exact Eend|]. left. auto. }
  destruct (Z.eqb_spec (cur_mode g) MOVE_GEN_MODE_CASTLE_KING) as [_|_].
  { cbv zeta in H. inv_bind H as cb Hcb. destruct cb as [castle b1].
    destruct (Z.eqb_spec castle MOVE_END) as [E|N]; cbn [negb] in H;
      injection H as <-; cbn; [reflexivity|]. left. auto. }
  destruct (Z.eqb_spec (cur_mode g) MOVE_GEN_MODE_CASTLE_QUEEN) as [_|_].
  { cbv zeta in H. inv_bind H as cb Hcb. destruct cb as [castle b1].
    destruct (Z.eqb_spec castle MOVE_END) as [E|N]; cbn [negb] in H;
      injection H as <-; cbn; [reflexivity|]. left. auto. }
  destruct (Z.eqb_spec (cur_mode g) MOVE_GEN_MODE_NORMAL) as [_|_]; [|discriminate].
  destruct (truthy (cur_moves g)).
  - inv_bind H as mg Hmg. destruct mg as [next_move g1].
    destruct (from_cur_moves_frame _ _ _ _ Hmg) as (Hne & Hhit & _).
    inv_bind H as b1 Hb1. inv_bind H as chk Hchk.
    destruct (truthy chk).
    + inv_bind H as b2 Hb2. injection H as <-. exact Hhit.
    + inv_bind H as b2 Hb2. injection H as <-. cbn. left. auto.
  - inv_bind H as nxt Hnxt. destruct nxt as [[found piece_type] square].
    cbv zeta in H. destruct (negb found).
    + injection H as <-. reflexivity.
    + inv_bind H as mask Hmask. injection H as <-. reflexivity.
Qed.

Lemma move_gen_next_outcome (g : move_gen) (b : board) (undo_moves : Z)
    (v : Z * move_gen * board) :
  move_gen_next g b undo_moves = Ret v -> call_outcome (hit_move g) v.
Proof.
  intros H. unfold move_gen_next in H.
  apply (tail_run_inv (fun s => hit_move (fst s) = hit_move g)
                      (call_outcome (hit_move g))
                      (move_gen_next_body undo_moves)) in H; [exact H | | reflexivity].
  intros [g1 b1] r Hs Hr. cbn [fst] in Hs.
  pose proof (move_gen_next_body_hit undo_moves g1 b1 r Hr) as Hb.
  rewrite Hs in Hb. exact Hb.
Qed.

Lemma some_emitted_app (ms : list Z) (m : Z) :
  some_emitted (ms ++ [m]) = some_emitted ms || negb (m =? MOVE_END).
Proof.
  unfold some_emitted. rewrite existsb_app. cbn [existsb].
  rewrite orb_false_r. reflexivity.
Qed.

(** Along the calls, [hit_move] says whether one of them returned a move. *)
Lemma gen_calls_hit (P : board) (g : move_gen) (b : board) (ms : list Z) :
  gen_calls P g b ms -> hit_move g = if some_emitted ms then 1 else 0.
Proof.
  induction 1 as [g Hinit | g b ms undo_moves m g' b' Hcalls IH Hcall].
  - exact (move_gen_init_hit P g Hinit).
  - rewrite some_emitted_app.
    pose proof (move_gen_next_outcome g b undo_moves (m, g', b') Hcall) as Ho.
    cbn in Ho. destruct Ho as [[Hne Hhit]|(-> & Hhit & _)].
    + destruct (Z.eqb_spec m MOVE_END); [contradiction|].
      cbn [negb]. rewrite orb_true_r. exact Hhit.
    + rewrite Z.eqb_refl. cbn [negb]. rewrite orb_false_r, Hhit. exact IH.
Qed.

Lemma verdict_read_back (g : move_gen) :
  (done g = MOVE_DONE_NORMAL ->
   move_gen_is_checkmate g = Ret 0 /\ move_gen_is_stalemate g = Ret 0)
  /\ (done g = MOVE_DONE_CHECKMATE ->
      move_gen_is_checkmate g = Ret 1 /\ move_gen_is_stalemate g = Ret 0)
  /\ (done g = MOVE_DONE_STALEMATE ->
      move_gen_is_checkmate g = Ret 0 /\ move_gen_is_stalemate g = Ret 1).
Proof.
  unfold move_gen_is_checkmate, move_gen_is_stalemate.
  repeat split; rewrite H; reflexivity.
Qed.

(** The verdict a call that returns [MOVE_END] leaves, from the moves the
    calls before it returned. *)
Lemma gen_calls_verdict (P : board) (g : move_gen) (b : board) (ms : list Z)
    (undo_moves : Z) (g' : move_gen) (b' : board) :
  gen_calls P g b ms ->
  move_gen_next g b undo_moves = Ret (MOVE_END, g', b') ->
  cur_mode g' = MOVE_GEN_MODE_END
  /\ (some_emitted ms = true -> done g' = MOVE_DONE_NORMAL)
  /\ (some_emitted ms = false ->
      exists chk,
        board_player_in_check b' (board_player_to_move b') = Ret chk
        /\ (chk <> 0 -> done g' = MOVE_DONE_CHECKMATE)
        /\ (chk = 0 -> done g' = MOVE_DONE_STALEMATE)).
Proof.
  intros Hcalls Hcall.
  pose proof (gen_calls_hit P g b ms Hcalls) as Hhit.
  pose proof (move_gen_next_outcome g b undo_moves _ Hcall) as Ho.
  cbn in Ho. destruct Ho as [[Hne _]|(_ & _ & Hmode & Hv)]; [contradiction|].
  split; [exact Hmode|].
  destruct (some_emitted ms).
  - split; [|discriminate]. intros _.
    destruct Hv as [[_ Hd]|[H0 _]]; [exact Hd | lia].
  - split; [discriminate|]. intros _.
    destruct Hv as [[N0 _]|[_ (chk & Hchk & Hd)]]; [lia|].
    exists chk. split; [exact Hchk|]. unfold truthy in Hd.
    destruct (Z.eqb_spec chk 0) as [E|N]; cbn [negb] in Hd.
    + split; [intros; contradiction | intros _; exact Hd].
    + split; [intros _; exact Hd | intros; contradiction].
Qed.

(** The client loop: the moves it collects are the values the calls
    returned before the one that returned [MOVE_END]. *)
Lemma collect_moves_calls (P : board) (n : nat) (g : move_gen) (b : board)
    (hist ms : list Z) (g' : move_gen) (b' : board) :
  gen_calls P g b hist ->
  collect_moves n g b = Ret (ms, g', b') ->
  Forall (fun m => m <> MOVE_END) ms
  /\ exists g0 b0,
       gen_calls P g0 b0 (hist ++ ms)
       /\ move_gen_next g0 b0 1 = Ret (MOVE_END, g', b').
Proof.
  revert g b hist ms g' b'. induction n as [|n IH]; intros g b hist ms g' b' Hc H;
    [discriminate|].
  cbn [collect_moves] in H. inv_bind H as r Hr. destruct r as [[m g1] b1].
  destruct (Z.eqb_spec m MOVE_END) as [->|Nm].
  - injection H as <- <- <-. split; [constructor|].
    exists g, b. rewrite app_nil_r. auto.
  - inv_bind H as r2 Hr2. destruct r2 as [[ms2 g2] b2]. injection H as <- <- <-.
    assert (Hc1 : gen_calls P g1 b1 (hist ++ [m])).
    { exact (calls_more P g b hist 1 m g1 b1 Hc Hr). }
    destruct (IH g1 b1 (hist ++ [m]) ms2 g2 b2 Hc1 Hr2) as (Hall & g0 & b0 & Hc0 & Hend).
    split; [constructor; assumption|].
    exists g0, b0. rewrite <- app_assoc in Hc0. auto.
Qed.

Lemma some_emitted_moves (ms : list Z) :
  Forall (fun m => m <> MOVE_END) ms ->
  some_emitted ms = match ms with [] => false | _ => true end.
Proof.
  intros H. destruct H as [|m ms Hm _]; [reflexivity|].
  unfold some_emitted. cbn [existsb].
  destruct (Z.eqb_spec m MOVE_END); [contradiction | reflexivity].
Qed.

Lemma generate_moves_verdict (P : board) (ms : list Z) (g : move_gen) (b' : board) :
  generate_moves P = Ret (ms, g, b') ->
  Forall (fun m => m <> MOVE_END) ms
  /\ cur_mode g = MOVE_GEN_MODE_END
  /\ (ms <> [] -> done g = MOVE_DONE_NORMAL)
  /\ (ms = [] ->
      exists chk,
        board_player_in_check b' (board_player_to_move b') = Ret chk
        /\ (chk <> 0 -> done g = MOVE_DONE_CHECKMATE)
        /\ (chk = 0 -> done g = MOVE_DONE_STALEMATE)).
Proof.
  intros H. unfold generate_moves in H. inv_bind H as g0 Hg0.
  destruct (collect_moves_calls P MAX_MOVES g0 P [] ms g b' (calls_none P g0 Hg0) H)
    as (Hall & g1 & b1 & Hc & Hend).
  cbn [app] in Hc.
  destruct (gen_calls_verdict P g1 b1 ms 1 g b' Hc Hend) as (Hmode & Hn & Hz).
  rewrite (some_emitted_moves ms Hall) in Hn, Hz.
  split; [assumption|]. split; [assumption|]. split.
  - intros N. apply Hn. destruct ms; [contradiction | reflexivity].
  - intros ->. apply Hz. reflexivity.
Qed.

(** * The moves a call emits from the loaded destinations *)

(** In the normal mode with destinations loaded, one activation of
    [move_gen_next] builds its move with [move_gen_next_from_cur_moves]: it
    emits this move, or drops it (the mover's king would be in check) and
    goes on with the generator that function left. *)
Lemma normal_body_from_cur_moves (undo_moves : Z) (g : move_gen) (b : board)
    (r : Z * move_gen * board + move_gen * board) :
  cur_mode g = MOVE_GEN_MODE_NORMAL -> cur_moves g <> 0 ->
  move_gen_next_body undo_moves (g, b) = Ret r ->
  exists m g1,
    move_gen_next_from_cur_moves g b = Ret (m, g1)
    /\ match r with
       | inl (m', g2, _) => m' = m /\ g2 = set_hit_move g1 1
       | inr (g2, _) => g2 = g1
       end.
Proof.
  intros Hmode Hnz H. unfold move_gen_next_body in H.
  inv_bind H as u Hu. inv_bind H as pm Hpm.
  rewrite Hmode in H.
  change (MOVE_GEN_MODE_NORMAL =? MOVE_GEN_MODE_END) with false in H.
  change (MOVE_GEN_MODE_NORMAL =? MOVE_GEN_MODE_CASTLE_KING) with false in H.
  change (MOVE_GEN_MODE_NORMAL =? MOVE_GEN_MODE_CASTLE_QUEEN) with false in H.
  change (MOVE_GEN_MODE_NORMAL =? MOVE_GEN_MODE_NORMAL) with true in H.
  cbv iota in H.
  unfold truthy in H. destruct (Z.eqb_spec (cur_moves g) 0) as [|_]; [contradiction|].
  cbn [negb] in H.
  inv_bind H as mg Hmg. destruct mg as [m g1]. exists m, g1.
  split; [exact Hmg|].
  inv_bind H as b1 Hb1. inv_bind H as chk Hchk.
  destruct (negb (chk =? 0)).
  - inv_bind H as b2 Hb2. injection H as <-. reflexivity.
  - inv_bind H as b2 Hb2. injection H as <-. auto.
Qed.

(** * The promotion order (C3) *)

Lemma capture_promotion_typed : board_typed capture_promotion_board.
Proof. apply board_typedb_spec. vm_compute. reflexivity. Qed.

Lemma a7_cursor_inv : gen_inv capture_promotion_board a7_cursor.
Proof.
  constructor.
  - vm_compute. reflexivity.
  - vm_compute. reflexivity.
  - vm_compute. reflexivity.
  - cbn. unfold KNIGHT. lia.
  - intros _. constructor; cbn; unfold PAWN, u64; lia.
  - intros _ _. constructor.
    + vm_compute. reflexivity.
    + vm_compute. reflexivity.
    + intros n Hn Hb. destruct (Z_lt_le_dec n 64) as [Hlt|Hge].
      * pose proof (holds_below_spec 64
          (fun n => implb (Z.testbit (cur_moves a7_cursor) n)
                      (negb (tb (players capture_promotion_board)
                               (board_player_to_move capture_promotion_board) n)))
          ltac:(vm_compute; reflexivity) n ltac:(lia)) as H.
        cbn beta in H. rewrite Hb in H. cbn [implb] in H.
        apply negb_true_iff in H. exact H.
      * apply (tb_players_high capture_promotion_board capture_promotion_typed);
          [|assumption].
        apply in_players_to_move, capture_promotion_typed.
    + intros _ n Hn Hb. exists 216172782113783808.
      split; [vm_compute; reflexivity | exact Hb].
Qed.

(** One promotion built by [move_gen_next_from_cur_moves]. *)
Lemma promotion_step (P : board) (g : move_gen) (m : Z) (g' : move_gen) (dst : Z) :
  board_typed P -> gen_inv P g -> cur_mode g = MOVE_GEN_MODE_NORMAL ->
  move_gen_next_from_cur_moves g P = Ret (m, g') ->
  bitboard_scan_lsb (cur_moves g) = Ret dst ->
  (gen_inv P g' /\ cur_mode g' = MOVE_GEN_MODE_NORMAL
   /\ cur_square g' = cur_square g /\ cur_piece_type g' = cur_piece_type g)
  /\ move_source_square m = cur_square g
  /\ move_destination_square m = dst
  /\ if is_promote_at g dst
     then move_is_promotion m = 1
          /\ move_promotion_piece m = cur_promotion g
          /\ cur_promotion g'
             = (if cur_promotion g =? QUEEN then KNIGHT else cur_promotion g + 1)
          /\ (if cur_promotion g =? QUEEN
              then bitboard_clear_square (cur_moves g) dst = Ret (cur_moves g')
              else cur_moves g' = cur_moves g)
     else move_is_promotion m = 0
          /\ cur_promotion g' = cur_promotion g
          /\ bitboard_clear_square (cur_moves g) dst = Ret (cur_moves g').
Proof.
  intros Ht Hgi Hmode H Hlsb.
  destruct (from_cur_moves_spec P g m g' Ht Hgi Hmode H)
    as (dst' & Hshape & _ & _ & Hlsb' & _ & Hgi' & Hmode' & Hsq & Hpt & _ & _ & Hpromo).
  rewrite Hlsb in Hlsb'. injection Hlsb' as <-.
  split; [auto|].
  split; [apply (ms_src _ _ _ _ _ Hshape)|].
  split; [apply (ms_dst _ _ _ _ _ Hshape)|].
  cbv zeta in Hpromo. fold (is_promote_at g dst) in Hpromo.
  destruct Hpromo as (Hip & Hpp & Hnext & Hmoves).
  destruct (is_promote_at g dst).
  - split; [exact Hip|]. split; [apply Hpp; reflexivity|]. split; [exact Hnext|].
    cbn [andb] in Hmoves. destruct (cur_promotion g =? QUEEN); exact Hmoves.
  - split; [exact Hip|]. split; [exact Hnext|]. exact Hmoves.
Qed.

(** Four promotions in a row, from the knight on. *)
Lemma promotion_run (P : board) (g0 : move_gen) (dst : Z)
    (m1 m2 m3 m4 : Z) (g1 g2 g3 g4 : move_gen) :
  board_typed P -> gen_inv P g0 -> cur_mode g0 = MOVE_GEN_MODE_NORMAL ->
  bitboard_scan_lsb (cur_moves g0) = Ret dst ->
  is_promote_at g0 dst = true -> cur_promotion g0 = KNIGHT ->
  move_gen_next_from_cur_moves g0 P = Ret (m1, g1) ->
  move_gen_next_from_cur_moves g1 P = Ret (m2, g2) ->
  move_gen_next_from_cur_moves g2 P = Ret (m3, g3) ->
  move_gen_next_from_cur_moves g3 P = Ret (m4, g4) ->
  map move_is_promotion [m1; m2; m3; m4] = [1; 1; 1; 1]
  /\ map move_source_square [m1; m2; m3; m4]
     = [cur_square g0; cur_square g0; cur_square g0; cur_square g0]
  /\ map move_destination_square [m1; m2; m3; m4] = [dst; dst; dst; dst]
  /\ map move_promotion_piece [m1; m2; m3; m4] = [KNIGHT; ROOK; BISHOP; QUEEN]
  /\ cur_promotion g4 = KNIGHT
  /\ Z.testbit (cur_moves g4) dst = false.
Proof.
  intros Ht Hgi0 Hmode0 Hlsb0 Hip0 Hk H1 H2 H3 H4.
  assert (Hsame : forall g g', cur_piece_type g' = cur_piece_type g ->
                               is_promote_at g' dst = is_promote_at g dst).
  { intros g g' E. unfold is_promote_at. rewrite E. reflexivity. }
  destruct (promotion_step P g0 m1 g1 dst Ht Hgi0 Hmode0 H1 Hlsb0)
    as ((Hgi1 & Hmode1 & Hsq1 & Hpt1) & Hs1 & Hd1 & Hp1).
  rewrite Hip0, Hk in Hp1. change (KNIGHT =? QUEEN) with false in Hp1.
  destruct Hp1 as (Hi1 & Hpp1 & Hn1 & Hm1).
  assert (Hlsb1 : bitboard_scan_lsb (cur_moves g1) = Ret dst) by (rewrite Hm1; exact Hlsb0).
  assert (Hip1 : is_promote_at g1 dst = true) by (rewrite (Hsame g0 g1 Hpt1); exact Hip0).
  destruct (promotion_step P g1 m2 g2 dst Ht Hgi1 Hmode1 H2 Hlsb1)
    as ((Hgi2 & Hmode2 & Hsq2 & Hpt2) & Hs2 & Hd2 & Hp2).
  rewrite Hip1, Hn1 in Hp2. change (KNIGHT + 1 =? QUEEN) with false in Hp2.
  destruct Hp2 as (Hi2 & Hpp2 & Hn2 & Hm2).
  assert (Hlsb2 : bitboard_scan_lsb (cur_moves g2) = Ret dst) by (rewrite Hm2; exact Hlsb1).
  assert (Hip2 : is_promote_at g2 dst = true) by (rewrite (Hsame g1 g2 Hpt2); exact Hip1).
  destruct (promotion_step P g2 m3 g3 dst Ht Hgi2 Hmode2 H3 Hlsb2)
    as ((Hgi3 & Hmode3 & Hsq3 & Hpt3) & Hs3 & Hd3 & Hp3).
  rewrite Hip2, Hn2 in Hp3. change (KNIGHT + 1 + 1 =? QUEEN) with false in Hp3.
  destruct Hp3 as (Hi3 & Hpp3 & Hn3 & Hm3).
  assert (Hlsb3 : bitboard_scan_lsb (cur_moves g3) = Ret dst) by (rewrite Hm3; exact Hlsb2).
  assert (Hip3 : is_promote_at g3 dst = true) by (rewrite (Hsame g2 g3 Hpt3); exact Hip2).
  destruct (promotion_step P g3 m4 g4 dst Ht Hgi3 Hmode3 H4 Hlsb3)
    as ((Hgi4 & Hmode4 & Hsq4 & Hpt4) & Hs4 & Hd4 & Hp4).
  rewrite Hip3, Hn3 in Hp4. change (KNIGHT + 1 + 1 + 1 =? QUEEN) with true in Hp4.
  destruct Hp4 as (Hi4 & Hpp4 & Hn4 & Hm4).
  cbn [map].
  rewrite Hi1, Hi2, Hi3, Hi4, Hs1, Hs2, Hs3, Hs4, Hd1, Hd2, Hd3, Hd4.
  rewrite Hpp1, Hpp2, Hpp3, Hpp4, Hsq3, Hsq2, Hsq1.
  split; [reflexivity|]. split; [reflexivity|]. split; [reflexivity|].
  split; [reflexivity|]. split; [exact Hn4|].
  destruct (bitboard_scan_lsb_spec _ _ Hlsb3) as (Hd0 & _ & _).
  apply bitboard_clear_square_inv in Hm4. destruct Hm4 as [_ Hm4].
  rewrite Hm4. rewrite testbit_clrb by lia. rewrite Z.eqb_refl. reflexivity.
Qed.

(** C3, as the code has it.  From [8/P7/8/8/8/8/8/k6K w - - 0 1] the
    generator emits the three king moves and then, for the pawn on a7, the
    promotions a7a8n, a7a8r, a7a8b, a7a8q in this order; with a knight to
    capture on b8 the capturing promotions follow in the same order.  In
    general: the promotion piece of a generator starts at the knight;
    every move the generator emits from loaded destinations is the one
    [move_gen_next_from_cur_moves] builds; for a pawn whose lowest
    destination is on the first or last rank that function builds the
    promotion to the piece in [cur_promotion], capture or not, steps
    [cur_promotion] knight, rook, bishop, queen, knight, and keeps the
    destination loaded until the queen has been built, so that four calls
    in a row build the promotions to knight, rook, bishop and queen; any
    other move is no promotion and leaves [cur_promotion] as it is.  The
    letters of the four pieces are n, r, b, q. *)
Theorem promotion_order :
  moves_of_fen promotion_fen
  = Ret (["h1g1"; "h1g2"; "h1h2"; "a7a8n"; "a7a8r"; "a7a8b"; "a7a8q"]%string,
         MOVE_DONE_NORMAL)
  /\ moves_of_fen capture_promotion_fen
     = Ret (["h1g1"; "h1g2"; "h1h2"; "a7a8n"; "a7a8r"; "a7a8b"; "a7a8q";
             "a7b8n"; "a7b8r"; "a7b8b"; "a7b8q"]%string, MOVE_DONE_NORMAL)
  /\ (forall b g, move_gen_init b = Ret g -> cur_promotion g = KNIGHT)
  /\ (forall g,
        (cur_promotion g = KNIGHT -> cur_promotion (move_gen_next_promote g) = ROOK)
        /\ (cur_promotion g = ROOK -> cur_promotion (move_gen_next_promote g) = BISHOP)
        /\ (cur_promotion g = BISHOP -> cur_promotion (move_gen_next_promote g) = QUEEN)
        /\ (cur_promotion g = QUEEN -> cur_promotion (move_gen_next_promote g) = KNIGHT))
  /\ (forall undo_moves g b r,
        cur_mode g = MOVE_GEN_MODE_NORMAL -> cur_moves g <> 0 ->
        move_gen_next_body undo_moves (g, b) = Ret r ->
        exists m g1,
          move_gen_next_from_cur_moves g b = Ret (m, g1)
          /\ match r with
             | inl (m', g2, _) => m' = m /\ g2 = set_hit_move g1 1
             | inr (g2, _) => g2 = g1
             end)
  /\ (forall P g m g' dst,
        board_typed P -> gen_inv P g -> cur_mode g = MOVE_GEN_MODE_NORMAL ->
        move_gen_next_from_cur_moves g P = Ret (m, g') ->
        bitboard_scan_lsb (cur_moves g) = Ret dst ->
        move_source_square m = cur_square g
        /\ move_destination_square m = dst
        /\ if is_promote_at g dst
           then move_is_promotion m = 1
                /\ move_promotion_piece m = cur_promotion g
                /\ cur_promotion g'
                   = (if cur_promotion g =? QUEEN then KNIGHT else cur_promotion g + 1)
                /\ (if cur_promotion g =? QUEEN
                    then bitboard_clear_square (cur_moves g) dst = Ret (cur_moves g')
                    else cur_moves g' = cur_moves g)
           else move_is_promotion m = 0
                /\ cur_promotion g' = cur_promotion g
                /\ bitboard_clear_square (cur_moves g) dst = Ret (cur_moves g'))
  /\ (forall P g0 dst m1 m2 m3 m4 g1 g2 g3 g4,
        board_typed P -> gen_inv P g0 -> cur_mode g0 = MOVE_GEN_MODE_NORMAL ->
        bitboard_scan_lsb (cur_moves g0) = Ret dst ->
        is_promote_at g0 dst = true -> cur_promotion g0 = KNIGHT ->
        move_gen_next_from_cur_moves g0 P = Ret (m1, g1) ->
        move_gen_next_from_cur_moves g1 P = Ret (m2, g2) ->
        move_gen_next_from_cur_moves g2 P = Ret (m3, g3) ->
        move_gen_next_from_cur_moves g3 P = Ret (m4, g4) ->
        map move_is_promotion [m1; m2; m3; m4] = [1; 1; 1; 1]
        /\ map move_source_square [m1; m2; m3; m4]
           = [cur_square g0; cur_square g0; cur_square g0; cur_square g0]
        /\ map move_destination_square [m1; m2; m3; m4] = [dst; dst; dst; dst]
        /\ map move_promotion_piece [m1; m2; m3; m4] = [KNIGHT; ROOK; BISHOP; QUEEN]
        /\ cur_promotion g4 = KNIGHT
        /\ Z.testbit (cur_moves g4) dst = false)
  /\ map (fun k => nth (Z.to_nat k) promote_codes 0) [KNIGHT; ROOK; BISHOP; QUEEN]
     = [code "n"; code "r"; code "b"; code "q"].
Proof.
  split; [vm_compute; reflexivity|].
  split; [vm_compute; reflexivity|].
  split.
  { intros b g H. unfold move_gen_init in H.
    inv_bind H as os Hos. inv_bind H as op Hop. inv_bind H as own Hown.
    injection H as <-. reflexivity. }
  split.
  { intros g. unfold move_gen_next_promote.
    repeat split; intros ->; reflexivity. }
  split; [exact normal_body_from_cur_moves|].
  split.
  { intros P g m g' dst Ht Hgi Hmode H Hlsb.
    destruct (promotion_step P g m g' dst Ht Hgi Hmode H Hlsb) as (_ & Hr).
    exact Hr. }
  split; [exact promotion_run | reflexivity].
Qed.

(** On the position with a knight to capture on b8, the generator with the
    destinations a8 and b8 of the pawn a7 loaded builds the four promotions
    on a8 and then, from the knight again, the four capturing promotions on
    b8. *)
Lemma promotion_order_witness :
  exists m1 g1 m2 g2 m3 g3 m4 g4 n1 h1 n2 h2 n3 h3 n4 h4,
    (move_gen_next_from_cur_moves a7_cursor capture_promotion_board = Ret (m1, g1)
     /\ move_gen_next_from_cur_moves g1 capture_promotion_board = Ret (m2, g2)
     /\ move_gen_next_from_cur_moves g2 capture_promotion_board = Ret (m3, g3)
     /\ move_gen_next_from_cur_moves g3 capture_promotion_board = Ret (m4, g4)
     /\ move_gen_next_from_cur_moves g4 capture_promotion_board = Ret (n1, h1)
     /\ move_gen_next_from_cur_moves h1 capture_promotion_board = Ret (n2, h2)
     /\ move_gen_next_from_cur_moves h2 capture_promotion_board = Ret (n3, h3)
     /\ move_gen_next_from_cur_moves h3 capture_promotion_board = Ret (n4, h4))
    /\ map move_destination_square [m1; m2; m3; m4; n1; n2; n3; n4]
       = [56; 56; 56; 56; 57; 57; 57; 57]
    /\ map move_is_capture [m1; m2; m3; m4; n1; n2; n3; n4] = [0; 0; 0; 0; 1; 1; 1; 1]
    /\ map move_promotion_piece [m1; m2; m3; m4]
       = [KNIGHT; ROOK; BISHOP; QUEEN]
    /\ map move_promotion_piece [n1; n2; n3; n4]
       = [KNIGHT; ROOK; BISHOP; QUEEN]
    /\ Z.testbit (cur_moves g4) 56 = false
    /\ Z.testbit (cur_moves h4) 57 = false.
Proof.
  assert (H : exists m1 g1 m2 g2 m3 g3 m4 g4 n1 h1 n2 h2 n3 h3 n4 h4,
     (move_gen_next_from_cur_moves a7_cursor capture_promotion_board = Ret (m1, g1)
      /\ move_gen_next_from_cur_moves g1 capture_promotion_board = Ret (m2, g2)
      /\ move_gen_next_from_cur_moves g2 capture_promotion_board = Ret (m3, g3)
      /\ move_gen_next_from_cur_moves g3 capture_promotion_board = Ret (m4, g4)
      /\ move_gen_next_from_cur_moves g4 capture_promotion_board = Ret (n1, h1)
      /\ move_gen_next_from_cur_moves h1 capture_promotion_board = Ret (n2, h2)
      /\ move_gen_next_from_cur_moves h2 capture_promotion_board = Ret (n3, h3)
      /\ move_gen_next_from_cur_moves h3 capture_promotion_board = Ret (n4, h4))
     /\ (bitboard_scan_lsb (cur_moves a7_cursor) = Ret 56
         /\ bitboard_scan_lsb (cur_moves g4) = Ret 57
         /\ gen_inv capture_promotion_board g4
         /\ map move_destination_square [m1; m2; m3; m4; n1; n2; n3; n4]
            = [56; 56; 56; 56; 57; 57; 57; 57]
         /\ map move_is_capture [m1; m2; m3; m4; n1; n2; n3; n4]
            = [0; 0; 0; 0; 1; 1; 1; 1])).
  { eexists _, _, _, _, _, _, _, _, _, _, _, _, _, _, _, _.
    split.
    { split; [vm_compute; reflexivity|]. split; [vm_compute; reflexivity|].
      split; [vm_compute; reflexivity|]. split; [vm_compute; reflexivity|].
      split; [vm_compute; reflexivity|]. split; [vm_compute; reflexivity|].
      split; [vm_compute; reflexivity|]. vm_compute; reflexivity. }
    split; [vm_compute; reflexivity|]. split; [vm_compute; reflexivity|].
    split.
    { constructor.
      - vm_compute. reflexivity.
      - vm_compute. reflexivity.
      - vm_compute. reflexivity.
      - cbn. unfold KNIGHT. lia.
      - intros _. constructor; cbn; unfold PAWN, u64; lia.
      - intros _ _. constructor.
        + vm_compute. reflexivity.
        + vm_compute. reflexivity.
        + intros n Hn Hb. destruct (Z_lt_le_dec n 64) as [Hlt|Hge].
          * match type of Hb with
            | Z.testbit ?cm n = true =>
                pose proof (holds_below_spec 64
                  (fun n => implb (Z.testbit cm n)
                              (negb (tb (players capture_promotion_board)
                                       (board_player_to_move capture_promotion_board) n)))
                  ltac:(vm_compute; reflexivity) n ltac:(lia)) as H
            end.
            cbn beta in H. rewrite Hb in H. cbn [implb] in H.
            apply negb_true_iff in H. exact H.
          * apply (tb_players_high capture_promotion_board capture_promotion_typed);
              [|assumption].
            apply in_players_to_move, capture_promotion_typed.
        + intros _ n Hn Hb. exists 216172782113783808.
          split; [vm_compute; reflexivity|].
          destruct (Z_lt_le_dec n 64) as [Hlt|Hge].
          * match type of Hb with
            | Z.testbit ?cm n = true =>
                pose proof (holds_below_spec 64
                  (fun n => implb (Z.testbit cm n) (Z.testbit 216172782113783808 n))
                  ltac:(vm_compute; reflexivity) n ltac:(lia)) as H
            end.
            cbn beta in H. rewrite Hb in H. exact H.
          * exfalso.
            match type of Hb with
            | Z.testbit ?cm n = true =>
                assert (Hu : u64 cm) by (unfold u64; cbn; lia)
            end.
            rewrite (u64_testbit_high _ n Hu) in Hb by lia. discriminate. }
    split; [vm_compute; reflexivity | vm_compute; reflexivity]. }
  destruct H as (m1 & g1 & m2 & g2 & m3 & g3 & m4 & g4 & n1 & h1 & n2 & h2 & n3 & h3
                 & n4 & h4 & Hcalls & Hl0 & Hl4 & Hgi4 & Hdst & Hcap).
  destruct Hcalls as (C1 & C2 & C3 & C4 & D1 & D2 & D3 & D4).
  destruct promotion_order as (_ & _ & Hinit & _ & _ & Hstep & Hrun & _).
  destruct (Hrun capture_promotion_board a7_cursor 56 m1 m2 m3 m4 g1 g2 g3 g4
              capture_promotion_typed a7_cursor_inv eq_refl Hl0 eq_refl eq_refl
              C1 C2 C3 C4) as (_ & _ & _ & Hp1 & Hk4 & Hb4).
  assert (Hmode4 : cur_mode g4 = MOVE_GEN_MODE_NORMAL /\ cur_piece_type g4 = PAWN).
  { destruct (from_cur_moves_spec _ _ _ _ capture_promotion_typed a7_cursor_inv eq_refl C1)
      as (_ & _ & _ & _ & _ & _ & Hg1 & Hm1 & _ & Ht1 & _).
    destruct (from_cur_moves_spec _ _ _ _ capture_promotion_typed Hg1 Hm1 C2)
      as (_ & _ & _ & _ & _ & _ & Hg2 & Hm2 & _ & Ht2 & _).
    destruct (from_cur_moves_spec _ _ _ _ capture_promotion_typed Hg2 Hm2 C3)
      as (_ & _ & _ & _ & _ & _ & Hg3 & Hm3 & _ & Ht3 & _).
    destruct (from_cur_moves_spec _ _ _ _ capture_promotion_typed Hg3 Hm3 C4)
      as (_ & _ & _ & _ & _ & _ & _ & Hm4 & _ & Ht4 & _).
    split; [exact Hm4|]. rewrite Ht4, Ht3, Ht2, Ht1. reflexivity. }
  destruct Hmode4 as [Hmode4 Hpt4].
  assert (Hip4 : is_promote_at g4 57 = true).
  { unfold is_promote_at. rewrite Hpt4. reflexivity. }
  destruct (Hrun capture_promotion_board g4 57 n1 n2 n3 n4 h1 h2 h3 h4
              capture_promotion_typed Hgi4 Hmode4 Hl4 Hip4 Hk4
              D1 D2 D3 D4) as (_ & _ & _ & Hp2 & _ & Hb8).
  exists m1, g1, m2, g2, m3, g3, m4, g4, n1, h1, n2, h2, n3, h3, n4, h4.
  split; [repeat (split; [assumption|]); assumption|].
  split; [exact Hdst|]. split; [exact Hcap|]. split; [exact Hp1|].
  split; [exact Hp2|]. split; [exact Hb4 | exact Hb8].
Defined.

(** The order the claim gives (knight, bishop, rook, queen) is not the
    order of emission. *)
Lemma promotion_order_counterexample :
  exists strs d,
    moves_of_fen promotion_fen = Ret (strs, d)
    /\ filter (fun s => String.prefix "a7" s) strs
       <> ["a7a8n"; "a7a8b"; "a7a8r"; "a7a8q"]%string.
Proof.
  eexists _, _. split; [vm_compute; reflexivity|].
  vm_compute. discriminate.
Qed.

(** * Castling and attacked squares (C5) *)

(** C5, as the code has it.  With the black rook on e2 the white king on
    e1 is attacked, and neither castle is emitted: the legal moves are
    e1d1, e1f1 and e1e2.  In general [move_gen_castle] tests three squares
    for attacks of the other player, the king's own square first, then the
    square the king crosses and its destination: a castle is returned only
    when none of the three is attacked, and when one of them is attacked
    the answer is [MOVE_END] with the board untouched.  With the rook on f2
    (f1 attacked) or g2 (g1 attacked) only the queenside castle is emitted,
    with the rook on d2 (d1 attacked) only the kingside castle, and with
    the rook on b2 (b1 attacked, which the king does not cross) both. *)
Theorem castling_out_of_check :
  moves_of_fen castle_fen = Ret (["e1d1"; "e1f1"; "e1e2"]%string, MOVE_DONE_NORMAL)
  /\ (exists b,
        board_from_fen_str castle_fen = Ret b
        /\ board_is_square_attacked b (board_pos_from_xy 4 0) BLACK
           = Ret (Z.shiftl 1 (board_pos_from_xy 4 1)))
  /\ (forall g b player side undo_move m b',
        move_gen_castle g b player side undo_move = Ret (m, b') ->
        (m <> MOVE_END ->
         forall i, 0 <= i <= 2 ->
           board_is_square_attacked b (castle_square player side i) (c_not player)
           = Ret 0)
        /\ (forall i a, 0 <= i <= 2 ->
              board_is_square_attacked b (castle_square player side i) (c_not player)
              = Ret a ->
              a <> 0 -> m = MOVE_END /\ b' = b))
  /\ (map (castle_square WHITE KING) [0; 1; 2]
      = [board_pos_from_xy 4 0; board_pos_from_xy 5 0; board_pos_from_xy 6 0]
      /\ map (castle_square WHITE QUEEN) [0; 1; 2]
         = [board_pos_from_xy 4 0; board_pos_from_xy 3 0; board_pos_from_xy 2 0]
      /\ map (castle_square BLACK KING) [0; 1; 2]
         = [board_pos_from_xy 4 7; board_pos_from_xy 5 7; board_pos_from_xy 6 7]
      /\ map (castle_square BLACK QUEEN) [0; 1; 2]
         = [board_pos_from_xy 4 7; board_pos_from_xy 3 7; board_pos_from_xy 2 7])
  /\ (castles_of_fen rook_f2_fen = Ret ["e1c1"%string]
      /\ castles_of_fen rook_g2_fen = Ret ["e1c1"%string]
      /\ castles_of_fen rook_d2_fen = Ret ["e1g1"%string]
      /\ castles_of_fen rook_b2_fen = Ret ["e1g1"; "e1c1"]%string).
Proof.
  split; [vm_compute; reflexivity|].
  split.
  { eexists. split; [vm_compute; reflexivity | vm_compute; reflexivity]. }
  split.
  { intros g b player side undo_move m b' H.
    exact (move_gen_castle_squares g b player side undo_move m b' H). }
  split.
  { split; [reflexivity|]. split; [reflexivity|]. split; reflexivity. }
  split; [vm_compute; reflexivity|].
  split; [vm_compute; reflexivity|].
  split; [vm_compute; reflexivity | vm_compute; reflexivity].
Qed.

(** With the rook on f2 the king on e1 is not attacked but f1 is: the
    kingside castle is refused and the board left as it is; the queenside
    castle is given, and e1, d1 and c1 are not attacked. *)
Lemma castling_out_of_check_witness :
  board_from_fen_str rook_f2_fen = Ret rook_f2_board
  /\ move_gen_init rook_f2_board = Ret rook_f2_gen
  /\ board_is_square_attacked rook_f2_board (castle_square WHITE KING 0) (c_not WHITE)
     = Ret 0
  /\ (exists a,
        board_is_square_attacked rook_f2_board (castle_square WHITE KING 1) (c_not WHITE)
        = Ret a /\ a <> 0)
  /\ move_gen_castle rook_f2_gen rook_f2_board WHITE KING 1
     = Ret (MOVE_END, rook_f2_board)
  /\ (exists m,
        move_gen_castle rook_f2_gen rook_f2_board WHITE QUEEN 1
        = Ret (m, rook_f2_board)
        /\ m <> MOVE_END
        /\ forall i, 0 <= i <= 2 ->
             board_is_square_attacked rook_f2_board (castle_square WHITE QUEEN i)
               (c_not WHITE) = Ret 0).
Proof.
  assert (Ha : exists a,
             board_is_square_attacked rook_f2_board (castle_square WHITE KING 1)
               (c_not WHITE) = Ret a /\ (a =? 0) = false).
  { eexists. split; [vm_compute; reflexivity | vm_compute; reflexivity]. }
  assert (Hk : exists m b',
             move_gen_castle rook_f2_gen rook_f2_board WHITE KING 1 = Ret (m, b')).
  { eexists _, _. vm_compute. reflexivity. }
  assert (Hq : exists m,
             move_gen_castle rook_f2_gen rook_f2_board WHITE QUEEN 1
             = Ret (m, rook_f2_board) /\ (m =? MOVE_END) = false).
  { eexists. split; [vm_compute; reflexivity | vm_compute; reflexivity]. }
  destruct Ha as (a & Ha & Na). apply Z.eqb_neq in Na.
  destruct Hk as (mk & bk & Hk).
  destruct Hq as (mq & Hq & Nq). apply Z.eqb_neq in Nq.
  destruct castling_out_of_check as (_ & _ & Hrule & _).
  destruct (Hrule _ _ _ _ _ _ _ Hk) as [_ Hrej].
  destruct (Hrej 1 a ltac:(lia) Ha Na) as [-> ->].
  destruct (Hrule _ _ _ _ _ _ _ Hq) as [Hsafe _].
  split; [vm_compute; reflexivity|].
  split; [vm_compute; reflexivity|].
  split; [vm_compute; reflexivity|].
  split; [exists a; auto|].
  split; [exact Hk|].
  exists mq. split; [exact Hq|]. split; [exact Nq|]. exact (Hsafe Nq).
Defined.

Lemma castling_out_of_check_counterexample :
  exists strs d,
    moves_of_fen castle_fen = Ret (strs, d)
    /\ existsb (String.eqb "e1c1") strs = false.
Proof.
  eexists _, _. split; [vm_compute; reflexivity | vm_compute; reflexivity].
Qed.

(** * The verdict at the end of the enumeration (C9) *)

(** C9.  (1) In END mode [move_gen_next] returns [MOVE_END] and leaves the
    verdict in [done]: normal when [hit_move] is set, otherwise checkmate
    when the player to move is in check and stalemate when not;
    [move_gen_is_checkmate] and [move_gen_is_stalemate] read the verdict
    back.  (2) For a generator initialised on a position and advanced by
    calls of [move_gen_next], [hit_move] is set exactly when one of the
    calls returned a move.  (3) A call that returns [MOVE_END] leaves the
    generator in END mode with the verdict: normal when an earlier call
    returned a move; when none did, checkmate when the player to move is in
    check and stalemate when not.  (4) The same for the client loop
    [generate_moves]: the verdict is normal when the list of moves is not
    empty, and with no move it is checkmate or stalemate by the check test.
    (5) [7k/5Q2/6K1/8/8/8/8/8 b - - 0 1] has no legal move and is reported
    as stalemate, not as checkmate; the initial position has twenty moves
    and the verdict normal; the position after 1. f3 e5 2. g4 Qh4 has no
    move and is reported as checkmate. *)
Theorem end_mode_verdict :
  (forall (g : move_gen) (b : board) (undo_moves : Z),
      board_typed b -> board_invariants b = true ->
      cur_mode g = MOVE_GEN_MODE_END ->
      (hit_move g <> 0 ->
       move_gen_next g b undo_moves = Ret (MOVE_END, set_done g MOVE_DONE_NORMAL, b))
      /\ (hit_move g = 0 ->
          forall chk, board_player_in_check b (board_player_to_move b) = Ret chk ->
            (chk <> 0 ->
             move_gen_next g b undo_moves
             = Ret (MOVE_END, set_done g MOVE_DONE_CHECKMATE, b)
             /\ move_gen_is_checkmate (set_done g MOVE_DONE_CHECKMATE) = Ret 1
             /\ move_gen_is_stalemate (set_done g MOVE_DONE_CHECKMATE) = Ret 0)
            /\ (chk = 0 ->
                move_gen_next g b undo_moves
                = Ret (MOVE_END, set_done g MOVE_DONE_STALEMATE, b)
                /\ move_gen_is_checkmate (set_done g MOVE_DONE_STALEMATE) = Ret 0
                /\ move_gen_is_stalemate (set_done g MOVE_DONE_STALEMATE) = Ret 1)))
  /\ (forall P g b ms,
        gen_calls P g b ms -> hit_move g = if some_emitted ms then 1 else 0)
  /\ (forall P g b ms undo_moves m g' b',
        gen_calls P g b ms ->
        move_gen_next g b undo_moves = Ret (m, g', b') ->
        (m <> MOVE_END -> hit_move g' = 1)
        /\ (m = MOVE_END ->
            cur_mode g' = MOVE_GEN_MODE_END
            /\ (some_emitted ms = true ->
                done g' = MOVE_DONE_NORMAL
                /\ move_gen_is_checkmate g' = Ret 0
                /\ move_gen_is_stalemate g' = Ret 0)
            /\ (some_emitted ms = false ->
                exists chk,
                  board_player_in_check b' (board_player_to_move b') = Ret chk
                  /\ (chk <> 0 ->
                      done g' = MOVE_DONE_CHECKMATE
                      /\ move_gen_is_checkmate g' = Ret 1
                      /\ move_gen_is_stalemate g' = Ret 0)
                  /\ (chk = 0 ->
                      done g' = MOVE_DONE_STALEMATE
                      /\ move_gen_is_checkmate g' = Ret 0
                      /\ move_gen_is_stalemate g' = Ret 1))))
  /\ (forall P ms g b',
        generate_moves P = Ret (ms, g, b') ->
        Forall (fun m => m <> MOVE_END) ms
        /\ cur_mode g = MOVE_GEN_MODE_END
        /\ (ms <> [] ->
            done g = MOVE_DONE_NORMAL
            /\ move_gen_is_checkmate g = Ret 0 /\ move_gen_is_stalemate g = Ret 0)
        /\ (ms = [] ->
            exists chk,
              board_player_in_check b' (board_player_to_move b') = Ret chk
              /\ (chk <> 0 ->
                  done g = MOVE_DONE_CHECKMATE
                  /\ move_gen_is_checkmate g = Ret 1 /\ move_gen_is_stalemate g = Ret 0)
              /\ (chk = 0 ->
                  done g = MOVE_DONE_STALEMATE
                  /\ move_gen_is_checkmate g = Ret 0
                  /\ move_gen_is_stalemate g = Ret 1)))
  /\ (exists b g,
        board_from_fen_str stalemate_fen = Ret b
        /\ board_player_in_check b (board_player_to_move b) = Ret 0
        /\ generate_moves b = Ret ([], g, b)
        /\ move_gen_is_stalemate g = Ret 1
        /\ move_gen_is_checkmate g = Ret 0)
  /\ (exists ms g,
        generate_moves initial_board = Ret (ms, g, initial_board)
        /\ length ms = 20%nat
        /\ done g = MOVE_DONE_NORMAL
        /\ move_gen_is_stalemate g = Ret 0
        /\ move_gen_is_checkmate g = Ret 0)
  /\ (exists b g chk,
        board_from_fen_str checkmate_fen = Ret b
        /\ board_player_in_check b (board_player_to_move b) = Ret chk
        /\ (chk =? 0) = false
        /\ generate_moves b = Ret ([], g, b)
        /\ move_gen_is_stalemate g = Ret 0
        /\ move_gen_is_checkmate g = Ret 1).
Proof.
  split.
  { intros g b undo_moves Ht Hinv Hmode.
    pose proof (end_mode_body g b undo_moves Ht Hinv Hmode) as Hbody.
    split.
    + intros Hhit. unfold move_gen_next. apply tail_run_inl.
      rewrite Hbody. unfold truthy.
      destruct (Z.eqb_spec (hit_move g) 0); [contradiction | reflexivity].
    + intros Hhit chk Hchk. rewrite Hhit, Hchk in Hbody.
      cbn [truthy Z.eqb negb bind] in Hbody.
      split; intros Hc.
      * split; [|split; reflexivity].
        unfold move_gen_next. apply tail_run_inl. rewrite Hbody.
        unfold truthy. destruct (Z.eqb_spec chk 0); [contradiction | reflexivity].
      * split; [|split; reflexivity].
        unfold move_gen_next. apply tail_run_inl. rewrite Hbody.
        rewrite Hc. reflexivity. }
  split; [exact gen_calls_hit|].
  split.
  { intros P g b ms undo_moves m g' b' Hcalls Hcall. split.
    - intros Hne.
      pose proof (move_gen_next_outcome g b undo_moves _ Hcall) as Ho.
      cbn in Ho. destruct Ho as [[_ Hh]|[E _]]; [exact Hh | contradiction].
    - intros ->.
      destruct (gen_calls_verdict P g b ms undo_moves g' b' Hcalls Hcall)
        as (Hmode & Hn & Hz).
      destruct (verdict_read_back g') as (Rn & Rc & Rs).
      split; [exact Hmode|]. split.
      + intros E. specialize (Hn E). destruct (Rn Hn). auto.
      + intros E. destruct (Hz E) as (chk & Hchk & Hc & Hs).
        exists chk. split; [exact Hchk|]. split.
        * intros N. specialize (Hc N). destruct (Rc Hc). auto.
        * intros Z0. specialize (Hs Z0). destruct (Rs Hs). auto. }
  split.
  { intros P ms g b' H.
    destruct (generate_moves_verdict P ms g b' H) as (Hall & Hmode & Hn & Hz).
    destruct (verdict_read_back g) as (Rn & Rc & Rs).
    split; [exact Hall|]. split; [exact Hmode|]. split.
    - intros N. specialize (Hn N). destruct (Rn Hn). auto.
    - intros E. destruct (Hz E) as (chk & Hchk & Hc & Hs).
      exists chk. split; [exact Hchk|]. split.
      + intros N. specialize (Hc N). destruct (Rc Hc). auto.
      + intros Z0. specialize (Hs Z0). destruct (Rs Hs). auto. }
  split.
  { eexists _, _. split; [vm_compute; reflexivity|].
    split; [vm_compute; reflexivity|].
    split; [vm_compute; reflexivity|].
    split; [vm_compute; reflexivity | vm_compute; reflexivity]. }
  split.
  { eexists _, _. split; [vm_compute; reflexivity|].
    split; [vm_compute; reflexivity|].
    split; [vm_compute; reflexivity|].
    split; [vm_compute; reflexivity | vm_compute; reflexivity]. }
  eexists _, _, _. split; [vm_compute; reflexivity|].
  split; [vm_compute; reflexivity|].
  split; [vm_compute; reflexivity|].
  split; [vm_compute; reflexivity|].
  split; [vm_compute; reflexivity | vm_compute; reflexivity].
Qed.

(** On the initial position: the first call returns a move and sets
    [hit_move]; the client loop collects moves, none of them [MOVE_END],
    and ends with the verdict normal. *)
Lemma end_mode_verdict_witness :
  (exists g m g' b',
     move_gen_init initial_board = Ret g
     /\ move_gen_next g initial_board 1 = Ret (m, g', b')
     /\ m <> MOVE_END /\ hit_move g = 0 /\ hit_move g' = 1)
  /\ (exists ms g,
        generate_moves initial_board = Ret (ms, g, initial_board)
        /\ ms <> []
        /\ Forall (fun m => m <> MOVE_END) ms
        /\ cur_mode g = MOVE_GEN_MODE_END
        /\ done g = MOVE_DONE_NORMAL
        /\ move_gen_is_checkmate g = Ret 0 /\ move_gen_is_stalemate g = Ret 0).
Proof.
  assert (H1 : exists g m g' b',
             move_gen_init initial_board = Ret g
             /\ move_gen_next g initial_board 1 = Ret (m, g', b')
             /\ (m =? MOVE_END) = false).
  { eexists _, _, _, _. split; [vm_compute; reflexivity|].
    split; [vm_compute; reflexivity | vm_compute; reflexivity]. }
  assert (H2 : exists ms g,
             generate_moves initial_board = Ret (ms, g, initial_board)
             /\ (length ms =? 20)%nat = true).
  { eexists _, _. split; [vm_compute; reflexivity | vm_compute; reflexivity]. }
  destruct end_mode_verdict as (_ & Hhit & Hcall & Hloop & _).
  split.
  - destruct H1 as (g & m & g' & b' & Hinit & Hnext & Hne). apply Z.eqb_neq in Hne.
    exists g, m, g', b'.
    pose proof (calls_none initial_board g Hinit) as Hc.
    split; [exact Hinit|]. split; [exact Hnext|]. split; [exact Hne|].
    split; [exact (Hhit _ _ _ _ Hc)|].
    destruct (Hcall _ _ _ _ _ _ _ _ Hc Hnext) as [Hset _]. exact (Hset Hne).
  - destruct H2 as (ms & g & Hgen & Hlen).
    assert (Hnil : ms <> []).
    { intros ->. discriminate Hlen. }
    destruct (Hloop _ _ _ _ Hgen) as (Hall & Hmode & Hn & _).
    destruct (Hn Hnil) as (Hd & Hc & Hs).
    exists ms, g. repeat (split; [assumption|]). assumption.
Defined.

(** * Move strings (C4) *)



